(** * Private AI companion: analysis-and-merge pipeline, prompt framing and
      response sanitizing

    A shallow embedding of [services/BackgroundAgent.ts],
    [services/LLMService.ts] and [services/SQLiteService.ts], and the
    properties the specification states about them.

    Text is modelled as [string] (a sequence of 8-bit characters).  The
    JavaScript notions of white space ([\s], [trim]) and of letter case
    ([toLowerCase], the [i] flag) are the ASCII ones: on text made of ASCII
    characters the model and the engine agree; characters above 127 are
    neither white space nor letters here. *)

From Stdlib Require Import Bool Arith List String Ascii ZArith QArith Lia.
From Stdlib Require Import Sorted.
Import ListNotations.
Local Close Scope Q_scope.
Local Open Scope string_scope.
Local Open Scope list_scope.
Local Open Scope nat_scope.

(** ** Exceptions *)

Inductive Error : Type :=
| TypeError
| SyntaxError
| DatabaseNotInitialized
| StoreFailure
| LLMNotInitialized
| EngineFailure.

(** The completion of a JavaScript evaluation: a value, or a thrown error. *)
Inductive Completion (A : Type) : Type :=
| Normal (a : A)
| Throw (e : Error).
Arguments Normal {A} a.
Arguments Throw {A} e.

(** ** JavaScript strings *)

Module JsString.

Definition nl : ascii := ascii_of_nat 10.
Definition dquote : ascii := ascii_of_nat 34.

(** [\s] and the characters [trim] strips: TAB, LF, VT, FF, CR and space. *)
Definition is_space (c : ascii) : bool :=
  let n := nat_of_ascii c in
  ((9 <=? n) && (n <=? 13)) || (n =? 32).

Definition lower_char (c : ascii) : ascii :=
  let n := nat_of_ascii c in
  if (65 <=? n) && (n <=? 90) then ascii_of_nat (n + 32) else c.

Fixpoint toLowerCase (s : string) : string :=
  match s with
  | EmptyString => EmptyString
  | String c r => String (lower_char c) (toLowerCase r)
  end.

(** [s.startsWith(p)] *)
Fixpoint startsWith (s p : string) {struct p} : bool :=
  match p, s with
  | EmptyString, _ => true
  | String _ _, EmptyString => false
  | String a p', String b s' => Ascii.eqb a b && startsWith s' p'
  end.

(** [s.includes(p)] *)
Fixpoint includes (s p : string) : bool :=
  startsWith s p ||
  match s with
  | EmptyString => false
  | String _ r => includes r p
  end.

Fixpoint drop (n : nat) (s : string) : string :=
  match n, s with
  | S k, String _ r => drop k r
  | _, _ => s
  end.

Fixpoint take (n : nat) (s : string) : string :=
  match n, s with
  | S k, String c r => String c (take k r)
  | _, _ => EmptyString
  end.

Fixpoint trimStart (s : string) : string :=
  match s with
  | String c r => if is_space c then trimStart r else s
  | EmptyString => EmptyString
  end.

Fixpoint trimEnd (s : string) : string :=
  match s with
  | EmptyString => EmptyString
  | String c r =>
      match trimEnd r with
      | EmptyString => if is_space c then EmptyString else String c EmptyString
      | r' => String c r'
      end
  end.

Definition trim (s : string) : string := trimEnd (trimStart s).

(** [s.slice(1, -1)] *)
Definition slice_1_m1 (s : string) : string :=
  take (String.length s - 2) (drop 1 s).

(** [s.split('\n')]: the lines of [s]; never empty. *)
Fixpoint split_lines (s : string) : list string :=
  match s with
  | EmptyString => [EmptyString]
  | String c r =>
      if Ascii.eqb c nl then EmptyString :: split_lines r
      else match split_lines r with
           | l :: ls => String c l :: ls
           | [] => [String c EmptyString]
           end
  end.

(** Truthiness of a string: the empty string is falsy. *)
Definition truthy (s : string) : bool :=
  match s with EmptyString => false | _ => true end.

(** *** Regular expressions

    A regular expression is modelled by its matcher: [m s] is the length of
    the match that starts at the first character of [s], if there is one.
    None of the expressions of the program matches the empty string. *)

Definition matcher : Type := string -> option nat.

(** [s.replace(/re/g, repl)]: the matches are found from left to right and
    do not overlap.  [skip] counts the characters of the current match that
    are still to be passed over. *)
Fixpoint replace_all_from (m : matcher) (repl : string) (skip : nat)
    (s : string) : string :=
  match s with
  | EmptyString => EmptyString
  | String c r =>
      match skip with
      | S k => replace_all_from m repl k r
      | O =>
          match m s with
          | Some (S k) => repl ++ replace_all_from m repl k r
          | _ => String c (replace_all_from m repl 0 r)
          end
      end
  end.

Definition replace_all (m : matcher) (repl s : string) : string :=
  replace_all_from m repl 0 s.

(** [s.replace(/re/, repl)]: only the leftmost match is replaced. *)
Fixpoint replace_first (m : matcher) (repl s : string) : string :=
  match s with
  | EmptyString => EmptyString
  | String c r =>
      match m s with
      | Some (S k) => repl ++ drop k r
      | _ => String c (replace_first m repl r)
      end
  end.

(** [s.match(/re/g)] as the list of the matched substrings ([null] is the
    empty list). *)
Fixpoint match_all_from (m : matcher) (skip : nat) (s : string)
  : list string :=
  match s with
  | EmptyString => []
  | String c r =>
      match skip with
      | S k => match_all_from m k r
      | O =>
          match m s with
          | Some (S k) => take (S k) s :: match_all_from m k r
          | _ => match_all_from m 0 r
          end
      end
  end.

Definition match_all (m : matcher) (s : string) : list string :=
  match_all_from m 0 s.

(** The position of the first occurrence of [p] (compared without case) in
    [s], counted from the start of [s]. *)
Fixpoint index_ci (p s : string) : option nat :=
  if startsWith (toLowerCase s) p then Some 0
  else match s with
       | EmptyString => None
       | String _ r => option_map S (index_ci p r)
       end.

(** A literal, case-sensitive. *)
Definition re_literal (lit : string) : matcher :=
  fun s => if startsWith s lit then Some (String.length lit) else None.

(** [/\s+/]: a maximal run of white space. *)
Fixpoint space_run (s : string) : nat :=
  match s with
  | String c r => if is_space c then S (space_run r) else 0
  | EmptyString => 0
  end.

Definition re_spaces : matcher :=
  fun s => match space_run s with O => None | n => Some n end.

End JsString.

(** ** [JSON.stringify] of strings and of arrays of strings *)

Module JsonText.
Import JsString.
Local Open Scope string_scope.

Definition hex_char (n : nat) : ascii :=
  if (n <? 10)%nat then ascii_of_nat (48 + n) else ascii_of_nat (87 + n).

Definition backslash : ascii := ascii_of_nat 92.

(** The text of one character inside a string literal: the quote and the
    backslash are escaped, the control characters have their short escape
    where there is one and a [\u00XX] escape otherwise, and every other
    character stands for itself. *)
Definition quote_char (c : ascii) : string :=
  let n := nat_of_ascii c in
  if (n =? 34)%nat then String backslash (String dquote "")
  else if (n =? 92)%nat then String backslash (String backslash "")
  else if (n =? 8)%nat then String backslash "b"
  else if (n =? 12)%nat then String backslash "f"
  else if (n =? 10)%nat then String backslash "n"
  else if (n =? 13)%nat then String backslash "r"
  else if (n =? 9)%nat then String backslash "t"
  else if (n <? 32)%nat then
    String backslash
      (String "u" (String "0" (String "0"
         (String (hex_char (n / 16)%nat) (String (hex_char (n mod 16)%nat) "")))))
  else String c "".

Fixpoint quote_chars (s : string) : string :=
  match s with
  | EmptyString => ""
  | String c r => quote_char c ++ quote_chars r
  end.

(** [JSON.stringify(s)] for a string [s] *)
Definition stringify_string (s : string) : string :=
  String dquote (quote_chars s ++ String dquote "").

Fixpoint join_comma (l : list string) : string :=
  match l with
  | [] => ""
  | [x] => x
  | x :: r => x ++ "," ++ join_comma r
  end.

(** [JSON.stringify(l)] for an array [l] of strings *)
Definition stringify_strings (l : list string) : string :=
  "[" ++ join_comma (map stringify_string l) ++ "]".

(** [JSON.stringify({ options: l })] *)
Definition stringify_options (l : list string) : string :=
  "{" ++ stringify_string "options" ++ ":" ++ stringify_strings l ++ "}".

End JsonText.

(** ** The record store ([services/SQLiteService.ts]) *)

Module SQLiteService.

Inductive Sender : Type := user | assistant.
Inductive CreatedBy : Type := by_user | by_vi.
Inductive Frequency : Type := daily | weekly | monthly.
Inductive Category : Type := values | goals | personality | facts.

Record UserProfile : Type := {
  u_id : Z;
  u_name : string;
  u_nickname : option string;
  u_role : option string;
  u_age_group : option string;
  u_gender : option string;
  u_traits_json : string;
  u_created_at : Z }.

Record Message : Type := {
  m_id : Z;
  m_content : string;
  m_sender : Sender;
  m_timestamp : Z;
  m_context_json : option string }.

Record Note : Type := {
  n_id : Z;
  n_title : string;
  n_body : string;
  n_created_by : CreatedBy;
  n_tags : option string;
  n_created_at : Z }.

Record List : Type := {
  l_id : Z;
  l_title : string;
  l_type : string;
  l_created_at : Z }.

Record ListItem : Type := {
  i_id : Z;
  i_list_id : Z;
  i_content : string;
  i_is_completed : bool;
  i_created_at : Z }.

Record Goal : Type := {
  g_id : Z;
  g_title : string;
  g_frequency : Frequency;
  g_streak_count : Z;
  g_last_completed_date : option Z;
  g_target_count : option Z;
  g_created_at : Z }.

Record MindmapNode : Type := {
  k_id : Z;
  k_label : string;
  k_category : Category;
  k_confidence_score : Q;
  k_linked_node_id : option Z;
  k_created_at : Z }.

(** The tables, each in insertion (rowid) order, and for the tables the
    pipeline inserts into the largest key handed out so far
    (AUTOINCREMENT). *)
Record Database : Type := {
  User : list UserProfile;
  Messages : list Message;
  Notes : list Note;
  Lists : list List;
  ListItems : list ListItem;
  Goals : list Goal;
  MindmapNodes : list MindmapNode;
  seq_Notes : Z;
  seq_Lists : Z;
  seq_ListItems : Z;
  seq_MindmapNodes : Z }.

(** What the environment decides at one call of the store: whether the
    statement is rejected, and the wall-clock time of the call. *)
Record Event : Type := {
  ev_fails : bool;
  ev_time : Z }.

(** The store as the service sees it: the data, whether [init] has opened
    the handle ([this.db]), the clock, and the events of the calls to come
    (once they are used up, calls succeed and the clock stands still). *)
Record World : Type := {
  db : Database;
  opened : bool;
  now : Z;
  schedule : list Event }.

(** An asynchronous store operation: it may throw, and it changes the
    world in either case. *)
Definition M (A : Type) : Type := World -> Completion A * World.

Definition ret {A : Type} (a : A) : M A := fun w => (Normal a, w).

Definition bind {A B : Type} (c : M A) (k : A -> M B) : M B :=
  fun w =>
    match c w with
    | (Normal a, w') => k a w'
    | (Throw e, w') => (Throw e, w')
    end.

Definition throw {A : Type} (e : Error) : M A := fun w => (Throw e, w).

(** One call of a method of the service: the guard on [this.db], then the
    statement [f], run at the time of the call unless it is rejected. *)
Definition db_call {A : Type} (f : Z -> Database -> A * Database) : M A :=
  fun w =>
    if negb (opened w) then (Throw DatabaseNotInitialized, w)
    else
      match schedule w with
      | [] =>
          let (a, d) := f (now w) (db w) in
          (Normal a,
           {| db := d; opened := opened w; now := now w; schedule := [] |})
      | ev :: rest =>
          if ev_fails ev then
            (Throw StoreFailure,
             {| db := db w; opened := opened w; now := ev_time ev;
                schedule := rest |})
          else
            let (a, d) := f (ev_time ev) (db w) in
            (Normal a,
             {| db := d; opened := opened w; now := ev_time ev;
                schedule := rest |})
      end.

(** ORDER BY: a stable insertion sort; rows with equal keys keep their
    rowid order. *)
Fixpoint insert_by {A : Type} (before : A -> A -> bool) (x : A) (l : list A)
  : list A :=
  match l with
  | [] => [x]
  | y :: l' => if before x y then x :: l else y :: insert_by before x l'
  end.

Definition order_by {A : Type} (before : A -> A -> bool) (l : list A)
  : list A :=
  fold_right (insert_by before) [] l.

Definition asc {A : Type} (key : A -> Z) (x y : A) : bool :=
  (key x <=? key y)%Z.
Definition desc {A : Type} (key : A -> Z) (x y : A) : bool :=
  (key y <=? key x)%Z.

Definition getAllMessages : M (list Message) :=
  db_call (fun _ d => (order_by (asc m_timestamp) (Messages d), d)).

Definition addNote (title body : string) (createdBy : CreatedBy)
    (tags : option string) : M Z :=
  db_call (fun t d =>
    let id := (seq_Notes d + 1)%Z in
    (id,
     {| User := User d; Messages := Messages d;
        Notes := Notes d ++
          [{| n_id := id; n_title := title; n_body := body;
              n_created_by := createdBy; n_tags := tags;
              n_created_at := t |}];
        Lists := Lists d; ListItems := ListItems d; Goals := Goals d;
        MindmapNodes := MindmapNodes d;
        seq_Notes := id; seq_Lists := seq_Lists d;
        seq_ListItems := seq_ListItems d;
        seq_MindmapNodes := seq_MindmapNodes d |})).

Definition createList (title type : string) : M Z :=
  db_call (fun t d =>
    let id := (seq_Lists d + 1)%Z in
    (id,
     {| User := User d; Messages := Messages d; Notes := Notes d;
        Lists := Lists d ++
          [{| l_id := id; l_title := title; l_type := type;
              l_created_at := t |}];
        ListItems := ListItems d; Goals := Goals d;
        MindmapNodes := MindmapNodes d;
        seq_Notes := seq_Notes d; seq_Lists := id;
        seq_ListItems := seq_ListItems d;
        seq_MindmapNodes := seq_MindmapNodes d |})).

Definition getAllLists : M (list List) :=
  db_call (fun _ d => (order_by (desc l_created_at) (Lists d), d)).

Definition addListItem (listId : Z) (content : string) : M Z :=
  db_call (fun t d =>
    let id := (seq_ListItems d + 1)%Z in
    (id,
     {| User := User d; Messages := Messages d; Notes := Notes d;
        Lists := Lists d;
        ListItems := ListItems d ++
          [{| i_id := id; i_list_id := listId; i_content := content;
              i_is_completed := false; i_created_at := t |}];
        Goals := Goals d; MindmapNodes := MindmapNodes d;
        seq_Notes := seq_Notes d; seq_Lists := seq_Lists d;
        seq_ListItems := id;
        seq_MindmapNodes := seq_MindmapNodes d |})).

Definition getListItems (listId : Z) : M (list ListItem) :=
  db_call (fun _ d =>
    (order_by (asc i_created_at)
       (filter (fun i => (i_list_id i =? listId)%Z) (ListItems d)), d)).

Definition getAllGoals : M (list Goal) :=
  db_call (fun _ d => (order_by (desc g_created_at) (Goals d), d)).

(** UPDATE Goals SET streak_count = streak_count + 1,
    last_completed_date = now WHERE id = goalId *)
Definition bump_streak (goalId t : Z) (g : Goal) : Goal :=
  if (g_id g =? goalId)%Z then
    {| g_id := g_id g; g_title := g_title g; g_frequency := g_frequency g;
       g_streak_count := (g_streak_count g + 1)%Z;
       g_last_completed_date := Some t;
       g_target_count := g_target_count g;
       g_created_at := g_created_at g |}
  else g.

Definition updateGoalStreak (goalId : Z) : M unit :=
  db_call (fun t d =>
    (tt,
     {| User := User d; Messages := Messages d; Notes := Notes d;
        Lists := Lists d; ListItems := ListItems d;
        Goals := map (bump_streak goalId t) (Goals d);
        MindmapNodes := MindmapNodes d;
        seq_Notes := seq_Notes d; seq_Lists := seq_Lists d;
        seq_ListItems := seq_ListItems d;
        seq_MindmapNodes := seq_MindmapNodes d |})).

Definition addMindmapNode (label : string) (category : Category)
    (confidenceScore : Q) (linkedNodeId : option Z) : M Z :=
  db_call (fun t d =>
    let id := (seq_MindmapNodes d + 1)%Z in
    (id,
     {| User := User d; Messages := Messages d; Notes := Notes d;
        Lists := Lists d; ListItems := ListItems d; Goals := Goals d;
        MindmapNodes := MindmapNodes d ++
          [{| k_id := id; k_label := label; k_category := category;
              k_confidence_score := confidenceScore;
              k_linked_node_id := linkedNodeId; k_created_at := t |}];
        seq_Notes := seq_Notes d; seq_Lists := seq_Lists d;
        seq_ListItems := seq_ListItems d;
        seq_MindmapNodes := id |})).

Definition getAllMindmapNodes : M (list MindmapNode) :=
  db_call (fun _ d => (order_by (asc k_created_at) (MindmapNodes d), d)).

(** *** The other methods of the service

    The tables User, Messages and Goals carry no counter above: the
    program never deletes a row, so the largest key handed out is the
    largest key in the table. *)

Definition next_key (ids : list Z) : Z := (fold_right Z.max 0 ids + 1)%Z.

(** [x || null] for a string and for a number *)
Definition or_null (x : option string) : option string :=
  match x with
  | Some s => if JsString.truthy s then Some s else None
  | None => None
  end.

Definition or_null_number (x : option Z) : option Z :=
  match x with
  | Some n => if (n =? 0)%Z then None else Some n
  | None => None
  end.

(** [init]: the handle is opened, then the seven tables are created if
    they do not exist; each of the eight steps may be rejected. *)
Definition open_database : M unit :=
  fun w =>
    match schedule w with
    | [] =>
        (Normal tt,
         {| db := db w; opened := true; now := now w; schedule := [] |})
    | ev :: rest =>
        if ev_fails ev then
          (Throw StoreFailure,
           {| db := db w; opened := opened w; now := ev_time ev;
              schedule := rest |})
        else
          (Normal tt,
           {| db := db w; opened := true; now := ev_time ev;
              schedule := rest |})
    end.

Definition create_table : M unit := db_call (fun _ d => (tt, d)).

Definition createTables : M unit :=
  bind create_table (fun _ =>
  bind create_table (fun _ =>
  bind create_table (fun _ =>
  bind create_table (fun _ =>
  bind create_table (fun _ =>
  bind create_table (fun _ =>
  create_table)))))).

Definition init : M unit := bind open_database (fun _ => createTables).

Record NewUser : Type := {
  nu_name : string;
  nu_nickname : option string;
  nu_role : option string;
  nu_age_group : option string;
  nu_gender : option string;
  nu_traits_json : string }.

Definition createUser (profile : NewUser) : M Z :=
  db_call (fun t d =>
    let id := next_key (map u_id (User d)) in
    (id,
     {| User := User d ++
          [{| u_id := id; u_name := nu_name profile;
              u_nickname := or_null (nu_nickname profile);
              u_role := or_null (nu_role profile);
              u_age_group := or_null (nu_age_group profile);
              u_gender := or_null (nu_gender profile);
              u_traits_json := nu_traits_json profile;
              u_created_at := t |}];
        Messages := Messages d; Notes := Notes d; Lists := Lists d;
        ListItems := ListItems d; Goals := Goals d;
        MindmapNodes := MindmapNodes d;
        seq_Notes := seq_Notes d; seq_Lists := seq_Lists d;
        seq_ListItems := seq_ListItems d;
        seq_MindmapNodes := seq_MindmapNodes d |})).

(** SELECT * FROM User LIMIT 1: the first row of the table. *)
Definition getUser : M (option UserProfile) :=
  db_call (fun _ d => (hd_error (User d), d)).

Definition set_traits (id : Z) (traits_json : string) (u : UserProfile)
  : UserProfile :=
  if (u_id u =? id)%Z then
    {| u_id := u_id u; u_name := u_name u; u_nickname := u_nickname u;
       u_role := u_role u; u_age_group := u_age_group u;
       u_gender := u_gender u; u_traits_json := traits_json;
       u_created_at := u_created_at u |}
  else u.

(** UPDATE User SET traits_json = ? WHERE id = (SELECT id FROM User
    LIMIT 1) *)
Definition updateUserTraits (traits : list string) : M unit :=
  db_call (fun _ d =>
    (tt,
     {| User :=
          match User d with
          | [] => []
          | first :: _ =>
              map (set_traits (u_id first)
                     (JsonText.stringify_strings traits)) (User d)
          end;
        Messages := Messages d; Notes := Notes d; Lists := Lists d;
        ListItems := ListItems d; Goals := Goals d;
        MindmapNodes := MindmapNodes d;
        seq_Notes := seq_Notes d; seq_Lists := seq_Lists d;
        seq_ListItems := seq_ListItems d;
        seq_MindmapNodes := seq_MindmapNodes d |})).

Definition addMessage (content : string) (sender : Sender)
    (contextJson : option string) : M Z :=
  db_call (fun t d =>
    let id := next_key (map m_id (Messages d)) in
    (id,
     {| User := User d;
        Messages := Messages d ++
          [{| m_id := id; m_content := content; m_sender := sender;
              m_timestamp := t; m_context_json := or_null contextJson |}];
        Notes := Notes d; Lists := Lists d; ListItems := ListItems d;
        Goals := Goals d; MindmapNodes := MindmapNodes d;
        seq_Notes := seq_Notes d; seq_Lists := seq_Lists d;
        seq_ListItems := seq_ListItems d;
        seq_MindmapNodes := seq_MindmapNodes d |})).

(** LIMIT n: the first [n] rows; a negative [n] is no limit. *)
Definition limit_rows {A : Type} (n : Z) (rows : list A) : list A :=
  if (n <? 0)%Z then rows else firstn (Z.to_nat n) rows.

(** [getRecentMessages(limit = 10)]: the newest [limit] messages, oldest
    first. *)
Definition getRecentMessages (limit : option Z) : M (list Message) :=
  let limit := match limit with Some n => n | None => 10%Z end in
  db_call (fun _ d =>
    (rev (limit_rows limit (order_by (desc m_timestamp) (Messages d))), d)).

Definition getAllNotes : M (list Note) :=
  db_call (fun _ d => (order_by (desc n_created_at) (Notes d), d)).

Definition set_note (id : Z) (title body : string) (n : Note) : Note :=
  if (n_id n =? id)%Z then
    {| n_id := n_id n; n_title := title; n_body := body;
       n_created_by := n_created_by n; n_tags := n_tags n;
       n_created_at := n_created_at n |}
  else n.

Definition updateNote (id : Z) (title body : string) : M unit :=
  db_call (fun _ d =>
    (tt,
     {| User := User d; Messages := Messages d;
        Notes := map (set_note id title body) (Notes d);
        Lists := Lists d; ListItems := ListItems d; Goals := Goals d;
        MindmapNodes := MindmapNodes d;
        seq_Notes := seq_Notes d; seq_Lists := seq_Lists d;
        seq_ListItems := seq_ListItems d;
        seq_MindmapNodes := seq_MindmapNodes d |})).

(** UPDATE ListItems SET is_completed = NOT is_completed WHERE id = ? *)
Definition toggle_item (itemId : Z) (i : ListItem) : ListItem :=
  if (i_id i =? itemId)%Z then
    {| i_id := i_id i; i_list_id := i_list_id i; i_content := i_content i;
       i_is_completed := negb (i_is_completed i);
       i_created_at := i_created_at i |}
  else i.

Definition toggleListItem (itemId : Z) : M unit :=
  db_call (fun _ d =>
    (tt,
     {| User := User d; Messages := Messages d; Notes := Notes d;
        Lists := Lists d;
        ListItems := map (toggle_item itemId) (ListItems d);
        Goals := Goals d; MindmapNodes := MindmapNodes d;
        seq_Notes := seq_Notes d; seq_Lists := seq_Lists d;
        seq_ListItems := seq_ListItems d;
        seq_MindmapNodes := seq_MindmapNodes d |})).

Definition createGoal (title : string) (frequency : Frequency)
    (targetCount : option Z) : M Z :=
  db_call (fun t d =>
    let id := next_key (map g_id (Goals d)) in
    (id,
     {| User := User d; Messages := Messages d; Notes := Notes d;
        Lists := Lists d; ListItems := ListItems d;
        Goals := Goals d ++
          [{| g_id := id; g_title := title; g_frequency := frequency;
              g_streak_count := 0; g_last_completed_date := None;
              g_target_count := or_null_number targetCount;
              g_created_at := t |}];
        MindmapNodes := MindmapNodes d;
        seq_Notes := seq_Notes d; seq_Lists := seq_Lists d;
        seq_ListItems := seq_ListItems d;
        seq_MindmapNodes := seq_MindmapNodes d |})).

End SQLiteService.

Notation "x <- c ;; k" := (SQLiteService.bind c (fun x => k))
  (at level 61, c at next level, right associativity).
Notation "c ;;; k" := (SQLiteService.bind c (fun _ => k))
  (at level 61, right associativity).

(** ** The completion service ([services/LLMService.ts]) *)

Module LLMService.
Import JsString SQLiteService.
Local Open Scope string_scope.

(** The fields of the service a call depends on: [ready] stands for
    [this.context] being set and [isInitialized] being true. *)
Record t : Type := {
  ready : bool;
  systemPrompt : string }.

(** The engine: the text generated for a prompt, or a thrown error.  The
    sampling parameters and stop strings of a call are constants of the
    program and are part of the engine here. *)
Definition Engine : Type := string -> Completion string.

Record GenerationResult : Type := {
  text : string;
  suggestions : option (list string) }.

Definition line_break : string := String nl EmptyString.

(** [array.slice(-6)] *)
Definition slice_m6 {A : Type} (l : list A) : list A :=
  skipn (List.length l - 6) l.

Definition role_of (s : Sender) : string :=
  match s with
  | user => "user"
  | assistant => "assistant"
  end.

Definition buildChatMLPrompt (svc : t) (userMessage : string)
    (conversationHistory : list Message) : string :=
  let prompt :=
    "<|im_start|>system" ++ line_break ++ systemPrompt svc ++ "<|im_end|>"
      ++ line_break in
  let recentMessages := slice_m6 conversationHistory in
  let prompt :=
    fold_left
      (fun prompt msg =>
         prompt ++ "<|im_start|>" ++ role_of (m_sender msg) ++ line_break
           ++ m_content msg ++ "<|im_end|>" ++ line_break)
      recentMessages prompt in
  let prompt :=
    prompt ++ "<|im_start|>user" ++ line_break ++ userMessage ++ "<|im_end|>"
      ++ line_break in
  prompt ++ "<|im_start|>assistant" ++ line_break.

(** [/<think>[\s\S]*?<\/think>/i]: an opening tag, then as little as
    possible up to a closing tag. *)
Definition re_think_block : matcher :=
  fun s =>
    if startsWith (toLowerCase s) "<think>" then
      match index_ci "</think>" (drop 7 s) with
      | Some n => Some (7 + n + 8)
      | None => None
      end
    else None.

(** [/<think>[\s\S]*$/i]: an opening tag and all that follows. *)
Definition re_think_open : matcher :=
  fun s =>
    if startsWith (toLowerCase s) "<think>" then Some (String.length s)
    else None.

(** [/\n{3,}/]: a maximal run of three or more line breaks. *)
Fixpoint newline_run (s : string) : nat :=
  match s with
  | String c r => if Ascii.eqb c nl then S (newline_run r) else 0
  | EmptyString => 0
  end.

Definition re_newlines3 : matcher :=
  fun s => let n := newline_run s in if (3 <=? n)%nat then Some n else None.

Definition cleanResponse (text : string) : string :=
  if negb (truthy text) then ""
  else
    let cleaned := replace_all re_think_block "" text in
    let cleaned := replace_all re_think_open "" cleaned in
    let cleaned := replace_all (re_literal "<|im_end|>") "" cleaned in
    let cleaned := replace_all (re_literal "<|im_start|>") "" cleaned in
    let cleaned := replace_all re_newlines3 (line_break ++ line_break) cleaned in
    trim cleaned.

(** [/\[([^\]]+)\]/]: an opening bracket, one or more characters other than
    the closing bracket, and a closing bracket. *)
Fixpoint until_close (s : string) : option nat :=
  match s with
  | EmptyString => None
  | String c r =>
      if Ascii.eqb c "]" then Some 0 else option_map S (until_close r)
  end.

Definition re_bracket : matcher :=
  fun s =>
    match s with
    | String c r =>
        if Ascii.eqb c "[" then
          match until_close r with
          | Some (S n) => Some (S n + 2)
          | _ => None
          end
        else None
    | EmptyString => None
    end.

Definition extractSuggestions (text : string) : list string :=
  match match_all re_bracket text with
  | [] => []
  | _ =>
      let lastLine := last (split_lines text) "" in
      match match_all re_bracket lastLine with
      | [] => []
      | endMatches => map slice_1_m1 endMatches
      end
  end.

(** [/\s*\[([^\]]+)\](?:\s*\[([^\]]+)\])*\s*$/]: the rest of the text is a
    group of bracketed tokens, with white space around and between them.
    The expression is run as an automaton over the rest of the text. *)
Inductive GroupState : Type :=
| BeforeFirst     (* white space before the first token *)
| Opened          (* just after an opening bracket *)
| Inside          (* in a token, after at least one character *)
| AfterToken.     (* after a closing bracket *)

Fixpoint trailing_group (st : GroupState) (s : string) : bool :=
  match s with
  | EmptyString =>
      match st with AfterToken => true | _ => false end
  | String c r =>
      match st with
      | BeforeFirst =>
          if is_space c then trailing_group BeforeFirst r
          else if Ascii.eqb c "[" then trailing_group Opened r
          else false
      | Opened =>
          if Ascii.eqb c "]" then false else trailing_group Inside r
      | Inside =>
          if Ascii.eqb c "]" then trailing_group AfterToken r
          else trailing_group Inside r
      | AfterToken =>
          if is_space c then trailing_group AfterToken r
          else if Ascii.eqb c "[" then trailing_group Opened r
          else false
      end
  end.

Definition re_trailing_group : matcher :=
  fun s =>
    if trailing_group BeforeFirst s then Some (String.length s) else None.

Definition removeSuggestions (text : string) : string :=
  trim (replace_first re_trailing_group "" text).

Definition generateResponse (svc : t) (engine : Engine)
    (userMessage : string) (conversationHistory : list Message)
  : Completion GenerationResult :=
  if negb (ready svc) then Throw LLMNotInitialized
  else
    let prompt := buildChatMLPrompt svc userMessage conversationHistory in
    match engine prompt with
    | Throw e => Throw e
    | Normal raw =>
        let cleanedText := cleanResponse raw in
        let suggestions := extractSuggestions cleanedText in
        let finalText := removeSuggestions cleanedText in
        Normal {| text := finalText;
                  suggestions :=
                    match suggestions with
                    | [] => None
                    | _ => Some suggestions
                    end |}
    end.

(** In the text below a single quote stands for a double quote. *)
Fixpoint quotes (s : string) : string :=
  match s with
  | EmptyString => EmptyString
  | String c r =>
      String (if Ascii.eqb c "'" then dquote else c) (quotes r)
  end.

Definition speaker (s : Sender) : string :=
  match s with
  | user => "User"
  | assistant => "Vi"
  end.

Fixpoint join (sep : string) (l : list string) : string :=
  match l with
  | [] => ""
  | [x] => x
  | x :: r => x ++ sep ++ join sep r
  end.

Definition analysisPrompt (conversationText : string) : string :=
  "You are analyzing a conversation to extract structured information.

Conversation:
" ++ conversationText ++ "

Extract the following and respond ONLY with valid JSON:
1. Important information to save as notes
2. Tasks or items to add to lists (specify list name: groceries, todo, movies, etc.)
3. Goals that were mentioned as completed
4. New facts about the user (personality, values, preferences)

JSON format:
" ++ quotes "{
  'notes': [{'title': 'Short title', 'body': 'Full content'}],
  'listItems': [{'listName': 'groceries', 'items': ['item1', 'item2']}],
  'completedGoals': [{'title': 'Goal name'}],
  'mindmapNodes': [{'label': 'User fact', 'category': 'values|goals|personality|facts', 'confidence': 0.8}]
}" ++ "

If nothing to extract, return empty arrays. Respond with JSON only:".

Definition analyzeConversation (svc : t) (engine : Engine)
    (messages : list Message) : Completion string :=
  if negb (ready svc) then Throw LLMNotInitialized
  else
    let conversationText :=
      join line_break
        (map (fun m => speaker (m_sender m) ++ ": " ++ m_content m)
           messages) in
    match engine (analysisPrompt conversationText) with
    | Throw e => Throw e
    | Normal result => Normal (trim result)
    end.

Definition isReady (svc : t) : bool := ready svc.

End LLMService.

(** ** JSON values and [JSON.parse] *)

Module Json.
Import JsString.

#[local] Unset Elimination Schemes.
Inductive value : Type :=
| JNull
| JBool (b : bool)
| JNumber (q : Q)
| JString (s : string)
| JArray (elements : list value)
| JObject (members : list (string * value)).
#[local] Set Elimination Schemes.

Inductive token : Type :=
| TLBrace | TRBrace | TLBracket | TRBracket | TColon | TComma
| TString (s : string)
| TNumber (q : Q)
| TTrue | TFalse | TNull.

Definition is_json_space (c : ascii) : bool :=
  let n := nat_of_ascii c in
  (n =? 32) || (n =? 9) || (n =? 10) || (n =? 13).

Definition is_digit (c : ascii) : bool :=
  let n := nat_of_ascii c in (48 <=? n) && (n <=? 57).

Definition hex_digit (c : ascii) : option nat :=
  let n := nat_of_ascii c in
  if (48 <=? n) && (n <=? 57) then Some (n - 48)
  else if (65 <=? n) && (n <=? 70) then Some (n - 55)
  else if (97 <=? n) && (n <=? 102) then Some (n - 87)
  else None.

(** The characters of the code unit [n] of a [\u] escape: itself below
    128, its UTF-8 bytes above. *)
Definition code_unit (n : nat) : string :=
  if n <? 128 then String (ascii_of_nat n) EmptyString
  else if n <? 2048 then
    String (ascii_of_nat (192 + n / 64))
      (String (ascii_of_nat (128 + n mod 64)) EmptyString)
  else
    String (ascii_of_nat (224 + n / 4096))
      (String (ascii_of_nat (128 + (n / 64) mod 64))
         (String (ascii_of_nat (128 + n mod 64)) EmptyString)).

Definition escape (c : ascii) : option ascii :=
  if Ascii.eqb c dquote then Some dquote
  else if Ascii.eqb c "\" then Some "\"%char
  else if Ascii.eqb c "/" then Some "/"%char
  else if Ascii.eqb c "b" then Some (ascii_of_nat 8)
  else if Ascii.eqb c "f" then Some (ascii_of_nat 12)
  else if Ascii.eqb c "n" then Some (ascii_of_nat 10)
  else if Ascii.eqb c "r" then Some (ascii_of_nat 13)
  else if Ascii.eqb c "t" then Some (ascii_of_nat 9)
  else None.

Definition prepend (p : string) (x : option (string * string))
  : option (string * string) :=
  match x with
  | Some (t, rest) => Some ((p ++ t)%string, rest)
  | None => None
  end.

(** The characters of a string literal after its opening quote, up to the
    closing quote: the string denoted and the text after the literal. *)
Fixpoint string_body (s : string) : option (string * string) :=
  match s with
  | EmptyString => None
  | String c r =>
      if Ascii.eqb c dquote then Some (EmptyString, r)
      else if Ascii.eqb c "\" then
        match r with
        | EmptyString => None
        | String e r1 =>
            if Ascii.eqb e "u" then
              match r1 with
              | String h1 (String h2 (String h3 (String h4 r2))) =>
                  match hex_digit h1, hex_digit h2, hex_digit h3,
                        hex_digit h4 with
                  | Some a, Some b, Some c', Some d =>
                      prepend
                        (code_unit (((a * 16 + b) * 16 + c') * 16 + d))
                        (string_body r2)
                  | _, _, _, _ => None
                  end
              | _ => None
              end
            else
              match escape e with
              | Some ch => prepend (String ch EmptyString) (string_body r1)
              | None => None
              end
        end
      else if nat_of_ascii c <? 32 then None
      else prepend (String c EmptyString) (string_body r)
  end.

(** A run of digits: the number read so far, how many digits, the rest. *)
Fixpoint read_digits (acc : Z) (s : string) : Z * nat * string :=
  match s with
  | String c r =>
      if is_digit c then
        let '(v, n, rest) :=
          read_digits (acc * 10 + Z.of_nat (nat_of_ascii c - 48))%Z r in
        (v, S n, rest)
      else (acc, 0, s)
  | EmptyString => (acc, 0, s)
  end.

Definition scaled (m sc : Z) : Q :=
  if (0 <=? sc)%Z then Qmake (m * 10 ^ sc)%Z 1
  else Qmake m (Z.to_pos (10 ^ (- sc))%Z).

(** A number at the start of [s]: its value and its length.  A number is
    an optional minus sign, an integer part (a single zero, or digits that
    do not start with zero), an optional fraction (a point and digits) and
    an optional exponent (e or E, an optional sign, digits). *)
Definition number_at (s : string) : option (Q * nat) :=
  let '(neg, s1) :=
    match s with
    | String c r => if Ascii.eqb c "-" then (true, r) else (false, s)
    | EmptyString => (false, s)
    end in
  let int_part :=
    match s1 with
    | String c r =>
        if Ascii.eqb c "0" then Some (0%Z, 1, r)
        else if is_digit c then Some (read_digits 0 s1)
        else None
    | EmptyString => None
    end in
  match int_part with
  | None => None
  | Some (i, ni, s2) =>
      let '(m, nf, s3) :=
        match s2 with
        | String c r =>
            if Ascii.eqb c "." then
              match read_digits i r with
              | (_, O, _) => (i, 0, s2)
              | (v, n, rest) => (v, n, rest)
              end
            else (i, 0, s2)
        | EmptyString => (i, 0, s2)
        end in
      let '(e, ne) :=
        match s3 with
        | String c r =>
            if Ascii.eqb c "e" || Ascii.eqb c "E" then
              let '(sgn, nsign, r') :=
                match r with
                | String d r1 =>
                    if Ascii.eqb d "+" then (1%Z, 1, r1)
                    else if Ascii.eqb d "-" then ((-1)%Z, 1, r1)
                    else (1%Z, 0, r)
                | EmptyString => (1%Z, 0, r)
                end in
              match read_digits 0 r' with
              | (_, O, _) => (0%Z, 0)
              | (v, n, _) => ((sgn * v)%Z, 1 + nsign + n)
              end
            else (0%Z, 0)
        | EmptyString => (0%Z, 0)
        end in
      let frac_len := match nf with O => 0 | S _ => 1 + nf end in
      let q := scaled (if neg then (- m)%Z else m) (e - Z.of_nat nf)%Z in
      Some (q, (if neg then 1 else 0) + ni + frac_len + ne)
  end.

(** The token at the start of [s], which is not white space, and its
    length. *)
Definition token_at (s : string) : option (token * nat) :=
  match s with
  | EmptyString => None
  | String c r =>
      if Ascii.eqb c "{" then Some (TLBrace, 1)
      else if Ascii.eqb c "}" then Some (TRBrace, 1)
      else if Ascii.eqb c "[" then Some (TLBracket, 1)
      else if Ascii.eqb c "]" then Some (TRBracket, 1)
      else if Ascii.eqb c ":" then Some (TColon, 1)
      else if Ascii.eqb c "," then Some (TComma, 1)
      else if Ascii.eqb c dquote then
        match string_body r with
        | Some (t, rest) =>
            Some (TString t, String.length s - String.length rest)
        | None => None
        end
      else if startsWith s "true" then Some (TTrue, 4)
      else if startsWith s "false" then Some (TFalse, 5)
      else if startsWith s "null" then Some (TNull, 4)
      else
        match number_at s with
        | Some (q, n) => Some (TNumber q, n)
        | None => None
        end
  end.

(** The tokens of a text; [skip] counts the characters of the current
    token that are still to be passed over. *)
Fixpoint lex_from (skip : nat) (s : string) : option (list token) :=
  match s with
  | EmptyString => Some []
  | String c r =>
      match skip with
      | S k => lex_from k r
      | O =>
          if is_json_space c then lex_from 0 r
          else
            match token_at s with
            | Some (t, S k) =>
                match lex_from k r with
                | Some ts => Some (t :: ts)
                | None => None
                end
            | _ => None
            end
      end
  end.

(** The parser is a stack machine over the tokens.  A frame is an array or
    an object under construction (what it holds so far, last first; for an
    object also the key whose value is being read). *)
Inductive frame : Type :=
| FArray (done : list value)
| FObject (done : list (string * value)) (key : string).

Inductive mode : Type :=
| WantValue (close_ok : bool)
    (* a value starts here; just after an opening bracket the array may
       close instead *)
| WantKey (done : list (string * value)) (close_ok : bool)
    (* a member key; just after an opening brace the object may close *)
| WantColon (done : list (string * value)) (key : string)
| Have (v : value).
    (* a value is complete; the stack says what may follow *)

Fixpoint run (st : list frame) (m : mode) (ts : list token) : option value :=
  match ts with
  | [] =>
      match m, st with
      | Have v, [] => Some v
      | _, _ => None
      end
  | t :: ts' =>
      match m with
      | WantValue close_ok =>
          match t with
          | TLBracket => run (FArray [] :: st) (WantValue true) ts'
          | TLBrace => run st (WantKey [] true) ts'
          | TRBracket =>
              if close_ok then
                match st with
                | FArray _ :: st' => run st' (Have (JArray [])) ts'
                | _ => None
                end
              else None
          | TString s => run st (Have (JString s)) ts'
          | TNumber q => run st (Have (JNumber q)) ts'
          | TTrue => run st (Have (JBool true)) ts'
          | TFalse => run st (Have (JBool false)) ts'
          | TNull => run st (Have JNull) ts'
          | _ => None
          end
      | WantKey done close_ok =>
          match t with
          | TString k => run st (WantColon done k) ts'
          | TRBrace =>
              if close_ok then run st (Have (JObject (rev done))) ts'
              else None
          | _ => None
          end
      | WantColon done k =>
          match t with
          | TColon => run (FObject done k :: st) (WantValue false) ts'
          | _ => None
          end
      | Have v =>
          match st, t with
          | FArray done :: st', TComma =>
              run (FArray (v :: done) :: st') (WantValue false) ts'
          | FArray done :: st', TRBracket =>
              run st' (Have (JArray (rev (v :: done)))) ts'
          | FObject done k :: st', TComma =>
              run st' (WantKey ((k, v) :: done) false) ts'
          | FObject done k :: st', TRBrace =>
              run st' (Have (JObject (rev ((k, v) :: done)))) ts'
          | _, _ => None
          end
      end
  end.

(** [JSON.parse(text)]: the value, or [None] where the engine throws a
    SyntaxError. *)
Definition parse (text : string) : option value :=
  match lex_from 0 text with
  | Some ts => run [] (WantValue false) ts
  | None => None
  end.

(** The own property [key] of an object; a later member overrides an
    earlier one of the same key. *)
Fixpoint member (key : string) (members : list (string * value))
  : option value :=
  match members with
  | [] => None
  | (k, v) :: r =>
      match member key r with
      | Some v' => Some v'
      | None => if String.eqb k key then Some v else None
      end
  end.

(** [v.key] for one of the keys the pipeline reads: [None] is [undefined];
    reading a property of [null] throws. *)
Definition get (v : value) (key : string) : Completion (option value) :=
  match v with
  | JNull => Throw TypeError
  | JObject members => Normal (member key members)
  | _ => Normal None
  end.

(** [Array.isArray(x) ? x : []] *)
Definition array_or_empty (x : option value) : list value :=
  match x with
  | Some (JArray elements) => elements
  | _ => []
  end.

End Json.

(** ** The extraction pipeline ([services/BackgroundAgent.ts]) *)

Module BackgroundAgent.
Import JsString SQLiteService Json.

(** The result of [parseAnalysisResult]: four arrays, whose elements are
    not inspected. *)
Record ParsedAnalysis : Type := {
  p_notes : list value;
  p_listItems : list value;
  p_completedGoals : list value;
  p_mindmapNodes : list value }.

(** The interface [AnalysisResult], as [applyAnalysisResults] reads it.  A
    field is [None] when the item has no such property ([undefined]); a
    value of another type than the interface declares is outside the
    model. *)
Record NoteItem : Type := {
  title : option string;
  body : option string }.

Record ListGroup : Type := {
  listName : option string;
  items : option (list string) }.

Record GoalCompletion : Type := {
  goalTitle : option string }.

Record MindmapItem : Type := {
  label : option string;
  category : option Category;
  confidence : option Q }.

Record AnalysisResult : Type := {
  notes : list NoteItem;
  listItems : list ListGroup;
  completedGoals : list GoalCompletion;
  mindmapNodes : list MindmapItem }.

Record Agent : Type := {
  isProcessing : bool;
  lastProcessedMessageId : Z }.

(** What a run depends on besides the agent and the store: the completion
    service and its engine, and the reading of the parsed arrays at the
    type [AnalysisResult] (the program asserts the type and does not check
    it). *)
Record Env : Type := {
  llm : LLMService.t;
  engine : LLMService.Engine;
  typed : ParsedAnalysis -> AnalysisResult }.

(** [/^```json\n?/i], which can only match at the start of the text. *)
Definition re_fence_open : matcher :=
  fun s =>
    if startsWith (toLowerCase s) "```json" then
      match drop 7 s with
      | String c _ => if Ascii.eqb c nl then Some 8 else Some 7
      | EmptyString => Some 7
      end
    else None.

Definition replace_at_start (m : matcher) (repl s : string) : string :=
  match m s with
  | Some n => repl ++ drop n s
  | None => s
  end.

(** [/\n?```$/]: a closing fence, with the line break before it if there is
    one, at the end of the text. *)
Definition re_fence_close : matcher :=
  fun s =>
    if String.eqb s (String nl "```") then Some 4
    else if String.eqb s "```" then Some 3
    else None.

Definition try_catch {A : Type} (body : Completion A)
    (handler : Error -> Completion A) : Completion A :=
  match body with
  | Normal a => Normal a
  | Throw e => handler e
  end.

Definition and_then {A B : Type} (c : Completion A)
    (k : A -> Completion B) : Completion B :=
  match c with
  | Normal a => k a
  | Throw e => Throw e
  end.

Definition JSON_parse (text : string) : Completion value :=
  match Json.parse text with
  | Some v => Normal v
  | None => Throw SyntaxError
  end.

Definition clean_json (rawJson : string) : string :=
  let cleanJson := trim rawJson in
  let cleanJson := replace_at_start re_fence_open "" cleanJson in
  let cleanJson := replace_first re_fence_close "" cleanJson in
  trim cleanJson.

Definition parseAnalysisResult (rawJson : string)
  : Completion (option ParsedAnalysis) :=
  try_catch
    (let cleanJson := clean_json rawJson in
     and_then (JSON_parse cleanJson) (fun parsed =>
     and_then (get parsed "notes") (fun notes =>
     and_then (get parsed "listItems") (fun listItems =>
     and_then (get parsed "completedGoals") (fun completedGoals =>
     and_then (get parsed "mindmapNodes") (fun mindmapNodes =>
     Normal (Some
       {| p_notes := array_or_empty notes;
          p_listItems := array_or_empty listItems;
          p_completedGoals := array_or_empty completedGoals;
          p_mindmapNodes := array_or_empty mindmapNodes |})))))))
    (fun _ => Normal None).

(** [for (const x of xs) { await f(x) }] *)
Fixpoint for_of {A : Type} (xs : list A) (f : A -> M unit) : M unit :=
  match xs with
  | [] => ret tt
  | x :: r => f x ;;; for_of r f
  end.

Definition truthy_field (x : option string) : bool :=
  match x with
  | Some s => truthy s
  | None => false
  end.

(** [a.toLowerCase().includes(b.toLowerCase()) ||
     b.toLowerCase().includes(a.toLowerCase())] *)
Definition fuzzy_match (a b : string) : bool :=
  includes (toLowerCase a) (toLowerCase b)
  || includes (toLowerCase b) (toLowerCase a).

(** [a.toLowerCase() === b.toLowerCase()] *)
Definition same_text (a b : string) : bool :=
  String.eqb (toLowerCase a) (toLowerCase b).

(** [array.find(x => pred(x.f, name))] where the callback calls
    [name.toLowerCase()]: on an empty array the callback is not run; with a
    missing [name] its first run throws. *)
Definition find_by_name {A : Type} (field : A -> string)
    (name : option string) (rows : list A) : M (option A) :=
  match rows, name with
  | [], _ => ret None
  | _ :: _, None => throw TypeError
  | _ :: _, Some n => ret (find (fun r => fuzzy_match (field r) n) rows)
  end.

Definition applyNote (note : NoteItem) : M unit :=
  match title note, body note with
  | Some t, Some b =>
      if truthy t && truthy b then addNote t b by_vi None ;;; ret tt
      else ret tt
  | _, _ => ret tt
  end.

Definition applyListItem (targetList : List) (item : string) : M unit :=
  existingItems <- getListItems (l_id targetList) ;;
  let isDuplicate :=
    existsb (fun existing => same_text (i_content existing) item)
      existingItems in
  if negb isDuplicate then addListItem (l_id targetList) item ;;; ret tt
  else ret tt.

Definition applyListGroup (listGroup : ListGroup) : M unit :=
  allLists <- getAllLists ;;
  targetList <- find_by_name l_title (listName listGroup) allLists ;;
  match targetList with
  | Some targetList =>
      match items listGroup with
      | None => throw TypeError
      | Some its => for_of its (applyListItem targetList)
      end
  | None =>
      match listName listGroup with
      | None => throw TypeError
      | Some name =>
          newListId <-
            createList name (replace_all re_spaces "_" (toLowerCase name)) ;;
          match items listGroup with
          | None => throw TypeError
          | Some its =>
              for_of its (fun item => addListItem newListId item ;;; ret tt)
          end
      end
  end.

Definition applyGoalCompletion (goalCompletion : GoalCompletion) : M unit :=
  allGoals <- getAllGoals ;;
  targetGoal <- find_by_name g_title (goalTitle goalCompletion) allGoals ;;
  match targetGoal with
  | Some targetGoal => updateGoalStreak (g_id targetGoal)
  | None => ret tt
  end.

(** [node.confidence || 0.8] *)
Definition confidence_or_default (c : option Q) : Q :=
  match c with
  | Some q => if Qeq_bool q 0 then Qmake 8 10 else q
  | None => Qmake 8 10
  end.

Definition applyMindmapNode (node : MindmapItem) : M unit :=
  match label node, category node with
  | Some l, Some c =>
      if truthy l then
        existingNodes <- getAllMindmapNodes ;;
        let isDuplicate :=
          existsb (fun existing => same_text (k_label existing) l)
            existingNodes in
        if negb isDuplicate then
          addMindmapNode l c (confidence_or_default (confidence node)) None
          ;;; ret tt
        else ret tt
      else ret tt
  | _, _ => ret tt
  end.

Definition applyAnalysisResults (analysis : AnalysisResult) : M unit :=
  for_of (notes analysis) applyNote ;;;
  for_of (listItems analysis) applyListGroup ;;;
  for_of (completedGoals analysis) applyGoalCompletion ;;;
  for_of (mindmapNodes analysis) applyMindmapNode.

(** [msg.id || 0] *)
Definition id_or_0 (msg : Message) : Z :=
  if (m_id msg =? 0)%Z then 0%Z else m_id msg.

Definition released (this : Agent) : Agent :=
  {| isProcessing := false;
     lastProcessedMessageId := lastProcessedMessageId this |}.

Definition default_message : Message :=
  {| m_id := 0; m_content := ""; m_sender := user; m_timestamp := 0;
     m_context_json := None |}.

(** One run, from the call to the settling of the promise.  The body of the
    [try] yields the agent and the world; a thrown error is caught and
    logged, and [finally] releases the busy flag. *)
Definition processRecentConversations (env : Env) (this : Agent) (w : World)
  : Agent * World :=
  if isProcessing this then (this, w)
  else if negb (LLMService.isReady (llm env)) then (this, w)
  else
    let this :=
      {| isProcessing := true;
         lastProcessedMessageId := lastProcessedMessageId this |} in
    let '(this', w') :=
      match getAllMessages w with
      | (Throw _, w1) => (this, w1)
      | (Normal allMessages, w1) =>
          if List.length allMessages =? 0 then (released this, w1)
          else
            let newMessages :=
              filter
                (fun msg => (id_or_0 msg >? lastProcessedMessageId this)%Z)
                allMessages in
            if List.length newMessages <? 2 then (released this, w1)
            else
              match LLMService.analyzeConversation (llm env) (engine env)
                      newMessages with
              | Throw _ => (this, w1)
              | Normal rawAnalysis =>
                  match parseAnalysisResult rawAnalysis with
                  | Throw _ => (this, w1)
                  | Normal None => (this, w1)
                  | Normal (Some analysis) =>
                      match applyAnalysisResults (typed env analysis) w1 with
                      | (Throw _, w2) => (this, w2)
                      | (Normal _, w2) =>
                          let lastMessage :=
                            last newMessages default_message in
                          ({| isProcessing := isProcessing this;
                              lastProcessedMessageId :=
                                id_or_0 lastMessage |}, w2)
                      end
                  end
              end
      end in
    (released this', w').

(** A sequence of runs, each in its own environment; between two runs the
    rest of the application may change the store ([between]). *)
Fixpoint runs (steps : list (Env * (World -> World))) (this : Agent)
    (w : World) : Agent * World :=
  match steps with
  | [] => (this, w)
  | (env, between) :: r =>
      let '(this', w') := processRecentConversations env this (between w) in
      runs r this' w'
  end.

Definition triggerManualProcessing (env : Env) (this : Agent) (w : World)
  : Agent * World :=
  processRecentConversations env this w.

Definition reset (this : Agent) : Agent :=
  {| isProcessing := false; lastProcessedMessageId := 0 |}.

Record Status : Type := {
  st_isProcessing : bool;
  st_lastProcessedId : Z }.

Definition getStatus (this : Agent) : Status :=
  {| st_isProcessing := isProcessing this;
     st_lastProcessedId := lastProcessedMessageId this |}.

(** [setupBackgroundProcessing()]: the three handlers, bound to the one
    agent of the module. *)
Record Handlers : Type := {
  onAppBackground : Env -> Agent -> World -> Agent * World;
  triggerNow : Env -> Agent -> World -> Agent * World;
  handlers_getStatus : Agent -> Status }.

Definition setupBackgroundProcessing : Handlers :=
  {| onAppBackground := processRecentConversations;
     triggerNow := triggerManualProcessing;
     handlers_getStatus := getStatus |}.

End BackgroundAgent.

(** ** The system prompt ([services/SystemPromptBuilder.ts]) *)

Module SystemPromptBuilder.
Import JsString.
Local Open Scope string_scope.

Inductive PersonalityTrait : Type :=
| nonchalant | enthusiastic | pessimist | quirky | direct | empathetic
| formal | witty | stoic.

(** The string a trait is at run time. *)
Definition trait_name (t : PersonalityTrait) : string :=
  match t with
  | nonchalant => "nonchalant"
  | enthusiastic => "enthusiastic"
  | pessimist => "pessimist"
  | quirky => "quirky"
  | direct => "direct"
  | empathetic => "empathetic"
  | formal => "formal"
  | witty => "witty"
  | stoic => "stoic"
  end.

(** The traits are strings here, as they are at run time: [initializeApp]
    passes what [JSON.parse] returned. *)
Record UserContext : Type := {
  uc_name : string;
  uc_nickname : option string;
  uc_role : option string;
  uc_traits : list string }.

Definition BASE_PERSONALITY : string :=
  "You are Vi, an on-device personal AI. You are private and helpful.

STRICT RESPONSE RULES:
1. BREVITY: Keep responses short and impactful.
2. ACKNOWLEDGE: Always reflect the user's message first using your traits.
3. PERSONALITY: Never break character. Let your assigned traits drive your tone.
4. CURIOSITY: Mostly end with a brief follow-up question.
5. NO HALLUCINATION: Only use facts explicitly shared by the user.".

(** [x || y] for an optional string [x] *)
Definition or_else (x : option string) (y : string) : string :=
  match x with
  | Some s => if truthy s then s else y
  | None => y
  end.

Definition buildSystemPrompt (userContext : UserContext) : string :=
  let displayName := or_else (uc_nickname userContext) (uc_name userContext) in
  let prompt := BASE_PERSONALITY in
  let prompt :=
    prompt ++ String nl (String nl "User: ") ++ displayName in
  let prompt :=
    match uc_role userContext with
    | Some role => if truthy role then prompt ++ " (" ++ role ++ ")" else prompt
    | None => prompt
    end in
  match uc_traits userContext with
  | [] => prompt
  | traits =>
      let traitList := LLMService.join ", " traits in
      prompt ++ String nl (String nl "Your personality traits are: ")
        ++ traitList ++ "."
  end.

Inductive ActionType : Type :=
| list_add | note_create | goal_update | mindmap_add | suggestion.

(** The only actions built carry [{ options }]. *)
Record AIAction : Type := {
  type : ActionType;
  options : list string }.

Record ParsedResponse : Type := {
  cleanText : string;
  actions : list AIAction }.

(** [/\[([^\]]+)\](?:\s*\[([^\]]+)\])*$/]: the rest of the text is a
    group of bracketed tokens that starts with a token and ends with one,
    with white space allowed between two tokens only.  The expression is
    run as an automaton over the rest of the text. *)
Inductive ChipState : Type :=
| AtStart         (* the first token starts here *)
| ChipOpened      (* just after an opening bracket *)
| InChip          (* in a token, after at least one character *)
| ChipClosed      (* just after a closing bracket *)
| InGap.          (* in white space after a token *)

Fixpoint chips_to_end (st : ChipState) (s : string) : bool :=
  match s with
  | EmptyString =>
      match st with ChipClosed => true | _ => false end
  | String c r =>
      match st with
      | AtStart =>
          if Ascii.eqb c "[" then chips_to_end ChipOpened r else false
      | ChipOpened =>
          if Ascii.eqb c "]" then false else chips_to_end InChip r
      | InChip =>
          if Ascii.eqb c "]" then chips_to_end ChipClosed r
          else chips_to_end InChip r
      | ChipClosed | InGap =>
          if is_space c then chips_to_end InGap r
          else if Ascii.eqb c "[" then chips_to_end ChipOpened r
          else false
      end
  end.

Definition re_chips_at_end : matcher :=
  fun s =>
    if chips_to_end AtStart s then Some (String.length s) else None.

(** [s.match(/re/)] is not null: the expression matches somewhere. *)
Fixpoint matches (m : matcher) (s : string) : bool :=
  match m s with
  | Some (S _) => true
  | _ =>
      match s with
      | EmptyString => false
      | String _ r => matches m r
      end
  end.

Definition parseAIResponse (response : string) : ParsedResponse :=
  if matches re_chips_at_end response then
    match map slice_1_m1 (match_all LLMService.re_bracket response) with
    | [] => {| cleanText := response; actions := [] |}
    | suggestions =>
        {| cleanText := trim (replace_first re_chips_at_end "" response);
           actions := [{| type := suggestion; options := suggestions |}] |}
    end
  else {| cleanText := response; actions := [] |}.

End SystemPromptBuilder.

(** ** The onboarding screen ([screens/OnboardingScreen.tsx]) *)

Module OnboardingScreen.
Import JsString SystemPromptBuilder.
Local Open Scope string_scope.

Record OnboardingData : Type := {
  od_name : string;
  od_nickname : option string;
  od_role : option string;
  od_ageGroup : option string;
  od_gender : option string;
  od_traits : list PersonalityTrait }.

Inductive OnboardingStep : Type :=
| at_intro | at_name | at_nickname | at_role | at_basics | at_personality.

(** The state of the component *)
Record Screen : Type := {
  step : OnboardingStep;
  data : OnboardingData;
  tempInput : string }.

Definition initial : Screen :=
  {| step := at_intro;
     data := {| od_name := ""; od_nickname := None; od_role := None;
                od_ageGroup := None; od_gender := None; od_traits := [] |};
     tempInput := "" |}.

Definition step_eqb (a b : OnboardingStep) : bool :=
  match a, b with
  | at_intro, at_intro | at_name, at_name | at_nickname, at_nickname
  | at_role, at_role | at_basics, at_basics
  | at_personality, at_personality => true
  | _, _ => false
  end.

Definition trait_eqb (a b : PersonalityTrait) : bool :=
  match a, b with
  | nonchalant, nonchalant | enthusiastic, enthusiastic
  | pessimist, pessimist | quirky, quirky | direct, direct
  | empathetic, empathetic | formal, formal | witty, witty
  | stoic, stoic => true
  | _, _ => false
  end.

(** [l.indexOf(x)]; -1 when [x] is not in [l] *)
Fixpoint indexOf (l : list OnboardingStep) (x : OnboardingStep) : Z :=
  match l with
  | [] => (-1)%Z
  | y :: r =>
      if step_eqb y x then 0%Z
      else let i := indexOf r x in if (i <? 0)%Z then i else (i + 1)%Z
  end.

Definition setData (d : OnboardingData) (s : Screen) : Screen :=
  {| step := step s; data := d; tempInput := tempInput s |}.

Definition handleNext (s : Screen) : Screen :=
  let steps :=
    [at_intro; at_name; at_nickname; at_role; at_basics; at_personality] in
  let currentIndex := indexOf steps (step s) in
  if (currentIndex <? Z.of_nat (List.length steps) - 1)%Z then
    {| step := nth (Z.to_nat (currentIndex + 1)) steps (step s);
       data := data s;
       tempInput := "" |}
  else s.

(** [x || undefined] *)
Definition or_undefined (x : string) : option string :=
  if truthy x then Some x else None.

Definition handleNameSubmit (s : Screen) : Screen :=
  if truthy (trim (tempInput s)) then
    let d := data s in
    handleNext
      (setData
         {| od_name := trim (tempInput s); od_nickname := od_nickname d;
            od_role := od_role d; od_ageGroup := od_ageGroup d;
            od_gender := od_gender d; od_traits := od_traits d |} s)
  else s.

Definition handleNicknameSubmit (s : Screen) : Screen :=
  let d := data s in
  handleNext
    (setData
       {| od_name := od_name d;
          od_nickname := or_undefined (trim (tempInput s));
          od_role := od_role d; od_ageGroup := od_ageGroup d;
          od_gender := od_gender d; od_traits := od_traits d |} s).

Definition handleRoleSubmit (s : Screen) : Screen :=
  let d := data s in
  handleNext
    (setData
       {| od_name := od_name d; od_nickname := od_nickname d;
          od_role := or_undefined (trim (tempInput s));
          od_ageGroup := od_ageGroup d;
          od_gender := od_gender d; od_traits := od_traits d |} s).

(** The handlers of the chips of the step [basics] *)
Definition selectAgeGroup (age : string) (s : Screen) : Screen :=
  let d := data s in
  setData
    {| od_name := od_name d; od_nickname := od_nickname d;
       od_role := od_role d; od_ageGroup := Some age;
       od_gender := od_gender d; od_traits := od_traits d |} s.

Definition selectGender (gender : string) (s : Screen) : Screen :=
  let d := data s in
  setData
    {| od_name := od_name d; od_nickname := od_nickname d;
       od_role := od_role d; od_ageGroup := od_ageGroup d;
       od_gender := Some gender; od_traits := od_traits d |} s.

Definition with_traits (ts : list PersonalityTrait) (s : Screen) : Screen :=
  let d := data s in
  setData
    {| od_name := od_name d; od_nickname := od_nickname d;
       od_role := od_role d; od_ageGroup := od_ageGroup d;
       od_gender := od_gender d; od_traits := ts |} s.

Definition toggleTrait (trait : PersonalityTrait) (s : Screen) : Screen :=
  let currentTraits := od_traits (data s) in
  if existsb (trait_eqb trait) currentTraits then
    with_traits (filter (fun t => negb (trait_eqb t trait)) currentTraits) s
  else if (List.length currentTraits <? 3)%nat then
    with_traits (currentTraits ++ [trait]) s
  else s.

(** What [handleComplete] passes to [onComplete], if it calls it. *)
Definition handleComplete (s : Screen) : option OnboardingData :=
  if truthy (od_name (data s))
     && (0 <? List.length (od_traits (data s)))%nat
  then Some (data s)
  else None.

(** What the user does: the text of the input is changed, or one of the
    handlers runs. *)
Inductive Action : Type :=
| ChangeText (t : string)
| Next
| NameSubmit
| NicknameSubmit
| RoleSubmit
| AgeGroup (age : string)
| Gender (gender : string)
| Toggle (trait : PersonalityTrait)
| Complete.

Definition act (a : Action) (s : Screen) : Screen * option OnboardingData :=
  match a with
  | ChangeText t =>
      ({| step := step s; data := data s; tempInput := t |}, None)
  | Next => (handleNext s, None)
  | NameSubmit => (handleNameSubmit s, None)
  | NicknameSubmit => (handleNicknameSubmit s, None)
  | RoleSubmit => (handleRoleSubmit s, None)
  | AgeGroup age => (selectAgeGroup age s, None)
  | Gender gender => (selectGender gender s, None)
  | Toggle trait => (toggleTrait trait s, None)
  | Complete => (s, handleComplete s)
  end.

(** The handlers the rendered screen offers at a step: the others cannot
    run. *)
Definition offered (s : Screen) (a : Action) : bool :=
  match step s, a with
  | at_intro, Next => true
  | at_name, (ChangeText _ | NameSubmit) => true
  | at_nickname, (ChangeText _ | NicknameSubmit) => true
  | at_role, (ChangeText _ | RoleSubmit) => true
  | at_basics, AgeGroup age =>
      existsb (String.eqb age) ["18-24"; "25-34"; "35-44"; "45+"]
  | at_basics, Gender gender =>
      existsb (String.eqb gender)
        ["Male"; "Female"; "Non-binary"; "Prefer not to say"]
  | at_basics, Next => true
  | at_personality, Toggle trait =>
      negb (negb (existsb (trait_eqb trait) (od_traits (data s)))
            && (3 <=? List.length (od_traits (data s)))%nat)
  | at_personality, Complete =>
      negb (List.length (od_traits (data s)) =? 0)%nat
  | _, _ => false
  end.

(** The actions of a session, those the screen does not offer being
    without effect; the data [onComplete] received, first call first. *)
Fixpoint session (acts : list Action) (s : Screen)
  : Screen * list OnboardingData :=
  match acts with
  | [] => (s, [])
  | a :: rest =>
      if offered s a then
        let (s1, out) := act a s in
        let (s2, outs) := session rest s1 in
        (s2, match out with Some d => d :: outs | None => outs end)
      else session rest s
  end.

End OnboardingScreen.

(** ** The application shell ([App.tsx]) *)

Module App.
Import JsString SQLiteService SystemPromptBuilder OnboardingScreen.
Local Open Scope string_scope.

Record t : Type := {
  isLoading : bool;
  userProfile : option UserProfile;
  systemPrompt : string }.

Definition initial : t :=
  {| isLoading := true; userProfile := None; systemPrompt := "" |}.

Definition loaded (app : t) : t :=
  {| isLoading := false; userProfile := userProfile app;
     systemPrompt := systemPrompt app |}.

(** The strings of a parsed value that is an array of strings. *)
Fixpoint strings_of (l : list Json.value) : option (list string) :=
  match l with
  | [] => Some []
  | Json.JString s :: r =>
      match strings_of r with
      | Some ss => Some (s :: ss)
      | None => None
      end
  | _ :: _ => None
  end.

(** The prompt [initializeApp] builds from the stored profile.  The stored
    traits are parsed and passed on unchecked; for a value that is not an
    array of strings the outcome of [buildSystemPrompt] is given by
    [ill_typed]. *)
Definition prompt_of_profile
    (ill_typed : UserProfile -> Json.value -> Completion string)
    (existingUser : UserProfile) : Completion string :=
  match Json.parse (u_traits_json existingUser) with
  | None => Throw SyntaxError
  | Some (Json.JArray l) =>
      match strings_of l with
      | Some traits =>
          Normal (buildSystemPrompt
                    {| uc_name := u_name existingUser;
                       uc_nickname := u_nickname existingUser;
                       uc_role := u_role existingUser;
                       uc_traits := traits |})
      | None => ill_typed existingUser (Json.JArray l)
      end
  | Some v => ill_typed existingUser v
  end.

(** [initializeApp]: every error is caught and logged. *)
Definition initializeApp
    (ill_typed : UserProfile -> Json.value -> Completion string)
    (app : t) (w : World) : t * World :=
  match init w with
  | (Throw _, w1) => (loaded app, w1)
  | (Normal _, w1) =>
      match getUser w1 with
      | (Throw _, w2) => (loaded app, w2)
      | (Normal None, w2) => (loaded app, w2)
      | (Normal (Some existingUser), w2) =>
          match prompt_of_profile ill_typed existingUser with
          | Throw _ =>
              ({| isLoading := false; userProfile := Some existingUser;
                  systemPrompt := systemPrompt app |}, w2)
          | Normal prompt =>
              ({| isLoading := false; userProfile := Some existingUser;
                  systemPrompt := prompt |}, w2)
          end
      end
  end.

Definition default_lists : M unit :=
  bind (createList "Groceries" "grocery") (fun _ =>
  bind (createList "To-Do" "todo") (fun _ =>
  bind (createList "Movies to Watch" "movies") (fun _ => ret tt))).

(** [handleOnboardingComplete]: every error is caught and logged. *)
Definition handleOnboardingComplete (data : OnboardingData) (app : t)
    (w : World) : t * World :=
  match
    createUser
      {| nu_name := od_name data; nu_nickname := od_nickname data;
         nu_role := od_role data; nu_age_group := od_ageGroup data;
         nu_gender := od_gender data;
         nu_traits_json :=
           JsonText.stringify_strings (map trait_name (od_traits data)) |}
      w
  with
  | (Throw _, w1) => (app, w1)
  | (Normal _, w1) =>
      match getUser w1 with
      | (Throw _, w2) => (app, w2)
      | (Normal savedProfile, w2) =>
          let prompt :=
            buildSystemPrompt
              {| uc_name := od_name data; uc_nickname := od_nickname data;
                 uc_role := od_role data;
                 uc_traits := map trait_name (od_traits data) |} in
          let app1 :=
            {| isLoading := isLoading app; userProfile := savedProfile;
               systemPrompt := prompt |} in
          (app1,
           snd (bind default_lists (fun _ =>
                bind (addMindmapNode (od_name data) personality 1 None)
                  (fun _ => ret tt)) w2))
      end
  end.

(** What is rendered *)
Inductive View : Type := Loading | Onboarding | MainTabs.

Definition render (app : t) : View :=
  if isLoading app then Loading
  else match userProfile app with
       | None => Onboarding
       | Some _ => MainTabs
       end.

End App.

(** ** The chat screen ([screens/ChatScreen.tsx]) *)

Module ChatScreen.
Import JsString SQLiteService LLMService.
Local Open Scope string_scope.

(** The state of the component that [handleSend] and [renderMessage]
    use. *)
Record t : Type := {
  input : string;
  messages : list Message;
  isGenerating : bool;
  suggestions : list string }.

(** The readings of the device clock taken by one call of [handleSend]:
    [Date.now()] and [new Date()] for the user message, and for the answer
    or the apology. *)
Record Readings : Type := {
  user_id : Z;
  user_time : Z;
  reply_id : Z;
  reply_time : Z }.

Definition apology : string :=
  "Sorry, I'm having trouble responding right now.".

Definition shown (id : Z) (content : string) (sender : Sender) (time : Z)
  : Message :=
  {| m_id := id; m_content := content; m_sender := sender;
     m_timestamp := time; m_context_json := None |}.

(** The [catch] and [finally] blocks *)
Definition failed (r : Readings) (c : t) : t :=
  {| input := input c;
     messages :=
       messages c
       ++ [shown (reply_id r + 1) apology assistant (reply_time r)];
     isGenerating := false;
     suggestions := suggestions c |}.

(** One call of [handleSend], run to its end: the outcome of the promise,
    the state of the component and the world. *)
Definition handleSend (svc : LLMService.t) (engine : Engine) (r : Readings)
    (messageText : option string) (c : t) (w : World)
  : Completion unit * t * World :=
  let textToSend :=
    SystemPromptBuilder.or_else messageText (trim (input c)) in
  if negb (truthy textToSend) || negb (isReady svc) || isGenerating c then
    (Normal tt, c, w)
  else
    let userMessage := shown (user_id r) textToSend user (user_time r) in
    let c1 :=
      {| input := ""; messages := messages c ++ [userMessage];
         isGenerating := isGenerating c; suggestions := [] |} in
    match addMessage textToSend user None w with
    | (Throw e, w1) => (Throw e, c1, w1)
    | (Normal _, w1) =>
        match generateResponse svc engine textToSend (messages c) with
        | Throw _ => (Normal tt, failed r c1, w1)
        | Normal result =>
            let finalCleanText := text result in
            let aiMessage :=
              shown (reply_id r + 1) finalCleanText assistant
                (reply_time r) in
            let c2 :=
              {| input := input c1;
                 messages := messages c1 ++ [aiMessage];
                 isGenerating := true; suggestions := suggestions c1 |} in
            match
              addMessage finalCleanText assistant
                (option_map JsonText.stringify_options
                   (LLMService.suggestions result)) w1
            with
            | (Throw _, w2) => (Normal tt, failed r c2, w2)
            | (Normal _, w2) =>
                (Normal tt,
                 {| input := input c2; messages := messages c2;
                    isGenerating := false;
                    suggestions :=
                      match LLMService.suggestions result with
                      | Some l => l
                      | None => suggestions c2
                      end |},
                 w2)
            end
        end
    end.

(** [renderMessage]: the texts of the bubbles of a message; [None] where
    nothing is rendered. *)
Definition renderMessage (message : Message) : option (list string) :=
  let cleanText := m_content message in
  if negb (truthy cleanText) then None
  else
    let bubbles :=
      filter (fun line => negb (String.eqb (trim line) ""))
        (split_lines cleanText) in
    Some (map trim bubbles).

End ChatScreen.

(** ** Loading the model ([services/LLMService.ts], [initialize] and the
       methods around it) *)

Module LLMSetup.
Import JsString.
Local Open Scope string_scope.

(** What is thrown is an object, with a [message] or without one. *)
Record Thrown : Type := { message : option string }.

Inductive Outcome (A : Type) : Type :=
| Ok (a : A)
| Raise (e : Thrown).
Arguments Ok {A} a.
Arguments Raise {A} e.

(** [new Error(m)] *)
Definition new_Error (m : string) : Thrown := {| message := Some m |}.

Record FileInfo : Type := {
  file_exists : bool;
  size : option N }.

(** What the module [llama.rn] exports, as far as it is looked at. *)
Record LlamaModule : Type := {
  has_getBackendDevicesInfo : bool;
  has_toggleNativeLog : bool }.

Record InitParams : Type := {
  model : string;
  n_ctx : N;
  n_gpu_layers : option N }.

(** A loaded model *)
Definition LlamaContext : Type := nat.

Record LLMConfig : Type := {
  modelUrl : string;
  modelName : string;
  cfg_systemPrompt : string }.

(** The fields of the service *)
Record Service : Type := {
  context : option LlamaContext;
  systemPrompt : string;
  modelPath : string;
  isInitialized : bool }.

(** What the service does to the device, in the order in which it does
    it. *)
Inductive Effect : Type :=
| Waited (ms : N)
| GotInfo (path : string)
| Deleted (path : string)
| Downloaded (url path : string)
| Imported
| AskedDevices
| ToggledLog
| InitCalled (params : InitParams)
| Released (ctx : LlamaContext).

(** The device: the file system, the module [llama.rn] and the engine
    behind it.  The answer to a call may depend on how many calls of the
    same operation came before it (the first argument), so that a device
    can behave differently from one attempt to the next.  A download
    reports its progress before it ends. *)
Record Device : Type := {
  documentDirectory : string;
  initLlama_is_function : bool;
  getInfoAsync : nat -> string -> Outcome FileInfo;
  deleteAsync : nat -> string -> Outcome unit;
  downloadAsync : nat -> string -> string -> list Q * Outcome unit;
  import_llama : nat -> Outcome LlamaModule;
  getBackendDevicesInfo : nat -> Outcome bool;
  toggleNativeLog : nat -> Outcome unit;
  initLlama : nat -> InitParams -> Outcome LlamaContext;
  release : nat -> LlamaContext -> Outcome unit }.

(** A run threads the service, the effects so far and the progress
    reported to the caller. *)
Record State : Type := {
  service : Service;
  trace : list Effect;
  reported : list Q }.

Definition Task (A : Type) : Type := State -> Outcome A * State.

Definition ret {A : Type} (a : A) : Task A := fun s => (Ok a, s).

Definition raise {A : Type} (e : Thrown) : Task A := fun s => (Raise e, s).

Definition bind {A B : Type} (c : Task A) (k : A -> Task B) : Task B :=
  fun s =>
    match c s with
    | (Ok a, s1) => k a s1
    | (Raise e, s1) => (Raise e, s1)
    end.

Definition try_catch {A : Type} (body : Task A) (handler : Thrown -> Task A)
  : Task A :=
  fun s =>
    match body s with
    | (Ok a, s1) => (Ok a, s1)
    | (Raise e, s1) => handler e s1
    end.

Definition same_kind (a b : Effect) : bool :=
  match a, b with
  | Waited _, Waited _ | GotInfo _, GotInfo _ | Deleted _, Deleted _
  | Downloaded _ _, Downloaded _ _ | Imported, Imported
  | AskedDevices, AskedDevices | ToggledLog, ToggledLog
  | InitCalled _, InitCalled _ | Released _, Released _ => true
  | _, _ => false
  end.

Definition calls_before (e : Effect) (s : State) : nat :=
  List.length (filter (same_kind e) (trace s)).

Definition record (e : Effect) (s : State) : State :=
  {| service := service s; trace := (trace s ++ [e])%list;
     reported := reported s |}.

(** A call of the device *)
Definition call {A : Type} (e : Effect) (answer : nat -> Outcome A) : Task A :=
  fun s => (answer (calls_before e s), record e s).

(** [await new Promise(resolve => setTimeout(resolve, ms))] *)
Definition wait (ms : N) : Task unit := call (Waited ms) (fun _ => Ok tt).

Definition set_service (f : Service -> Service) : Task unit :=
  fun s =>
    (Ok tt,
     {| service := f (service s); trace := trace s;
        reported := reported s |}).

(** The two tests of the second phase of [checkNativeModule] *)
Definition test_getBackendDevicesInfo (d : Device) : Task bool :=
  bind (call Imported (import_llama d)) (fun m =>
  if has_getBackendDevicesInfo m then
    call AskedDevices (getBackendDevicesInfo d)
  else ret false).

Definition test_toggleNativeLog (d : Device) : Task bool :=
  bind (call Imported (import_llama d)) (fun m =>
  if has_toggleNativeLog m then
    bind (call ToggledLog (toggleNativeLog d)) (fun _ => ret true)
  else ret false).

Definition message_includes (e : Thrown) (p : string) : bool :=
  match message e with
  | Some m => truthy m && includes m p
  | None => false
  end.

(** [error?.message && !error.message.includes('initContext') &&
    !error.message.includes('null')] *)
Definition other_error (e : Thrown) : bool :=
  match message e with
  | Some m =>
      truthy m && negb (includes m "initContext") && negb (includes m "null")
  | None => false
  end.

(** The third phase: one attempt after each delay. *)
Fixpoint delayed_attempts (d : Device) (delays : list N) : Task bool :=
  match delays with
  | [] => ret false
  | delay :: rest =>
      bind (wait delay) (fun _ =>
      bind
        (try_catch
           (bind (call Imported (import_llama d)) (fun llamaModule =>
            if has_getBackendDevicesInfo llamaModule then
              try_catch
                (bind (call AskedDevices (getBackendDevicesInfo d))
                   (fun _ => ret true))
                (fun error => ret (other_error error))
            else ret false))
           (fun _ => ret false))
        (fun found =>
           if found then ret true else delayed_attempts d rest))
  end.

(** [checkNativeModule]; the fourth phase only writes to the console. *)
Definition checkNativeModule (d : Device) : Task bool :=
  if negb (initLlama_is_function d) then ret false
  else
    bind (try_catch (test_getBackendDevicesInfo d) (fun _ => ret false))
      (fun success =>
    if success then ret true
    else
      bind (try_catch (test_toggleNativeLog d) (fun _ => ret false))
        (fun success =>
      if success then ret true
      else delayed_attempts d [2000; 4000; 6000]%N)).

Definition maxRetries : nat := 5.

Definition initParams (path : string) (retryCount : nat) : InitParams :=
  {| model := path; n_ctx := 2048;
     n_gpu_layers := if (0 <? retryCount)%nat then Some 99%N else None |}.

(** The loop of [initialize]: [left] is [maxRetries - retryCount], and the
    loop runs while it is positive. *)
Fixpoint attempts (d : Device) (left retryCount : nat)
    (lastError : option Thrown) : Task unit :=
  match left with
  | O =>
      raise
        match lastError with
        | Some e => e
        | None =>
            new_Error "Failed to initialize llama.rn after multiple attempts"
        end
  | S left' =>
      fun s =>
        let params := initParams (modelPath (service s)) retryCount in
        match call (InitCalled params) (fun n => initLlama d n params) s with
        | (Ok ctx, s1) =>
            set_service
              (fun v =>
                 {| context := Some ctx; systemPrompt := systemPrompt v;
                    modelPath := modelPath v; isInitialized := true |}) s1
        | (Raise initError, s1) =>
            let retryCount := S retryCount in
            bind
              (if (retryCount <? maxRetries)%nat
               then wait (1000 * N.of_nat retryCount)
               else ret tt)
              (fun _ => attempts d left' retryCount (Some initError)) s1
        end
  end.

(** The download, with the reports of its progress *)
Definition download (d : Device) (url path : string) : Task unit :=
  fun s =>
    let (reports, outcome) :=
      downloadAsync d (calls_before (Downloaded url path) s) url path in
    (outcome,
     {| service := service s;
        trace := (trace s ++ [Downloaded url path])%list;
        reported := (reported s ++ reports)%list |}).

Definition megabyte : N := (1024 * 1024)%N.

(** The body of the [try] of [initialize] *)
Definition initialize_body (d : Device) (config : LLMConfig) : Task unit :=
  bind
    (set_service
       (fun v =>
          {| context := context v;
             systemPrompt := cfg_systemPrompt config;
             modelPath := documentDirectory d ++ modelName config;
             isInitialized := isInitialized v |}))
    (fun _ =>
  let path := documentDirectory d ++ modelName config in
  bind (wait 2000%N) (fun _ =>
  bind (call (GotInfo path) (fun n => getInfoAsync d n path))
    (fun fileInfo =>
  let shouldDownload := negb (file_exists fileInfo) in
  bind
    (match file_exists fileInfo, size fileInfo with
     | true, Some n =>
         if (n <? megabyte)%N then
           bind (call (Deleted path) (fun k => deleteAsync d k path))
             (fun _ => ret true)
         else ret shouldDownload
     | _, _ => ret shouldDownload
     end)
    (fun shouldDownload =>
  bind
    (if shouldDownload then
       bind (download d (modelUrl config) path) (fun _ =>
       bind (call (GotInfo path) (fun n => getInfoAsync d n path))
         (fun downloadedFileInfo =>
       if negb (file_exists downloadedFileInfo)
          || match size downloadedFileInfo with
             | Some n => (n =? 0)%N
             | None => false
             end
       then raise (new_Error "Downloaded model file is missing or empty")
       else wait 500%N))
     else ret tt)
    (fun _ =>
  bind (wait 1000%N) (fun _ =>
  bind (checkNativeModule d) (fun nativeModuleReady =>
  if negb nativeModuleReady then
    raise
      (new_Error
         "AI engine (llama.rn) is not ready. Please restart the app and try again.")
  else if negb (initLlama_is_function d) then
    raise
      (new_Error
         "llama.rn module not properly loaded - initLlama is not a function")
  else attempts d maxRetries 0 None))))))).

(** The text of [error.message] in a template *)
Definition message_text (e : Thrown) : string :=
  match message e with
  | Some m => m
  | None => "undefined"
  end.

(** The message and the hint of the error that [initialize] throws. *)
Definition explain (error : Thrown) : string * string :=
  if message_includes error "initContext" then
    ("AI native module failed to load",
     "Please completely close and restart the app.")
  else if message_includes error "null" then
    ("AI engine not properly loaded",
     "The app may need to be reinstalled or the device restarted.")
  else if message_includes error "llama.rn module not properly loaded" then
    ("AI engine component missing",
     "Please reinstall the app or check for updates.")
  else if message_includes error "not ready" then
    ("AI engine not ready", "Please restart the app and try again.")
  else ("Error initializing AI model", "").

Definition enhanced (error : Thrown) : Thrown :=
  let (errorMessage, recoveryHint) := explain error in
  let fullMessage :=
    if truthy recoveryHint then errorMessage ++ ". " ++ recoveryHint
    else errorMessage in
  new_Error
    (fullMessage ++ String nl "Original error: " ++ message_text error).

Definition initialize (d : Device) (config : LLMConfig) : Task unit :=
  try_catch (initialize_body d config)
    (fun error =>
       bind
         (set_service
            (fun v =>
               {| context := None; systemPrompt := systemPrompt v;
                  modelPath := modelPath v; isInitialized := false |}))
         (fun _ => raise (enhanced error))).

Definition updateSystemPrompt (newSystemPrompt : string) : Task unit :=
  set_service
    (fun v =>
       {| context := context v; systemPrompt := newSystemPrompt;
          modelPath := modelPath v; isInitialized := isInitialized v |}).

Definition isReady (v : Service) : bool :=
  isInitialized v && match context v with Some _ => true | None => false end.

Definition getModelPath (v : Service) : string := modelPath v.

(** [release], of the service *)
Definition release_service (d : Device) : Task unit :=
  fun s =>
    match context (service s) with
    | Some ctx =>
        bind (call (Released ctx) (fun n => release d n ctx)) (fun _ =>
        set_service
          (fun v =>
             {| context := None; systemPrompt := systemPrompt v;
                modelPath := modelPath v; isInitialized := false |})) s
    | None => (Ok tt, s)
    end.

(** The service as [generateResponse] and [analyzeConversation] see it. *)
Definition as_seen (v : Service) : LLMService.t :=
  {| LLMService.ready := isReady v;
     LLMService.systemPrompt := systemPrompt v |}.

(** [MODEL_CONFIGS.LFM_INSTRUCT] with a system prompt *)
Definition LFM_INSTRUCT (prompt : string) : LLMConfig :=
  {| modelUrl :=
       "https://huggingface.co/LiquidAI/LFM2.5-1.2B-Instruct-GGUF/resolve/main/LFM2.5-1.2B-Instruct-Q4_K_M.gguf";
     modelName := "lfm_instruct_v1.gguf";
     cfg_systemPrompt := prompt |}.

End LLMSetup.

(** ** The start of the chat screen ([screens/ChatScreen.tsx],
       [initializeChat]) *)

Module ChatStart.
Import JsString SQLiteService.
Local Open Scope string_scope.

(** The state of the component that [initializeChat] sets. *)
Record t : Type := {
  messages : list Message;
  status : string;
  downloadProgress : Q }.

Definition initial : t :=
  {| messages := []; status := "Initializing..."; downloadProgress := 0%Q |}.

(** The last value given to [setDownloadProgress] by the reports of a
    download. *)
Definition after_reports (reports : list Q) (p : Q) : Q :=
  last reports p.

(** One call of [initializeChat], run to its end: the state of the
    component, of the store and of the service. *)
Definition initializeChat (d : LLMSetup.Device) (systemPrompt : string)
    (c : t) (w : World) (s : LLMSetup.State)
  : t * World * LLMSetup.State :=
  match getAllMessages w with
  | (Throw _, w1) =>
      ({| messages := messages c; status := "AI Engine Error";
          downloadProgress := downloadProgress c |}, w1, s)
  | (Normal history, w1) =>
      if LLMSetup.isReady (LLMSetup.service s) then
        ({| messages := history; status := "Ready";
            downloadProgress := downloadProgress c |}, w1, s)
      else
        let before := List.length (LLMSetup.reported s) in
        match
          LLMSetup.initialize d (LLMSetup.LFM_INSTRUCT systemPrompt) s
        with
        | (LLMSetup.Ok _, s1) =>
            ({| messages := history; status := "Ready";
                downloadProgress := 0%Q |}, w1, s1)
        | (LLMSetup.Raise _, s1) =>
            ({| messages := history; status := "AI Engine Error";
                downloadProgress :=
                  after_reports (skipn before (LLMSetup.reported s1))
                    (downloadProgress c) |}, w1, s1)
        end
  end.

End ChatStart.

(** ** Notions used to state the properties *)

Module Spec.
Import JsString SQLiteService LLMService Json BackgroundAgent.
Local Open Scope string_scope.

(** The last [n] elements of a list, in their order. *)
Definition most_recent {A : Type} (n : nat) (l : list A) : list A :=
  rev (firstn n (rev l)).

(** A closed turn of the chat prompt. *)
Definition turn (role content : string) : string :=
  "<|im_start|>" ++ role ++ line_break ++ content ++ "<|im_end|>"
    ++ line_break.

(** The turns of the messages [l] of a history, one after the other: a
    message of the user under the tag user, a message of the companion
    under the tag assistant. *)
Fixpoint turns (l : list Message) : string :=
  match l with
  | [] => ""
  | msg :: r =>
      match m_sender msg with
      | user => turn "user" (m_content msg)
      | assistant => turn "assistant" (m_content msg)
      end ++ turns r
  end.

Definition strip_token (tok : string) : string -> string :=
  replace_all (re_literal tok) "".


(** [s] has no white space at either end. *)
Definition trimmed (s : string) : Prop :=
  trimStart s = s /\ trimEnd s = s.





(** The result of [generateResponse] for the raw text of the engine. *)
Definition sanitized (raw : string) : GenerationResult :=
  {| text := removeSuggestions (cleanResponse raw);
     suggestions :=
       match extractSuggestions (cleanResponse raw) with
       | [] => None
       | l => Some l
       end |}.

(** A text whose bracketed token is not at the end of its last line. *)
Definition example_inner_bracket : string := "Hello [a] there".

(** A last line with a bracketed token before its trailing group. *)
Definition example_two_groups : string := "[a] mid [b]".

(** The property [key] of a parsed value that is not [null]. *)
Definition property (v : value) (key : string) : option value :=
  match v with
  | JObject members => member key members
  | _ => None
  end.

(** The four keys of a parsed value, each coerced to an array. *)
Definition coerced (v : value) : ParsedAnalysis :=
  {| p_notes := array_or_empty (property v "notes");
     p_listItems := array_or_empty (property v "listItems");
     p_completedGoals := array_or_empty (property v "completedGoals");
     p_mindmapNodes := array_or_empty (property v "mindmapNodes") |}.

Definition empty_analysis : ParsedAnalysis :=
  {| p_notes := []; p_listItems := []; p_completedGoals := [];
     p_mindmapNodes := [] |}.

Definition example_notes_string : string := quotes "{'notes':'x'}".

Definition fence : string := "```".

(** A computation relates the database before to the database after by
    [R], whether it returns or throws. *)
Definition preserves {A : Type} (R : Database -> Database -> Prop)
    (c : M A) : Prop :=
  forall w r w', c w = (r, w') -> R (db w) (db w').

(** What an update of a goal may change: the streak counter, which does
    not decrease, and the date of the last completion. *)
Definition same_but_streak (g g' : Goal) : Prop :=
  g_id g' = g_id g /\ g_title g' = g_title g
  /\ g_frequency g' = g_frequency g
  /\ g_target_count g' = g_target_count g
  /\ g_created_at g' = g_created_at g
  /\ (g_streak_count g <= g_streak_count g')%Z.

(** The database [d'] has all the rows of [d], unchanged and in the same
    places, except that goals may have been updated; rows may have been
    added to the notes, the lists, the list items and the mindmap nodes. *)
Definition only_adds (d d' : Database) : Prop :=
  User d' = User d
  /\ Messages d' = Messages d
  /\ (exists added, Notes d' = (Notes d ++ added)%list)
  /\ (exists added, Lists d' = (Lists d ++ added)%list)
  /\ (exists added, ListItems d' = (ListItems d ++ added)%list)
  /\ (exists added, MindmapNodes d' = (MindmapNodes d ++ added)%list)
  /\ Forall2 same_but_streak (Goals d) (Goals d').

(** The category given to a list created for [name]. *)
Definition list_type (name : string) : string :=
  replace_all re_spaces "_" (toLowerCase name).

Fixpoint all_space (s : string) : bool :=
  match s with
  | EmptyString => true
  | String c r => is_space c && all_space r
  end.

(** The items of [its] that are inserted into a container whose entries
    have the contents [have]: an item is left out when an entry, one that
    was there or one inserted before it, is the same text letter case
    aside. *)
Fixpoint fresh_items (have its : list string) : list string :=
  match its with
  | [] => []
  | x :: r =>
      if existsb (fun c => same_text c x) have then fresh_items have r
      else x :: fresh_items (have ++ [x])%list r
  end.

(** The contents of the entries of the container [listId]. *)
Definition contents_of (listId : Z) (d : Database) : list string :=
  map i_content (filter (fun i => (i_list_id i =? listId)%Z) (ListItems d)).

(** [rows] are new entries of the container [listId] with the contents
    [contents], in that order. *)
Definition new_items (listId : Z) (contents : list string)
    (rows : list ListItem) : Prop :=
  map i_content rows = contents
  /\ Forall (fun i => i_list_id i = listId /\ i_is_completed i = false) rows.

(** A store with one list and no entries, and a group for it. *)
Definition empty_database : Database :=
  {| User := []; Messages := []; Notes := []; Lists := []; ListItems := [];
     Goals := []; MindmapNodes := [];
     seq_Notes := 0; seq_Lists := 0; seq_ListItems := 0;
     seq_MindmapNodes := 0 |}.

Definition groceries_database : Database :=
  {| User := []; Messages := []; Notes := [];
     Lists := [{| l_id := 1; l_title := "Groceries"; l_type := "groceries";
                  l_created_at := 100 |}];
     ListItems := []; Goals := []; MindmapNodes := [];
     seq_Notes := 0; seq_Lists := 1; seq_ListItems := 0;
     seq_MindmapNodes := 0 |}.

Definition quiet_world (d : Database) : World :=
  {| db := d; opened := true; now := 200; schedule := [] |}.

(** What a computation returns on the quiet store with the data [d], and
    the store it leaves. *)
Definition outcome (c : M unit) (d : Database) : Completion unit :=
  fst (c (quiet_world d)).

Definition store_after (c : M unit) (d : Database) : World :=
  snd (c (quiet_world d)).

Definition milk_group : ListGroup :=
  {| listName := Some "groceries"; items := Some ["Milk"; "milk"] |}.

Definition weekend_group : ListGroup :=
  {| listName := Some "Weekend  To Do"; items := Some ["Milk"; "milk"] |}.

(** A store with two lists whose titles contain the name groceries, the
    second created later and holding one entry, and a group for them. *)
Definition pantry_database : Database :=
  {| User := []; Messages := []; Notes := [];
     Lists := [{| l_id := 1; l_title := "Groceries"; l_type := "groceries";
                  l_created_at := 100 |};
               {| l_id := 2; l_title := "More groceries";
                  l_type := "more_groceries"; l_created_at := 150 |}];
     ListItems := [{| i_id := 1; i_list_id := 2; i_content := "MILK";
                      i_is_completed := false; i_created_at := 160 |}];
     Goals := []; MindmapNodes := [];
     seq_Notes := 0; seq_Lists := 2; seq_ListItems := 1;
     seq_MindmapNodes := 0 |}.

Definition eggs_group : ListGroup :=
  {| listName := Some "groceries"; items := Some ["Milk"; "Eggs"] |}.




Definition hiking : MindmapItem :=
  {| label := Some "Loves hiking"; category := Some values;
     confidence := Some (Qmake 9 10) |}.

Definition hiking_analysis : AnalysisResult :=
  {| notes := []; listItems := []; completedGoals := [];
     mindmapNodes := [hiking] |}.


(** The applications of the items of a result, in the order in which
    [applyAnalysisResults] runs them. *)
Definition steps (a : AnalysisResult) : list (M unit) :=
  (map applyNote (notes a)
   ++ map applyListGroup (listItems a)
   ++ map applyGoalCompletion (completedGoals a)
   ++ map applyMindmapNode (mindmapNodes a))%list.

Fixpoint run_all (cs : list (M unit)) : M unit :=
  match cs with
  | [] => ret tt
  | c :: r => c ;;; run_all r
  end.

(** A result with two notes and a fact, and a store whose next call
    fails and whose later calls would succeed. *)
Definition two_notes : AnalysisResult :=
  {| notes := [{| title := Some "Dentist"; body := Some "Tuesday at 10" |};
               {| title := Some "Gift"; body := Some "A book for Ana" |}];
     listItems := []; completedGoals := [];
     mindmapNodes := [hiking] |}.

Definition faulty_world : World :=
  {| db := empty_database; opened := true; now := 200;
     schedule := [{| ev_fails := true; ev_time := 201 |}] |}.

(** The new messages of a run. *)
Definition new_messages (this : Agent) (allMessages : list Message)
  : list Message :=
  filter (fun msg => (id_or_0 msg >? lastProcessedMessageId this)%Z)
    allMessages.

Definition mark (this : Agent) : Z := lastProcessedMessageId this.

(** The reading of well-typed items, used in the examples. *)
Definition string_property (v : value) (key : string) : option string :=
  match property v key with
  | Some (JString s) => Some s
  | _ => None
  end.

Definition strings_of (l : list value) : list string :=
  flat_map (fun v => match v with JString s => [s] | _ => [] end) l.

Definition category_of (s : option string) : option Category :=
  match s with
  | Some s =>
      if String.eqb s "values" then Some values
      else if String.eqb s "goals" then Some goals
      else if String.eqb s "personality" then Some personality
      else if String.eqb s "facts" then Some facts
      else None
  | None => None
  end.

Definition read_typed (p : ParsedAnalysis) : AnalysisResult :=
  {| notes :=
       map (fun v => {| title := string_property v "title";
                        body := string_property v "body" |}) (p_notes p);
     listItems :=
       map (fun v =>
              {| listName := string_property v "listName";
                 items := match property v "items" with
                          | Some (JArray l) => Some (strings_of l)
                          | _ => None
                          end |}) (p_listItems p);
     completedGoals :=
       map (fun v => {| goalTitle := string_property v "title" |})
         (p_completedGoals p);
     mindmapNodes :=
       map (fun v =>
              {| label := string_property v "label";
                 category := category_of (string_property v "category");
                 confidence := match property v "confidence" with
                               | Some (JNumber q) => Some q
                               | _ => None
                               end |}) (p_mindmapNodes p) |}.

(** A conversation of two turns, and an engine that answers every prompt
    with one analysis, or with text that is not JSON. *)
Definition two_turns : list Message :=
  [{| m_id := 1; m_content := "I love hiking"; m_sender := user;
      m_timestamp := 10; m_context_json := None |};
   {| m_id := 2; m_content := "Noted!"; m_sender := assistant;
      m_timestamp := 11; m_context_json := None |}].

Definition chat_database : Database :=
  {| User := []; Messages := two_turns; Notes := []; Lists := [];
     ListItems := []; Goals := []; MindmapNodes := [];
     seq_Notes := 0; seq_Lists := 0; seq_ListItems := 0;
     seq_MindmapNodes := 0 |}.

Definition analysis_text : string :=
  quotes "{'notes': [], 'listItems': [], 'completedGoals': [],
 'mindmapNodes': [{'label': 'Loves hiking', 'category': 'values', 'confidence': 0.9}]}".

Definition ready_service : LLMService.t :=
  {| ready := true; systemPrompt := "You are Vi." |}.

Definition good_env : Env :=
  {| llm := ready_service; engine := fun _ => Normal analysis_text;
     typed := read_typed |}.

Definition bad_env : Env :=
  {| llm := ready_service; engine := fun _ => Normal "Sorry, no."%string;
     typed := read_typed |}.

(** A store with the two turns of the example, two lists and an entry; a
    result with a group for the second list and a group for a list that
    is not there yet; and an engine whose analysis holds these groups. *)
Definition pantry_chat_database : Database :=
  {| User := []; Messages := two_turns; Notes := [];
     Lists := Lists pantry_database; ListItems := ListItems pantry_database;
     Goals := []; MindmapNodes := [];
     seq_Notes := 0; seq_Lists := 2; seq_ListItems := 1;
     seq_MindmapNodes := 0 |}.

Definition shopping_analysis : AnalysisResult :=
  {| notes := []; listItems := [eggs_group; weekend_group];
     completedGoals := []; mindmapNodes := [] |}.

Definition shopping_text : string :=
  quotes "{'notes': [], 'listItems': [{'listName': 'groceries', 'items': ['Milk', 'Eggs']}, {'listName': 'Weekend  To Do', 'items': ['Milk', 'milk']}], 'completedGoals': [], 'mindmapNodes': []}".

Definition shopping_env : Env :=
  {| llm := ready_service; engine := fun _ => Normal shopping_text;
     typed := read_typed |}.

(** The entries of a store, each with the key of its list. *)
Definition entries (d : Database) : list (Z * string) :=
  map (fun i => (i_list_id i, i_content i)) (ListItems d).

Definition idle : Agent :=
  {| isProcessing := false; lastProcessedMessageId := 0 |}.

(** A history of ten turns: four older ones and the six most recent. *)
Definition said (i : Z) (who : Sender) (what : string) : Message :=
  {| m_id := i; m_content := what; m_sender := who; m_timestamp := i;
     m_context_json := None |}.

Definition first_four : list Message :=
  [said 1 user "one"; said 2 assistant "two"; said 3 user "three";
   said 4 assistant "four"].

Definition last_six : list Message :=
  [said 5 user "five"; said 6 assistant "six"; said 7 user "seven";
   said 8 assistant "eight"; said 9 user "nine"; said 10 assistant "ten"].

Definition ten_turns : list Message := (first_four ++ last_six)%list.

(** A store with one goal, and a completion that names part of its
    title. *)
Definition morning_run : Goal :=
  {| g_id := 1; g_title := "Morning Run"; g_frequency := daily;
     g_streak_count := 3; g_last_completed_date := None;
     g_target_count := None; g_created_at := 50 |}.

Definition goals_database : Database :=
  {| User := []; Messages := []; Notes := []; Lists := []; ListItems := [];
     Goals := [morning_run]; MindmapNodes := [];
     seq_Notes := 0; seq_Lists := 0; seq_ListItems := 0;
     seq_MindmapNodes := 0 |}.

Definition run_done : GoalCompletion := {| goalTitle := Some "run" |}.

(** A store with a second goal, created after the first, a completion
    whose title is part of both titles, and one that names no goal. *)
Definition evening_read : Goal :=
  {| g_id := 2; g_title := "Evening Read"; g_frequency := daily;
     g_streak_count := 7; g_last_completed_date := Some 120%Z;
     g_target_count := None; g_created_at := 60 |}.

Definition habits_database : Database :=
  {| User := []; Messages := []; Notes := []; Lists := []; ListItems := [];
     Goals := [morning_run; evening_read]; MindmapNodes := [];
     seq_Notes := 0; seq_Lists := 0; seq_ListItems := 0;
     seq_MindmapNodes := 0 |}.

Definition ing_done : GoalCompletion := {| goalTitle := Some "ING" |}.

Definition swim_done : GoalCompletion := {| goalTitle := Some "swim" |}.

(** An event of a call that the store accepts. *)
Definition accepted (ev : Event) : Prop := ev_fails ev = false.

(** The calls of [c] end at the first one that the store rejects.  From
    [w] to [w'] the calls used the events [used] of the schedule: either
    all of them were accepted, and the outcome is not the failure of the
    store; or the last of them was rejected and all before it accepted,
    and the outcome is the failure of the store, at the time of the
    rejected call. *)
Definition ends_at_rejection {A : Type} (c : M A) : Prop :=
  forall w r w', c w = (r, w') ->
    exists used,
      schedule w = (used ++ schedule w')%list
      /\ ((Forall accepted used /\ r <> Throw StoreFailure)
          \/ exists good ev,
               used = (good ++ [ev])%list
               /\ Forall accepted good
               /\ ev_fails ev = true
               /\ r = Throw StoreFailure
               /\ now w' = ev_time ev).

(** A store with a list and a goal that rejects the fifth call to come; a
    result with a note, a group for a list that is not there, a completion
    and a fact; and the store as the result leaves it. *)
Definition dentist : NoteItem :=
  {| title := Some "Dentist"; body := Some "Tuesday at 10" |}.

Definition busy_day : AnalysisResult :=
  {| notes := [dentist]; listItems := [weekend_group];
     completedGoals := [run_done]; mindmapNodes := [hiking] |}.

Definition home_database : Database :=
  {| User := []; Messages := []; Notes := [];
     Lists := [{| l_id := 1; l_title := "Groceries"; l_type := "groceries";
                  l_created_at := 100 |}];
     ListItems := []; Goals := [morning_run]; MindmapNodes := [];
     seq_Notes := 0; seq_Lists := 1; seq_ListItems := 0;
     seq_MindmapNodes := 0 |}.

Definition fifth_call_fails : World :=
  {| db := home_database; opened := true; now := 200;
     schedule := [{| ev_fails := false; ev_time := 201 |};
                  {| ev_fails := false; ev_time := 202 |};
                  {| ev_fails := false; ev_time := 203 |};
                  {| ev_fails := false; ev_time := 204 |};
                  {| ev_fails := true; ev_time := 205 |};
                  {| ev_fails := false; ev_time := 206 |}] |}.

Definition left_midway : World :=
  {| db :=
       {| User := []; Messages := [];
          Notes := [{| n_id := 1; n_title := "Dentist";
                       n_body := "Tuesday at 10"; n_created_by := by_vi;
                       n_tags := None; n_created_at := 201 |}];
          Lists := [{| l_id := 1; l_title := "Groceries";
                       l_type := "groceries"; l_created_at := 100 |};
                    {| l_id := 2; l_title := "Weekend  To Do";
                       l_type := "weekend_to_do"; l_created_at := 203 |}];
          ListItems := [{| i_id := 1; i_list_id := 2; i_content := "Milk";
                           i_is_completed := false; i_created_at := 204 |}];
          Goals := [morning_run]; MindmapNodes := [];
          seq_Notes := 1; seq_Lists := 2; seq_ListItems := 1;
          seq_MindmapNodes := 0 |};
     opened := true; now := 205;
     schedule := [{| ev_fails := false; ev_time := 206 |}] |}.

(** The parsed form of the analysis of the example. *)
Definition parsed_example : ParsedAnalysis :=
  match parseAnalysisResult analysis_text with
  | Normal (Some p) => p
  | _ => empty_analysis
  end.

(** The keys of the messages do not decrease along the list. *)
Definition ids_ascending (l : list Message) : Prop :=
  StronglySorted (fun a b => (id_or_0 a <= id_or_0 b)%Z) l.

(** The notes of a result that have a title and a body, both non-empty. *)
Definition storable_notes (a : AnalysisResult) : list (string * string) :=
  flat_map
    (fun n =>
       match title n, body n with
       | Some t, Some b => if truthy t && truthy b then [(t, b)] else []
       | _, _ => []
       end)%list
    (notes a).

Definition same_notes_table (d d' : Database) : Prop := Notes d' = Notes d.

(** The notes [rows] were written by the pipeline from the pairs [tb] of
    title and body, in that order. *)
Definition notes_from (tb : list (string * string)) (rows : list Note)
  : Prop :=
  map (fun n => (n_title n, n_body n)) rows = tb
  /\ Forall (fun n => n_created_by n = by_vi /\ n_tags n = None) rows.

(** A store that is open and rejects none of the calls to come. *)
Definition calm (w : World) : Prop :=
  opened w = true /\ Forall (fun ev => ev_fails ev = false) (schedule w).

(** On a store that rejects nothing the computation returns, and leaves a
    store that rejects nothing. *)
Definition completes {A : Type} (c : M A) : Prop :=
  forall w, calm w -> exists a w', c w = (Normal a, w') /\ calm w'.

(** The keys of the rows are distinct and not above the last key handed
    out. *)
Definition keys_below {A : Type} (key : A -> Z) (seq : Z) (rows : list A)
  : Prop :=
  Forall (fun r => (key r <= seq)%Z) rows /\ NoDup (map key rows).

Definition keys_ok (d : Database) : Prop :=
  keys_below n_id (seq_Notes d) (Notes d)
  /\ keys_below l_id (seq_Lists d) (Lists d)
  /\ keys_below i_id (seq_ListItems d) (ListItems d)
  /\ keys_below k_id (seq_MindmapNodes d) (MindmapNodes d)
  /\ NoDup (map g_id (Goals d)).

Definition keeps_keys (d d' : Database) : Prop := keys_ok d -> keys_ok d'.

(** Every list item belongs to a list of the store. *)
Definition has_list (id : Z) (d : Database) : Prop :=
  exists l, In l (Lists d) /\ l_id l = id.

Definition fk_ok (d : Database) : Prop :=
  forall i, In i (ListItems d) -> has_list (i_list_id i) d.

Definition keeps_fk (d d' : Database) : Prop := fk_ok d -> fk_ok d'.

Definition keeps_fk_with (id : Z) (d d' : Database) : Prop :=
  fk_ok d /\ has_list id d -> fk_ok d' /\ has_list id d'.

Definition same_lists (d d' : Database) : Prop :=
  Lists d' = Lists d /\ ListItems d' = ListItems d.

(** The timestamps of the messages grow strictly along the list. *)
Definition timestamps_increase (l : list Message) : Prop :=
  StronglySorted (fun a b => (m_timestamp a < m_timestamp b)%Z) l.

(** The message log is in order: along the table the timestamps do not
    decrease and the keys, which are positive, grow. *)
Definition well_logged (d : Database) : Prop :=
  StronglySorted (fun a b => (m_timestamp a <= m_timestamp b)%Z)
    (Messages d)
  /\ StronglySorted (fun a b => (m_id a < m_id b)%Z) (Messages d)
  /\ Forall (fun m => (0 < m_id m)%Z) (Messages d).

(** The tokens of the elements of an array of strings *)
Fixpoint element_tokens (l : list string) : list token :=
  match l with
  | [] => []
  | [x] => [TString x]
  | x :: r => TString x :: TComma :: element_tokens r
  end.

(** The profiles are left as they are. *)
Definition same_profiles (d d' : Database) : Prop := User d' = User d.

(** What [buildSystemPrompt] is given at the end of the onboarding. *)
Definition context_of (data : OnboardingScreen.OnboardingData)
  : SystemPromptBuilder.UserContext :=
  {| SystemPromptBuilder.uc_name := OnboardingScreen.od_name data;
     SystemPromptBuilder.uc_nickname := OnboardingScreen.od_nickname data;
     SystemPromptBuilder.uc_role := OnboardingScreen.od_role data;
     SystemPromptBuilder.uc_traits :=
       map SystemPromptBuilder.trait_name
         (OnboardingScreen.od_traits data) |}.

(** A text field that was filled in: not empty, no white space at its
    ends. *)
Definition entered (v : string) : Prop := v <> "" /\ trimmed v.

Definition age_groups : list string := ["18-24"; "25-34"; "35-44"; "45+"].
Definition genders : list string :=
  ["Male"; "Female"; "Non-binary"; "Prefer not to say"].

(** The data of a finished onboarding. *)
Definition complete_data (d : OnboardingScreen.OnboardingData) : Prop :=
  entered (OnboardingScreen.od_name d)
  /\ (forall v, OnboardingScreen.od_nickname d = Some v -> entered v)
  /\ (forall v, OnboardingScreen.od_role d = Some v -> entered v)
  /\ (forall v, OnboardingScreen.od_ageGroup d = Some v -> In v age_groups)
  /\ (forall v, OnboardingScreen.od_gender d = Some v -> In v genders)
  /\ NoDup (OnboardingScreen.od_traits d)
  /\ 1 <= List.length (OnboardingScreen.od_traits d) <= 3.

(** What holds of the data at every moment of the onboarding. *)
Definition data_so_far (d : OnboardingScreen.OnboardingData) : Prop :=
  (OnboardingScreen.od_name d = "" \/ entered (OnboardingScreen.od_name d))
  /\ (forall v, OnboardingScreen.od_nickname d = Some v -> entered v)
  /\ (forall v, OnboardingScreen.od_role d = Some v -> entered v)
  /\ (forall v, OnboardingScreen.od_ageGroup d = Some v -> In v age_groups)
  /\ (forall v, OnboardingScreen.od_gender d = Some v -> In v genders)
  /\ NoDup (OnboardingScreen.od_traits d)
  /\ List.length (OnboardingScreen.od_traits d) <= 3.

(** The place of a step in the onboarding. *)
Definition rank (s : OnboardingScreen.OnboardingStep) : nat :=
  match s with
  | OnboardingScreen.at_intro => 0
  | OnboardingScreen.at_name => 1
  | OnboardingScreen.at_nickname => 2
  | OnboardingScreen.at_role => 3
  | OnboardingScreen.at_basics => 4
  | OnboardingScreen.at_personality => 5
  end.

(** A session: a name with spaces around it, no nickname, a role, an age
    group, four traits tried and one taken back. *)
Definition ada_session : list OnboardingScreen.Action :=
  [OnboardingScreen.Next;
   OnboardingScreen.ChangeText "  Ada ";
   OnboardingScreen.NameSubmit;
   OnboardingScreen.NicknameSubmit;
   OnboardingScreen.ChangeText "Engineer";
   OnboardingScreen.RoleSubmit;
   OnboardingScreen.AgeGroup "25-34";
   OnboardingScreen.Next;
   OnboardingScreen.Complete;
   OnboardingScreen.Toggle SystemPromptBuilder.witty;
   OnboardingScreen.Toggle SystemPromptBuilder.direct;
   OnboardingScreen.Toggle SystemPromptBuilder.stoic;
   OnboardingScreen.Toggle SystemPromptBuilder.formal;
   OnboardingScreen.Toggle SystemPromptBuilder.direct;
   OnboardingScreen.Complete].

Definition ada : OnboardingScreen.OnboardingData :=
  {| OnboardingScreen.od_name := "Ada";
     OnboardingScreen.od_nickname := None;
     OnboardingScreen.od_role := Some "Engineer";
     OnboardingScreen.od_ageGroup := Some "25-34";
     OnboardingScreen.od_gender := None;
     OnboardingScreen.od_traits :=
       [SystemPromptBuilder.witty; SystemPromptBuilder.stoic] |}.

(** Who said what. *)
Definition spoken (m : Message) : Sender * string :=
  (m_sender m, m_content m).

(** The clock of the calls to come does not go back. *)
Fixpoint clock_steady (t : Z) (sched : list Event) : Prop :=
  match sched with
  | [] => True
  | ev :: rest => (t <= ev_time ev)%Z /\ clock_steady (ev_time ev) rest
  end.

(** No message is dated after the present, and the clock does not go
    back. *)
Definition steady (w : World) : Prop :=
  (forall m, In m (Messages (db w)) -> (m_timestamp m <= now w)%Z)
  /\ clock_steady (now w) (schedule w).

(** The characters of a text that are not white space. *)
Fixpoint visible (s : string) : string :=
  match s with
  | EmptyString => EmptyString
  | String c r => if is_space c then visible r else String c (visible r)
  end.

Fixpoint concat_strings (l : list string) : string :=
  match l with
  | [] => EmptyString
  | x :: r => x ++ concat_strings r
  end.

(** [c] occurs in [s]. *)
Fixpoint mentions (c : ascii) (s : string) : bool :=
  match s with
  | EmptyString => false
  | String a r => Ascii.eqb a c || mentions c r
  end.

(** The agent has read the messages of the store, and none beyond. *)
Definition caught_up (this : Agent) (d : Database) : Prop :=
  (forall m, In m (Messages d) -> (m_id m <= mark this)%Z)
  /\ (mark this < next_key (map m_id (Messages d)))%Z.

(** A message of three lines, one of them blank. *)
Definition three_lines : Message :=
  {| m_id := 1;
     m_content := "  Hi there " ++ String nl ("   " ++ String nl "Bye");
     m_sender := assistant; m_timestamp := 1; m_context_json := None |}.

(** Suggestions as the prompt asks for them: tokens in brackets at the
    end of the text, with the same white space between two of them. *)
Definition chip (t : string) : string := "[" ++ t ++ "]".

Definition chips (gap : string) (toks : list string) : string :=
  LLMService.join gap (map chip toks).

(** The text of a suggestion: not empty, without a closing bracket and
    without a line break. *)
Definition chip_text (t : string) : Prop :=
  t <> "" /\ mentions "]" t = false /\ mentions nl t = false.

(** Examples for the chat screen: a screen on which a greeting was typed,
    the readings of the clock of one call, an engine that answers with two
    suggestions, and an agent that has read the two turns of the
    example. *)
Definition typed_hi : ChatScreen.t :=
  {| ChatScreen.input := " hi "; ChatScreen.messages := [];
     ChatScreen.isGenerating := false; ChatScreen.suggestions := [] |}.

Definition first_readings : ChatScreen.Readings :=
  {| ChatScreen.user_id := 1000; ChatScreen.user_time := 1000;
     ChatScreen.reply_id := 1500; ChatScreen.reply_time := 1500 |}.

Definition chips_engine : LLMService.Engine :=
  fun _ => Normal "Hello! [Yes] [No]".

Definition failing_engine : LLMService.Engine :=
  fun _ => Throw EngineFailure.

Definition read_two : Agent :=
  {| isProcessing := false; lastProcessedMessageId := 2 |}.

(** The profile of the example, as [createUser] is given it. *)
Definition ada_profile : NewUser :=
  {| nu_name := "Ada"; nu_nickname := None; nu_role := Some "Engineer";
     nu_age_group := Some "25-34"; nu_gender := None;
     nu_traits_json := JsonText.stringify_strings ["witty"; "stoic"] |}.

(** No prompt is built from traits that are not an array of strings. *)
Definition no_prompt (u : UserProfile) (v : value) : Completion string :=
  Throw TypeError.

(** The store after Milk was put on the grocery list. *)
Definition milk_world : World :=
  snd (applyListGroup milk_group (quiet_world groceries_database)).

(** The delays, the parameters of the calls of [initLlama] and the changes
    of files among the effects of a run. *)
Definition waits (t : list LLMSetup.Effect) : list N :=
  flat_map
    (fun e => match e with LLMSetup.Waited ms => [ms] | _ => [] end) t.

Definition init_params (t : list LLMSetup.Effect)
  : list LLMSetup.InitParams :=
  flat_map
    (fun e => match e with LLMSetup.InitCalled p => [p] | _ => [] end) t.

Definition file_changes (t : list LLMSetup.Effect)
  : list LLMSetup.Effect :=
  filter
    (fun e =>
       match e with
       | LLMSetup.Deleted _ | LLMSetup.Downloaded _ _ => true
       | _ => false
       end) t.

(** A probe of the module [llama.rn], or a delay. *)
Definition probe_or_wait (e : LLMSetup.Effect) : Prop :=
  match e with
  | LLMSetup.Imported | LLMSetup.AskedDevices | LLMSetup.ToggledLog
  | LLMSetup.Waited _ => True
  | _ => False
  end.


(** A part of the service that leaves the service and the reports as they
    are, and adds effects after the ones there are. *)
Definition quiet_run {A : Type} (c : LLMSetup.Task A)
    (P : LLMSetup.Outcome A -> list LLMSetup.Effect -> Prop) : Prop :=
  forall s r s',
    c s = (r, s') ->
    LLMSetup.service s' = LLMSetup.service s
    /\ LLMSetup.reported s' = LLMSetup.reported s
    /\ exists new,
         LLMSetup.trace s' = (LLMSetup.trace s ++ new)%list /\ P r new.

(** The three delays of the third phase of [checkNativeModule]. *)
Definition delays : list N := [2000; 4000; 6000]%N.

(** The file changes of [initialize], read off the answers of the device:
    a missing file is downloaded, a file of less than a megabyte is
    deleted and, when that went through, downloaded, and any other file is
    left alone. *)
Definition expected_file_changes (d : LLMSetup.Device)
    (config : LLMSetup.LLMConfig) (s : LLMSetup.State)
  : list LLMSetup.Effect :=
  let path :=
    LLMSetup.documentDirectory d ++ LLMSetup.modelName config in
  let fetched := LLMSetup.Downloaded (LLMSetup.modelUrl config) path in
  match
    LLMSetup.getInfoAsync d
      (LLMSetup.calls_before (LLMSetup.GotInfo path) s) path
  with
  | LLMSetup.Raise _ => []
  | LLMSetup.Ok info =>
      match LLMSetup.file_exists info, LLMSetup.size info with
      | true, Some n =>
          if (n <? LLMSetup.megabyte)%N then
            LLMSetup.Deleted path
            :: match
                 LLMSetup.deleteAsync d
                   (LLMSetup.calls_before (LLMSetup.Deleted path) s) path
               with
               | LLMSetup.Ok _ => [fetched]
               | LLMSetup.Raise _ => []
               end
          else []
      | true, None => []
      | false, _ => [fetched]
      end
  end.

(** A device on which the model file is there, the module answers, and
    the engine fails to load the model once before it loads it. *)
Definition slow_device : LLMSetup.Device :=
  {| LLMSetup.documentDirectory := "file:///documents/";
     LLMSetup.initLlama_is_function := true;
     LLMSetup.getInfoAsync := fun _ _ =>
       LLMSetup.Ok {| LLMSetup.file_exists := true;
                      LLMSetup.size := Some 700000000%N |};
     LLMSetup.deleteAsync := fun _ _ => LLMSetup.Ok tt;
     LLMSetup.downloadAsync := fun _ _ _ => ([], LLMSetup.Ok tt);
     LLMSetup.import_llama := fun _ =>
       LLMSetup.Ok {| LLMSetup.has_getBackendDevicesInfo := true;
                      LLMSetup.has_toggleNativeLog := true |};
     LLMSetup.getBackendDevicesInfo := fun _ => LLMSetup.Ok true;
     LLMSetup.toggleNativeLog := fun _ => LLMSetup.Ok tt;
     LLMSetup.initLlama := fun n _ =>
       match n with
       | O => LLMSetup.Raise (LLMSetup.new_Error "initContext failed")
       | S _ => LLMSetup.Ok 7
       end;
     LLMSetup.release := fun _ _ => LLMSetup.Ok tt |}.

(** The service before [initialize] *)
Definition not_loaded : LLMSetup.State :=
  {| LLMSetup.service :=
       {| LLMSetup.context := None; LLMSetup.systemPrompt := "";
          LLMSetup.modelPath := ""; LLMSetup.isInitialized := false |};
     LLMSetup.trace := []; LLMSetup.reported := [] |}.

Definition vi_config : LLMSetup.LLMConfig :=
  LLMSetup.LFM_INSTRUCT "You are Vi.".

(** A device on which the module [llama.rn] cannot be imported. *)
Definition deaf_device : LLMSetup.Device :=
  {| LLMSetup.documentDirectory := "file:///documents/";
     LLMSetup.initLlama_is_function := true;
     LLMSetup.getInfoAsync := fun _ _ =>
       LLMSetup.Ok {| LLMSetup.file_exists := true;
                      LLMSetup.size := Some 700000000%N |};
     LLMSetup.deleteAsync := fun _ _ => LLMSetup.Ok tt;
     LLMSetup.downloadAsync := fun _ _ _ => ([], LLMSetup.Ok tt);
     LLMSetup.import_llama := fun _ =>
       LLMSetup.Raise (LLMSetup.new_Error "Cannot read property of null");
     LLMSetup.getBackendDevicesInfo := fun _ => LLMSetup.Ok true;
     LLMSetup.toggleNativeLog := fun _ => LLMSetup.Ok tt;
     LLMSetup.initLlama := fun _ _ => LLMSetup.Ok 7%nat;
     LLMSetup.release := fun _ _ => LLMSetup.Ok tt |}.

(** A device on which the model file has ten bytes at first and is whole
    after the download, which reports its progress twice, and on which the
    engine never loads the model. *)
Definition dead_engine : LLMSetup.Device :=
  {| LLMSetup.documentDirectory := "file:///documents/";
     LLMSetup.initLlama_is_function := true;
     LLMSetup.getInfoAsync := fun n _ =>
       match n with
       | O => LLMSetup.Ok {| LLMSetup.file_exists := true;
                             LLMSetup.size := Some 10%N |}
       | S _ => LLMSetup.Ok {| LLMSetup.file_exists := true;
                               LLMSetup.size := Some 700000000%N |}
       end;
     LLMSetup.deleteAsync := fun _ _ => LLMSetup.Ok tt;
     LLMSetup.downloadAsync := fun _ _ _ =>
       ([Qmake 1 2; Qmake 1 1], LLMSetup.Ok tt);
     LLMSetup.import_llama := fun _ =>
       LLMSetup.Ok {| LLMSetup.has_getBackendDevicesInfo := true;
                      LLMSetup.has_toggleNativeLog := true |};
     LLMSetup.getBackendDevicesInfo := fun _ => LLMSetup.Ok true;
     LLMSetup.toggleNativeLog := fun _ => LLMSetup.Ok tt;
     LLMSetup.initLlama := fun _ _ =>
       LLMSetup.Raise (LLMSetup.new_Error "initContext failed");
     LLMSetup.release := fun _ _ => LLMSetup.Ok tt |}.

Definition model_file : string := "file:///documents/lfm_instruct_v1.gguf".

(** [n] completions of the goal [id], one after the other. *)
Fixpoint complete_times (n : nat) (id : Z) : M unit :=
  match n with
  | O => ret tt
  | S k => updateGoalStreak id ;;; complete_times k id
  end.

End Spec.

(** * Properties *)

Import JsString SQLiteService LLMService Json BackgroundAgent Spec.

(** ** Strings *)

Lemma append_nil_r (s : string) : (s ++ "")%string = s.
Proof. induction s as [|c s IH]; simpl; [reflexivity | now rewrite IH]. Qed.

Lemma append_assoc (a b c : string) :
  ((a ++ b) ++ c)%string = (a ++ (b ++ c))%string.
Proof. induction a as [|x a IH]; simpl; [reflexivity | now rewrite IH]. Qed.

Lemma length_append (a b : string) :
  String.length (a ++ b) = String.length a + String.length b.
Proof. induction a as [|x a IH]; simpl; [reflexivity | now rewrite IH]. Qed.

(** ** The chat prompt *)

Lemma slice_m6_most_recent {A : Type} (l : list A) :
  slice_m6 l = most_recent 6 l.
Proof.
  unfold slice_m6, most_recent.
  now rewrite firstn_rev, rev_involutive.
Qed.

Lemma most_recent_app {A : Type} (older recent : list A) :
  most_recent (List.length recent) (older ++ recent) = recent.
Proof.
  unfold most_recent.
  rewrite rev_app_distr, firstn_app, length_rev, Nat.sub_diag.
  simpl. rewrite app_nil_r.
  rewrite <- (length_rev recent), firstn_all.
  apply rev_involutive.
Qed.

Lemma most_recent_short {A : Type} (n : nat) (l : list A) :
  List.length l <= n -> most_recent n l = l.
Proof.
  intros H. unfold most_recent.
  rewrite firstn_all2 by (rewrite length_rev; exact H).
  apply rev_involutive.
Qed.

Lemma fold_turns (l : list Message) (acc : string) :
  fold_left
    (fun prompt msg =>
       prompt ++ "<|im_start|>" ++ role_of (m_sender msg) ++ line_break
         ++ m_content msg ++ "<|im_end|>" ++ line_break)%string
    l acc
  = (acc ++ turns l)%string.
Proof.
  revert acc. induction l as [|msg l IH]; intros acc; simpl.
  - now rewrite append_nil_r.
  - rewrite IH. unfold turn.
    destruct (m_sender msg); simpl; now rewrite append_assoc.
Qed.

(** C9.  The chat prompt is the system turn, then one closed turn per
    message of the six most recent messages of the history, in their
    order, then the turn of the new user message, then the opening of an
    assistant turn, which is not closed.  Messages before the last six
    leave no trace, and a history of at most six messages is rendered
    whole.  The turn of a message has the tag user when the user sent it
    and the tag assistant otherwise, then a line break, the content, the
    closing marker and a line break. *)
Theorem C9_prompt_keeps_last_six :
  forall (svc : LLMService.t) (userMessage : string)
         (history : list Message),
    buildChatMLPrompt svc userMessage history
    = (turn "system" (systemPrompt svc)
       ++ turns (most_recent 6 history)
       ++ turn "user" userMessage
       ++ "<|im_start|>assistant" ++ line_break)%string
    /\ (forall older recent : list Message,
          history = older ++ recent -> List.length recent = 6 ->
          most_recent 6 history = recent
          /\ buildChatMLPrompt svc userMessage history
             = buildChatMLPrompt svc userMessage recent)
    /\ (List.length history <= 6 -> most_recent 6 history = history)
    /\ (forall (msg : Message) (rest : list Message),
          turns (msg :: rest)
          = ("<|im_start|>"
             ++ (match m_sender msg with
                 | user => "user"
                 | assistant => "assistant"
                 end)
             ++ line_break ++ m_content msg ++ "<|im_end|>" ++ line_break
             ++ turns rest)%string).
Proof.
  intros svc userMessage history.
  assert (E : forall h, buildChatMLPrompt svc userMessage h
    = (turn "system" (systemPrompt svc) ++ turns (most_recent 6 h)
       ++ turn "user" userMessage
       ++ "<|im_start|>assistant" ++ line_break)%string).
  { intros h. unfold buildChatMLPrompt.
    rewrite fold_turns, slice_m6_most_recent. unfold turn.
    now rewrite !append_assoc. }
  split; [apply E|]. split.
  - intros older recent -> Hlen.
    assert (R : most_recent 6 (older ++ recent) = recent)
      by (rewrite <- Hlen; apply most_recent_app).
    split; [exact R|].
    rewrite !E, R.
    now rewrite (most_recent_short 6 recent) by lia.
  - split; [apply most_recent_short|].
    intros msg rest. simpl. unfold turn.
    destruct (m_sender msg); simpl; now rewrite !append_assoc.
Qed.

(** ** Regular expressions: replacing the matches *)

Lemma drop_0 (s : string) : drop 0 s = s.
Proof. now destruct s. Qed.

Lemma drop_append (x y : string) : drop (String.length x) (x ++ y) = y.
Proof. induction x as [|c x IH]; simpl; [apply drop_0 | exact IH]. Qed.

Lemma drop_all (s : string) : drop (String.length s) s = ""%string.
Proof. induction s as [|c s IH]; simpl; [reflexivity | exact IH]. Qed.

Lemma replace_all_from_drop (m : matcher) (repl : string) (k : nat)
    (s : string) :
  replace_all_from m repl k s = replace_all m repl (drop k s).
Proof.
  revert k. induction s as [|c r IH]; intros [|k]; simpl; try reflexivity.
  apply IH.
Qed.

Lemma replace_all_hit (m : matcher) (repl : string) (c : ascii)
    (r : string) (k : nat) :
  m (String c r) = Some (S k) ->
  replace_all m repl (String c r)
  = (repl ++ replace_all m repl (drop k r))%string.
Proof.
  intros H. unfold replace_all at 1. simpl. rewrite H.
  now rewrite replace_all_from_drop.
Qed.

Lemma replace_all_miss (m : matcher) (repl : string) (c : ascii)
    (r : string) :
  m (String c r) = None ->
  replace_all m repl (String c r) = String c (replace_all m repl r).
Proof. intros H. unfold replace_all. simpl. now rewrite H. Qed.


Lemma replace_all_none (m : matcher) (repl s : string) :
  (forall i, i < String.length s -> m (drop i s) = None) ->
  replace_all m repl s = s.
Proof.
  induction s as [|c r IH]; intros H; [reflexivity|].
  rewrite replace_all_miss by (apply (H 0); simpl; lia).
  rewrite IH; [reflexivity|].
  intros i Hi. apply (H (S i)). simpl. lia.
Qed.

(** ** Occurrences of a tag *)

Lemma toLowerCase_append (x y : string) :
  toLowerCase (x ++ y) = (toLowerCase x ++ toLowerCase y)%string.
Proof. induction x as [|c x IH]; simpl; [reflexivity | now rewrite IH]. Qed.

Lemma toLowerCase_length (x : string) :
  String.length (toLowerCase x) = String.length x.
Proof. induction x as [|c x IH]; simpl; [reflexivity | now rewrite IH]. Qed.

Lemma startsWith_refl_append (p y : string) : startsWith (p ++ y) p = true.
Proof.
  induction p as [|c p IH]; simpl; [reflexivity|].
  now rewrite Ascii.eqb_refl, IH.
Qed.



Lemma startsWith_spec (s p : string) :
  startsWith s p = true <-> exists r, s = (p ++ r)%string.
Proof.
  split.
  - revert s. induction p as [|a p IH]; intros s H.
    + now exists s.
    + destruct s as [|b s]; simpl in H; [discriminate|].
      apply andb_prop in H as [E H]. apply Ascii.eqb_eq in E. subst b.
      destruct (IH _ H) as [r ->]. now exists r.
  - intros [r ->]. apply startsWith_refl_append.
Qed.












(** ** The steps of the response sanitizer *)








Lemma strip_token_none (tok s : string) :
  (forall i, startsWith (drop i s) tok = false) ->
  strip_token tok s = s.
Proof.
  intros H. apply replace_all_none. intros i _. unfold re_literal.
  now rewrite H.
Qed.

Lemma includes_spec (s p : string) :
  includes s p = true <-> exists a b, s = (a ++ p ++ b)%string.
Proof.
  split.
  - induction s as [|c s IH]; simpl; intros H.
    + rewrite orb_false_r in H. apply startsWith_spec in H as [r H].
      now exists ""%string, r.
    + apply orb_prop in H as [H|H].
      * apply startsWith_spec in H as [r H]. now exists ""%string, r.
      * destruct (IH H) as (a & b & ->). now exists (String c a), b.
  - intros (a & b & ->). induction a as [|c a IH]; simpl.
    + destruct (p ++ b)%string eqn:E; simpl; rewrite <- E;
        now rewrite startsWith_refl_append.
    + rewrite IH. apply orb_true_r.
Qed.




Lemma trimStart_head (s : string) :
  trimStart s = ""%string
  \/ exists c r, trimStart s = String c r /\ is_space c = false.
Proof.
  induction s as [|c s IH]; simpl; [now left|].
  destruct (is_space c) eqn:E; [exact IH|].
  right. now exists c, s.
Qed.

Lemma trimEnd_idempotent (s : string) : trimEnd (trimEnd s) = trimEnd s.
Proof.
  induction s as [|c s IH]; simpl; [reflexivity|].
  destruct (trimEnd s) as [|d r] eqn:E.
  - destruct (is_space c) eqn:Ec; simpl; [reflexivity | now rewrite Ec].
  - change (trimEnd (String c (String d r)))
      with (match trimEnd (String d r) with
            | EmptyString =>
                if is_space c then EmptyString else String c EmptyString
            | r' => String c r'
            end).
    now rewrite IH.
Qed.

(** What [trim] returns has no white space at either end. *)
Lemma trim_trimmed (s : string) : trimmed (trim s).
Proof.
  unfold trimmed, trim. split; [|apply trimEnd_idempotent].
  destruct (trimStart_head s) as [E | (c & r & E & Hc)]; rewrite E.
  - reflexivity.
  - simpl. destruct (trimEnd r); [rewrite Hc|]; simpl; now rewrite Hc.
Qed.
















(** ** Suggestions *)

(** C7 (the program departs from the claim).  On a text whose last line
    holds a bracketed token that is not part of a group at the end of the
    line, the expression of [removeSuggestions] finds nothing to remove,
    and yet [extractSuggestions] returns the token: it collects every
    bracketed token of the last line.  With a token before the trailing
    group, that token is returned as a suggestion and stays in the text. *)
Theorem C7_suggestions_not_anchored :
  replace_first re_trailing_group "" example_inner_bracket
    = example_inner_bracket
  /\ sanitized example_inner_bracket
     = {| text := "Hello [a] there"; suggestions := Some ["a"] |}
  /\ sanitized example_two_groups
     = {| text := "[a] mid"; suggestions := Some ["a"; "b"] |}.
Proof. repeat split; vm_compute; reflexivity. Qed.

(** ** The analysis result parser *)

Lemma array_or_empty_other (x : option value) :
  (forall l, x <> Some (JArray l)) -> array_or_empty x = [].
Proof.
  intros H. destruct x as [[| | | |l|]|]; try reflexivity.
  now destruct (H l).
Qed.

Lemma parseAnalysisResult_cases (rawJson : string) :
  parseAnalysisResult rawJson
  = match Json.parse (clean_json rawJson) with
    | None => Normal None
    | Some JNull => Normal None
    | Some v => Normal (Some (coerced v))
    end.
Proof.
  unfold parseAnalysisResult, JSON_parse.
  destruct (Json.parse (clean_json rawJson)) as [v|]; [|reflexivity].
  destruct v; reflexivity.
Qed.

(** A closing fence on a line of its own is removed with its line
    break. *)
Lemma fence_close_removed (b : string) :
  replace_first re_fence_close "" (b ++ String nl fence) = b.
Proof.
  induction b as [|c b IH]; [reflexivity|].
  cbn [append replace_first].
  assert (E : re_fence_close (String c (b ++ String nl fence)) = None).
  { unfold re_fence_close.
    destruct (String.eqb_spec (String c (b ++ String nl fence))
                (String nl "```")) as [H|_].
    - apply (f_equal String.length) in H. simpl in H.
      rewrite length_append in H. simpl in H. lia.
    - destruct (String.eqb_spec (String c (b ++ String nl fence)) "```")
        as [H|_]; [|reflexivity].
      apply (f_equal String.length) in H. simpl in H.
      rewrite length_append in H. simpl in H. lia. }
  rewrite E. now rewrite IH.
Qed.

(** An opening fence tagged json, in any case, is removed with the line
    break after it. *)
Lemma fence_open_removed (f b : string) :
  toLowerCase f = "```json"%string ->
  replace_at_start re_fence_open "" (f ++ String nl b) = b.
Proof.
  intros H.
  assert (L : String.length f = 7)
    by (rewrite <- toLowerCase_length, H; reflexivity).
  unfold replace_at_start, re_fence_open.
  rewrite toLowerCase_append, H, startsWith_refl_append.
  replace 7 with (String.length f) at 1 by exact L.
  rewrite drop_append. cbn [Ascii.eqb]. rewrite Ascii.eqb_refl.
  replace 8 with (String.length (f ++ String nl ""))
    by (rewrite length_append, L; reflexivity).
  replace (f ++ String nl b)%string with ((f ++ String nl "") ++ b)%string
    by (now rewrite append_assoc).
  now rewrite drop_append.
Qed.

(** C6, as the program has it.  [parseAnalysisResult] never throws.  It
    returns no result when the cleaned text (trimmed, without an opening
    json fence and a closing fence, trimmed again) is not valid JSON, and
    also when it is the JSON text null.  When the cleaned text parses to
    any other value, each of the four keys is the array found under it,
    unchanged, or the empty array when the key is missing or holds
    something else. *)
Theorem C6_parse_analysis_result :
  forall rawJson : string,
    (exists r, parseAnalysisResult rawJson = Normal r)
    /\ (JSON_parse (clean_json rawJson) = Throw SyntaxError ->
        parseAnalysisResult rawJson = Normal None)
    /\ (JSON_parse (clean_json rawJson) = Normal JNull ->
        parseAnalysisResult rawJson = Normal None)
    /\ (forall v, JSON_parse (clean_json rawJson) = Normal v -> v <> JNull ->
        parseAnalysisResult rawJson = Normal (Some (coerced v))
        /\ (forall l, property v "notes" = Some (JArray l) ->
              p_notes (coerced v) = l)
        /\ ((forall l, property v "notes" <> Some (JArray l)) ->
              p_notes (coerced v) = [])
        /\ (forall l, property v "listItems" = Some (JArray l) ->
              p_listItems (coerced v) = l)
        /\ ((forall l, property v "listItems" <> Some (JArray l)) ->
              p_listItems (coerced v) = [])
        /\ (forall l, property v "completedGoals" = Some (JArray l) ->
              p_completedGoals (coerced v) = l)
        /\ ((forall l, property v "completedGoals" <> Some (JArray l)) ->
              p_completedGoals (coerced v) = [])
        /\ (forall l, property v "mindmapNodes" = Some (JArray l) ->
              p_mindmapNodes (coerced v) = l)
        /\ ((forall l, property v "mindmapNodes" <> Some (JArray l)) ->
              p_mindmapNodes (coerced v) = []))
    /\ parseAnalysisResult "not json" = Normal None
    /\ parseAnalysisResult example_notes_string
       = Normal (Some empty_analysis)
    /\ (forall f b, toLowerCase f = "```json"%string ->
          replace_at_start re_fence_open "" (f ++ String nl b) = b)
    /\ (forall b, replace_first re_fence_close "" (b ++ String nl fence) = b).
Proof.
  intros rawJson. rewrite parseAnalysisResult_cases. unfold JSON_parse.
  split.
  { destruct (Json.parse (clean_json rawJson)) as [v|]; [|now eexists].
    destruct v; now eexists. }
  split.
  { destruct (Json.parse (clean_json rawJson)); [discriminate|reflexivity]. }
  split.
  { destruct (Json.parse (clean_json rawJson)) as [v|]; [|discriminate].
    intros H. injection H as ->. reflexivity. }
  split.
  { intros v Hv Hn.
    destruct (Json.parse (clean_json rawJson)) as [v'|]; [|discriminate].
    injection Hv as ->.
    split; [destruct v; congruence|].
    unfold coerced; simpl.
    repeat split;
      try (intros l ->; reflexivity);
      apply array_or_empty_other. }
  split; [vm_compute; reflexivity|].
  split; [vm_compute; reflexivity|].
  split; [exact fence_open_removed | exact fence_close_removed].
Qed.

(** C6, as stated, fails on the text null: it is valid JSON, and the
    result is no result rather than four empty arrays. *)
Lemma C6_null_counterexample :
  ~ (forall rawJson v,
       JSON_parse (clean_json rawJson) = Normal v ->
       parseAnalysisResult rawJson = Normal (Some (coerced v))).
Proof.
  intros H. specialize (H "null"%string JNull eq_refl). discriminate H.
Qed.

(** ** Store operations *)

Lemma bind_normal (A B : Type) (c : M A) (k : A -> M B) (w w1 : World)
    (a : A) :
  c w = (Normal a, w1) -> bind c k w = k a w1.
Proof. intros H. unfold bind. now rewrite H. Qed.

Lemma bind_throw (A B : Type) (c : M A) (k : A -> M B) (w w1 : World)
    (e : Error) :
  c w = (Throw e, w1) -> bind c k w = (Throw e, w1).
Proof. intros H. unfold bind. now rewrite H. Qed.

Lemma bind_inv (A B : Type) (c : M A) (k : A -> M B) (w w' : World)
    (r : Completion B) :
  bind c k w = (r, w') ->
  (exists a w1, c w = (Normal a, w1) /\ k a w1 = (r, w'))
  \/ (exists e, c w = (Throw e, w') /\ r = Throw e).
Proof.
  unfold bind. destruct (c w) as [[a|e] w1]; intros H.
  - left. now exists a, w1.
  - right. exists e. now inversion H.
Qed.

(** A call either runs its statement at the time the clock then shows, or
    throws and leaves the data as they are. *)
Lemma db_call_inv (A : Type) (f : Z -> Database -> A * Database)
    (w w' : World) (r : Completion A) :
  db_call f w = (r, w') ->
  opened w' = opened w
  /\ ((exists a, r = Normal a /\ f (now w') (db w) = (a, db w')
                 /\ opened w = true)
      \/ (exists e, r = Throw e /\ db w' = db w
                    /\ (e = DatabaseNotInitialized \/ e = StoreFailure))).
Proof.
  unfold db_call. destruct (opened w) eqn:Ho; simpl.
  - destruct (schedule w) as [|ev rest].
    + destruct (f (now w) (db w)) as [a d] eqn:E. intros H.
      inversion H; subst; simpl. split; [reflexivity|].
      left. exists a. now rewrite E.
    + destruct (ev_fails ev).
      * intros H. inversion H; subst; simpl. split; [reflexivity|].
        right. exists StoreFailure. auto.
      * destruct (f (ev_time ev) (db w)) as [a d] eqn:E. intros H.
        inversion H; subst; simpl. split; [reflexivity|].
        left. exists a. now rewrite E.
  - intros H. inversion H; subst. split; [now rewrite Ho|].
    right. exists DatabaseNotInitialized. auto.
Qed.

Section Preserves.
Variable R : Database -> Database -> Prop.
Hypothesis R_refl : forall d, R d d.
Hypothesis R_trans : forall a b c, R a b -> R b c -> R a c.

Lemma preserves_ret (A : Type) (a : A) : preserves R (ret a).
Proof. intros w r w' H. inversion H. apply R_refl. Qed.

Lemma preserves_throw (A : Type) (e : Error) : preserves R (@throw A e).
Proof. intros w r w' H. inversion H. apply R_refl. Qed.

Lemma preserves_bind (A B : Type) (c : M A) (k : A -> M B) :
  preserves R c -> (forall a, preserves R (k a)) ->
  preserves R (bind c k).
Proof.
  intros Hc Hk w r w' H.
  apply bind_inv in H as [(a & w1 & H1 & H2) | (e & H1 & _)].
  - eapply R_trans; [eapply Hc, H1 | eapply Hk, H2].
  - eapply Hc, H1.
Qed.

Lemma preserves_for_of (A : Type) (xs : list A) (f : A -> M unit) :
  (forall x, preserves R (f x)) -> preserves R (for_of xs f).
Proof.
  intros Hf. induction xs as [|x xs IH]; simpl.
  - apply preserves_ret.
  - apply preserves_bind; [apply Hf | intros _; exact IH].
Qed.

Lemma preserves_db_call (A : Type) (f : Z -> Database -> A * Database) :
  (forall t d, R d (snd (f t d))) -> preserves R (db_call f).
Proof.
  intros Hf w r w' H.
  apply db_call_inv in H as [_ [(a & _ & E & _) | (e & _ & E & _)]].
  - specialize (Hf (now w') (db w)). now rewrite E in Hf.
  - rewrite E. apply R_refl.
Qed.

Lemma preserves_if (A : Type) (b : bool) (c1 c2 : M A) :
  preserves R c1 -> preserves R c2 ->
  preserves R (if b then c1 else c2).
Proof. now destruct b. Qed.

Lemma preserves_find_by_name (A : Type) (field : A -> string)
    (name : option string) (rows : list A) :
  preserves R (find_by_name field name rows).
Proof.
  destruct rows, name; simpl;
    first [apply preserves_ret | apply preserves_throw].
Qed.
End Preserves.

(** ** The frame of [applyAnalysisResults] *)

Lemma same_but_streak_refl (g : Goal) : same_but_streak g g.
Proof. unfold same_but_streak. repeat split; lia. Qed.

Lemma same_but_streak_trans (a b c : Goal) :
  same_but_streak a b -> same_but_streak b c -> same_but_streak a c.
Proof.
  unfold same_but_streak.
  intros (A1 & A2 & A3 & A4 & A5 & A6) (B1 & B2 & B3 & B4 & B5 & B6).
  repeat split; try congruence; lia.
Qed.

Lemma Forall2_refl (A : Type) (P : A -> A -> Prop) (l : list A) :
  (forall x, P x x) -> Forall2 P l l.
Proof. intros H. induction l; constructor; auto. Qed.

Lemma Forall2_trans (A : Type) (P : A -> A -> Prop) (l1 l2 l3 : list A) :
  (forall x y z, P x y -> P y z -> P x z) ->
  Forall2 P l1 l2 -> Forall2 P l2 l3 -> Forall2 P l1 l3.
Proof.
  intros HP H12. revert l3.
  induction H12 as [|x y l1 l2 Hxy _ IH]; intros l3 H23;
    inversion H23; subst; constructor; eauto.
Qed.

Lemma only_adds_refl (d : Database) : only_adds d d.
Proof.
  unfold only_adds. repeat split; try (exists []; now rewrite app_nil_r).
  apply Forall2_refl, same_but_streak_refl.
Qed.

Lemma only_adds_trans (a b c : Database) :
  only_adds a b -> only_adds b c -> only_adds a c.
Proof.
  unfold only_adds.
  intros (A1 & A2 & [n1 A3] & [l1 A4] & [i1 A5] & [k1 A6] & A7)
         (B1 & B2 & [n2 B3] & [l2 B4] & [i2 B5] & [k2 B6] & B7).
  repeat split; try congruence.
  - exists (n1 ++ n2). now rewrite B3, A3, app_assoc.
  - exists (l1 ++ l2). now rewrite B4, A4, app_assoc.
  - exists (i1 ++ i2). now rewrite B5, A5, app_assoc.
  - exists (k1 ++ k2). now rewrite B6, A6, app_assoc.
  - eapply Forall2_trans; eauto using same_but_streak_trans.
Qed.

Lemma bump_streak_same_but_streak (goalId t : Z) (g : Goal) :
  same_but_streak g (bump_streak goalId t g).
Proof.
  unfold bump_streak. destruct (g_id g =? goalId)%Z.
  - unfold same_but_streak; simpl. repeat split; lia.
  - apply same_but_streak_refl.
Qed.

Lemma Forall2_map_r (A : Type) (P : A -> A -> Prop) (f : A -> A)
    (l : list A) :
  (forall x, P x (f x)) -> Forall2 P l (map f l).
Proof. intros H. induction l; simpl; constructor; auto. Qed.

Ltac frame_of_call :=
  apply preserves_db_call; [apply only_adds_refl|];
  intros ? ?; unfold only_adds; simpl;
  repeat split;
  try (exists []; now rewrite app_nil_r);
  try (eexists; reflexivity);
  try (apply Forall2_refl, same_but_streak_refl).

Lemma addNote_only_adds (t b : string) (c : CreatedBy) (g : option string) :
  preserves only_adds (addNote t b c g).
Proof. frame_of_call. Qed.

Lemma createList_only_adds (t ty : string) :
  preserves only_adds (createList t ty).
Proof. frame_of_call. Qed.

Lemma getAllLists_only_adds : preserves only_adds getAllLists.
Proof. frame_of_call. Qed.

Lemma addListItem_only_adds (id : Z) (c : string) :
  preserves only_adds (addListItem id c).
Proof. frame_of_call. Qed.

Lemma getListItems_only_adds (id : Z) :
  preserves only_adds (getListItems id).
Proof. frame_of_call. Qed.

Lemma getAllGoals_only_adds : preserves only_adds getAllGoals.
Proof. frame_of_call. Qed.

Lemma updateGoalStreak_only_adds (id : Z) :
  preserves only_adds (updateGoalStreak id).
Proof.
  frame_of_call. apply Forall2_map_r, bump_streak_same_but_streak.
Qed.

Lemma addMindmapNode_only_adds (l : string) (c : Category) (q : Q)
    (k : option Z) :
  preserves only_adds (addMindmapNode l c q k).
Proof. frame_of_call. Qed.

Lemma getAllMindmapNodes_only_adds : preserves only_adds getAllMindmapNodes.
Proof. frame_of_call. Qed.

Create HintDb frame.
#[local] Hint Resolve only_adds_refl only_adds_trans : frame.
#[local] Hint Resolve addNote_only_adds createList_only_adds
  getAllLists_only_adds addListItem_only_adds getListItems_only_adds
  getAllGoals_only_adds updateGoalStreak_only_adds addMindmapNode_only_adds
  getAllMindmapNodes_only_adds : frame.

Lemma only_adds_ret (A : Type) (a : A) : preserves only_adds (ret a).
Proof. apply preserves_ret, only_adds_refl. Qed.

Lemma only_adds_throw (A : Type) (e : Error) :
  preserves only_adds (@throw A e).
Proof. apply preserves_throw, only_adds_refl. Qed.

Lemma only_adds_bind (A B : Type) (c : M A) (k : A -> M B) :
  preserves only_adds c -> (forall a, preserves only_adds (k a)) ->
  preserves only_adds (bind c k).
Proof.
  exact (preserves_bind only_adds only_adds_trans A B c k).
Qed.

Lemma only_adds_for_of (A : Type) (xs : list A) (f : A -> M unit) :
  (forall x, preserves only_adds (f x)) -> preserves only_adds (for_of xs f).
Proof.
  exact (preserves_for_of only_adds only_adds_refl only_adds_trans A xs f).
Qed.

Lemma only_adds_find_by_name (A : Type) (field : A -> string)
    (name : option string) (rows : list A) :
  preserves only_adds (find_by_name field name rows).
Proof. apply preserves_find_by_name, only_adds_refl. Qed.

Ltac frame_step :=
  first
    [ apply only_adds_ret
    | apply only_adds_throw
    | apply only_adds_find_by_name
    | apply only_adds_for_of; intros ?
    | apply only_adds_bind; [|intros ?]
    | apply preserves_if
    | solve [auto with frame] ].

Lemma applyNote_only_adds (n : NoteItem) : preserves only_adds (applyNote n).
Proof.
  unfold applyNote. destruct (title n), (body n); repeat frame_step.
Qed.

Lemma applyListItem_only_adds (l : List) (item : string) :
  preserves only_adds (applyListItem l item).
Proof. unfold applyListItem. repeat frame_step. Qed.

Lemma applyListGroup_only_adds (g : ListGroup) :
  preserves only_adds (applyListGroup g).
Proof.
  unfold applyListGroup.
  apply only_adds_bind; [apply getAllLists_only_adds | intros allLists].
  apply only_adds_bind; [apply only_adds_find_by_name | intros [target|]].
  - destruct (items g); repeat frame_step.
  - destruct (listName g); repeat frame_step.
    destruct (items g); repeat frame_step.
Qed.

Lemma applyGoalCompletion_only_adds (g : GoalCompletion) :
  preserves only_adds (applyGoalCompletion g).
Proof.
  unfold applyGoalCompletion.
  apply only_adds_bind; [apply getAllGoals_only_adds | intros allGoals].
  apply only_adds_bind; [apply only_adds_find_by_name | intros [target|]];
    repeat frame_step.
Qed.

Lemma applyMindmapNode_only_adds (n : MindmapItem) :
  preserves only_adds (applyMindmapNode n).
Proof.
  unfold applyMindmapNode. destruct (label n), (category n);
    repeat frame_step.
Qed.

Lemma applyAnalysisResults_only_adds (a : AnalysisResult) :
  preserves only_adds (applyAnalysisResults a).
Proof.
  unfold applyAnalysisResults.
  repeat (apply only_adds_bind; [|intros _]);
    apply only_adds_for_of;
    auto using applyNote_only_adds, applyListGroup_only_adds,
      applyGoalCompletion_only_adds, applyMindmapNode_only_adds.
Qed.

(** C10.  Whatever the analysis result and whatever the store does,
    applying the result leaves the user profile and the messages as they
    are, keeps every note, list, list item and mindmap node unchanged and
    in place (rows are only added after them), and keeps every goal with
    its key, title, cadence, target and creation time, its streak counter
    not decreased. *)
Theorem C10_apply_only_adds :
  forall (analysis : AnalysisResult) (w : World),
    only_adds (db w) (db (snd (applyAnalysisResults analysis w))).
Proof.
  intros analysis w.
  destruct (applyAnalysisResults analysis w) as [r w'] eqn:E.
  exact (applyAnalysisResults_only_adds analysis w r w' E).
Qed.

(** ** Reading the store *)

Lemma read_call_inv (A : Type) (g : Database -> A) (w w' : World)
    (r : Completion A) :
  db_call (fun _ d => (g d, d)) w = (r, w') ->
  db w' = db w /\ (forall a, r = Normal a -> a = g (db w)).
Proof.
  intros H.
  apply db_call_inv in H as [_ [(a & -> & E & _) | (e & -> & E & _)]].
  - injection E as E1 E2. split; [now symmetry|].
    intros a' Ha. injection Ha as <-. now symmetry.
  - split; [exact E | discriminate].
Qed.

Lemma write_call_inv (A : Type) (f : Z -> Database -> A * Database)
    (w w' : World) (a : A) :
  db_call f w = (Normal a, w') -> f (now w') (db w) = (a, db w').
Proof.
  intros H.
  apply db_call_inv in H as [_ [(a' & E1 & E & _) | (e & E1 & _)]].
  - now inversion E1.
  - discriminate.
Qed.

Lemma find_by_name_some (A : Type) (field : A -> string) (n : string)
    (rows : list A) (w : World) :
  find_by_name field (Some n) rows w
  = (Normal (find (fun r => fuzzy_match (field r) n) rows), w).
Proof. now destruct rows. Qed.

(** ** Stores that reject nothing *)

Lemma db_call_calm (A : Type) (f : Z -> Database -> A * Database)
    (w : World) :
  calm w ->
  exists a w',
    db_call f w = (Normal a, w') /\ calm w'
    /\ f (now w') (db w) = (a, db w').
Proof.
  intros [Ho Hs]. unfold db_call. rewrite Ho. simpl.
  destruct (schedule w) as [|ev rest] eqn:E.
  - destruct (f (now w) (db w)) as [a d] eqn:F.
    exists a. eexists. split; [reflexivity|]. simpl.
    split; [|exact F]. split; [reflexivity | constructor].
  - inversion Hs as [|? ? Hev Hrest]; subst. rewrite Hev.
    destruct (f (ev_time ev) (db w)) as [a d] eqn:F.
    exists a. eexists. split; [reflexivity|]. simpl.
    split; [|exact F]. split; [reflexivity | exact Hrest].
Qed.

Lemma read_calm (A : Type) (g : Database -> A) (w : World) :
  calm w ->
  exists w',
    db_call (fun _ d => (g d, d)) w = (Normal (g (db w)), w')
    /\ calm w' /\ db w' = db w.
Proof.
  intros H. destruct (db_call_calm _ (fun _ d => (g d, d)) w H)
    as (a & w' & E & C & F).
  injection F as <- F. exists w'. now split.
Qed.

Lemma completes_ret (A : Type) (a : A) : completes (ret a).
Proof. intros w Hc. now exists a, w. Qed.

Lemma completes_db_call (A : Type) (f : Z -> Database -> A * Database) :
  completes (db_call f).
Proof.
  intros w Hc. destruct (db_call_calm A f w Hc) as (a & w' & E & C & _).
  now exists a, w'.
Qed.

Lemma completes_bind (A B : Type) (c : M A) (k : A -> M B) :
  completes c -> (forall a, completes (k a)) -> completes (bind c k).
Proof.
  intros Hc Hk w Hw. destruct (Hc w Hw) as (a & w1 & E1 & C1).
  destruct (Hk a w1 C1) as (b & w2 & E2 & C2).
  exists b, w2. split; [|exact C2].
  now rewrite (bind_normal A B c k w w1 a E1).
Qed.

Lemma completes_for_of (A : Type) (xs : list A) (f : A -> M unit) :
  (forall x, completes (f x)) -> completes (for_of xs f).
Proof.
  intros Hf. induction xs as [|x xs IH]; simpl.
  - apply completes_ret.
  - apply completes_bind; [apply Hf | intros _; exact IH].
Qed.

Lemma completes_if (A : Type) (b : bool) (c1 c2 : M A) :
  completes c1 -> completes c2 -> completes (if b then c1 else c2).
Proof. now destruct b. Qed.

Lemma completes_find_by_name (A : Type) (field : A -> string) (n : string)
    (rows : list A) :
  completes (find_by_name field (Some n) rows).
Proof. destruct rows; apply completes_ret. Qed.

Ltac completes_step :=
  first
    [ apply completes_ret
    | apply completes_db_call
    | apply completes_find_by_name
    | apply completes_for_of; intros ?
    | apply completes_bind; [|intros ?]
    | apply completes_if ].

Lemma completes_unit (c : M unit) (w : World) (r : Completion unit)
    (w' : World) :
  completes c -> calm w -> c w = (r, w') -> r = Normal tt /\ calm w'.
Proof.
  intros Hc Hw E. destruct (Hc w Hw) as ([] & w1 & E1 & C1).
  rewrite E1 in E. now inversion E; subst.
Qed.

Lemma applyListItem_completes (l : List) (item : string) :
  completes (applyListItem l item).
Proof.
  unfold applyListItem, getListItems, addListItem. repeat completes_step.
Qed.

Lemma In_insert_by (A : Type) (before : A -> A -> bool) (x y : A)
    (l : list A) :
  In x (insert_by before y l) <-> x = y \/ In x l.
Proof.
  induction l as [|z l IH]; simpl.
  - intuition.
  - destruct (before y z); simpl; [intuition|].
    rewrite IH. intuition.
Qed.

Lemma In_order_by (A : Type) (before : A -> A -> bool) (x : A)
    (l : list A) :
  In x (order_by before l) <-> In x l.
Proof.
  induction l as [|y l IH]; simpl; [reflexivity|].
  rewrite In_insert_by, IH. intuition.
Qed.

Lemma existsb_insert_by (A : Type) (before : A -> A -> bool)
    (p : A -> bool) (y : A) (l : list A) :
  existsb p (insert_by before y l) = p y || existsb p l.
Proof.
  induction l as [|z l IH]; simpl; [reflexivity|].
  destruct (before y z); simpl; [reflexivity|].
  rewrite IH. destruct (p y), (p z); reflexivity.
Qed.

Lemma existsb_order_by (A : Type) (before : A -> A -> bool)
    (p : A -> bool) (l : list A) :
  existsb p (order_by before l) = existsb p l.
Proof.
  induction l as [|y l IH]; simpl; [reflexivity|].
  now rewrite existsb_insert_by, IH.
Qed.

(** The first row that satisfies the test is found. *)
Lemma find_first (A : Type) (p : A -> bool) (l : list A) (x : A) :
  find p l = Some x ->
  exists before after,
    l = before ++ x :: after /\ p x = true
    /\ Forall (fun y => p y = false) before.
Proof.
  induction l as [|y l IH]; simpl; [discriminate|].
  destruct (p y) eqn:E.
  - intros H. injection H as ->. exists [], l. auto.
  - intros H. destruct (IH H) as (b & a & -> & Hx & Hb).
    exists (y :: b), a. auto.
Qed.

(** Two names match when one contains the other, letter case aside. *)
Lemma fuzzy_match_spec (a b : string) :
  fuzzy_match a b = true
  <-> (exists p q, toLowerCase a = (p ++ toLowerCase b ++ q)%string)
      \/ (exists p q, toLowerCase b = (p ++ toLowerCase a ++ q)%string).
Proof.
  unfold fuzzy_match. rewrite orb_true_iff, !includes_spec. reflexivity.
Qed.

(** ** Goal completions *)

Lemma bump_streak_hit (goalId t : Z) (g : Goal) :
  g_id g = goalId ->
  g_streak_count (bump_streak goalId t g) = (g_streak_count g + 1)%Z
  /\ g_last_completed_date (bump_streak goalId t g) = Some t.
Proof.
  intros H. unfold bump_streak. rewrite <- H, Z.eqb_refl. now split.
Qed.

Lemma bump_streak_miss (goalId t : Z) (g : Goal) :
  g_id g <> goalId -> bump_streak goalId t g = g.
Proof.
  intros H. unfold bump_streak.
  destruct (Z.eqb_spec (g_id g) goalId); [contradiction | reflexivity].
Qed.

Lemma applyGoalCompletion_completes (gc : GoalCompletion) (t : string) :
  goalTitle gc = Some t -> completes (applyGoalCompletion gc).
Proof.
  intros Ht. unfold applyGoalCompletion, getAllGoals. rewrite Ht.
  apply completes_bind; [apply completes_db_call | intros allGoals].
  apply completes_bind; [apply completes_find_by_name | intros [target|]].
  - apply completes_db_call.
  - apply completes_ret.
Qed.

(** C5.  For an entry of completedGoals with a title: the goal looked for
    is the first one, in the order of [getAllGoals], whose title contains
    the entry title or is contained in it, letter case aside.  On a store
    that rejects nothing the entry is applied to the end.  When there is
    such a goal and the update completes, every goal with its key has its
    streak counter incremented by exactly one and its last-completed date
    set to the time of the update, and all other goals are unchanged.
    When there is none, the whole database is left as it is.  In no case
    does a streak counter decrease. *)
Theorem C5_goal_completion :
  forall (gc : GoalCompletion) (t : string) (w w' : World)
         (r : Completion unit),
    goalTitle gc = Some t ->
    applyGoalCompletion gc w = (r, w') ->
    Forall2 same_but_streak (Goals (db w)) (Goals (db w'))
    /\ (calm w -> r = Normal tt /\ calm w')
    /\ (forall a b,
          fuzzy_match a b = true
          <-> (exists p q, toLowerCase a = (p ++ toLowerCase b ++ q)%string)
              \/ (exists p q,
                    toLowerCase b = (p ++ toLowerCase a ++ q)%string))
    /\ match find (fun g => fuzzy_match (g_title g) t)
               (order_by (desc g_created_at) (Goals (db w))) with
       | Some target =>
           In target (Goals (db w))
           /\ fuzzy_match (g_title target) t = true
           /\ (r = Normal tt ->
               Goals (db w')
               = map (bump_streak (g_id target) (now w')) (Goals (db w))
               /\ (forall g, In g (Goals (db w)) ->
                     g_id g = g_id target ->
                     let g' := bump_streak (g_id target) (now w') g in
                     In g' (Goals (db w'))
                     /\ g_streak_count g' = (g_streak_count g + 1)%Z
                     /\ g_last_completed_date g' = Some (now w'))
               /\ (forall g, In g (Goals (db w)) ->
                     g_id g <> g_id target -> In g (Goals (db w'))))
       | None => db w' = db w
       end.
Proof.
  intros gc t w w' r Ht H.
  split.
  { pose proof (applyGoalCompletion_only_adds gc w r w' H) as F.
    apply F. }
  split.
  { intros Hc.
    exact (completes_unit _ w r w' (applyGoalCompletion_completes gc t Ht)
             Hc H). }
  split; [exact fuzzy_match_spec|].
  unfold applyGoalCompletion in H. rewrite Ht in H.
  destruct (find (fun g => fuzzy_match (g_title g) t)
              (order_by (desc g_created_at) (Goals (db w))))
    as [target|] eqn:F.
  - pose proof (find_some _ _ F) as [Hin Hm].
    apply In_order_by in Hin.
    split; [exact Hin|]. split; [exact Hm|]. intros ->.
    apply bind_inv in H as [(gs & w1 & H1 & H2) | (e & _ & Hr)];
      [|discriminate Hr].
    apply read_call_inv in H1 as [D1 G]. specialize (G gs eq_refl).
    erewrite bind_normal in H2 by apply find_by_name_some.
    rewrite G, F in H2.
    apply write_call_inv in H2. simpl in H2.
    injection H2 as E. rewrite <- E. simpl. rewrite D1.
    split; [reflexivity|]. split.
    + intros g Hg Hid. split; [now apply in_map|].
      now apply bump_streak_hit.
    + intros g Hg Hid.
      rewrite <- (bump_streak_miss (g_id target) (now w') g Hid).
      now apply in_map.
  - apply bind_inv in H as [(gs & w1 & H1 & H2) | (e & H1 & _)].
    + apply read_call_inv in H1 as [D1 G]. specialize (G gs eq_refl).
      erewrite bind_normal in H2 by apply find_by_name_some.
      rewrite G, F in H2. inversion H2. now subst.
    + now apply read_call_inv in H1 as [D1 _].
Qed.

(** ** List items *)

Lemma new_items_nil (id : Z) : new_items id [] [].
Proof. split; [reflexivity | constructor]. Qed.

Lemma new_items_cons (id : Z) (x : string) (xs : list string)
    (row : ListItem) (rows : list ListItem) :
  i_content row = x -> i_list_id row = id -> i_is_completed row = false ->
  new_items id xs rows -> new_items id (x :: xs) (row :: rows).
Proof.
  intros H1 H2 H3 [H4 H5]. split; simpl; [now rewrite H1, H4|].
  constructor; auto.
Qed.

Lemma contents_of_add (id : Z) (d d' : Database) (row : ListItem) :
  ListItems d' = ListItems d ++ [row] -> i_list_id row = id ->
  contents_of id d' = contents_of id d ++ [i_content row].
Proof.
  intros H Hid. unfold contents_of.
  rewrite H, filter_app, map_app. simpl. now rewrite Hid, Z.eqb_refl.
Qed.

(** One item against a matched container. *)
Lemma applyListItem_inv (target : List) (x : string) (w w' : World) :
  applyListItem target x w = (Normal tt, w') ->
  Lists (db w') = Lists (db w)
  /\ if existsb (fun c => same_text c x) (contents_of (l_id target) (db w))
     then db w' = db w
     else exists row,
            ListItems (db w') = ListItems (db w) ++ [row]
            /\ i_content row = x /\ i_list_id row = l_id target
            /\ i_is_completed row = false.
Proof.
  unfold applyListItem. intros H.
  apply bind_inv in H as [(ex & w1 & H1 & H2) | (e & _ & Hr)];
    [|discriminate Hr].
  apply read_call_inv in H1 as [D1 G]. specialize (G ex eq_refl).
  assert (E : existsb (fun existing => same_text (i_content existing) x) ex
              = existsb (fun c => same_text c x)
                  (contents_of (l_id target) (db w))).
  { rewrite G, existsb_order_by. unfold contents_of.
    generalize (filter (fun i => (i_list_id i =? l_id target)%Z)
                  (ListItems (db w))).
    intros l. induction l as [|i l IH]; simpl; [reflexivity|].
    now rewrite IH. }
  rewrite E in H2.
  destruct (existsb _ (contents_of _ _)); simpl in H2.
  - inversion H2; subst. split; [now rewrite D1 | exact D1].
  - apply bind_inv in H2 as [(id & w2 & H3 & H4) | (e & _ & Hr)];
      [|discriminate Hr].
    inversion H4; subst.
    apply write_call_inv in H3. simpl in H3. injection H3 as _ E3.
    rewrite <- E3. simpl. rewrite D1. split; [reflexivity|].
    eexists. split; [reflexivity|]. simpl. auto.
Qed.

(** The items of a group against a matched container. *)
Lemma for_of_applyListItem (target : List) (its : list string) :
  forall w w',
    for_of its (applyListItem target) w = (Normal tt, w') ->
    Lists (db w') = Lists (db w)
    /\ exists added,
         ListItems (db w') = ListItems (db w) ++ added
         /\ new_items (l_id target)
              (fresh_items (contents_of (l_id target) (db w)) its) added.
Proof.
  induction its as [|x its IH]; intros w w' H; simpl in H.
  - inversion H; subst. split; [reflexivity|].
    exists []. rewrite app_nil_r. split; [reflexivity | apply new_items_nil].
  - apply bind_inv in H as [([] & w1 & H1 & H2) | (e & _ & Hr)];
      [|discriminate Hr].
    apply applyListItem_inv in H1 as [L1 H1].
    apply IH in H2 as [L2 (added & A2 & N2)].
    split; [congruence|]. simpl.
    destruct (existsb _ (contents_of _ _)).
    + rewrite H1 in *. now exists added.
    + destruct H1 as (row & A1 & C1 & I1 & F1).
      rewrite (contents_of_add _ _ _ _ A1 I1), C1 in N2.
      exists (row :: added). split.
      * rewrite A2, A1, <- app_assoc. reflexivity.
      * now apply new_items_cons.
Qed.

(** The items of a group into a container made for it. *)
Lemma for_of_addListItem (id : Z) (its : list string) :
  forall w w',
    for_of its (fun item => addListItem id item ;;; ret tt) w
    = (Normal tt, w') ->
    Lists (db w') = Lists (db w)
    /\ exists added,
         ListItems (db w') = ListItems (db w) ++ added
         /\ new_items id its added.
Proof.
  induction its as [|x its IH]; intros w w' H; simpl in H.
  - inversion H; subst. split; [reflexivity|].
    exists []. rewrite app_nil_r. split; [reflexivity | apply new_items_nil].
  - apply bind_inv in H as [([] & w1 & H1 & H2) | (e & _ & Hr)];
      [|discriminate Hr].
    apply bind_inv in H1 as [(i & w0 & H0 & H1) | (e & _ & Hr)];
      [|discriminate Hr].
    inversion H1; subst.
    apply write_call_inv in H0. simpl in H0. injection H0 as _ E0.
    apply IH in H2 as [L2 (added & A2 & N2)].
    rewrite <- E0 in L2, A2. simpl in L2, A2.
    split; [exact L2|].
    eexists (_ :: added). split.
    + rewrite A2, <- app_assoc. reflexivity.
    + now apply new_items_cons.
Qed.

Lemma space_run_all_space (ws rest : string) :
  all_space ws = true ->
  space_run (ws ++ rest) = String.length ws + space_run rest.
Proof.
  induction ws as [|c ws IH]; simpl; [reflexivity|].
  intros H. apply andb_prop in H as [Hc H]. now rewrite Hc, IH.
Qed.

(** In the category of a new list a character that is not white space is
    kept, in lower case. *)
Lemma list_type_other (c : ascii) (r : string) :
  is_space (lower_char c) = false ->
  list_type (String c r) = String (lower_char c) (list_type r).
Proof.
  intros H. unfold list_type. simpl toLowerCase.
  apply replace_all_miss. unfold re_spaces. simpl. now rewrite H.
Qed.

(** In the category of a new list a maximal run of white space becomes one
    underscore. *)
Lemma list_type_run (ws rest : string) :
  ws <> ""%string -> all_space ws = true ->
  space_run (toLowerCase rest) = 0 ->
  list_type (ws ++ rest) = String "_" (list_type rest).
Proof.
  intros Hne Hws Hrest. unfold list_type.
  assert (L : forall s, all_space s = true -> toLowerCase s = s).
  { induction s as [|c s IH]; simpl; [reflexivity|].
    intros H. apply andb_prop in H as [Hc H]. rewrite (IH H).
    f_equal. unfold lower_char, is_space in *.
    destruct (nat_of_ascii c) as [|n] eqn:En; [reflexivity|].
    destruct ((65 <=? S n) && (S n <=? 90)) eqn:E; [|reflexivity].
    apply andb_prop in E as [E1 E2].
    apply Nat.leb_le in E1, E2.
    apply orb_prop in Hc as [Hc|Hc].
    - apply andb_prop in Hc as [_ Hc]. apply Nat.leb_le in Hc. lia.
    - apply Nat.eqb_eq in Hc. lia. }
  rewrite toLowerCase_append, (L ws Hws).
  destruct ws as [|c ws]; [congruence|].
  change (String c ws ++ toLowerCase rest)%string
    with (String c (ws ++ toLowerCase rest)).
  rewrite replace_all_hit with (k := String.length ws).
  - rewrite drop_append. reflexivity.
  - unfold re_spaces.
    change (String c (ws ++ toLowerCase rest))
      with (String c ws ++ toLowerCase rest)%string.
    rewrite (space_run_all_space _ _ Hws), Hrest. simpl.
    now rewrite Nat.add_0_r.
Qed.

Lemma applyListGroup_completes (g : ListGroup) (name : string)
    (its : list string) :
  listName g = Some name -> items g = Some its ->
  completes (applyListGroup g).
Proof.
  intros Hn Hi. unfold applyListGroup, getAllLists. rewrite Hn, Hi.
  apply completes_bind; [apply completes_db_call | intros allLists].
  apply completes_bind; [apply completes_find_by_name | intros [target|]].
  - apply completes_for_of. intros item. apply applyListItem_completes.
  - unfold createList, addListItem. repeat completes_step.
Qed.

(** C3.  For a group with a name and items: on a store that rejects
    nothing the group is applied to the end.  When its application
    completes, the container looked for is the first one, in the order of
    [getAllLists], whose title contains the name or is contained in it,
    letter case aside.  When there is one, no list is created and the
    items inserted into it are those that no entry of the container equals
    letter case aside, counting the entries inserted before.  When there
    is none, a list is created with the name as title and the name in
    lower case, each run of white space replaced by one underscore, as
    category, and every item is inserted into it. *)
Theorem C3_list_items :
  forall (g : ListGroup) (name : string) (its : list string)
         (w w' : World) (r : Completion unit),
    listName g = Some name -> items g = Some its ->
    applyListGroup g w = (r, w') ->
    (calm w -> r = Normal tt /\ calm w')
    /\ (r = Normal tt ->
        match find (fun l => fuzzy_match (l_title l) name)
                (order_by (desc l_created_at) (Lists (db w))) with
        | Some target =>
            (exists before after,
               order_by (desc l_created_at) (Lists (db w))
               = before ++ target :: after
               /\ fuzzy_match (l_title target) name = true
               /\ Forall (fun l => fuzzy_match (l_title l) name = false)
                    before)
            /\ Lists (db w') = Lists (db w)
            /\ exists added,
                 ListItems (db w') = ListItems (db w) ++ added
                 /\ new_items (l_id target)
                      (fresh_items (contents_of (l_id target) (db w)) its)
                      added
        | None =>
            Forall (fun l => fuzzy_match (l_title l) name = false)
              (Lists (db w))
            /\ (exists l,
                  Lists (db w') = Lists (db w) ++ [l]
                  /\ l_id l = (seq_Lists (db w) + 1)%Z
                  /\ l_title l = name /\ l_type l = list_type name)
            /\ exists added,
                 ListItems (db w') = ListItems (db w) ++ added
                 /\ new_items (seq_Lists (db w) + 1) its added
        end)
    /\ (forall a b,
          fuzzy_match a b = true
          <-> (exists p q, toLowerCase a = (p ++ toLowerCase b ++ q)%string)
              \/ (exists p q,
                    toLowerCase b = (p ++ toLowerCase a ++ q)%string))
    /\ (forall a b, same_text a b = true <-> toLowerCase a = toLowerCase b)
    /\ (forall c r, is_space (lower_char c) = false ->
          list_type (String c r) = String (lower_char c) (list_type r))
    /\ (forall ws rest, ws <> ""%string -> all_space ws = true ->
          space_run (toLowerCase rest) = 0 ->
          list_type (ws ++ rest) = String "_" (list_type rest))
    /\ map i_content
         (ListItems
            (db (snd (applyListGroup milk_group
                        (quiet_world groceries_database)))))
       = ["Milk"%string].
Proof.
  intros g name its w w' r Hn Hi H.
  split.
  { intros Hc.
    exact (completes_unit _ w r w'
             (applyListGroup_completes g name its Hn Hi) Hc H). }
  split; [|split; [exact fuzzy_match_spec|];
           split; [intros a b; apply String.eqb_eq|];
           split; [exact list_type_other|];
           split; [exact list_type_run | vm_compute; reflexivity]].
  intros ->.
  unfold applyListGroup in H. rewrite Hn, Hi in H.
  apply bind_inv in H as [(ls & w1 & H1 & H2) | (e & _ & Hr)];
    [|discriminate Hr].
  apply read_call_inv in H1 as [D1 G]. specialize (G ls eq_refl).
  erewrite bind_normal in H2 by apply find_by_name_some.
  rewrite <- G.
  destruct (find (fun l => fuzzy_match (l_title l) name) ls) as [target|]
    eqn:F.
  - split; [now apply find_first in F as (b & a & E & Hm & Hb); eauto|].
    apply for_of_applyListItem in H2. now rewrite D1 in H2.
  - split.
    { apply Forall_forall. intros l Hl.
      apply (find_none _ _ F). rewrite G. now apply In_order_by. }
    apply bind_inv in H2 as [(id & w2 & H3 & H4) | (e & _ & Hr)];
      [|discriminate Hr].
    pose proof (write_call_inv _ _ _ _ _ H3) as E3. simpl in E3.
    injection E3 as Eid Edb.
    apply for_of_addListItem in H4 as [L (added & A & N)].
    rewrite <- Edb in L, A. simpl in L, A. rewrite D1 in *.
    split.
    + eexists. split; [exact L|]. simpl. auto.
    + exists added. rewrite <- Eid in N. now split.
Qed.

(** The title Groceries and the name grocery do not match: neither
    contains the other. *)
Example groceries_grocery_no_match :
  fuzzy_match "Groceries" "grocery" = false.
Proof. reflexivity. Qed.

(** ** Mindmap facts *)

















Lemma preserves_weaken (A : Type) (R S : Database -> Database -> Prop)
    (c : M A) :
  (forall d d', R d d' -> S d d') -> preserves R c -> preserves S c.
Proof. intros H Hc w r w' E. apply H. eapply Hc, E. Qed.





(** ** Failures while a result is applied *)

Lemma for_of_run_all (A : Type) (xs : list A) (f : A -> M unit) (w : World) :
  for_of xs f w = run_all (map f xs) w.
Proof.
  revert w. induction xs as [|x xs IH]; intros w; simpl; [reflexivity|].
  unfold bind. destruct (f x w) as [[a|e] w1]; [apply IH | reflexivity].
Qed.

Lemma bind_assoc (A B C : Type) (c : M A) (k : A -> M B) (h : B -> M C)
    (w : World) :
  bind (bind c k) h w = bind c (fun a => bind (k a) h) w.
Proof. unfold bind. now destruct (c w) as [[a|e] w1]. Qed.

Lemma bind_ext (A B : Type) (c : M A) (k k' : A -> M B) (w : World) :
  (forall a w1, k a w1 = k' a w1) -> bind c k w = bind c k' w.
Proof. intros H. unfold bind. destruct (c w) as [[a|e] w1]; auto. Qed.

Lemma run_all_app (l1 l2 : list (M unit)) (w : World) :
  run_all (l1 ++ l2) w = (run_all l1 ;;; run_all l2) w.
Proof.
  revert w. induction l1 as [|c l1 IH]; intros w; simpl; [reflexivity|].
  rewrite bind_assoc. apply bind_ext. intros _ w1. apply IH.
Qed.

Lemma bind_congr (A B : Type) (c c' : M A) (k k' : A -> M B) (w : World) :
  (forall w0, c w0 = c' w0) -> (forall a w1, k a w1 = k' a w1) ->
  bind c k w = bind c' k' w.
Proof.
  intros Hc Hk. unfold bind. rewrite Hc.
  destruct (c' w) as [[a|e] w1]; auto.
Qed.

Lemma applyAnalysisResults_steps (a : AnalysisResult) (w : World) :
  applyAnalysisResults a w = run_all (steps a) w.
Proof.
  unfold applyAnalysisResults, steps.
  rewrite run_all_app. apply bind_congr; [apply for_of_run_all|].
  intros _ w1.
  rewrite run_all_app. apply bind_congr; [apply for_of_run_all|].
  intros _ w2.
  rewrite run_all_app. apply bind_congr; [apply for_of_run_all|].
  intros _ w3. apply for_of_run_all.
Qed.

(** The loop ends at the first item that throws: the items after it are
    not run. *)
Lemma run_all_stops (pre post : list (M unit)) (s : M unit) (w w1 w' : World)
    (e : Error) :
  run_all pre w = (Normal tt, w1) -> s w1 = (Throw e, w') ->
  run_all (pre ++ s :: post) w = (Throw e, w').
Proof.
  intros H1 H2. rewrite run_all_app.
  rewrite (bind_normal _ _ _ _ _ _ _ H1). simpl.
  now apply bind_throw.
Qed.

Lemma db_call_rejected (A : Type) (f : Z -> Database -> A * Database)
    (w : World) (ev : Event) (rest : list Event) :
  opened w = true -> schedule w = ev :: rest -> ev_fails ev = true ->
  db_call f w
  = (Throw StoreFailure,
     {| db := db w; opened := true; now := ev_time ev; schedule := rest |}).
Proof.
  intros Ho Hs Hf. unfold db_call. now rewrite Ho, Hs, Hf.
Qed.

(** ** The high-water mark *)

Lemma last_In (A : Type) (l : list A) (d : A) : l <> [] -> In (last l d) l.
Proof.
  induction l as [|x l IH]; [congruence|]. intros _.
  destruct l as [|y l]; [now left|].
  right. apply IH. discriminate.
Qed.

Lemma last_new_message (this : Agent) (allMessages : list Message) :
  new_messages this allMessages <> [] ->
  In (last (new_messages this allMessages) default_message)
     (new_messages this allMessages)
  /\ (mark this
      < id_or_0 (last (new_messages this allMessages) default_message))%Z.
Proof.
  intros H. pose proof (last_In _ _ default_message H) as Hin.
  split; [exact Hin|].
  unfold new_messages in Hin at 2. apply filter_In in Hin as [_ Hgt].
  unfold mark. lia.
Qed.

(** A run that parses a result and applies it to the end. *)
Lemma run_applied (env : Env) (this : Agent) (w w0 w2 : World)
    (allMessages : list Message) (raw : string) (p : ParsedAnalysis) :
  isProcessing this = false ->
  LLMService.isReady (llm env) = true ->
  getAllMessages w = (Normal allMessages, w0) ->
  2 <= List.length (new_messages this allMessages) ->
  LLMService.analyzeConversation (llm env) (engine env)
    (new_messages this allMessages) = Normal raw ->
  parseAnalysisResult raw = Normal (Some p) ->
  applyAnalysisResults (typed env p) w0 = (Normal tt, w2) ->
  processRecentConversations env this w
  = ({| isProcessing := false;
        lastProcessedMessageId :=
          id_or_0 (last (new_messages this allMessages) default_message) |},
     w2).
Proof.
  intros Hp Hr Hm Hn Ha Hparse Happly.
  unfold processRecentConversations. rewrite Hp, Hr, Hm. simpl negb. cbv iota.
  assert (L : (List.length allMessages =? 0) = false).
  { apply Nat.eqb_neq. intros E.
    destruct allMessages; [simpl in Hn; lia | discriminate]. }
  rewrite L. fold (new_messages this allMessages).
  change (filter _ allMessages) with (new_messages this allMessages).
  assert (L2 : (List.length (new_messages this allMessages) <? 2) = false)
    by (apply Nat.ltb_ge; exact Hn).
  unfold new_messages in *. simpl lastProcessedMessageId.
  rewrite L2, Ha, Hparse, Happly. reflexivity.
Qed.

(** A run whose parse yields no result. *)
Lemma run_no_result (env : Env) (this : Agent) (w w0 : World)
    (allMessages : list Message) (raw : string) :
  isProcessing this = false ->
  LLMService.isReady (llm env) = true ->
  getAllMessages w = (Normal allMessages, w0) ->
  2 <= List.length (new_messages this allMessages) ->
  LLMService.analyzeConversation (llm env) (engine env)
    (new_messages this allMessages) = Normal raw ->
  parseAnalysisResult raw = Normal None ->
  processRecentConversations env this w
  = ({| isProcessing := false;
        lastProcessedMessageId := lastProcessedMessageId this |}, w0).
Proof.
  intros Hp Hr Hm Hn Ha Hparse.
  unfold processRecentConversations. rewrite Hp, Hr, Hm. simpl negb. cbv iota.
  assert (L : (List.length allMessages =? 0) = false).
  { apply Nat.eqb_neq. intros E.
    destruct allMessages; [simpl in Hn; lia | discriminate]. }
  rewrite L.
  assert (L2 : (List.length (new_messages this allMessages) <? 2) = false)
    by (apply Nat.ltb_ge; exact Hn).
  unfold new_messages in *. simpl lastProcessedMessageId.
  rewrite L2, Ha, Hparse. reflexivity.
Qed.

(** A run whose apply step throws. *)
Lemma run_apply_throws (env : Env) (this : Agent) (w w0 w2 : World)
    (allMessages : list Message) (raw : string) (p : ParsedAnalysis)
    (e : Error) :
  isProcessing this = false ->
  LLMService.isReady (llm env) = true ->
  getAllMessages w = (Normal allMessages, w0) ->
  2 <= List.length (new_messages this allMessages) ->
  LLMService.analyzeConversation (llm env) (engine env)
    (new_messages this allMessages) = Normal raw ->
  parseAnalysisResult raw = Normal (Some p) ->
  applyAnalysisResults (typed env p) w0 = (Throw e, w2) ->
  processRecentConversations env this w
  = ({| isProcessing := false;
        lastProcessedMessageId := lastProcessedMessageId this |}, w2).
Proof.
  intros Hp Hr Hm Hn Ha Hparse Happly.
  unfold processRecentConversations. rewrite Hp, Hr, Hm. simpl negb. cbv iota.
  assert (L : (List.length allMessages =? 0) = false).
  { apply Nat.eqb_neq. intros E.
    destruct allMessages; [simpl in Hn; lia | discriminate]. }
  rewrite L.
  assert (L2 : (List.length (new_messages this allMessages) <? 2) = false)
    by (apply Nat.ltb_ge; exact Hn).
  unfold new_messages in *. simpl lastProcessedMessageId.
  rewrite L2, Ha, Hparse, Happly. reflexivity.
Qed.

(** A run never lowers the mark, and always leaves the busy flag as it
    found it or released. *)
Lemma run_mark_le (env : Env) (this : Agent) (w : World) :
  (mark this <= mark (fst (processRecentConversations env this w)))%Z.
Proof.
  unfold processRecentConversations, mark.
  destruct (isProcessing this); [simpl; lia|].
  destruct (negb (LLMService.isReady (llm env))); [simpl; lia|].
  destruct (getAllMessages w) as [[allMessages|e] w0]; [|simpl; lia].
  destruct (List.length allMessages =? 0); [simpl; lia|].
  simpl lastProcessedMessageId.
  change (filter _ allMessages) with (new_messages this allMessages).
  destruct (List.length (new_messages this allMessages) <? 2) eqn:L2;
    [simpl; lia|].
  destruct (LLMService.analyzeConversation _ _ _) as [raw|e]; [|simpl; lia].
  destruct (parseAnalysisResult raw) as [[p|]|e]; try (simpl; lia).
  destruct (applyAnalysisResults _ w0) as [[u|e] w2]; [|simpl; lia].
  simpl. apply Nat.ltb_ge in L2.
  assert (N : new_messages this allMessages <> []).
  { intros E. rewrite E in L2. simpl in L2. lia. }
  pose proof (last_new_message this allMessages N) as [_ H].
  unfold mark in H. lia.
Qed.

Lemma runs_mark_le (l : list (Env * (World -> World))) :
  forall this w, (mark this <= mark (fst (runs l this w)))%Z.
Proof.
  induction l as [|[env between] l IH]; intros this w; simpl; [lia|].
  pose proof (run_mark_le env this (between w)) as H.
  destruct (processRecentConversations env this (between w)) as [this' w'].
  simpl in H. specialize (IH this' w'). lia.
Qed.

(** C1.  Over any sequence of runs, whatever happens to the store between
    them, the mark never decreases.  A run that finds at least two new
    messages, obtains a result and applies it to the end sets the mark to
    the key of the last of the new messages, which is above the old mark,
    and releases the busy flag.  When parsing yields no result, or when
    applying throws, the mark is left as it was. *)
Theorem C1_high_water_mark :
  (forall (l : list (Env * (World -> World))) (this : Agent) (w : World),
     (mark this <= mark (fst (runs l this w)))%Z)
  /\ (forall (env : Env) (this : Agent) (w w0 : World)
             (allMessages : list Message) (raw : string),
        isProcessing this = false ->
        LLMService.isReady (llm env) = true ->
        getAllMessages w = (Normal allMessages, w0) ->
        2 <= List.length (new_messages this allMessages) ->
        LLMService.analyzeConversation (llm env) (engine env)
          (new_messages this allMessages) = Normal raw ->
        (forall p w2,
           parseAnalysisResult raw = Normal (Some p) ->
           applyAnalysisResults (typed env p) w0 = (Normal tt, w2) ->
           processRecentConversations env this w
           = ({| isProcessing := false;
                 lastProcessedMessageId :=
                   id_or_0 (last (new_messages this allMessages)
                              default_message) |}, w2)
           /\ In (last (new_messages this allMessages) default_message)
                 (new_messages this allMessages)
           /\ (mark this
               < id_or_0 (last (new_messages this allMessages)
                            default_message))%Z)
        /\ (parseAnalysisResult raw = Normal None ->
            processRecentConversations env this w
            = ({| isProcessing := false;
                  lastProcessedMessageId := lastProcessedMessageId this |},
               w0))
        /\ (forall p e w2,
              parseAnalysisResult raw = Normal (Some p) ->
              applyAnalysisResults (typed env p) w0 = (Throw e, w2) ->
              processRecentConversations env this w
              = ({| isProcessing := false;
                    lastProcessedMessageId := lastProcessedMessageId this |},
                 w2))).
Proof.
  split; [exact runs_mark_le|].
  intros env this w w0 allMessages raw Hp Hr Hm Hn Ha.
  split; [|split].
  - intros p w2 Hparse Happly.
    split; [now apply (run_applied env this w w0 w2 allMessages raw p)|].
    apply last_new_message. intros E. rewrite E in Hn. simpl in Hn. lia.
  - now apply (run_no_result env this w w0 allMessages raw).
  - intros p e w2 Hparse Happly.
    now apply (run_apply_throws env this w w0 w2 allMessages raw p e).
Qed.

(** ** An item that throws *)

Lemma db_call_throws (A : Type) (f : Z -> Database -> A * Database)
    (w w' : World) (e : Error) :
  db_call f w = (Throw e, w') -> db w' = db w.
Proof.
  intros H.
  apply db_call_inv in H as [_ [(a & E & _) | (e' & _ & D & _)]];
    [discriminate | exact D].
Qed.

Lemma then_ret_throws (A : Type) (c : M A) (w w' : World) (e : Error) :
  (c ;;; ret tt) w = (Throw e, w') -> c w = (Throw e, w').
Proof.
  intros H. apply bind_inv in H as [(a & w1 & _ & H2) | (e' & H1 & E)].
  - discriminate H2.
  - now inversion E; subst.
Qed.

Lemma find_by_name_world (A : Type) (field : A -> string)
    (name : option string) (rows : list A) (w w' : World)
    (r : Completion (option A)) :
  find_by_name field name rows w = (r, w') -> w' = w.
Proof. destruct rows, name; intros H; now inversion H. Qed.

Lemma applyNote_throws (n : NoteItem) (w w' : World) (e : Error) :
  applyNote n w = (Throw e, w') -> db w' = db w.
Proof.
  unfold applyNote. destruct (title n), (body n); try discriminate.
  destruct (truthy _ && truthy _); [|discriminate].
  intros H. apply then_ret_throws in H. exact (db_call_throws _ _ _ _ _ H).
Qed.

Lemma applyListItem_throws (l : List) (item : string) (w w' : World)
    (e : Error) :
  applyListItem l item w = (Throw e, w') -> db w' = db w.
Proof.
  unfold applyListItem. intros H.
  apply bind_inv in H as [(ex & w1 & H1 & H2) | (e' & H1 & _)].
  - apply read_call_inv in H1 as [D1 _].
    destruct (negb _); [|discriminate].
    apply then_ret_throws in H2.
    rewrite <- D1. exact (db_call_throws _ _ _ _ _ H2).
  - exact (db_call_throws _ _ _ _ _ H1).
Qed.

Lemma applyGoalCompletion_throws (gc : GoalCompletion) (w w' : World)
    (e : Error) :
  applyGoalCompletion gc w = (Throw e, w') -> db w' = db w.
Proof.
  unfold applyGoalCompletion. intros H.
  apply bind_inv in H as [(gs & w1 & H1 & H2) | (e' & H1 & _)].
  - apply read_call_inv in H1 as [D1 _]. rewrite <- D1.
    apply bind_inv in H2 as [(t & w2 & H3 & H4) | (e' & H3 & _)].
    + apply find_by_name_world in H3. subst w2.
      destruct t as [target|]; [|discriminate].
      exact (db_call_throws _ _ _ _ _ H4).
    + apply find_by_name_world in H3. now subst.
  - exact (db_call_throws _ _ _ _ _ H1).
Qed.

Lemma applyMindmapNode_throws (k : MindmapItem) (w w' : World) (e : Error) :
  applyMindmapNode k w = (Throw e, w') -> db w' = db w.
Proof.
  unfold applyMindmapNode. destruct (label k), (category k); try discriminate.
  destruct (truthy _); [|discriminate]. intros H.
  apply bind_inv in H as [(ex & w1 & H1 & H2) | (e' & H1 & _)].
  - apply read_call_inv in H1 as [D1 _].
    destruct (negb _); [|discriminate].
    apply then_ret_throws in H2.
    rewrite <- D1. exact (db_call_throws _ _ _ _ _ H2).
  - exact (db_call_throws _ _ _ _ _ H1).
Qed.

(** A loop that throws has run the items before the failing one to the
    end. *)
Lemma for_of_throws (A : Type) (f : A -> M unit) (xs : list A)
    (w w' : World) (e : Error) :
  for_of xs f w = (Throw e, w') ->
  exists p x q w1,
    xs = p ++ x :: q
    /\ for_of p f w = (Normal tt, w1)
    /\ f x w1 = (Throw e, w').
Proof.
  revert w. induction xs as [|y xs IH]; intros w H; simpl in H;
    [discriminate|].
  apply bind_inv in H as [([] & w1 & H1 & H2) | (e' & H1 & E)].
  - destruct (IH w1 H2) as (p & x & q & w2 & -> & Hp & Hx).
    exists (y :: p), x, q, w2. split; [reflexivity|].
    split; [|exact Hx]. simpl.
    now rewrite (bind_normal _ _ _ _ _ _ _ H1).
  - inversion E; subst. exists [], y, xs, w. now split.
Qed.

Lemma run_all_throws (cs : list (M unit)) (w w' : World) (e : Error) :
  run_all cs w = (Throw e, w') ->
  exists pre s post w1,
    cs = pre ++ s :: post
    /\ run_all pre w = (Normal tt, w1)
    /\ s w1 = (Throw e, w').
Proof.
  revert w. induction cs as [|c cs IH]; intros w H; simpl in H;
    [discriminate|].
  apply bind_inv in H as [([] & w1 & H1 & H2) | (e' & H1 & E)].
  - destruct (IH w1 H2) as (p & x & q & w2 & -> & Hp & Hx).
    exists (c :: p), x, q, w2. split; [reflexivity|].
    split; [|exact Hx]. simpl.
    now rewrite (bind_normal _ _ _ _ _ _ _ H1).
  - inversion E; subst. exists [], c, cs, w. now split.
Qed.

(** A group that throws leaves the data as they were, or as the group cut
    before the failing item leaves them. *)
Lemma applyListGroup_throws (g : ListGroup) (name : string)
    (its : list string) (w w' : World) (e : Error) :
  listName g = Some name -> items g = Some its ->
  applyListGroup g w = (Throw e, w') ->
  db w' = db w
  \/ exists p x q w1,
       its = p ++ x :: q
       /\ applyListGroup {| listName := Some name; items := Some p |} w
          = (Normal tt, w1)
       /\ db w' = db w1.
Proof.
  intros Hn Hi H. unfold applyListGroup in H |- *. rewrite Hn, Hi in H.
  simpl.
  apply bind_inv in H as [(ls & w1 & H1 & H2) | (e' & H1 & _)];
    [|left; exact (db_call_throws _ _ _ _ _ H1)].
  pose proof (read_call_inv _ _ _ _ _ H1) as [D1 _].
  erewrite bind_normal in H2 by apply find_by_name_some.
  destruct (find (fun l => fuzzy_match (l_title l) name) ls) as [target|]
    eqn:F.
  - apply for_of_throws in H2 as (p & x & q & w2 & E & Hp & Hx).
    right. exists p, x, q, w2. split; [exact E|].
    split; [|exact (applyListItem_throws _ _ _ _ _ Hx)].
    rewrite (bind_normal _ _ _ _ _ _ _ H1).
    erewrite bind_normal by apply find_by_name_some.
    now rewrite F.
  - apply bind_inv in H2 as [(id & w2 & H3 & H4) | (e' & H3 & _)].
    + apply for_of_throws in H4 as (p & x & q & w3 & E & Hp & Hx).
      right. exists p, x, q, w3. split; [exact E|]. split.
      * rewrite (bind_normal _ _ _ _ _ _ _ H1).
        erewrite bind_normal by apply find_by_name_some.
        rewrite F. now rewrite (bind_normal _ _ _ _ _ _ _ H3).
      * apply then_ret_throws in Hx.
        exact (db_call_throws _ _ _ _ _ Hx).
    + left. rewrite <- D1. exact (db_call_throws _ _ _ _ _ H3).
Qed.

(** ** The calls of an item end at the first one that is rejected *)

Lemma ends_ret (A : Type) (a : A) : ends_at_rejection (ret a).
Proof.
  intros w r w' H. inversion H; subst. exists []. split; [reflexivity|].
  left. split; [constructor | discriminate].
Qed.

Lemma ends_throw (A : Type) (e : Error) :
  e <> StoreFailure -> ends_at_rejection (@throw A e).
Proof.
  intros He w r w' H. inversion H; subst. exists []. split; [reflexivity|].
  left. split; [constructor | congruence].
Qed.

Lemma ends_db_call (A : Type) (f : Z -> Database -> A * Database) :
  ends_at_rejection (db_call f).
Proof.
  intros w r w'. unfold db_call. destruct (opened w); simpl.
  - destruct (schedule w) as [|ev rest] eqn:S.
    + destruct (f (now w) (db w)) as [a d]. intros H. inversion H; subst.
      exists []. split; [reflexivity|].
      left. split; [constructor | discriminate].
    + destruct (ev_fails ev) eqn:Ev.
      * intros H. inversion H; subst. exists [ev]. split; [reflexivity|].
        right. exists [], ev. repeat split; auto.
      * destruct (f (ev_time ev) (db w)) as [a d]. intros H.
        inversion H; subst. exists [ev]. split; [reflexivity|].
        left. split; [now repeat constructor | discriminate].
  - intros H. inversion H; subst. exists []. split; [reflexivity|].
    left. split; [constructor | discriminate].
Qed.

Lemma ends_bind (A B : Type) (c : M A) (k : A -> M B) :
  ends_at_rejection c -> (forall a, ends_at_rejection (k a)) ->
  ends_at_rejection (bind c k).
Proof.
  intros Hc Hk w r w' H.
  apply bind_inv in H as [(a & w1 & H1 & H2) | (e & H1 & ->)].
  - destruct (Hc w _ w1 H1)
      as (u1 & S1 & [[F1 _] | (g & ev & _ & _ & _ & E & _)]);
      [|discriminate E].
    destruct (Hk a w1 r w' H2) as (u2 & S2 & D2).
    exists (u1 ++ u2). split; [now rewrite S1, S2, app_assoc|].
    destruct D2 as [[F2 N] | (g & ev & -> & Fg & Ev & E & T)].
    + left. split; [now apply Forall_app | exact N].
    + right. exists (u1 ++ g), ev. rewrite app_assoc.
      repeat split; auto. now apply Forall_app.
  - destruct (Hc w _ w' H1) as (u & S & D). exists u. split; [exact S|].
    destruct D as [[F N] | (g & ev & -> & Fg & Ev & E & T)].
    + left. split; [exact F|]. intros E. apply N.
      now inversion E.
    + right. exists g, ev. repeat split; auto.
      now inversion E.
Qed.

Lemma ends_for_of (A : Type) (xs : list A) (f : A -> M unit) :
  (forall x, ends_at_rejection (f x)) -> ends_at_rejection (for_of xs f).
Proof.
  intros Hf. induction xs as [|x xs IH]; simpl.
  - apply ends_ret.
  - apply ends_bind; [apply Hf | intros _; exact IH].
Qed.

Lemma ends_if (A : Type) (b : bool) (c1 c2 : M A) :
  ends_at_rejection c1 -> ends_at_rejection c2 ->
  ends_at_rejection (if b then c1 else c2).
Proof. now destruct b. Qed.

Lemma ends_find_by_name (A : Type) (field : A -> string)
    (name : option string) (rows : list A) :
  ends_at_rejection (find_by_name field name rows).
Proof.
  destruct rows, name; simpl;
    first [apply ends_ret | apply ends_throw; discriminate].
Qed.

Ltac ends_step :=
  first
    [ apply ends_ret
    | apply ends_throw; discriminate
    | apply ends_db_call
    | apply ends_find_by_name
    | apply ends_for_of; intros ?
    | apply ends_bind; [|intros ?]
    | apply ends_if ].

Lemma applyNote_ends (n : NoteItem) : ends_at_rejection (applyNote n).
Proof.
  unfold applyNote, addNote. destruct (title n), (body n);
    repeat ends_step.
Qed.

Lemma applyListGroup_ends (g : ListGroup) :
  ends_at_rejection (applyListGroup g).
Proof.
  unfold applyListGroup, applyListItem, getAllLists, getListItems,
    createList, addListItem.
  apply ends_bind; [apply ends_db_call | intros allLists].
  apply ends_bind; [apply ends_find_by_name | intros [target|]].
  - destruct (items g); repeat ends_step.
  - destruct (listName g); repeat ends_step.
    destruct (items g); repeat ends_step.
Qed.

Lemma applyGoalCompletion_ends (gc : GoalCompletion) :
  ends_at_rejection (applyGoalCompletion gc).
Proof.
  unfold applyGoalCompletion, getAllGoals, updateGoalStreak.
  apply ends_bind; [apply ends_db_call | intros allGoals].
  apply ends_bind; [apply ends_find_by_name | intros [target|]];
    repeat ends_step.
Qed.

Lemma applyMindmapNode_ends (k : MindmapItem) :
  ends_at_rejection (applyMindmapNode k).
Proof.
  unfold applyMindmapNode, getAllMindmapNodes, addMindmapNode.
  destruct (label k), (category k); repeat ends_step.
Qed.

Lemma applyAnalysisResults_ends (a : AnalysisResult) :
  ends_at_rejection (applyAnalysisResults a).
Proof.
  unfold applyAnalysisResults.
  repeat (apply ends_bind; [|intros _]);
    apply ends_for_of;
    auto using applyNote_ends, applyListGroup_ends,
      applyGoalCompletion_ends, applyMindmapNode_ends.
Qed.

Lemma step_only_adds (a : AnalysisResult) (s : M unit) :
  In s (steps a) -> preserves only_adds s.
Proof.
  unfold steps. rewrite !in_app_iff, !in_map_iff.
  intros [(x & <- & _) | [(x & <- & _) | [(x & <- & _) | (x & <- & _)]]];
    auto using applyNote_only_adds, applyListGroup_only_adds,
      applyGoalCompletion_only_adds, applyMindmapNode_only_adds.
Qed.

(** C2, as the program has it.  When the application of an item throws,
    the error leaves [applyAnalysisResults] at once: the items before it
    were applied to the end and what they stored stays, the items after it
    are not run, and the store is left as the failing item left it.  A
    note, a goal completion or a mindmap fact that throws leaves the data
    as they were; a list group that throws leaves them as they were or as
    the group cut before the failing entry leaves them (the list it
    created and the entries inserted before).  Every error of an
    application arises in this way.  A call that the store rejects throws
    and leaves the data as they are, and it is the last call of the
    application: the outcome is then the failure of the store.  The run
    catches the error, leaves the mark as it was and releases the busy
    flag. *)
Theorem C2_failure_aborts_apply :
  forall (a : AnalysisResult) (pre post : list (M unit)) (s : M unit)
         (w w1 w' : World) (e : Error),
    steps a = pre ++ s :: post ->
    run_all pre w = (Normal tt, w1) ->
    s w1 = (Throw e, w') ->
    applyAnalysisResults a w = (Throw e, w')
    /\ only_adds (db w) (db w1)
    /\ only_adds (db w1) (db w')
    /\ (forall (n : NoteItem) (v v' : World) (e' : Error),
          applyNote n v = (Throw e', v') -> db v' = db v)
    /\ (forall (gc : GoalCompletion) (v v' : World) (e' : Error),
          applyGoalCompletion gc v = (Throw e', v') -> db v' = db v)
    /\ (forall (k : MindmapItem) (v v' : World) (e' : Error),
          applyMindmapNode k v = (Throw e', v') -> db v' = db v)
    /\ (forall (g : ListGroup) (name : string) (its : list string)
               (v v' : World) (e' : Error),
          listName g = Some name -> items g = Some its ->
          applyListGroup g v = (Throw e', v') ->
          db v' = db v
          \/ exists p x q v1,
               its = p ++ x :: q
               /\ applyListGroup
                    {| listName := Some name; items := Some p |} v
                  = (Normal tt, v1)
               /\ db v' = db v1)
    /\ (forall (v v' : World) (e' : Error),
          applyAnalysisResults a v = (Throw e', v') ->
          exists pre' s' post' v1,
            steps a = pre' ++ s' :: post'
            /\ run_all pre' v = (Normal tt, v1)
            /\ s' v1 = (Throw e', v'))
    /\ (forall (v v' : World) (r : Completion unit),
          applyAnalysisResults a v = (r, v') ->
          exists used,
            schedule v = used ++ schedule v'
            /\ ((Forall accepted used /\ r <> Throw StoreFailure)
                \/ exists good ev,
                     used = good ++ [ev]
                     /\ Forall accepted good
                     /\ ev_fails ev = true
                     /\ r = Throw StoreFailure
                     /\ now v' = ev_time ev))
    /\ (forall (env : Env) (this : Agent) (u : World)
               (allMessages : list Message) (raw : string)
               (p : ParsedAnalysis),
          isProcessing this = false ->
          LLMService.isReady (llm env) = true ->
          getAllMessages u = (Normal allMessages, w) ->
          2 <= List.length (new_messages this allMessages) ->
          LLMService.analyzeConversation (llm env) (engine env)
            (new_messages this allMessages) = Normal raw ->
          parseAnalysisResult raw = Normal (Some p) ->
          typed env p = a ->
          processRecentConversations env this u
          = ({| isProcessing := false;
                lastProcessedMessageId := lastProcessedMessageId this |},
             w'))
    /\ (forall (A : Type) (f : Z -> Database -> A * Database) (v : World)
               (ev : Event) (rest : list Event),
          opened v = true -> schedule v = ev :: rest ->
          ev_fails ev = true ->
          db_call f v
          = (Throw StoreFailure,
             {| db := db v; opened := true; now := ev_time ev;
                schedule := rest |})).
Proof.
  intros a pre post s w w1 w' e Hs Hpre Hthrow.
  assert (T : applyAnalysisResults a w = (Throw e, w')).
  { rewrite applyAnalysisResults_steps, Hs.
    now apply (run_all_stops pre post s w w1 w' e). }
  split; [exact T|].
  split.
  { clear T Hthrow. revert w Hpre.
    assert (Hin : forall c, In c pre -> preserves only_adds c).
    { intros c Hc. apply (step_only_adds a). rewrite Hs.
      apply in_or_app. now left. }
    clear Hs. induction pre as [|c pre IH]; intros w Hpre; simpl in Hpre.
    - inversion Hpre. apply only_adds_refl.
    - apply bind_inv in Hpre as [([] & w2 & H1 & H2) | (e' & _ & E)];
        [|discriminate E].
      apply (only_adds_trans _ (db w2)).
      + exact (Hin c (or_introl eq_refl) w _ w2 H1).
      + apply IH; [|exact H2]. intros c' Hc'. apply Hin. now right. }
  split.
  { apply (step_only_adds a s) with (r := Throw e); [|exact Hthrow].
    rewrite Hs. apply in_or_app. right. now left. }
  split; [exact applyNote_throws|].
  split; [exact applyGoalCompletion_throws|].
  split; [exact applyMindmapNode_throws|].
  split; [exact applyListGroup_throws|].
  split.
  { intros v v' e' H. rewrite applyAnalysisResults_steps in H.
    exact (run_all_throws _ _ _ _ H). }
  split; [intros v v' r H; exact (applyAnalysisResults_ends a v r v' H)|].
  split; [|exact db_call_rejected].
  intros env this u allMessages raw p Hp Hr Hm Hn Ha Hparse Ht.
  apply (run_apply_throws env this u w w' allMessages raw p e); auto.
  now rewrite Ht.
Qed.

(** C2, as stated, fails: when the call that stores the first note of a
    result is rejected, and no later call would be, the second note and the
    fact of the same result are not stored, although a store that rejects
    nothing stores all three. *)
Lemma C2_rest_not_applied :
  fst (applyAnalysisResults two_notes faulty_world) = Throw StoreFailure
  /\ Notes (db (snd (applyAnalysisResults two_notes faulty_world))) = []
  /\ MindmapNodes (db (snd (applyAnalysisResults two_notes faulty_world)))
     = []
  /\ schedule (snd (applyAnalysisResults two_notes faulty_world)) = []
  /\ map n_title
       (Notes (db (snd (applyAnalysisResults two_notes
                          (quiet_world empty_database)))))
     = ["Dentist"%string; "Gift"%string]
  /\ map k_label
       (MindmapNodes (db (snd (applyAnalysisResults two_notes
                                 (quiet_world empty_database)))))
     = ["Loves hiking"%string].
Proof. repeat split; vm_compute; reflexivity. Qed.

(** * The theorems at concrete inputs *)

(** A history of ten turns is rendered as its last six, under the tags
    user and assistant, between the system turn and the new message. *)
Lemma C9_prompt_keeps_last_six_witness :
  buildChatMLPrompt ready_service "Hello" ten_turns
  = ("<|im_start|>system" ++ line_break
     ++ "You are Vi.<|im_end|>" ++ line_break
     ++ "<|im_start|>user" ++ line_break
     ++ "five<|im_end|>" ++ line_break
     ++ "<|im_start|>assistant" ++ line_break
     ++ "six<|im_end|>" ++ line_break
     ++ "<|im_start|>user" ++ line_break
     ++ "seven<|im_end|>" ++ line_break
     ++ "<|im_start|>assistant" ++ line_break
     ++ "eight<|im_end|>" ++ line_break
     ++ "<|im_start|>user" ++ line_break
     ++ "nine<|im_end|>" ++ line_break
     ++ "<|im_start|>assistant" ++ line_break
     ++ "ten<|im_end|>" ++ line_break
     ++ "<|im_start|>user" ++ line_break
     ++ "Hello<|im_end|>" ++ line_break
     ++ "<|im_start|>assistant" ++ line_break)%string
  /\ most_recent 6 ten_turns = last_six
  /\ buildChatMLPrompt ready_service "Hello" ten_turns
     = buildChatMLPrompt ready_service "Hello" last_six.
Proof.
  split.
  - exact (proj1 (C9_prompt_keeps_last_six ready_service "Hello"
                    ten_turns)).
  - exact (proj1 (proj2 (C9_prompt_keeps_last_six ready_service "Hello"
                           ten_turns))
             first_four last_six eq_refl eq_refl).
Defined.


(** An object whose notes are a string parses to four coerced arrays. *)
Lemma C6_parse_analysis_result_witness :
  parseAnalysisResult example_notes_string
  = Normal (Some (coerced (JObject [("notes"%string, JString "x")]))).
Proof.
  apply (proj1 (proj2 (proj2 (proj2
           (C6_parse_analysis_result example_notes_string))))
           (JObject [("notes"%string, JString "x")]));
    [reflexivity | discriminate].
Defined.

(** A completion mentioning run, against the goals Morning Run and
    Evening Read: the streak of the first goes from 3 to 4 and its date is
    set, the second goal is as before.  A completion mentioning ING, which
    is part of both titles, counts for the goal created last.  A completion
    mentioning swim changes nothing. *)
Lemma C5_goal_completion_witness :
  (outcome (applyGoalCompletion run_done) habits_database = Normal tt
   /\ Goals (db (store_after (applyGoalCompletion run_done) habits_database))
      = [{| g_id := 1; g_title := "Morning Run"; g_frequency := daily;
            g_streak_count := 4; g_last_completed_date := Some 200%Z;
            g_target_count := None; g_created_at := 50 |};
         evening_read])
  /\ (outcome (applyGoalCompletion ing_done) habits_database = Normal tt
      /\ Goals (db (store_after (applyGoalCompletion ing_done) habits_database))
         = [morning_run;
            {| g_id := 2; g_title := "Evening Read"; g_frequency := daily;
               g_streak_count := 8; g_last_completed_date := Some 200%Z;
               g_target_count := None; g_created_at := 60 |}])
  /\ (outcome (applyGoalCompletion swim_done) habits_database = Normal tt
      /\ db (store_after (applyGoalCompletion swim_done) habits_database)
         = habits_database).
Proof.
  assert (C : calm (quiet_world habits_database))
    by (split; [reflexivity | constructor]).
  pose proof (fun gc t E =>
                C5_goal_completion gc t (quiet_world habits_database)
                  (store_after (applyGoalCompletion gc) habits_database)
                  (outcome (applyGoalCompletion gc) habits_database)
                  E (surjective_pairing _)) as T.
  destruct (T run_done "run"%string eq_refl) as (_ & R1 & _ & M1).
  destruct (T ing_done "ING"%string eq_refl) as (_ & R2 & _ & M2).
  destruct (T swim_done "swim"%string eq_refl) as (_ & R3 & _ & M3).
  destruct (R1 C) as [N1 _]. destruct (R2 C) as [N2 _].
  destruct (R3 C) as [N3 _].
  split; [split; [exact N1 | exact (proj1 (proj2 (proj2 M1) N1))]|].
  split; [split; [exact N2 | exact (proj1 (proj2 (proj2 M2) N2))]|].
  split; [exact N3 | exact M3].
Defined.

(** Milk and milk against the list Groceries, which has no entries: no
    list is created and Milk is inserted once.  The same items for the
    name Weekend  To Do, which no title matches: the list is created with
    the category weekend_to_do and both items are inserted.  Milk and Eggs
    against two lists whose titles contain the name and an entry MILK in
    the one created last: only Eggs is inserted, into that list. *)
Lemma C3_list_items_witness :
  (outcome (applyListGroup milk_group) groceries_database = Normal tt
   /\ Lists (db (store_after (applyListGroup milk_group) groceries_database))
      = Lists groceries_database
   /\ exists added,
        ListItems
          (db (store_after (applyListGroup milk_group) groceries_database))
        = added
        /\ map i_content added = ["Milk"%string]
        /\ Forall (fun i => i_list_id i = 1%Z /\ i_is_completed i = false)
             added)
  /\ (outcome (applyListGroup weekend_group) groceries_database = Normal tt
      /\ (exists l,
            Lists
              (db (store_after (applyListGroup weekend_group)
                     groceries_database))
            = (Lists groceries_database ++ [l])%list
            /\ l_id l = 2%Z
            /\ l_title l = "Weekend  To Do"%string
            /\ l_type l = "weekend_to_do"%string)
      /\ exists added,
           ListItems
             (db (store_after (applyListGroup weekend_group)
                    groceries_database))
           = added
           /\ map i_content added = ["Milk"%string; "milk"%string]
           /\ Forall (fun i => i_list_id i = 2%Z /\ i_is_completed i = false)
                added)
  /\ (outcome (applyListGroup eggs_group) pantry_database = Normal tt
      /\ Lists (db (store_after (applyListGroup eggs_group) pantry_database))
         = Lists pantry_database
      /\ exists added,
           ListItems
             (db (store_after (applyListGroup eggs_group) pantry_database))
           = (ListItems pantry_database ++ added)%list
           /\ map i_content added = ["Eggs"%string]
           /\ Forall (fun i => i_list_id i = 2%Z /\ i_is_completed i = false)
                added).
Proof.
  assert (C : forall d, calm (quiet_world d))
    by (intros d; split; [reflexivity | constructor]).
  pose proof (fun g name its d En Ei =>
                C3_list_items g name its (quiet_world d)
                  (store_after (applyListGroup g) d)
                  (outcome (applyListGroup g) d)
                  En Ei (surjective_pairing _)) as T.
  destruct (T milk_group _ _ groceries_database eq_refl eq_refl)
    as (R1 & M1 & _).
  destruct (T weekend_group _ _ groceries_database eq_refl eq_refl)
    as (R2 & M2 & _).
  destruct (T eggs_group _ _ pantry_database eq_refl eq_refl)
    as (R3 & M3 & _).
  destruct (R1 (C _)) as [N1 _]. destruct (R2 (C _)) as [N2 _].
  destruct (R3 (C _)) as [N3 _].
  split; [split; [exact N1 | exact (proj2 (M1 N1))]|].
  split; [split; [exact N2 | exact (proj2 (M2 N2))]|].
  split; [exact N3 | exact (proj2 (M3 N3))].
Defined.


(** A note, a group for a new list, a completion and a fact, on a store
    that rejects the fifth call, the one that inserts the second entry of
    the group: the note, the new list and its first entry are stored; the
    second entry is not, the streak is not counted, the fact is not
    stored, and the sixth event of the schedule is not used. *)
Lemma C2_failure_aborts_apply_witness :
  applyAnalysisResults busy_day fifth_call_fails
  = (Throw StoreFailure, left_midway).
Proof.
  exact (proj1 (C2_failure_aborts_apply busy_day
                  [applyNote dentist]
                  [applyGoalCompletion run_done; applyMindmapNode hiking]
                  (applyListGroup weekend_group)
                  fifth_call_fails
                  (snd (applyNote dentist fifth_call_fails))
                  left_midway StoreFailure eq_refl eq_refl eq_refl)).
Defined.

(** A run over two new messages whose analysis is applied to the end. *)
Lemma C1_high_water_mark_witness :
  processRecentConversations good_env idle (quiet_world chat_database)
  = ({| isProcessing := false; lastProcessedMessageId := 2 |},
     snd (applyAnalysisResults (read_typed parsed_example)
            (quiet_world chat_database))).
Proof.
  apply (proj1 (proj2 C1_high_water_mark good_env idle
                  (quiet_world chat_database) (quiet_world chat_database)
                  two_turns analysis_text
                  eq_refl eq_refl eq_refl (le_n 2) eq_refl)
           parsed_example
           (snd (applyAnalysisResults (read_typed parsed_example)
                   (quiet_world chat_database)))
           eq_refl eq_refl).
Defined.

(** * Further properties of the pipeline *)

(** ** Guards of a run *)

Lemma getAllMessages_inv (w w' : World) (r : Completion (list Message)) :
  getAllMessages w = (r, w') ->
  db w' = db w
  /\ (forall l, r = Normal l ->
        l = order_by (asc m_timestamp) (Messages (db w))).
Proof. apply read_call_inv. Qed.

Lemma run_guarded (env : Env) (this : Agent) (w : World) :
  isProcessing this = true \/ LLMService.isReady (llm env) = false ->
  processRecentConversations env this w = (this, w).
Proof.
  intros [H|H]; unfold processRecentConversations; rewrite H;
    [reflexivity|]. now destruct (isProcessing this).
Qed.

Lemma run_few_messages (env : Env) (this : Agent) (w w0 : World)
    (r : Completion (list Message)) :
  isProcessing this = false ->
  LLMService.isReady (llm env) = true ->
  getAllMessages w = (r, w0) ->
  (forall l, r = Normal l -> List.length (new_messages this l) < 2) ->
  processRecentConversations env this w = (this, w0) /\ db w0 = db w.
Proof.
  intros Hp Hr Hm Hn.
  pose proof (getAllMessages_inv _ _ _ Hm) as [D _].
  split; [|exact D].
  unfold processRecentConversations. rewrite Hp, Hr, Hm. simpl negb.
  cbv iota. destruct this as [busy m]. simpl in Hp. subst busy.
  destruct r as [l|e]; [|reflexivity].
  destruct (List.length l =? 0); [reflexivity|].
  specialize (Hn l eq_refl). unfold new_messages in Hn. simpl in *.
  apply Nat.ltb_lt in Hn. now rewrite Hn.
Qed.

(** X1.  A run that finds the agent busy or the service not ready does
    nothing at all, not even a call of the store.  A run that cannot read
    the messages, or finds fewer than two messages above the mark, leaves
    the mark and the data as they are, whatever the engine would have
    answered. *)
Theorem X1_run_guards :
  forall (env : Env) (this : Agent) (w : World),
    (isProcessing this = true \/ LLMService.isReady (llm env) = false ->
     processRecentConversations env this w = (this, w))
    /\ (forall r w0,
          isProcessing this = false ->
          LLMService.isReady (llm env) = true ->
          getAllMessages w = (r, w0) ->
          (forall l, r = Normal l ->
             List.length (new_messages this l) < 2) ->
          processRecentConversations env this w = (this, w0)
          /\ db w0 = db w).
Proof.
  intros env this w. split.
  - apply run_guarded.
  - intros r w0. apply run_few_messages.
Qed.

Lemma run_flag (env : Env) (this : Agent) (w : World) :
  isProcessing (fst (processRecentConversations env this w))
  = isProcessing this.
Proof.
  unfold processRecentConversations.
  destruct (isProcessing this) eqn:Hp; [exact Hp|].
  destruct (negb (LLMService.isReady (llm env))); [exact Hp|].
  destruct (getAllMessages w) as [[l|e] w0]; [|reflexivity].
  destruct (List.length l =? 0); [reflexivity|].
  destruct (List.length (filter _ l) <? 2); [reflexivity|].
  destruct (LLMService.analyzeConversation _ _ _) as [raw|e];
    [|reflexivity].
  destruct (parseAnalysisResult raw) as [[p|]|e]; try reflexivity.
  now destruct (applyAnalysisResults _ w0) as [[u|e] w2].
Qed.

(** X2.  Whatever happens in a run, the busy flag is afterwards what it
    was before: a run that starts idle ends idle, also when the store or
    the engine throws, and so does every sequence of runs. *)
Theorem X2_busy_flag_released :
  (forall (env : Env) (this : Agent) (w : World),
     isProcessing (fst (processRecentConversations env this w))
     = isProcessing this)
  /\ (forall (l : list (Env * (World -> World))) (this : Agent) (w : World),
        isProcessing (fst (runs l this w)) = isProcessing this).
Proof.
  split; [exact run_flag|].
  induction l as [|[env between] l IH]; intros this w; simpl; [reflexivity|].
  pose proof (run_flag env this (between w)) as H.
  destruct (processRecentConversations env this (between w)) as [this' w'].
  simpl in H. now rewrite IH.
Qed.

Lemma run_only_adds (env : Env) (this : Agent) (w : World) :
  only_adds (db w) (db (snd (processRecentConversations env this w))).
Proof.
  unfold processRecentConversations.
  destruct (isProcessing this); [apply only_adds_refl|].
  destruct (negb (LLMService.isReady (llm env))); [apply only_adds_refl|].
  destruct (getAllMessages w) as [r w0] eqn:Hm.
  pose proof (getAllMessages_inv _ _ _ Hm) as [D _].
  assert (F : only_adds (db w) (db w0)) by (rewrite D; apply only_adds_refl).
  destruct r as [l|e]; [|exact F].
  destruct (List.length l =? 0); [exact F|].
  destruct (List.length (filter _ l) <? 2); [exact F|].
  destruct (LLMService.analyzeConversation _ _ _) as [raw|e]; [|exact F].
  destruct (parseAnalysisResult raw) as [[p|]|e]; try exact F.
  destruct (applyAnalysisResults (typed env p) w0) as [[u|e] w2] eqn:Ha;
    simpl; apply (only_adds_trans _ _ _ F);
    exact (applyAnalysisResults_only_adds _ _ _ _ Ha).
Qed.

(** X3.  A whole run, in every case, only adds rows to the notes, lists,
    list items and mindmap nodes and updates streaks: it never changes or
    removes a message, a profile or any existing row. *)
Theorem X3_run_only_adds :
  forall (env : Env) (this : Agent) (w : World),
    only_adds (db w) (db (snd (processRecentConversations env this w))).
Proof. exact run_only_adds. Qed.

(** ** Running again *)

Lemma run_advanced_inv (env : Env) (this : Agent) (w : World) :
  (mark this < mark (fst (processRecentConversations env this w)))%Z ->
  exists allMessages w0,
    getAllMessages w = (Normal allMessages, w0)
    /\ new_messages this allMessages <> []
    /\ mark (fst (processRecentConversations env this w))
       = id_or_0 (last (new_messages this allMessages) default_message).
Proof.
  unfold processRecentConversations, mark.
  destruct (isProcessing this); [simpl; lia|].
  destruct (negb (LLMService.isReady (llm env))); [simpl; lia|].
  destruct (getAllMessages w) as [[allMessages|e] w0]; [|simpl; lia].
  destruct (List.length allMessages =? 0); [simpl; lia|].
  simpl lastProcessedMessageId.
  change (filter _ allMessages) with (new_messages this allMessages).
  destruct (List.length (new_messages this allMessages) <? 2) eqn:L2;
    [simpl; lia|].
  destruct (LLMService.analyzeConversation _ _ _) as [raw|e]; [|simpl; lia].
  destruct (parseAnalysisResult raw) as [[p|]|e]; try (simpl; lia).
  destruct (applyAnalysisResults _ w0) as [[u|e] w2]; [|simpl; lia].
  simpl. intros _. exists allMessages, w0.
  split; [reflexivity|]. split; [|reflexivity].
  apply Nat.ltb_ge in L2. intros E. rewrite E in L2. simpl in L2. lia.
Qed.

Lemma StronglySorted_filter_keep (A : Type) (R : A -> A -> Prop)
    (p : A -> bool) (l : list A) :
  StronglySorted R l -> StronglySorted R (filter p l).
Proof.
  induction 1 as [|a l Hs IH Ha]; simpl; [constructor|].
  destruct (p a); [|exact IH].
  constructor; [exact IH|].
  apply Forall_forall. intros x Hx. apply filter_In in Hx as [Hx _].
  rewrite Forall_forall in Ha. now apply Ha.
Qed.

Lemma StronglySorted_last (A : Type) (R : A -> A -> Prop) (l : list A)
    (d x : A) :
  StronglySorted R l -> In x l -> x = last l d \/ R x (last l d).
Proof.
  induction 1 as [|a l Hs IH Ha]; intros Hx; [destruct Hx|].
  destruct l as [|b l]; [destruct Hx as [<-|[]]; now left|].
  change (last (a :: b :: l) d) with (last (b :: l) d).
  destruct Hx as [<-|Hx]; [|now apply IH].
  right. rewrite Forall_forall in Ha. apply Ha.
  apply last_In. discriminate.
Qed.

(** When the keys ascend along the messages, no message is above the key
    of the last new message. *)
Lemma no_message_above_last_new (this : Agent) (l : list Message) :
  ids_ascending l -> new_messages this l <> [] ->
  filter
    (fun msg =>
       (id_or_0 msg
        >? id_or_0 (last (new_messages this l) default_message))%Z) l
  = [].
Proof.
  intros Hs Hne.
  assert (Hall : forall x, In x l ->
            (id_or_0 x
             <= id_or_0 (last (new_messages this l) default_message))%Z).
  { intros x Hx.
    destruct (id_or_0 x >? lastProcessedMessageId this)%Z eqn:P.
    - assert (Hin : In x (new_messages this l))
        by (apply filter_In; now split).
      unfold new_messages in *.
      destruct (StronglySorted_last _ _ _ default_message x
                  (StronglySorted_filter_keep _ _ _ _ Hs) Hin) as [E|H];
        [rewrite <- E; lia | exact H].
    - pose proof (last_new_message this l Hne) as [_ H].
      unfold mark in H. lia. }
  apply (proj2 (Forall_forall _ _)) in Hall.
  revert Hall. clear Hs Hne.
  generalize (id_or_0 (last (new_messages this l) default_message)).
  intros m Hall. induction Hall as [|x r Hx _ IH]; [reflexivity|].
  simpl. destruct (id_or_0 x >? m)%Z eqn:E; [lia | exact IH].
Qed.

(** X4.  When the keys of the messages ascend in the order in which
    [getAllMessages] returns them, a run that has advanced the mark leaves
    nothing to do: as long as the data are the same, the next run, with
    any engine, changes neither the mark nor the data. *)
Theorem X4_rerun_is_idle :
  forall (env env2 : Env) (this : Agent) (w v : World),
    (mark this < mark (fst (processRecentConversations env this w)))%Z ->
    ids_ascending (order_by (asc m_timestamp) (Messages (db w))) ->
    db v = db (snd (processRecentConversations env this w)) ->
    mark (fst (processRecentConversations env2
                 (fst (processRecentConversations env this w)) v))
    = mark (fst (processRecentConversations env this w))
    /\ db (snd (processRecentConversations env2
                  (fst (processRecentConversations env this w)) v))
       = db v.
Proof.
  intros env env2 this w v.
  intros Hadv Hs Hv.
  destruct (run_advanced_inv env this w Hadv)
    as (allMessages & w0 & Hm & Hne & Hmark).
  pose proof (getAllMessages_inv _ _ _ Hm) as [_ Hl].
  specialize (Hl allMessages eq_refl).
  pose proof (run_only_adds env this w) as (_ & Hmsg & _).
  pose proof (run_flag env this w) as Hflag.
  set (this1 := fst (processRecentConversations env this w)) in *.
  assert (Hidle : isProcessing this1 = false).
  { rewrite Hflag. destruct (isProcessing this) eqn:Hp; [|reflexivity].
    exfalso. unfold this1 in Hadv.
    rewrite (run_guarded env this w (or_introl Hp)) in Hadv.
    simpl in Hadv. lia. }
  destruct (LLMService.isReady (llm env2)) eqn:Hr.
  - destruct (getAllMessages v) as [r v0] eqn:Hm2.
    pose proof (getAllMessages_inv _ _ _ Hm2) as [D2 Hl2].
    assert (Few : forall l, r = Normal l ->
              List.length (new_messages this1 l) < 2).
    { intros l Hrl. rewrite (Hl2 l Hrl), Hv, Hmsg, <- Hl.
      unfold new_messages at 1. fold (mark this1). rewrite Hmark.
      rewrite (no_message_above_last_new this allMessages);
        [simpl; lia | now rewrite Hl | exact Hne]. }
    destruct (run_few_messages env2 this1 v v0 r Hidle Hr Hm2 Few)
      as [E D].
    rewrite E. simpl. now split.
  - rewrite (run_guarded env2 this1 v (or_intror Hr)). now split.
Qed.

(** ** Items, one store operation at a time *)

Section Items.
Variable R : Database -> Database -> Prop.
Hypothesis R_refl : forall d, R d d.
Hypothesis R_trans : forall a b c, R a b -> R b c -> R a c.

Lemma preserves_read (A : Type) (g : Database -> A) :
  preserves R (db_call (fun _ d => (g d, d))).
Proof. apply preserves_db_call; [exact R_refl | intros t d; apply R_refl]. Qed.

Lemma applyNote_preserves (n : NoteItem) :
  (forall t b, preserves R (addNote t b by_vi None)) ->
  preserves R (applyNote n).
Proof.
  intros H. unfold applyNote. destruct (title n), (body n);
    try (apply preserves_ret; exact R_refl).
  apply preserves_if; [|apply preserves_ret; exact R_refl].
  apply preserves_bind; [exact R_trans | apply H |].
  intros _. apply preserves_ret; exact R_refl.
Qed.

Lemma applyListItem_preserves (target : List) (item : string) :
  preserves R (addListItem (l_id target) item) ->
  preserves R (applyListItem target item).
Proof.
  intros H. unfold applyListItem.
  apply preserves_bind; [exact R_trans | apply preserves_read |].
  intros existing. apply preserves_if; [|apply preserves_ret; exact R_refl].
  apply preserves_bind; [exact R_trans | exact H |].
  intros _. apply preserves_ret; exact R_refl.
Qed.

Lemma applyGoalCompletion_preserves (g : GoalCompletion) :
  (forall id, preserves R (updateGoalStreak id)) ->
  preserves R (applyGoalCompletion g).
Proof.
  intros H. unfold applyGoalCompletion.
  apply preserves_bind; [exact R_trans | apply preserves_read |].
  intros allGoals.
  apply preserves_bind;
    [exact R_trans | apply preserves_find_by_name; exact R_refl |].
  intros [target|]; [apply H | apply preserves_ret; exact R_refl].
Qed.

Lemma applyMindmapNode_preserves (n : MindmapItem) :
  (forall l c q, preserves R (addMindmapNode l c q None)) ->
  preserves R (applyMindmapNode n).
Proof.
  intros H. unfold applyMindmapNode. destruct (label n), (category n);
    try (apply preserves_ret; exact R_refl).
  apply preserves_if; [|apply preserves_ret; exact R_refl].
  apply preserves_bind; [exact R_trans | apply preserves_read |].
  intros existing. apply preserves_if; [|apply preserves_ret; exact R_refl].
  apply preserves_bind; [exact R_trans | apply H |].
  intros _. apply preserves_ret; exact R_refl.
Qed.

Lemma applyListGroup_preserves (g : ListGroup) :
  (forall id c, preserves R (addListItem id c)) ->
  (forall t ty, preserves R (createList t ty)) ->
  preserves R (applyListGroup g).
Proof.
  intros Hi Hc. unfold applyListGroup.
  apply preserves_bind; [exact R_trans | apply preserves_read |].
  intros allLists.
  apply preserves_bind;
    [exact R_trans | apply preserves_find_by_name; exact R_refl |].
  intros [target|].
  - destruct (items g); [|apply preserves_throw; exact R_refl].
    apply preserves_for_of; [exact R_refl | exact R_trans |].
    intros x. apply applyListItem_preserves, Hi.
  - destruct (listName g); [|apply preserves_throw; exact R_refl].
    apply preserves_bind; [exact R_trans | apply Hc |].
    intros id. destruct (items g); [|apply preserves_throw; exact R_refl].
    apply preserves_for_of; [exact R_refl | exact R_trans |].
    intros x. apply preserves_bind; [exact R_trans | apply Hi |].
    intros _. apply preserves_ret; exact R_refl.
Qed.

Lemma applyAnalysisResults_phases (a : AnalysisResult) :
  (forall n, preserves R (applyNote n)) ->
  (forall g, preserves R (applyListGroup g)) ->
  (forall g, preserves R (applyGoalCompletion g)) ->
  (forall n, preserves R (applyMindmapNode n)) ->
  preserves R (applyAnalysisResults a).
Proof.
  intros H1 H2 H3 H4. unfold applyAnalysisResults.
  repeat (apply preserves_bind; [exact R_trans | | intros _]);
    apply preserves_for_of; auto.
Qed.

Lemma run_preserves (env : Env) (this : Agent) (w : World) :
  (forall a, preserves R (applyAnalysisResults a)) ->
  R (db w) (db (snd (processRecentConversations env this w))).
Proof.
  intros H. unfold processRecentConversations.
  destruct (isProcessing this); [apply R_refl|].
  destruct (negb (LLMService.isReady (llm env))); [apply R_refl|].
  destruct (getAllMessages w) as [r w0] eqn:Hm.
  pose proof (getAllMessages_inv _ _ _ Hm) as [D _].
  assert (F : R (db w) (db w0)) by (rewrite D; apply R_refl).
  destruct r as [l|e]; [|exact F].
  destruct (List.length l =? 0); [exact F|].
  destruct (List.length (filter _ l) <? 2); [exact F|].
  destruct (LLMService.analyzeConversation _ _ _) as [raw|e]; [|exact F].
  destruct (parseAnalysisResult raw) as [[p|]|e]; try exact F.
  destruct (applyAnalysisResults (typed env p) w0) as [[u|e] w2] eqn:Ha;
    simpl; apply (R_trans _ _ _ F); exact (H _ _ _ _ Ha).
Qed.
End Items.

(** ** Keys *)

Lemma keys_below_add (A : Type) (key : A -> Z) (seq : Z) (rows : list A)
    (row : A) :
  keys_below key seq rows -> key row = (seq + 1)%Z ->
  keys_below key (seq + 1) (rows ++ [row]).
Proof.
  intros [Hb Hn] Hk. split.
  - apply Forall_app. split; [|constructor; [lia | constructor]].
    eapply Forall_impl; [|exact Hb]. simpl. intros; lia.
  - rewrite map_app. simpl. apply NoDup_app; [exact Hn | | ].
    + constructor; [intros [] | constructor].
    + intros x Hx [<-|[]]. apply in_map_iff in Hx as (r & Hr & Hin).
      rewrite Forall_forall in Hb. specialize (Hb r Hin). lia.
Qed.

Lemma keeps_keys_refl (d : Database) : keeps_keys d d.
Proof. intros H; exact H. Qed.

Lemma keeps_keys_trans (a b c : Database) :
  keeps_keys a b -> keeps_keys b c -> keeps_keys a c.
Proof. unfold keeps_keys. auto. Qed.

Ltac keys_of_call :=
  apply preserves_db_call; [exact keeps_keys_refl|];
  intros ? ? (K1 & K2 & K3 & K4 & K5); unfold keys_ok; simpl;
  refine (conj _ (conj _ (conj _ (conj _ _))));
  first [ assumption
        | apply keys_below_add; [assumption | reflexivity] ].

Lemma addNote_keeps_keys (t b : string) (c : CreatedBy) (g : option string) :
  preserves keeps_keys (addNote t b c g).
Proof. keys_of_call. Qed.

Lemma createList_keeps_keys (t ty : string) :
  preserves keeps_keys (createList t ty).
Proof. keys_of_call. Qed.

Lemma addListItem_keeps_keys (id : Z) (c : string) :
  preserves keeps_keys (addListItem id c).
Proof. keys_of_call. Qed.

Lemma addMindmapNode_keeps_keys (l : string) (c : Category) (q : Q)
    (k : option Z) :
  preserves keeps_keys (addMindmapNode l c q k).
Proof. keys_of_call. Qed.

Lemma map_id_bump (goalId t : Z) (l : list Goal) :
  map g_id (map (bump_streak goalId t) l) = map g_id l.
Proof.
  rewrite map_map. apply map_ext. intros g. unfold bump_streak.
  now destruct (g_id g =? goalId)%Z.
Qed.

Lemma updateGoalStreak_keeps_keys (id : Z) :
  preserves keeps_keys (updateGoalStreak id).
Proof.
  apply preserves_db_call; [exact keeps_keys_refl|].
  intros t d (K1 & K2 & K3 & K4 & K5). unfold keys_ok. simpl.
  rewrite map_id_bump. auto.
Qed.

Lemma applyAnalysisResults_keeps_keys (a : AnalysisResult) :
  preserves keeps_keys (applyAnalysisResults a).
Proof.
  apply applyAnalysisResults_phases;
    try exact keeps_keys_refl; try exact keeps_keys_trans; intros x.
  - apply applyNote_preserves;
      [exact keeps_keys_refl | exact keeps_keys_trans |].
    intros; apply addNote_keeps_keys.
  - apply applyListGroup_preserves;
      [exact keeps_keys_refl | exact keeps_keys_trans | |].
    + intros; apply addListItem_keeps_keys.
    + intros; apply createList_keeps_keys.
  - apply applyGoalCompletion_preserves;
      [exact keeps_keys_refl | exact keeps_keys_trans |].
    intros; apply updateGoalStreak_keeps_keys.
  - apply applyMindmapNode_preserves;
      [exact keeps_keys_refl | exact keeps_keys_trans |].
    intros; apply addMindmapNode_keeps_keys.
Qed.

(** X5.  If in every table the keys are distinct and not above the last
    key handed out, they still are after a result has been applied and
    after a whole run, whether these return or throw: the pipeline never
    stores two rows under one key. *)
Theorem X5_keys_stay_distinct :
  forall (a : AnalysisResult) (env : Env) (this : Agent) (w : World),
    keys_ok (db w) ->
    keys_ok (db (snd (applyAnalysisResults a w)))
    /\ keys_ok (db (snd (processRecentConversations env this w))).
Proof.
  intros a env this w H. split.
  - destruct (applyAnalysisResults a w) as [r w'] eqn:E.
    exact (applyAnalysisResults_keeps_keys a w r w' E H).
  - apply (run_preserves keeps_keys keeps_keys_refl keeps_keys_trans
             env this w applyAnalysisResults_keeps_keys H).
Qed.

(** ** List items and their lists *)

Lemma same_lists_refl (d : Database) : same_lists d d.
Proof. now split. Qed.

Lemma same_lists_trans (a b c : Database) :
  same_lists a b -> same_lists b c -> same_lists a c.
Proof. unfold same_lists. intros [] []. split; congruence. Qed.

Lemma same_lists_keeps_fk (d d' : Database) :
  same_lists d d' -> keeps_fk d d'.
Proof.
  intros [HL HI] H i Hi. rewrite HI in Hi.
  destruct (H i Hi) as (l & Hl & E). exists l. now rewrite HL.
Qed.

Lemma keeps_fk_refl (d : Database) : keeps_fk d d.
Proof. intros H; exact H. Qed.

Lemma keeps_fk_trans (a b c : Database) :
  keeps_fk a b -> keeps_fk b c -> keeps_fk a c.
Proof. unfold keeps_fk. auto. Qed.

Lemma keeps_fk_with_refl (id : Z) (d : Database) : keeps_fk_with id d d.
Proof. intros H; exact H. Qed.

Lemma keeps_fk_with_trans (id : Z) (a b c : Database) :
  keeps_fk_with id a b -> keeps_fk_with id b c -> keeps_fk_with id a c.
Proof. unfold keeps_fk_with. auto. Qed.

Lemma addListItem_keeps_fk_with (id : Z) (c : string) :
  preserves (keeps_fk_with id) (addListItem id c).
Proof.
  apply preserves_db_call; [apply keeps_fk_with_refl|].
  intros t d [Hfk Hl]. simpl. split; [|exact Hl].
  intros i Hi. simpl in Hi. apply in_app_or in Hi as [Hi|[<-|[]]].
  - exact (Hfk i Hi).
  - exact Hl.
Qed.

Lemma find_by_name_inv (A : Type) (field : A -> string)
    (name : option string) (rows : list A) (w w' : World)
    (r : Completion (option A)) :
  find_by_name field name rows w = (r, w') ->
  w' = w /\ (forall x, r = Normal (Some x) -> In x rows).
Proof.
  destruct name as [n|].
  - rewrite find_by_name_some. intros H. injection H as <- <-.
    split; [reflexivity|]. intros x Hx.
    assert (E : find (fun r => fuzzy_match (field r) n) rows = Some x)
      by congruence.
    now apply find_some in E as [E _].
  - destruct rows; intros H; injection H as <- <-;
      (split; [reflexivity | discriminate]).
Qed.

Lemma applyListGroup_keeps_fk (g : ListGroup) :
  preserves keeps_fk (applyListGroup g).
Proof.
  intros w r w' H Hfk. unfold applyListGroup in H.
  apply bind_inv in H as [(ls & w1 & H1 & H) | (e & H1 & _)].
  2:{ apply read_call_inv in H1 as [D _]. now rewrite D. }
  apply read_call_inv in H1 as [D1 G]. specialize (G ls eq_refl).
  rewrite <- D1 in Hfk.
  apply bind_inv in H as [(tg & w2 & H2 & H) | (e & H2 & _)].
  2:{ apply find_by_name_inv in H2 as [-> _]. exact Hfk. }
  apply find_by_name_inv in H2 as [-> Hin].
  destruct tg as [target|].
  - assert (Hl : has_list (l_id target) (db w1)).
    { exists target. split; [|reflexivity]. rewrite D1.
      apply (In_order_by _ (desc l_created_at)). rewrite <- G.
      now apply Hin. }
    destruct (items g) as [its|]; [|inversion H; now subst].
    refine (proj1 (preserves_for_of (keeps_fk_with (l_id target))
              (keeps_fk_with_refl _) (keeps_fk_with_trans _) _ its
              (applyListItem target) _ w1 r w' H (conj Hfk Hl))).
    intros x. apply applyListItem_preserves;
      [apply keeps_fk_with_refl | apply keeps_fk_with_trans |].
    apply addListItem_keeps_fk_with.
  - destruct (listName g) as [name|]; [|inversion H; now subst].
    apply bind_inv in H as [(id & w3 & H3 & H) | (e & H3 & _)].
    2:{ apply db_call_inv in H3
          as [_ [(a & Ha & _) | (e' & _ & E3 & _)]]; [discriminate|].
        now rewrite E3. }
    apply write_call_inv in H3. simpl in H3. injection H3 as Eid Edb.
    assert (Hfk3 : fk_ok (db w3) /\ has_list id (db w3)).
    { rewrite <- Edb. split.
      - intros i Hi. simpl in Hi. destruct (Hfk i Hi) as (l & Hl & E).
        exists l. simpl. split; [apply in_or_app; now left | exact E].
      - eexists. simpl. split; [apply in_or_app; right; now left|].
        simpl. exact Eid. }
    destruct (items g) as [its|]; [|inversion H; subst; apply Hfk3].
    refine (proj1 (preserves_for_of (keeps_fk_with id)
              (keeps_fk_with_refl _) (keeps_fk_with_trans _) _ its
              _ _ w3 r w' H Hfk3)).
    intros x. apply preserves_bind; [apply keeps_fk_with_trans | |].
    + apply addListItem_keeps_fk_with.
    + intros _. apply preserves_ret, keeps_fk_with_refl.
Qed.

Ltac lists_of_call :=
  apply preserves_db_call; [exact same_lists_refl|];
  intros ? ?; split; reflexivity.

Lemma applyAnalysisResults_keeps_fk (a : AnalysisResult) :
  preserves keeps_fk (applyAnalysisResults a).
Proof.
  apply applyAnalysisResults_phases;
    try exact keeps_fk_refl; try exact keeps_fk_trans; intros x.
  - apply (preserves_weaken _ same_lists); [exact same_lists_keeps_fk|].
    apply applyNote_preserves;
      [exact same_lists_refl | exact same_lists_trans |].
    intros; lists_of_call.
  - apply applyListGroup_keeps_fk.
  - apply (preserves_weaken _ same_lists); [exact same_lists_keeps_fk|].
    apply applyGoalCompletion_preserves;
      [exact same_lists_refl | exact same_lists_trans |].
    intros; lists_of_call.
  - apply (preserves_weaken _ same_lists); [exact same_lists_keeps_fk|].
    apply applyMindmapNode_preserves;
      [exact same_lists_refl | exact same_lists_trans |].
    intros; lists_of_call.
Qed.

(** X6.  If every list item belongs to a list of the store, this is still
    so after a result has been applied and after a whole run, whether
    these return or throw: an item is only ever inserted under the key of
    a list that was found or has just been created. *)
Theorem X6_items_keep_their_lists :
  forall (a : AnalysisResult) (env : Env) (this : Agent) (w : World),
    fk_ok (db w) ->
    fk_ok (db (snd (applyAnalysisResults a w)))
    /\ fk_ok (db (snd (processRecentConversations env this w))).
Proof.
  intros a env this w H. split.
  - destruct (applyAnalysisResults a w) as [r w'] eqn:E.
    exact (applyAnalysisResults_keeps_fk a w r w' E H).
  - apply (run_preserves keeps_fk keeps_fk_refl keeps_fk_trans
             env this w applyAnalysisResults_keeps_fk H).
Qed.

(** ** Notes *)

Lemma same_notes_table_refl (d : Database) : same_notes_table d d.
Proof. reflexivity. Qed.

Lemma same_notes_table_trans (a b c : Database) :
  same_notes_table a b -> same_notes_table b c -> same_notes_table a c.
Proof. unfold same_notes_table. congruence. Qed.

Ltac notes_of_call :=
  apply preserves_db_call; [exact same_notes_table_refl|];
  intros ? ?; reflexivity.

Lemma applyNote_inv (n : NoteItem) (w w' : World) :
  applyNote n w = (Normal tt, w') ->
  exists rows,
    Notes (db w') = Notes (db w) ++ rows
    /\ notes_from
         (match title n, body n with
          | Some t, Some b => if truthy t && truthy b then [(t, b)] else []
          | _, _ => []
          end) rows.
Proof.
  unfold applyNote.
  assert (Z : forall v, ret tt w = (Normal tt, v) ->
            exists rows, Notes (db v) = Notes (db w) ++ rows
                         /\ notes_from [] rows).
  { intros v H. inversion H; subst. exists []. rewrite app_nil_r.
    repeat split. constructor. }
  destruct (title n) as [t|]; [|apply Z].
  destruct (body n) as [b|]; [|apply Z].
  destruct (truthy t && truthy b); [|apply Z].
  intros H. apply bind_inv in H as [(id & w1 & H1 & H2) | (e & _ & Hr)];
    [|discriminate Hr].
  inversion H2; subst. apply write_call_inv in H1. simpl in H1.
  injection H1 as _ E. rewrite <- E. simpl. eexists. split; [reflexivity|].
  split; [reflexivity|]. constructor; [now split | constructor].
Qed.

Lemma notes_from_app (tb1 tb2 : list (string * string))
    (r1 r2 : list Note) :
  notes_from tb1 r1 -> notes_from tb2 r2 ->
  notes_from (tb1 ++ tb2) (r1 ++ r2).
Proof.
  intros [A1 B1] [A2 B2]. split.
  - now rewrite map_app, A1, A2.
  - apply Forall_app. now split.
Qed.

Lemma for_of_applyNote (ns : list NoteItem) :
  forall w w',
    for_of ns applyNote w = (Normal tt, w') ->
    exists rows,
      Notes (db w') = Notes (db w) ++ rows
      /\ notes_from
           (flat_map
              (fun n =>
                 match title n, body n with
                 | Some t, Some b =>
                     if truthy t && truthy b then [(t, b)] else []
                 | _, _ => []
                 end) ns) rows.
Proof.
  induction ns as [|n ns IH]; intros w w' H; simpl in H.
  - inversion H; subst. exists []. rewrite app_nil_r.
    repeat split. constructor.
  - apply bind_inv in H as [([] & w1 & H1 & H2) | (e & _ & Hr)];
      [|discriminate Hr].
    apply applyNote_inv in H1 as (r1 & E1 & N1).
    apply IH in H2 as (r2 & E2 & N2).
    exists (r1 ++ r2). split; [now rewrite E2, E1, app_assoc|].
    simpl. now apply notes_from_app.
Qed.

Lemma later_phases_same_notes (a : AnalysisResult) :
  preserves same_notes_table
    (for_of (listItems a) applyListGroup ;;;
     for_of (completedGoals a) applyGoalCompletion ;;;
     for_of (mindmapNodes a) applyMindmapNode).
Proof.
  repeat (apply preserves_bind; [exact same_notes_table_trans | | intros _]);
    apply preserves_for_of;
    try exact same_notes_table_refl; try exact same_notes_table_trans;
    intros x.
  - apply applyListGroup_preserves;
      [exact same_notes_table_refl | exact same_notes_table_trans | |];
      intros; notes_of_call.
  - apply applyGoalCompletion_preserves;
      [exact same_notes_table_refl | exact same_notes_table_trans |];
      intros; notes_of_call.
  - apply applyMindmapNode_preserves;
      [exact same_notes_table_refl | exact same_notes_table_trans |];
      intros; notes_of_call.
Qed.

(** X7.  When a result has been applied to the end, the notes table has
    gained exactly one row for each note of the result that has a
    non-empty title and a non-empty body, in the order of the result, all
    marked as written by the assistant and without tags.  Notes are not
    compared with the notes already stored: the same note applied twice is
    stored twice. *)
Theorem X7_notes_are_appended :
  forall (a : AnalysisResult) (w w' : World),
    applyAnalysisResults a w = (Normal tt, w') ->
    exists rows,
      Notes (db w') = Notes (db w) ++ rows
      /\ notes_from (storable_notes a) rows.
Proof.
  intros a w w' H. unfold applyAnalysisResults in H.
  apply bind_inv in H as [([] & w1 & H1 & H2) | (e & _ & Hr)];
    [|discriminate Hr].
  apply for_of_applyNote in H1 as (rows & E & N).
  exists rows. split; [|exact N].
  rewrite <- E. exact (later_phases_same_notes a w1 _ w' H2).
Qed.

(** ** Items with a missing field *)

Lemma order_by_nil (A : Type) (before : A -> A -> bool) (l : list A) :
  order_by before l = [] -> l = [].
Proof.
  destruct l as [|x l]; [reflexivity|]. simpl. intros H.
  exfalso. destruct (order_by before l) as [|y r]; simpl in H;
    [discriminate|]. destruct (before x y); discriminate.
Qed.

(** X8.  A group of listItems with a missing field, on a store that
    rejects nothing.  Without a name the group throws a TypeError and
    changes nothing.  With a name but without items it throws a TypeError
    as well; when the name matches a list nothing has changed, but when it
    matches none the new list has already been created and stays, without
    entries. *)
Theorem X8_list_group_missing_field :
  forall (g : ListGroup) (w : World),
    calm w ->
    (listName g = None ->
     exists w', applyListGroup g w = (Throw TypeError, w')
                /\ db w' = db w)
    /\ (forall name,
          listName g = Some name -> items g = None ->
          match find (fun l => fuzzy_match (l_title l) name)
                  (order_by (desc l_created_at) (Lists (db w))) with
          | Some _ =>
              exists w', applyListGroup g w = (Throw TypeError, w')
                         /\ db w' = db w
          | None =>
              exists w' l,
                applyListGroup g w = (Throw TypeError, w')
                /\ Lists (db w') = Lists (db w) ++ [l]
                /\ l_title l = name /\ l_type l = list_type name
                /\ ListItems (db w') = ListItems (db w)
          end).
Proof.
  intros g w Hc.
  destruct (read_calm _ (fun d => order_by (desc l_created_at) (Lists d))
              w Hc) as (w1 & E1 & C1 & D1).
  fold getAllLists in E1.
  split.
  - intros Hn. exists w1. split; [|exact D1].
    unfold applyListGroup. rewrite (bind_normal _ _ _ _ _ _ _ E1), Hn.
    destruct (order_by (desc l_created_at) (Lists (db w))); reflexivity.
  - intros name Hn Hi.
    unfold applyListGroup. rewrite (bind_normal _ _ _ _ _ _ _ E1), Hn, Hi.
    erewrite bind_normal by apply find_by_name_some.
    destruct (find _ _) as [target|].
    + exists w1. now split.
    + 
      destruct (db_call_calm _
                  (fun t d =>
                     let id := (seq_Lists d + 1)%Z in
                     (id,
                      {| User := User d; Messages := Messages d;
                         Notes := Notes d;
                         Lists := Lists d ++
                           [{| l_id := id; l_title := name;
                               l_type := list_type name;
                               l_created_at := t |}];
                         ListItems := ListItems d; Goals := Goals d;
                         MindmapNodes := MindmapNodes d;
                         seq_Notes := seq_Notes d; seq_Lists := id;
                         seq_ListItems := seq_ListItems d;
                         seq_MindmapNodes := seq_MindmapNodes d |}))
                  w1 C1) as (id & w2 & E2 & _ & F2).
      fold (createList name (list_type name)) in E2.
      unfold list_type in E2 at 1.
      rewrite (bind_normal _ _ _ _ _ _ _ E2).
      injection F2 as _ F2.
      exists w2. eexists. split; [reflexivity|].
      rewrite <- F2. simpl. rewrite D1. repeat split.
Qed.

(** X9.  A completedGoals entry without a title, on a store that rejects
    nothing: when there is no goal at all it is passed over in silence,
    and when there is at least one goal it throws a TypeError; in both
    cases nothing is changed. *)
Theorem X9_goal_completion_without_title :
  forall (gc : GoalCompletion) (w : World),
    calm w -> goalTitle gc = None ->
    (Goals (db w) = [] ->
     exists w', applyGoalCompletion gc w = (Normal tt, w') /\ db w' = db w)
    /\ (Goals (db w) <> [] ->
        exists w', applyGoalCompletion gc w = (Throw TypeError, w')
                   /\ db w' = db w).
Proof.
  intros gc w Hc Ht.
  destruct (read_calm _ (fun d => order_by (desc g_created_at) (Goals d))
              w Hc) as (w1 & E1 & C1 & D1).
  fold getAllGoals in E1.
  split; intros Hg; exists w1; (split; [|exact D1]);
    unfold applyGoalCompletion;
    rewrite (bind_normal _ _ _ _ _ _ _ E1), Ht.
  - now rewrite Hg.
  - destruct (order_by (desc g_created_at) (Goals (db w))) eqn:E;
      [|reflexivity].
    apply order_by_nil in E. contradiction.
Qed.

(** * Further properties of the record store *)

(** ** Sorting rows that are in order already *)

Lemma insert_by_last (A : Type) (before : A -> A -> bool) (x : A)
    (l : list A) :
  Forall (fun y => before x y = false) l ->
  insert_by before x l = l ++ [x].
Proof.
  induction 1 as [|y l Hy _ IH]; simpl; [reflexivity|].
  now rewrite Hy, IH.
Qed.

Lemma order_by_desc_increasing (A : Type) (key : A -> Z) (l : list A) :
  StronglySorted (fun a b => (key a < key b)%Z) l ->
  order_by (desc key) l = rev l.
Proof.
  induction 1 as [|x l Hs IH Hx]; simpl; [reflexivity|].
  fold (order_by (desc key) l). rewrite IH.
  apply insert_by_last. apply Forall_rev.
  eapply Forall_impl; [|exact Hx]. simpl. intros y Hy.
  unfold desc. apply Z.leb_gt. exact Hy.
Qed.

Lemma order_by_asc_sorted (A : Type) (key : A -> Z) (l : list A) :
  StronglySorted (fun a b => (key a <= key b)%Z) l ->
  order_by (asc key) l = l.
Proof.
  induction 1 as [|x l Hs IH Hx]; simpl; [reflexivity|].
  fold (order_by (asc key) l). rewrite IH.
  destruct l as [|y l]; [reflexivity|]. simpl.
  inversion Hx as [|? ? Hy _]; subst.
  unfold asc. apply Z.leb_le in Hy. now rewrite Hy.
Qed.

Lemma StronglySorted_weaken (A : Type) (R S : A -> A -> Prop) (l : list A) :
  (forall a b, R a b -> S a b) ->
  StronglySorted R l -> StronglySorted S l.
Proof.
  intros H. induction 1 as [|x l Hs IH Hx]; constructor; [exact IH|].
  eapply Forall_impl; [|exact Hx]. intros y. apply H.
Qed.

(** ** Recent messages *)

Lemma In_firstn (A : Type) (n : nat) (l : list A) (x : A) :
  In x (firstn n l) -> In x l.
Proof.
  intros H. rewrite <- (firstn_skipn n l). apply in_or_app. now left.
Qed.

(** X10.  [getRecentMessages] changes nothing.  What it returns are
    messages of the table, at most as many as the limit, which is ten when
    none is given.  When the timestamps of the table grow strictly with
    the keys, the result is the last [limit] messages of the table in
    their order, and the whole table when the limit is negative. *)
Theorem X10_recent_messages :
  forall (limit : option Z) (w w' : World) (r : Completion (list Message)),
    getRecentMessages limit w = (r, w') ->
    let n := match limit with Some n => n | None => 10%Z end in
    db w' = db w
    /\ forall l, r = Normal l ->
         (forall m, In m l -> In m (Messages (db w)))
         /\ ((0 <= n)%Z -> List.length l <= Z.to_nat n)
         /\ (timestamps_increase (Messages (db w)) ->
             l = if (n <? 0)%Z then Messages (db w)
                 else most_recent (Z.to_nat n) (Messages (db w))).
Proof.
  intros limit w w' r H n. unfold getRecentMessages in H. fold n in H.
  apply read_call_inv in H as [D G]. split; [exact D|].
  intros l Hl. specialize (G l Hl). subst l.
  unfold limit_rows. split; [|split].
  - intros m Hm. apply in_rev in Hm.
    apply (In_order_by _ (desc m_timestamp)).
    destruct (n <? 0)%Z; [exact Hm|]. now apply In_firstn in Hm.
  - intros Hn. rewrite length_rev.
    destruct (n <? 0)%Z eqn:E; [apply Z.ltb_lt in E; lia|].
    apply firstn_le_length.
  - intros Hs. rewrite (order_by_desc_increasing _ _ _ Hs).
    destruct (n <? 0)%Z; [apply rev_involutive | reflexivity].
Qed.

(** ** Toggling a list item *)

Lemma toggle_item_twice (id : Z) (i : ListItem) :
  toggle_item id (toggle_item id i) = i.
Proof.
  unfold toggle_item. destruct (i_id i =? id)%Z eqn:E; simpl; rewrite E.
  - destruct i. simpl. now rewrite negb_involutive.
  - reflexivity.
Qed.

(** X11.  Toggling the same list item twice gives back the data as they
    were, and toggling a key that no item has changes nothing. *)
Theorem X11_toggle_twice :
  forall (itemId : Z) (w w1 : World),
    toggleListItem itemId w = (Normal tt, w1) ->
    (forall w2, toggleListItem itemId w1 = (Normal tt, w2) -> db w2 = db w)
    /\ ((forall i, In i (ListItems (db w)) -> i_id i <> itemId) ->
        db w1 = db w).
Proof.
  intros itemId w w1 H1. apply write_call_inv in H1. simpl in H1.
  injection H1 as E1. split.
  - intros w2 H2. apply write_call_inv in H2. simpl in H2.
    injection H2 as E2. rewrite <- E2, <- E1. simpl.
    rewrite map_map.
    rewrite (map_ext _ (fun i => i) (toggle_item_twice itemId)), map_id.
    now destruct (db w).
  - intros Hn. rewrite <- E1.
    assert (M : map (toggle_item itemId) (ListItems (db w))
                = ListItems (db w)).
    { rewrite <- (map_id (ListItems (db w))) at 2.
      apply map_ext_in. intros i Hi. unfold toggle_item.
      destruct (Z.eqb_spec (i_id i) itemId) as [E|_]; [|reflexivity].
      now destruct (Hn i Hi). }
    rewrite M. now destruct (db w).
Qed.

(** ** The user profile *)

(** X12.  [getUser] returns the first profile of the table.  On a table
    without a profile, [createUser] followed by [getUser] gives back the
    fields that were passed, an empty optional field read as missing; once
    there is a profile, a later [createUser] does not change what
    [getUser] returns.  [updateUserTraits] followed by [getUser] gives the
    first profile with the new traits text and its other fields
    unchanged. *)
Theorem X12_first_profile :
  forall (w w1 w2 : World) (u : option UserProfile),
    getUser w1 = (Normal u, w2) ->
    (forall p id,
       createUser p w = (Normal id, w1) ->
       match User (db w) with
       | [] =>
           u = Some {| u_id := 1; u_name := nu_name p;
                       u_nickname := or_null (nu_nickname p);
                       u_role := or_null (nu_role p);
                       u_age_group := or_null (nu_age_group p);
                       u_gender := or_null (nu_gender p);
                       u_traits_json := nu_traits_json p;
                       u_created_at := now w1 |}
       | first :: _ => u = Some first
       end)
    /\ (forall traits,
          updateUserTraits traits w = (Normal tt, w1) ->
          match User (db w) with
          | [] => u = None
          | first :: _ =>
              u = Some {| u_id := u_id first; u_name := u_name first;
                          u_nickname := u_nickname first;
                          u_role := u_role first;
                          u_age_group := u_age_group first;
                          u_gender := u_gender first;
                          u_traits_json :=
                            JsonText.stringify_strings traits;
                          u_created_at := u_created_at first |}
          end).
Proof.
  intros w w1 w2 u Hg. unfold getUser in Hg.
  apply read_call_inv in Hg as [_ G]. specialize (G u eq_refl). subst u.
  split.
  - intros p id H. apply write_call_inv in H. simpl in H.
    injection H as _ E. rewrite <- E. simpl.
    destruct (User (db w)); reflexivity.
  - intros traits H. apply write_call_inv in H. simpl in H.
    injection H as E. rewrite <- E. simpl.
    destruct (User (db w)) as [|first rest]; [reflexivity|].
    simpl. unfold set_traits. now rewrite Z.eqb_refl.
Qed.

(** ** Goals *)

Lemma next_key_above (ids : list Z) (x : Z) :
  In x ids -> (x < next_key ids)%Z.
Proof.
  unfold next_key. induction ids as [|y ids IH]; [intros []|].
  simpl. intros [->|H]; [lia|]. specialize (IH H). lia.
Qed.

Lemma map_bump_others (id t : Z) (l : list Goal) :
  Forall (fun g => g_id g <> id) l -> map (bump_streak id t) l = l.
Proof.
  induction 1 as [|g l Hg _ IH]; simpl; [reflexivity|].
  now rewrite IH, (bump_streak_miss id t g Hg).
Qed.

Lemma complete_times_inv (n : nat) (id : Z) :
  forall (w w' : World) (old : list Goal) (g : Goal),
    complete_times n id w = (Normal tt, w') ->
    Goals (db w) = old ++ [g] -> g_id g = id ->
    Forall (fun x => g_id x <> id) old ->
    exists g',
      Goals (db w') = old ++ [g']
      /\ g_id g' = id /\ g_title g' = g_title g
      /\ g_frequency g' = g_frequency g
      /\ g_target_count g' = g_target_count g
      /\ g_streak_count g' = (g_streak_count g + Z.of_nat n)%Z
      /\ (n = 0 -> g' = g)
      /\ (0 < n -> g_last_completed_date g' = Some (now w')).
Proof.
  induction n as [|n IH]; intros w w' old g H Hg Hid Hold.
  - inversion H; subst. exists g. rewrite Z.add_0_r.
    repeat split; auto. lia.
  - simpl in H.
    apply bind_inv in H as [([] & w1 & H1 & H2) | (e & _ & Hr)];
      [|discriminate Hr].
    apply write_call_inv in H1. simpl in H1. injection H1 as E1.
    assert (G1 : Goals (db w1) = old ++ [bump_streak id (now w1) g]).
    { rewrite <- E1. simpl.
      now rewrite Hg, map_app, (map_bump_others _ _ _ Hold). }
    destruct (bump_streak_hit id (now w1) g Hid) as [S1 L1].
    assert (Hid1 : g_id (bump_streak id (now w1) g) = id).
    { unfold bump_streak. rewrite Hid, Z.eqb_refl. reflexivity. }
    destruct (IH w1 w' old _ H2 G1 Hid1 Hold)
      as (g' & A & B & C & D & E & F & K & L).
    exists g'. unfold bump_streak in C, D, E. rewrite Hid, Z.eqb_refl in *.
    simpl in C, D, E. repeat split; auto; try lia.
    intros _. destruct n as [|n].
    + rewrite (K eq_refl). inversion H2; subst. exact L1.
    + apply L. lia.
Qed.

(** X13.  A goal made by [createGoal] starts with a streak of zero and no
    completion date, and a target of zero is stored as no target.  After
    [n] completions of it the goals that were there are unchanged, and the
    new goal has the streak [n] and, when [n] is positive, the time of the
    last completion as its date. *)
Theorem X13_new_goal_counts_completions :
  forall (title : string) (frequency : Frequency) (target : option Z)
         (n : nat) (id : Z) (w w1 w2 : World),
    createGoal title frequency target w = (Normal id, w1) ->
    complete_times n id w1 = (Normal tt, w2) ->
    exists g,
      Goals (db w2) = Goals (db w) ++ [g]
      /\ g_id g = id /\ g_title g = title /\ g_frequency g = frequency
      /\ g_target_count g = or_null_number target
      /\ g_streak_count g = Z.of_nat n
      /\ (n = 0 -> g_last_completed_date g = None)
      /\ (0 < n -> g_last_completed_date g = Some (now w2)).
Proof.
  intros title frequency target n id w w1 w2 H1 H2.
  apply write_call_inv in H1. simpl in H1. injection H1 as Eid E1.
  assert (Hold : Forall (fun x => g_id x <> id) (Goals (db w))).
  { apply Forall_forall. intros x Hx.
    pose proof (next_key_above (map g_id (Goals (db w))) (g_id x)
                  (in_map g_id _ _ Hx)). lia. }
  destruct (complete_times_inv n id w1 w2 (Goals (db w))
              {| g_id := id; g_title := title; g_frequency := frequency;
                 g_streak_count := 0; g_last_completed_date := None;
                 g_target_count := or_null_number target;
                 g_created_at := now w1 |} H2)
    as (g' & A & B & C & D & E & F & K & L); auto.
  { rewrite <- E1. simpl. now rewrite Eid. }
  exists g'. simpl in *. repeat split; auto.
  intros Hn. now rewrite (K Hn).
Qed.

(** ** The message log *)

Lemma StronglySorted_snoc (A : Type) (R : A -> A -> Prop) (l : list A)
    (x : A) :
  StronglySorted R l -> Forall (fun y => R y x) l ->
  StronglySorted R (l ++ [x]).
Proof.
  induction 1 as [|y l Hs IH Hy]; intros Hx; simpl.
  - constructor; constructor.
  - inversion Hx; subst. constructor; [now apply IH|].
    apply Forall_app. split; [exact Hy | now constructor].
Qed.

Lemma well_logged_ascending (d : Database) :
  well_logged d ->
  order_by (asc m_timestamp) (Messages d) = Messages d
  /\ ids_ascending (Messages d).
Proof.
  intros (Ht & Hi & Hp). split; [now apply order_by_asc_sorted|].
  unfold ids_ascending.
  assert (E : forall m, id_or_0 m = m_id m).
  { intros m. unfold id_or_0.
    destruct (Z.eqb_spec (m_id m) 0); congruence. }
  refine (StronglySorted_weaken _ _ _ _ _ Hi).
  intros a b H. rewrite !E. lia.
Qed.

Lemma addMessage_in_order :
  forall (content : string) (sender : Sender) (ctx : option string)
         (id : Z) (w w1 : World),
    well_logged (db w) ->
    addMessage content sender ctx w = (Normal id, w1) ->
    (forall m, In m (Messages (db w)) -> (m_timestamp m <= now w1)%Z) ->
    well_logged (db w1)
    /\ (forall m, In m (Messages (db w)) -> (m_id m < id)%Z)
    /\ order_by (asc m_timestamp) (Messages (db w1))
       = Messages (db w)
         ++ [{| m_id := id; m_content := content; m_sender := sender;
                m_timestamp := now w1;
                m_context_json := or_null ctx |}]
    /\ ids_ascending (order_by (asc m_timestamp) (Messages (db w1))).
Proof.
  intros content sender ctx id w w1 (Ht & Hi & Hp) H Hclock.
  apply write_call_inv in H. simpl in H. injection H as Eid E.
  assert (Above : forall m, In m (Messages (db w)) -> (m_id m < id)%Z).
  { intros m Hm. rewrite <- Eid.
    apply next_key_above. now apply in_map. }
  assert (W : well_logged (db w1)).
  { rewrite <- E. unfold well_logged. simpl. rewrite Eid.
    split; [|split].
    - apply StronglySorted_snoc; [exact Ht|].
      apply Forall_forall. intros m Hm. simpl. now apply Hclock.
    - apply StronglySorted_snoc; [exact Hi|].
      apply Forall_forall. intros m Hm. simpl. now apply Above.
    - apply Forall_app. split; [exact Hp|].
      constructor; [|constructor]. simpl. rewrite <- Eid.
      unfold next_key.
      assert (0 <= fold_right Z.max 0 (map m_id (Messages (db w))))%Z.
      { clear. induction (Messages (db w)); simpl; lia. }
      lia. }
  destruct (well_logged_ascending _ W) as [O A].
  split; [exact W|]. split; [exact Above|].
  rewrite O. split; [|exact A].
  rewrite <- E. simpl. now rewrite Eid.
Qed.

(** X14.  When the message log is in order (timestamps not decreasing and
    positive keys growing along the table) and the clock has not gone
    back behind the stored timestamps, [addMessage] keeps it in order: the
    new message gets a key above all others and comes last.  On a log in
    order [getAllMessages] returns the table as it is, with ascending
    keys. *)
Theorem X14_message_log_in_order :
  forall (content : string) (sender : Sender) (ctx : option string)
         (id : Z) (w w1 : World),
    well_logged (db w) ->
    addMessage content sender ctx w = (Normal id, w1) ->
    (forall m, In m (Messages (db w)) -> (m_timestamp m <= now w1)%Z) ->
    well_logged (db w1)
    /\ (forall m, In m (Messages (db w)) -> (m_id m < id)%Z)
    /\ order_by (asc m_timestamp) (Messages (db w1))
       = Messages (db w)
         ++ [{| m_id := id; m_content := content; m_sender := sender;
                m_timestamp := now w1;
                m_context_json := or_null ctx |}]
    /\ ids_ascending (order_by (asc m_timestamp) (Messages (db w1))).
Proof. exact addMessage_in_order. Qed.

(** * Further properties: profile, prompt and chat *)

Import SystemPromptBuilder.
Local Open Scope string_scope.

(** ** [JSON.parse] undoes [JSON.stringify] on strings *)

Lemma quote_char_body (c : ascii) (r : string) :
  string_body (JsonText.quote_char c ++ r)
  = prepend (String c "") (string_body r).
Proof.
  destruct c as [[] [] [] [] [] [] [] []]; reflexivity.
Qed.

Lemma string_body_quote_chars (s rest : string) :
  string_body (JsonText.quote_chars s ++ String dquote rest)
  = Some (s, rest).
Proof.
  induction s as [|c s IH]; [reflexivity|].
  cbn [JsonText.quote_chars]. rewrite append_assoc, quote_char_body, IH.
  reflexivity.
Qed.

Lemma lex_from_skip (p r : string) :
  lex_from (String.length p) (p ++ r) = lex_from 0 r.
Proof.
  induction p as [|c p IH]; simpl; [|exact IH].
  destruct r; reflexivity.
Qed.

Lemma lex_string (s rest : string) :
  lex_from 0 (JsonText.stringify_string s ++ rest)
  = option_map (cons (TString s)) (lex_from 0 rest).
Proof.
  unfold JsonText.stringify_string.
  change (String dquote (JsonText.quote_chars s ++ String dquote "") ++ rest)
    with (String dquote
            ((JsonText.quote_chars s ++ String dquote "") ++ rest)).
  rewrite append_assoc.
  change (String dquote "" ++ rest) with (String dquote rest).
  cbn [lex_from].
  change (is_json_space dquote) with false. cbv iota.
  unfold token_at.
  change (Ascii.eqb dquote "{") with false.
  change (Ascii.eqb dquote "}") with false.
  change (Ascii.eqb dquote "[") with false.
  change (Ascii.eqb dquote "]") with false.
  change (Ascii.eqb dquote ":") with false.
  change (Ascii.eqb dquote ",") with false.
  change (Ascii.eqb dquote dquote) with true. cbv iota.
  rewrite string_body_quote_chars.
  cbn [String.length]. rewrite length_append. cbn [String.length].
  replace (S (String.length (JsonText.quote_chars s)
              + S (String.length rest)) - String.length rest)
    with (S (String.length (JsonText.quote_chars s ++ String dquote "")))
    by (rewrite length_append; cbn [String.length]; lia).
  replace (JsonText.quote_chars s ++ String dquote rest)
    with ((JsonText.quote_chars s ++ String dquote "") ++ rest)
    by (now rewrite append_assoc).
  rewrite lex_from_skip. now destruct (lex_from 0 rest).
Qed.

Lemma lex_elements (l : list string) (rest : string) :
  lex_from 0 (JsonText.join_comma (map JsonText.stringify_string l)
              ++ String "]" rest)
  = option_map (fun ts => element_tokens l ++ TRBracket :: ts)%list
      (lex_from 0 rest).
Proof.
  induction l as [|x l IH].
  - change (JsonText.join_comma (map JsonText.stringify_string [])
            ++ String "]" rest) with (String "]" rest).
    cbn [lex_from]. change (is_json_space "]") with false.
    cbv iota. unfold token_at.
    change (Ascii.eqb "]" "{") with false.
    change (Ascii.eqb "]" "}") with false.
    change (Ascii.eqb "]" "[") with false.
    change (Ascii.eqb "]" "]") with true. cbv iota.
    now destruct (lex_from 0 rest).
  - destruct l as [|y l].
    + cbn [map JsonText.join_comma]. rewrite lex_string.
      cbn [map JsonText.join_comma append] in IH. rewrite IH.
      now destruct (lex_from 0 rest).
    + change (JsonText.join_comma
                (map JsonText.stringify_string (x :: y :: l)))
        with (JsonText.stringify_string x
              ++ String "," (JsonText.join_comma
                               (map JsonText.stringify_string (y :: l)))).
      rewrite append_assoc, lex_string.
      change (String ","
                (JsonText.join_comma
                   (map JsonText.stringify_string (y :: l)))
              ++ String "]" rest)
        with (String ","
                (JsonText.join_comma
                   (map JsonText.stringify_string (y :: l))
                 ++ String "]" rest)).
      set (tail := JsonText.join_comma _ ++ String "]" rest) in *.
      assert (E : lex_from 0 (String "," tail)
                  = option_map (cons TComma) (lex_from 0 tail)).
      { cbn [lex_from]. change (is_json_space ",") with false.
        cbv iota. unfold token_at.
        change (Ascii.eqb "," "{") with false.
        change (Ascii.eqb "," "}") with false.
        change (Ascii.eqb "," "[") with false.
        change (Ascii.eqb "," "]") with false.
        change (Ascii.eqb "," ":") with false.
        change (Ascii.eqb "," ",") with true. cbv iota.
        now destruct (lex_from 0 tail). }
      rewrite E, IH. now destruct (lex_from 0 rest).
Qed.

Lemma run_elements (x : string) (l : list string) :
  forall (done : list value) (st : list frame) (close_ok : bool)
         (ts : list token),
    run (FArray done :: st) (WantValue close_ok)
      (element_tokens (x :: l) ++ TRBracket :: ts)%list
    = run st (Have (JArray (rev done ++ map JString (x :: l))%list)) ts.
Proof.
  revert x. induction l as [|y l IH]; intros x done st close_ok ts.
  - reflexivity.
  - change (element_tokens (x :: y :: l))
      with (TString x :: TComma :: element_tokens (y :: l)).
    cbn [app run]. rewrite IH. cbn [rev map].
    now rewrite <- app_assoc.
Qed.

Lemma lex_strings (l : list string) (rest : string) :
  lex_from 0 (JsonText.stringify_strings l ++ rest)
  = option_map
      (fun ts => TLBracket :: element_tokens l ++ TRBracket :: ts)%list
      (lex_from 0 rest).
Proof.
  unfold JsonText.stringify_strings.
  change ("[" ++ ?x) with (String "[" x).
  change ((String "[" ?x) ++ rest) with (String "[" (x ++ rest)).
  rewrite append_assoc. change ("]" ++ rest) with (String "]" rest).
  set (tail := JsonText.join_comma _ ++ String "]" rest).
  assert (E : lex_from 0 (String "[" tail)
              = option_map (cons TLBracket) (lex_from 0 tail)).
  { cbn [lex_from]. change (is_json_space "[") with false.
    cbv iota. unfold token_at.
    change (Ascii.eqb "[" "{") with false.
    change (Ascii.eqb "[" "}") with false.
    change (Ascii.eqb "[" "[") with true. cbv iota.
    now destruct (lex_from 0 tail). }
  rewrite E. unfold tail. rewrite lex_elements.
  now destruct (lex_from 0 rest).
Qed.

Lemma run_strings (l : list string) (st : list frame) (close_ok : bool)
    (ts : list token) :
  run st (WantValue close_ok)
    (TLBracket :: element_tokens l ++ TRBracket :: ts)%list
  = run st (Have (JArray (map JString l))) ts.
Proof.
  destruct l as [|x l]; [reflexivity|].
  cbn [run]. now rewrite run_elements.
Qed.

Lemma parse_stringify_strings (l : list string) :
  parse (JsonText.stringify_strings l) = Some (JArray (map JString l)).
Proof.
  unfold parse.
  rewrite <- (append_nil_r (JsonText.stringify_strings l)), lex_strings.
  cbn [lex_from option_map]. now rewrite run_strings.
Qed.

Lemma parse_stringify_options (l : list string) :
  parse (JsonText.stringify_options l)
  = Some (JObject [("options", JArray (map JString l))]).
Proof.
  unfold parse, JsonText.stringify_options.
  change ("{" ++ ?x) with (String "{" x).
  assert (E : forall tail,
             lex_from 0 (String "{" tail)
             = option_map (cons TLBrace) (lex_from 0 tail)).
  { intros tail. cbn [lex_from]. change (is_json_space "{") with false.
    cbv iota. unfold token_at.
    change (Ascii.eqb "{" "{") with true. cbv iota.
    now destruct (lex_from 0 tail). }
  rewrite E, lex_string.
  change (":" ++ ?x) with (String ":" x).
  assert (E' : forall tail,
             lex_from 0 (String ":" tail)
             = option_map (cons TColon) (lex_from 0 tail)).
  { intros tail. cbn [lex_from]. change (is_json_space ":") with false.
    cbv iota. unfold token_at.
    change (Ascii.eqb ":" "{") with false.
    change (Ascii.eqb ":" "}") with false.
    change (Ascii.eqb ":" "[") with false.
    change (Ascii.eqb ":" "]") with false.
    change (Ascii.eqb ":" ":") with true. cbv iota.
    now destruct (lex_from 0 tail). }
  rewrite E', lex_strings.
  change (lex_from 0 "}") with (Some [TRBrace]).
  unfold option_map. cbn [run].
  destruct l as [|x l]; [reflexivity|]. now rewrite run_elements.
Qed.

Lemma strings_of_strings (l : list string) :
  App.strings_of (map JString l) = Some l.
Proof.
  induction l as [|x l IH]; simpl; [reflexivity|]. now rewrite IH.
Qed.

(** ** The prompt at the end of the onboarding and at the next start *)

Lemma same_profiles_refl (d : Database) : same_profiles d d.
Proof. reflexivity. Qed.

Lemma same_profiles_trans (a b c : Database) :
  same_profiles a b -> same_profiles b c -> same_profiles a c.
Proof. unfold same_profiles. congruence. Qed.

Lemma init_inv (w w' : World) (r : Completion unit) :
  init w = (r, w') ->
  db w' = db w /\ (r = Normal tt -> opened w' = true).
Proof.
  unfold init. intros H.
  assert (O : forall r1 w1, open_database w = (r1, w1) ->
              db w1 = db w /\ (r1 = Normal tt -> opened w1 = true)).
  { unfold open_database. intros r1 w1.
    destruct (schedule w) as [|ev rest]; [|destruct (ev_fails ev)];
      intros E; inversion E; subst; simpl; split; auto; discriminate. }
  assert (C : forall w1 r1 w2, create_table w1 = (r1, w2) ->
              db w2 = db w1 /\ opened w2 = opened w1).
  { intros w1 r1 w2 E. unfold create_table in E.
    pose proof (db_call_inv _ _ _ _ _ E) as [Ho _].
    apply read_call_inv in E as [E _]. now split. }
  apply bind_inv in H as [(a & w1 & H1 & H2) | (e & H1 & ->)].
  - destruct (O _ _ H1) as [D1 O1]. destruct a. specialize (O1 eq_refl).
    revert H2. unfold createTables.
    assert (K : forall (k : unit -> M unit) wa r' wb,
               (forall wc r'' wd, k tt wc = (r'', wd) ->
                  db wd = db wc /\ opened wd = opened wc) ->
               bind create_table k wa = (r', wb) ->
               db wb = db wa /\ opened wb = opened wa).
    { intros k wa r' wb Hk Hb.
      apply bind_inv in Hb as [([] & wm & Hb1 & Hb2) | (e & Hb1 & _)].
      - destruct (C _ _ _ Hb1) as [Ca Cb].
        destruct (Hk _ _ _ Hb2) as [Da Db]. split; congruence.
      - eapply C, Hb1. }
    intros H2.
    assert (db w' = db w1 /\ opened w' = opened w1) as [E1 E2].
    { revert H2. apply K. intros ? ? ?. apply K. intros ? ? ?. apply K.
      intros ? ? ?. apply K. intros ? ? ?. apply K. intros ? ? ?.
      apply K. intros ? ? ?. apply C. }
    split; [congruence|]. intros _. congruence.
  - destruct (O _ _ H1) as [D1 _]. split; [exact D1 | discriminate].
Qed.

Lemma defaults_same_profiles (name : string) :
  preserves same_profiles
    (bind App.default_lists (fun _ =>
     bind (addMindmapNode name personality 1 None) (fun _ => ret tt))).
Proof.
  unfold App.default_lists.
  repeat (apply preserves_bind;
          [exact same_profiles_trans
          | try (apply preserves_db_call;
                 [exact same_profiles_refl | intros t d; reflexivity])
          | intros _]);
    apply preserves_ret; exact same_profiles_refl.
Qed.

Lemma or_else_or_null (x : option string) (y : string) :
  or_else (or_null x) y = or_else x y.
Proof.
  destruct x as [s|]; [|reflexivity]. simpl.
  destruct (truthy s) eqn:E; simpl; now rewrite ?E.
Qed.

Lemma buildSystemPrompt_or_null (name : string)
    (nickname role : option string) (traits : list string) :
  buildSystemPrompt
    {| uc_name := name; uc_nickname := or_null nickname;
       uc_role := or_null role; uc_traits := traits |}
  = buildSystemPrompt
      {| uc_name := name; uc_nickname := nickname; uc_role := role;
         uc_traits := traits |}.
Proof.
  unfold buildSystemPrompt. cbn [uc_name uc_nickname uc_role uc_traits].
  rewrite or_else_or_null.
  destruct role as [r|]; [|reflexivity]. simpl or_null.
  destruct (truthy r) eqn:E; [now rewrite E | reflexivity].
Qed.

Lemma prompt_of_stored_profile
    (ill : UserProfile -> value -> Completion string)
    (data : OnboardingScreen.OnboardingData) (id t : Z) :
  App.prompt_of_profile ill
    {| u_id := id; u_name := OnboardingScreen.od_name data;
       u_nickname := or_null (OnboardingScreen.od_nickname data);
       u_role := or_null (OnboardingScreen.od_role data);
       u_age_group := or_null (OnboardingScreen.od_ageGroup data);
       u_gender := or_null (OnboardingScreen.od_gender data);
       u_traits_json :=
         JsonText.stringify_strings
           (map trait_name (OnboardingScreen.od_traits data));
       u_created_at := t |}
  = Normal (buildSystemPrompt (context_of data)).
Proof.
  unfold App.prompt_of_profile. cbn [u_traits_json u_name u_nickname u_role].
  rewrite parse_stringify_strings, strings_of_strings.
  now rewrite buildSystemPrompt_or_null.
Qed.

Lemma handleOnboardingComplete_inv
    (data : OnboardingScreen.OnboardingData) (app app1 : App.t)
    (w w1 : World) :
  App.render app = App.Onboarding ->
  App.handleOnboardingComplete data app w = (app1, w1) ->
  App.render app1 = App.MainTabs ->
  exists id t,
    User (db w1)
    = (User (db w)
       ++ [{| u_id := id; u_name := OnboardingScreen.od_name data;
              u_nickname := or_null (OnboardingScreen.od_nickname data);
              u_role := or_null (OnboardingScreen.od_role data);
              u_age_group := or_null (OnboardingScreen.od_ageGroup data);
              u_gender := or_null (OnboardingScreen.od_gender data);
              u_traits_json :=
                JsonText.stringify_strings
                  (map trait_name (OnboardingScreen.od_traits data));
              u_created_at := t |}])%list
    /\ App.userProfile app1 = hd_error (User (db w1))
    /\ App.systemPrompt app1 = buildSystemPrompt (context_of data).
Proof.
  intros R0 H R1. unfold App.handleOnboardingComplete in H.
  destruct (createUser _ w) as [[id|e] wa] eqn:Hc.
  2:{ inversion H; subst. congruence. }
  destruct (getUser wa) as [[saved|e] wb] eqn:Hg.
  2:{ inversion H; subst. congruence. }
  apply write_call_inv in Hc. cbv beta zeta in Hc.
  injection Hc as Eid Ec.
  unfold getUser in Hg. apply read_call_inv in Hg as [Eb G].
  specialize (G saved eq_refl).
  injection H as <- <-.
  match goal with
  | |- context [snd (?c wb)] =>
      destruct (c wb) as [r wc] eqn:Hd;
      pose proof (defaults_same_profiles _ _ _ _ Hd) as S
  end.
  unfold same_profiles in S. cbn [snd].
  exists id, (now wa). rewrite S, Eb, <- Ec, <- Eid. cbn [User].
  split; [reflexivity|]. split; [|reflexivity].
  rewrite G, <- Ec. reflexivity.
Qed.

Lemma initializeApp_inv
    (ill : UserProfile -> value -> Completion string) (w w' : World)
    (app : App.t) :
  App.initializeApp ill App.initial w = (app, w') ->
  App.render app = App.MainTabs ->
  exists first,
    hd_error (User (db w)) = Some first
    /\ App.userProfile app = Some first
    /\ App.systemPrompt app
       = match App.prompt_of_profile ill first with
         | Normal p => p
         | Throw _ => ""
         end.
Proof.
  unfold App.initializeApp. intros H R.
  destruct (init w) as [[[]|e] wa] eqn:Hi.
  2:{ inversion H; subst. discriminate R. }
  apply init_inv in Hi as [Ea _].
  destruct (getUser wa) as [[[first|]|e] wb] eqn:Hg;
    try (inversion H; subst; discriminate R).
  unfold getUser in Hg. apply read_call_inv in Hg as [_ G].
  specialize (G _ eq_refl). rewrite Ea in G.
  exists first. split; [now symmetry|].
  destruct (App.prompt_of_profile ill first);
    inversion H; subst; now split.
Qed.

(** X15.  When the onboarding went through (the profile was stored and
    read back) and the application is started again on the same profiles,
    the profile shown is the one shown at the end of the onboarding.  On
    a store that held no profile the prompt built at the start is the
    prompt built at the end of the onboarding.  On a store that already
    held a profile, the profile shown is that first profile, and the
    prompt at the next start is built from it, not from the data of the
    onboarding. *)
Theorem X15_prompt_after_restart :
  forall (ill : UserProfile -> value -> Completion string)
         (data : OnboardingScreen.OnboardingData)
         (app app1 app2 : App.t) (w w1 w2 w3 : World),
    App.render app = App.Onboarding ->
    App.handleOnboardingComplete data app w = (app1, w1) ->
    App.render app1 = App.MainTabs ->
    User (db w2) = User (db w1) ->
    App.initializeApp ill App.initial w2 = (app2, w3) ->
    App.render app2 = App.MainTabs ->
    App.systemPrompt app1 = buildSystemPrompt (context_of data)
    /\ App.userProfile app2 = App.userProfile app1
    /\ match User (db w) with
       | [] => App.systemPrompt app2 = App.systemPrompt app1
       | first :: _ =>
           App.userProfile app1 = Some first
           /\ App.systemPrompt app2
              = match App.prompt_of_profile ill first with
                | Normal p => p
                | Throw _ => ""
                end
       end.
Proof.
  intros ill data app app1 app2 w w1 w2 w3 R0 H R1 E H2 R2.
  destruct (handleOnboardingComplete_inv _ _ _ _ _ R0 H R1)
    as (id & t & U & P & S).
  destruct (initializeApp_inv _ _ _ _ H2 R2) as (first & F & P2 & S2).
  rewrite E in F. split; [exact S|]. split; [congruence|].
  rewrite U in F, P. destruct (User (db w)) as [|u rest].
  - cbn in F. injection F as <-.
    rewrite S2, prompt_of_stored_profile. now symmetry.
  - cbn in F, P. injection F as <-. now split.
Qed.

(** ** The onboarding *)

Import OnboardingScreen.

Lemma trait_eqb_spec (a b : PersonalityTrait) :
  trait_eqb a b = true <-> a = b.
Proof. destruct a, b; simpl; split; congruence. Qed.

Lemma existsb_trait (t : PersonalityTrait) (l : list PersonalityTrait) :
  existsb (trait_eqb t) l = true <-> In t l.
Proof.
  rewrite existsb_exists. split.
  - intros (x & Hx & E). apply trait_eqb_spec in E. now subst.
  - intros H. exists t. split; [exact H | now apply trait_eqb_spec].
Qed.

Lemma entered_trim (s : string) :
  truthy (trim s) = true -> entered (trim s).
Proof.
  intros H. split; [|apply trim_trimmed].
  intros E. rewrite E in H. discriminate.
Qed.

Lemma or_undefined_entered (s v : string) :
  or_undefined (trim s) = Some v -> entered v.
Proof.
  unfold or_undefined. destruct (truthy (trim s)) eqn:E; [|discriminate].
  intros H. injection H as <-. now apply entered_trim.
Qed.

Lemma handleNext_inv (s : Screen) :
  data (handleNext s) = data s
  /\ rank (step s) <= rank (step (handleNext s)) <= S (rank (step s)).
Proof.
  unfold handleNext.
  destruct (step s) eqn:E; simpl; rewrite ?E; simpl;
    (split; [reflexivity | lia]).
Qed.

Ltac so_far :=
  split;
  [refine (conj _ (conj _ (conj _ (conj _ (conj _ (conj _ _))))))|];
  cbn in *; auto; try lia.

Lemma act_keeps_data (a : Action) (s : Screen) :
  offered s a = true -> data_so_far (data s) ->
  data_so_far (data (fst (act a s)))
  /\ rank (step s) <= rank (step (fst (act a s))).
Proof.
  intros Ho (Hn & Hk & Hr & Ha & Hg & Hd & Hl).
  destruct a; cbn [act fst].
  - so_far.
  - destruct (handleNext_inv s) as [-> ?]. so_far.
  - unfold handleNameSubmit.
    destruct (truthy (trim (tempInput s))) eqn:E; [|so_far].
    match goal with |- context [handleNext ?x] =>
      destruct (handleNext_inv x) as [-> ?] end.
    so_far. right. now apply entered_trim.
  - unfold handleNicknameSubmit.
    match goal with |- context [handleNext ?x] =>
      destruct (handleNext_inv x) as [-> ?] end.
    so_far. intros v. apply or_undefined_entered.
  - unfold handleRoleSubmit.
    match goal with |- context [handleNext ?x] =>
      destruct (handleNext_inv x) as [-> ?] end.
    so_far. intros v. apply or_undefined_entered.
  - change (step (selectAgeGroup age s)) with (step s).
    unfold offered in Ho. destruct (step s); try discriminate.
    apply existsb_exists in Ho as (x & Hx & E).
    apply String.eqb_eq in E. subst x.
    so_far. intros v H. injection H as <-. exact Hx.
  - change (step (selectGender gender s)) with (step s).
    unfold offered in Ho. destruct (step s); try discriminate.
    apply existsb_exists in Ho as (x & Hx & E).
    apply String.eqb_eq in E. subst x.
    so_far. intros v H. injection H as <-. exact Hx.
  - unfold toggleTrait.
    destruct (existsb (trait_eqb trait) (od_traits (data s))) eqn:E.
    + pose proof (filter_length_le
                    (fun t => negb (trait_eqb t trait))
                    (od_traits (data s))).
      so_far. now apply NoDup_filter.
    + destruct (List.length (od_traits (data s)) <? 3)%nat eqn:L;
        [|so_far].
      apply Nat.ltb_lt in L.
      assert (N : ~ In trait (od_traits (data s))).
      { intros Hx. apply existsb_trait in Hx. congruence. }
      so_far.
      * apply NoDup_app; [exact Hd | repeat constructor; intros [] |].
        intros x Hx [<-|[]]. now apply N.
      * rewrite length_app. simpl. lia.
  - so_far.
Qed.

Lemma session_inv (acts : list Action) :
  forall s,
    data_so_far (data s) ->
    data_so_far (data (fst (session acts s)))
    /\ rank (step s) <= rank (step (fst (session acts s)))
    /\ forall d, In d (snd (session acts s)) -> complete_data d.
Proof.
  induction acts as [|a acts IH]; intros s Hs.
  - simpl. split; [exact Hs|]. split; [lia | intros d []].
  - cbn [session]. destruct (offered s a) eqn:Ho; [|now apply IH].
    destruct (act_keeps_data a s Ho Hs) as [H1 R1].
    destruct (act a s) as [s1 out] eqn:Ea. cbn [fst] in H1, R1.
    destruct (IH s1 H1) as (H2 & R2 & H3).
    destruct (session acts s1) as [s2 outs]. cbn [fst snd] in *.
    split; [exact H2|]. split; [lia|].
    intros d Hd. destruct out as [d0|]; [|now apply H3].
    destruct Hd as [<-|Hd]; [|now apply H3].
    destruct a; try discriminate. cbn in Ea. injection Ea as <- Ec.
    unfold handleComplete in Ec.
    destruct (truthy (od_name (data s))) eqn:Tn; [|discriminate].
    destruct (0 <? List.length (od_traits (data s)))%nat eqn:Tl;
      [|discriminate].
    injection Ec as <-. apply Nat.ltb_lt in Tl.
    destruct Hs as ([Hn|Hn] & Hk & Hr & Ha & Hg & Hd & Hl).
    + rewrite Hn in Tn. discriminate.
    + refine
        (conj Hn (conj Hk (conj Hr (conj Ha (conj Hg (conj Hd _)))))).
      lia.
Qed.

(** X16.  Whatever the user does on the onboarding screen, the data that
    [onComplete] receives has a name that is not empty and has no white
    space at its ends, a nickname and a role that are absent or such
    texts, an age group and a gender that are absent or one of the four
    choices offered, and one to three traits, all different.  The steps
    are never gone back. *)
Theorem X16_onboarding_data :
  forall (acts : list Action) (d : OnboardingData),
    In d (snd (session acts initial)) ->
    complete_data d
    /\ forall more,
         rank (step (fst (session acts initial)))
         <= rank (step (fst (session (acts ++ more) initial))).
Proof.
  assert (I : data_so_far (data initial)).
  { cbn. repeat split; try discriminate; auto; constructor. }
  intros acts d Hd. split.
  - now apply (session_inv acts initial I).
  - intros more.
    assert (E : forall l s,
               fst (session (l ++ more) s)
               = fst (session more (fst (session l s)))).
    { induction l as [|a l IH]; intros s; [reflexivity|].
      cbn [app session]. destruct (offered s a); [|apply IH].
      destruct (act a s) as [s1 out]. specialize (IH s1).
      destruct (session (l ++ more) s1) as [x xs],
               (session l s1) as [y ys].
      cbn [fst] in *. exact IH. }
    rewrite E.
    apply (session_inv more (fst (session acts initial))).
    now apply (session_inv acts initial I).
Qed.

Lemma X16_onboarding_data_witness :
  In ada (snd (session ada_session initial)) /\ complete_data ada.
Proof.
  assert (H : In ada (snd (session ada_session initial)))
    by (vm_compute; left; reflexivity).
  split; [exact H|]. exact (proj1 (X16_onboarding_data ada_session ada H)).
Defined.

(** ** One exchange on the chat screen *)

Import ChatScreen.

Lemma truthy_true (s : string) : s <> "" -> truthy s = true.
Proof. destruct s; [congruence | reflexivity]. Qed.

Lemma truthy_false (s : string) : truthy s = false -> s = "".
Proof. destruct s; [reflexivity | discriminate]. Qed.

Lemma addMessage_calm (content : string) (sender : Sender)
    (ctx : option string) (w : World) :
  calm w ->
  exists w1,
    addMessage content sender ctx w
    = (Normal (next_key (map m_id (Messages (db w)))), w1)
    /\ calm w1
    /\ Messages (db w1)
       = (Messages (db w)
          ++ [{| m_id := next_key (map m_id (Messages (db w)));
                 m_content := content; m_sender := sender;
                 m_timestamp := now w1;
                 m_context_json := or_null ctx |}])%list.
Proof.
  intros Hc. unfold addMessage.
  match goal with
  | |- context [db_call ?f w] =>
      destruct (db_call_calm _ f w Hc) as (id & w1 & E & C & F)
  end.
  cbv beta zeta in F. injection F as <- F.
  exists w1. split; [exact E|]. split; [exact C|]. now rewrite <- F.
Qed.

Lemma generateResponse_answer (svc : LLMService.t) (engine : Engine)
    (userMessage raw : string) (history : list Message) :
  isReady svc = true ->
  engine (buildChatMLPrompt svc userMessage history) = Normal raw ->
  generateResponse svc engine userMessage history
  = Normal
      {| text := removeSuggestions (cleanResponse raw);
         LLMService.suggestions :=
           match extractSuggestions (cleanResponse raw) with
           | [] => None
           | l => Some l
           end |}.
Proof.
  unfold isReady, generateResponse. intros -> ->. cbn [negb].
  now destruct (extractSuggestions (cleanResponse raw)).
Qed.

(** X17.  When the store rejects nothing, the service is ready, no answer
    is being generated, the text to send is not empty and the engine
    answers, [handleSend] stores two rows after the ones there are, with
    growing keys above the others: the text sent, by the user, and the
    answer without its suggestions, by the assistant.  The suggestions, if
    there are some, are stored with the answer as a JSON text that parses
    back to them, and become the suggestions of the screen.  The same two
    messages are shown, the input is emptied and the busy flag is off. *)
Theorem X17_exchange_is_stored :
  forall (svc : LLMService.t) (engine : Engine) (r : Readings)
         (messageText : option string) (c : ChatScreen.t) (w : World)
         (raw : string),
    calm w ->
    isReady svc = true ->
    isGenerating c = false ->
    or_else messageText (trim (input c)) <> "" ->
    engine
      (buildChatMLPrompt svc (or_else messageText (trim (input c)))
         (messages c)) = Normal raw ->
    exists c' w' u a,
      handleSend svc engine r messageText c w = (Normal tt, c', w')
      /\ calm w'
      /\ Messages (db w') = (Messages (db w) ++ [u; a])%list
      /\ (forall m, In m (Messages (db w)) -> (m_id m < m_id u)%Z)
      /\ (m_id u < m_id a)%Z
      /\ spoken u = (user, or_else messageText (trim (input c)))
      /\ m_context_json u = None
      /\ spoken a = (assistant, removeSuggestions (cleanResponse raw))
      /\ match extractSuggestions (cleanResponse raw) with
         | [] => m_context_json a = None /\ ChatScreen.suggestions c' = []
         | l =>
             exists j,
               m_context_json a = Some j
               /\ parse j
                  = Some (JObject [("options", JArray (map JString l))])
               /\ ChatScreen.suggestions c' = l
         end
      /\ map spoken (messages c')
         = (map spoken (messages c) ++ [spoken u; spoken a])%list
      /\ input c' = ""
      /\ isGenerating c' = false.
Proof.
  intros svc engine r messageText c w raw.
  intros Hc Hr Hg Ht He. unfold handleSend.
  set (textToSend := or_else messageText (trim (input c))) in *.
  rewrite (truthy_true _ Ht), Hr, Hg. cbn [negb orb].
  destruct (addMessage_calm textToSend user None w Hc) as (w1 & E1 & C1 & M1).
  rewrite E1, (generateResponse_answer _ _ _ _ _ Hr He).
  cbn [text LLMService.suggestions].
  set (reply := removeSuggestions (cleanResponse raw)).
  set (ctx := option_map JsonText.stringify_options _).
  destruct (addMessage_calm reply assistant ctx w1 C1) as (w2 & E2 & C2 & M2).
  rewrite E2. rewrite M1 in M2.
  eexists. exists w2. eexists. eexists.
  split; [reflexivity|]. split; [exact C2|].
  split; [rewrite M2, <- app_assoc; reflexivity|].
  cbn [m_id m_context_json spoken m_sender m_content or_null].
  split.
  { intros m Hm. apply next_key_above. now apply in_map. }
  split.
  { apply next_key_above. rewrite map_app. apply in_or_app. right.
    now left. }
  split; [reflexivity|]. split; [reflexivity|]. split; [reflexivity|].
  split.
  { subst ctx. destruct (extractSuggestions (cleanResponse raw)) as [|x l].
    - now split.
    - cbn [option_map or_null]. eexists. split; [reflexivity|].
      split; [apply parse_stringify_options | reflexivity]. }
  cbn [messages input isGenerating]. rewrite !map_app, <- app_assoc.
  now repeat split.
Qed.

Lemma addMessage_inv (content : string) (sender : Sender)
    (ctx : option string) (w w1 : World) (r : Completion Z) :
  addMessage content sender ctx w = (r, w1) ->
  (exists id row,
     r = Normal id
     /\ Messages (db w1) = (Messages (db w) ++ [row])%list
     /\ spoken row = (sender, content))
  \/ (exists e,
        r = Throw e /\ db w1 = db w
        /\ (e = DatabaseNotInitialized \/ e = StoreFailure)).
Proof.
  intros H. unfold addMessage in H.
  apply db_call_inv in H as [_ [(a & -> & E & _) | (e & -> & E & He)]].
  - left. cbv beta zeta in E. injection E as <- E.
    eexists. eexists. split; [reflexivity|]. rewrite <- E. cbn [Messages].
    split; reflexivity.
  - right. exists e. now split.
Qed.

Lemma handleSend_guard (svc : LLMService.t) (engine : Engine)
    (r : Readings) (messageText : option string) (c : ChatScreen.t)
    (w : World) :
  or_else messageText (trim (input c)) = ""
  \/ isReady svc = false \/ isGenerating c = true ->
  handleSend svc engine r messageText c w = (Normal tt, c, w).
Proof.
  unfold handleSend. intros [H|[H|H]]; rewrite H; cbn [truthy negb orb];
    [reflexivity | now rewrite orb_true_r | now rewrite orb_true_r].
Qed.

Lemma handleSend_outcomes (svc : LLMService.t) (engine : Engine)
    (r : Readings) (messageText : option string) (c c' : ChatScreen.t)
    (w w' : World) (out : Completion unit) :
  handleSend svc engine r messageText c w = (out, c', w') ->
  or_else messageText (trim (input c)) <> "" ->
  isReady svc = true ->
  isGenerating c = false ->
  input c' = "" /\ isGenerating c' = false
  /\ match out with
     | Throw e =>
         db w' = db w
         /\ (e = DatabaseNotInitialized \/ e = StoreFailure)
         /\ map spoken (messages c')
            = (map spoken (messages c)
               ++ [(user, or_else messageText (trim (input c)))])%list
     | Normal _ =>
         exists u,
           spoken u = (user, or_else messageText (trim (input c)))
           /\ ((exists a result,
                  generateResponse svc engine
                    (or_else messageText (trim (input c))) (messages c)
                  = Normal result
                  /\ spoken a = (assistant, text result)
                  /\ Messages (db w') = (Messages (db w) ++ [u; a])%list
                  /\ map spoken (messages c')
                     = (map spoken (messages c) ++ [spoken u; spoken a])%list)
               \/ (Messages (db w') = (Messages (db w) ++ [u])%list
                   /\ match
                        generateResponse svc engine
                          (or_else messageText (trim (input c)))
                          (messages c)
                      with
                      | Throw _ =>
                          map spoken (messages c')
                          = (map spoken (messages c)
                             ++ [spoken u; (assistant, apology)])%list
                      | Normal result =>
                          map spoken (messages c')
                          = (map spoken (messages c)
                             ++ [spoken u; (assistant, text result);
                                 (assistant, apology)])%list
                      end))
     end.
Proof.
  intros H Ht Hr Hg. unfold handleSend in H.
  set (textToSend := or_else messageText (trim (input c))) in *.
  rewrite (truthy_true _ Ht), Hr, Hg in H. cbn [negb orb] in H.
  destruct (addMessage textToSend user None w) as [r1 w1] eqn:E1.
  apply addMessage_inv in E1
    as [(id & u & -> & M1 & S1) | (e & -> & D1 & He)].
  2:{ injection H as <- <- <-. cbn [input isGenerating messages].
      split; [reflexivity|]. split; [reflexivity|].
      split; [exact D1|]. split; [exact He|].
      now rewrite map_app. }
  destruct (generateResponse svc engine textToSend (messages c))
    as [result|e] eqn:G.
  2:{ injection H as <- <- <-. cbn [input isGenerating messages failed].
      split; [reflexivity|]. split; [reflexivity|].
      exists u. split; [exact S1|]. right. split; [exact M1|].
      rewrite !map_app, <- app_assoc. cbn [map app spoken shown m_sender
        m_content]. now rewrite S1. }
  destruct (addMessage (text result) assistant _ w1) as [r2 w2] eqn:E2.
  apply addMessage_inv in E2
    as [(id2 & a & -> & M2 & S2) | (e & -> & D2 & He)].
  - injection H as <- <- <-. cbn [input isGenerating messages].
    split; [reflexivity|]. split; [reflexivity|].
    exists u. split; [exact S1|]. left. exists a, result.
    split; [reflexivity|]. split; [exact S2|].
    split; [rewrite M2, M1, <- app_assoc; reflexivity|].
    rewrite !map_app, <- app_assoc. cbn [map app spoken shown m_sender
      m_content]. now rewrite S1, S2.
  - injection H as <- <- <-. cbn [input isGenerating messages failed].
    split; [reflexivity|]. split; [reflexivity|].
    exists u. split; [exact S1|]. right.
    split; [rewrite D2; exact M1|].
    rewrite !map_app, <- !app_assoc. cbn [map app spoken shown m_sender
      m_content]. now rewrite S1.
Qed.

(** X18.  [handleSend] does nothing when the text to send is empty, the
    service is not ready or an answer is being generated.  Otherwise the
    input is emptied, the busy flag is off at the end and the text sent is
    shown, and: when the store rejects the text sent, the promise is
    rejected and nothing is stored; when the engine fails, the text sent
    is stored alone and the apology is shown after it; when the store
    rejects the answer, the text sent is stored alone and both the answer
    and the apology are shown; else the text sent and the answer of the
    engine are stored, and they are the two messages shown. *)
Theorem X18_send_outcomes :
  forall (svc : LLMService.t) (engine : Engine) (r : Readings)
         (messageText : option string) (c c' : ChatScreen.t)
         (w w' : World) (out : Completion unit),
    handleSend svc engine r messageText c w = (out, c', w') ->
    (or_else messageText (trim (input c)) = ""
     \/ isReady svc = false \/ isGenerating c = true ->
     out = Normal tt /\ c' = c /\ w' = w)
    /\ (or_else messageText (trim (input c)) <> "" ->
        isReady svc = true ->
        isGenerating c = false ->
        input c' = "" /\ isGenerating c' = false
        /\ match out with
           | Throw e =>
               db w' = db w
               /\ (e = DatabaseNotInitialized \/ e = StoreFailure)
               /\ map spoken (messages c')
                  = (map spoken (messages c)
                     ++ [(user, or_else messageText (trim (input c)))])%list
           | Normal _ =>
               exists u,
                 spoken u = (user, or_else messageText (trim (input c)))
                 /\ ((exists a result,
                        generateResponse svc engine
                          (or_else messageText (trim (input c)))
                          (messages c)
                        = Normal result
                        /\ spoken a = (assistant, text result)
                        /\ Messages (db w') = (Messages (db w) ++ [u; a])%list
                        /\ map spoken (messages c')
                           = (map spoken (messages c)
                              ++ [spoken u; spoken a])%list)
                     \/ (Messages (db w') = (Messages (db w) ++ [u])%list
                         /\ match
                              generateResponse svc engine
                                (or_else messageText (trim (input c)))
                                (messages c)
                            with
                            | Throw _ =>
                                map spoken (messages c')
                                = (map spoken (messages c)
                                   ++ [spoken u; (assistant, apology)])%list
                            | Normal result =>
                                map spoken (messages c')
                                = (map spoken (messages c)
                                   ++ [spoken u; (assistant, text result);
                                       (assistant, apology)])%list
                            end))
           end).
Proof.
  intros svc engine r messageText c c' w w' out H. split.
  - intros G. rewrite (handleSend_guard _ _ _ _ _ _ G) in H.
    injection H as <- <- <-. now repeat split.
  - exact (handleSend_outcomes _ _ _ _ _ _ _ _ _ H).
Qed.

(** ** The exchange and the next run of the agent *)

Lemma db_call_clock (A : Type) (f : Z -> Database -> A * Database)
    (w w' : World) (r : Completion A) :
  db_call f w = (r, w') ->
  clock_steady (now w) (schedule w) ->
  (now w <= now w')%Z /\ clock_steady (now w') (schedule w').
Proof.
  unfold db_call. destruct (negb (opened w)).
  - intros H. inversion H; subst. split; [lia | assumption].
  - destruct (schedule w) as [|ev rest].
    + destruct (f (now w) (db w)). intros H _. inversion H; subst.
      simpl. split; [lia | exact I].
    + intros H [L S]. destruct (ev_fails ev);
        [|destruct (f (ev_time ev) (db w))]; inversion H; subst; simpl;
        now split.
Qed.

Lemma addMessage_steady (content : string) (sender : Sender)
    (ctx : option string) (id : Z) (w w1 : World) :
  steady w -> well_logged (db w) ->
  addMessage content sender ctx w = (Normal id, w1) ->
  steady w1 /\ well_logged (db w1).
Proof.
  intros [Hm Hs] Hw H.
  destruct (db_call_clock _ _ _ _ _ H Hs) as [L S].
  assert (Hn : forall m, In m (Messages (db w)) ->
                 (m_timestamp m <= now w1)%Z).
  { intros m Hin. specialize (Hm m Hin). lia. }
  destruct (addMessage_in_order _ _ _ _ _ _ Hw H Hn) as (W & _ & O & _).
  split; [|exact W]. split; [|exact S].
  destruct (well_logged_ascending _ W) as [E _]. rewrite E in O.
  intros m Hin. rewrite O in Hin. apply in_app_or in Hin as [Hin|[<-|[]]].
  - now apply Hn.
  - simpl. lia.
Qed.

Lemma handleSend_two_calls (svc : LLMService.t) (engine : Engine)
    (r : Readings) (messageText : option string) (c : ChatScreen.t)
    (w : World) (raw : string) :
  calm w ->
  isReady svc = true ->
  isGenerating c = false ->
  or_else messageText (trim (input c)) <> "" ->
  engine
    (buildChatMLPrompt svc (or_else messageText (trim (input c)))
       (messages c)) = Normal raw ->
  exists c' w1 w' ctx,
    addMessage (or_else messageText (trim (input c))) user None w
    = (Normal (next_key (map m_id (Messages (db w)))), w1)
    /\ addMessage (removeSuggestions (cleanResponse raw)) assistant ctx w1
       = (Normal (next_key (map m_id (Messages (db w1)))), w')
    /\ calm w1 /\ calm w'
    /\ handleSend svc engine r messageText c w = (Normal tt, c', w').
Proof.
  intros Hc Hr Hg Ht He. unfold handleSend.
  set (textToSend := or_else messageText (trim (input c))) in *.
  rewrite (truthy_true _ Ht), Hr, Hg. cbn [negb orb].
  destruct (addMessage_calm textToSend user None w Hc) as (w1 & E1 & C1 & M1).
  rewrite E1, (generateResponse_answer _ _ _ _ _ Hr He).
  cbn [text LLMService.suggestions].
  set (ctx := option_map JsonText.stringify_options _).
  destruct (addMessage_calm (removeSuggestions (cleanResponse raw))
              assistant ctx w1 C1) as (w2 & E2 & C2 & M2).
  rewrite E2. eexists. exists w1, w2, ctx.
  split; [reflexivity|]. split; [exact E2|].
  split; [exact C1|]. split; [exact C2 | reflexivity].
Qed.

Lemma new_messages_app (this : Agent) (a b : list Message) :
  new_messages this (a ++ b)
  = (new_messages this a ++ new_messages this b)%list.
Proof. unfold new_messages. apply filter_app. Qed.

Lemma new_messages_none (this : Agent) (l : list Message) :
  (forall m, In m l -> (m_id m <= mark this)%Z) ->
  new_messages this l = [].
Proof.
  intros H. unfold new_messages.
  induction l as [|x l IH]; [reflexivity|]. simpl.
  assert (E : id_or_0 x = m_id x).
  { unfold id_or_0. destruct (Z.eqb_spec (m_id x) 0); congruence. }
  pose proof (H x (or_introl eq_refl)) as Hx. unfold mark in Hx.
  rewrite E. destruct (Z.gtb_spec (m_id x) (lastProcessedMessageId this));
    [lia|]. apply IH. intros m Hm. apply H. now right.
Qed.

Lemma new_messages_all (this : Agent) (l : list Message) :
  (forall m, In m l -> (mark this < m_id m)%Z) ->
  new_messages this l = l.
Proof.
  intros H. unfold new_messages.
  induction l as [|x l IH]; [reflexivity|]. simpl.
  assert (E : id_or_0 x = m_id x).
  { unfold id_or_0. destruct (Z.eqb_spec (m_id x) 0); congruence. }
  pose proof (H x (or_introl eq_refl)) as Hx. unfold mark in Hx.
  rewrite E. destruct (Z.gtb_spec (m_id x) (lastProcessedMessageId this));
    [|lia]. f_equal. apply IH. intros m Hm. apply H. now right.
Qed.

(** X19.  On a message log in order, with a clock that does not go back
    and an agent that has read every message stored, a completed exchange
    of the chat screen leaves the log in order, and the next run of the
    agent finds exactly the two messages of the exchange above its mark:
    the text sent and the answer are what it gives the engine to analyse,
    and when the result is applied the mark is the key of the answer and
    the agent has again read every message stored. *)
Theorem X19_agent_reads_the_exchange :
  forall (svc : LLMService.t) (engine : Engine) (r : Readings)
         (messageText : option string) (c : ChatScreen.t) (w : World)
         (raw : string) (this : Agent),
    calm w -> steady w -> well_logged (db w) -> caught_up this (db w) ->
    isReady svc = true ->
    isGenerating c = false ->
    or_else messageText (trim (input c)) <> "" ->
    engine
      (buildChatMLPrompt svc (or_else messageText (trim (input c)))
         (messages c)) = Normal raw ->
    exists c' w' w0 u a,
      handleSend svc engine r messageText c w = (Normal tt, c', w')
      /\ well_logged (db w') /\ steady w'
      /\ spoken u = (user, or_else messageText (trim (input c)))
      /\ spoken a = (assistant, removeSuggestions (cleanResponse raw))
      /\ getAllMessages w' = (Normal (Messages (db w) ++ [u; a])%list, w0)
      /\ new_messages this (Messages (db w) ++ [u; a]) = [u; a]
      /\ forall env rawA p w2,
           isProcessing this = false ->
           LLMService.isReady (llm env) = true ->
           analyzeConversation (llm env) (BackgroundAgent.engine env) [u; a]
           = Normal rawA ->
           parseAnalysisResult rawA = Normal (Some p) ->
           applyAnalysisResults (typed env p) w0 = (Normal tt, w2) ->
           processRecentConversations env this w'
           = ({| isProcessing := false; lastProcessedMessageId := m_id a |},
              w2)
           /\ caught_up
                {| isProcessing := false; lastProcessedMessageId := m_id a |}
                (db w2).
Proof.
  intros svc engine r messageText c w raw this.
  intros Hc Hs Hw [Hold Hnew] Hr Hg Ht He.
  destruct (handleSend_two_calls svc engine r messageText c w raw
              Hc Hr Hg Ht He) as (c' & w1 & w' & ctx & E1 & E2 & C1 & C2 & H).
  destruct (addMessage_steady _ _ _ _ _ _ Hs Hw E1) as [S1 W1].
  destruct (addMessage_steady _ _ _ _ _ _ S1 W1 E2) as [S2 W2].
  pose proof (write_call_inv _ _ _ _ _ E1) as F1.
  pose proof (write_call_inv _ _ _ _ _ E2) as F2.
  cbv beta zeta in F1, F2. injection F1 as F1. injection F2 as F2.
  assert (M1 : Messages (db w1)
               = (Messages (db w)
                  ++ [{| m_id := next_key (map m_id (Messages (db w)));
                         m_content := or_else messageText (trim (input c));
                         m_sender := user; m_timestamp := now w1;
                         m_context_json := or_null None |}])%list)
    by (now rewrite <- F1).
  set (u := {| m_id := next_key (map m_id (Messages (db w))) |}) in *.
  assert (M2 : Messages (db w')
               = (Messages (db w1)
                  ++ [{| m_id := next_key (map m_id (Messages (db w1)));
                         m_content := removeSuggestions (cleanResponse raw);
                         m_sender := assistant; m_timestamp := now w';
                         m_context_json := or_null ctx |}])%list)
    by (now rewrite <- F2).
  set (a := {| m_id := next_key (map m_id (Messages (db w1))) |}) in *.
  assert (M : Messages (db w') = (Messages (db w) ++ [u; a])%list)
    by (rewrite M2, M1, <- app_assoc; reflexivity).
  assert (Ua : (m_id u < m_id a)%Z).
  { subst a. cbn [m_id]. apply next_key_above. rewrite M1, map_app.
    apply in_or_app. right. now left. }
  assert (Uu : (mark this < m_id u)%Z) by exact Hnew.
  assert (N : new_messages this (Messages (db w) ++ [u; a]) = [u; a]).
  { rewrite new_messages_app, (new_messages_none _ _ Hold).
    apply new_messages_all. intros m [<-|[<-|[]]].
    - exact Hnew.
    - lia. }
  destruct (read_calm _ (fun d => order_by (asc m_timestamp) (Messages d))
              w' C2) as (w0 & G & C0 & D0).
  destruct (well_logged_ascending _ W2) as [O _]. rewrite O, M in G.
  exists c', w', w0, u, a.
  split; [exact H|]. split; [exact W2|]. split; [exact S2|].
  split; [reflexivity|]. split; [reflexivity|].
  split; [exact G|]. split; [exact N|].
  intros env rawA p w2 Hp Hre Ha Hparse Happly.
  assert (L : last (new_messages this (Messages (db w) ++ [u; a]))
                default_message = a).
  { rewrite N. reflexivity. }
  assert (Ia : id_or_0 a = m_id a).
  { unfold id_or_0. destruct (Z.eqb_spec (m_id a) 0); congruence. }
  split.
  - rewrite (run_applied env this w' w0 w2 _ rawA p Hp Hre G); auto.
    + now rewrite L, Ia.
    + rewrite N. simpl. lia.
    + now rewrite N.
  - pose proof (applyAnalysisResults_only_adds _ _ _ _ Happly)
      as (_ & Em & _).
    unfold caught_up. change (mark {| isProcessing := false;
      lastProcessedMessageId := m_id a |}) with (m_id a).
    rewrite Em, D0, M.
    split.
    + intros m Hm. apply in_app_or in Hm as [Hm|[<-|[<-|[]]]].
      * specialize (Hold m Hm). lia.
      * lia.
      * lia.
    + apply next_key_above. rewrite map_app. apply in_or_app. right.
      right. now left.
Qed.

(** ** The bubbles of a message *)

Lemma visible_append (a b : string) :
  visible (a ++ b) = visible a ++ visible b.
Proof.
  induction a as [|c a IH]; [reflexivity|]. simpl.
  destruct (is_space c); simpl; now rewrite IH.
Qed.

Lemma visible_split_lines (s : string) :
  concat_strings (map visible (split_lines s)) = visible s.
Proof.
  induction s as [|c s IH]; [reflexivity|]. cbn [split_lines].
  destruct (Ascii.eqb_spec c nl) as [->|Hc].
  - cbn [map concat_strings visible]. rewrite IH. reflexivity.
  - destruct (split_lines s) as [|l ls].
    + cbn in IH. cbn. rewrite <- IH. now destruct (is_space c).
    + cbn [map concat_strings visible] in *. rewrite <- IH.
      now destruct (is_space c).
Qed.

Lemma split_lines_no_break (s : string) :
  Forall (fun l => mentions nl l = false) (split_lines s).
Proof.
  induction s as [|c s IH]; [repeat constructor|]. cbn [split_lines].
  destruct (Ascii.eqb_spec c nl) as [->|Hc].
  - constructor; [reflexivity | exact IH].
  - apply Ascii.eqb_neq in Hc. destruct (split_lines s) as [|l ls].
    + constructor; [|constructor]. cbn [mentions]. now rewrite Hc.
    + inversion IH; subst. constructor; [|assumption].
      cbn [mentions]. now rewrite Hc.
Qed.

Lemma visible_trimStart (s : string) : visible (trimStart s) = visible s.
Proof.
  induction s as [|c s IH]; [reflexivity|]. simpl.
  destruct (is_space c) eqn:E; [exact IH|]. simpl. now rewrite E.
Qed.

Lemma visible_trimEnd (s : string) : visible (trimEnd s) = visible s.
Proof.
  induction s as [|c s IH]; [reflexivity|]. cbn [trimEnd].
  destruct (trimEnd s) as [|c' r'] eqn:E.
  - cbn [visible] in *. rewrite <- IH.
    destruct (is_space c) eqn:Ec; [reflexivity|]. cbn. now rewrite Ec.
  - cbn [visible] in *. now rewrite IH.
Qed.

Lemma visible_trim (s : string) : visible (trim s) = visible s.
Proof. unfold trim. now rewrite visible_trimEnd, visible_trimStart. Qed.

Lemma mentions_trimStart (c : ascii) (s : string) :
  mentions c s = false -> mentions c (trimStart s) = false.
Proof.
  induction s as [|a s IH]; [reflexivity|]. simpl.
  intros H. apply orb_false_iff in H as [H1 H2].
  destruct (is_space a); [now apply IH|]. simpl. now rewrite H1, H2.
Qed.

Lemma mentions_trimEnd (c : ascii) (s : string) :
  mentions c s = false -> mentions c (trimEnd s) = false.
Proof.
  induction s as [|a s IH]; [reflexivity|]. cbn [trimEnd mentions].
  intros H. apply orb_false_iff in H as [H1 H2]. specialize (IH H2).
  destruct (trimEnd s) as [|c' r'].
  - destruct (is_space a); [reflexivity|]. cbn. now rewrite H1.
  - cbn [mentions] in *. now rewrite H1, IH.
Qed.

Lemma bubbles_visible (lines : list string) :
  concat_strings
    (map visible
       (map trim
          (filter (fun line => negb (String.eqb (trim line) "")) lines)))
  = concat_strings (map visible lines).
Proof.
  induction lines as [|l lines IH]; [reflexivity|]. cbn [filter].
  destruct (String.eqb_spec (trim l) "") as [E|E]; cbn [negb map
    concat_strings].
  - rewrite IH, <- (visible_trim l), E. reflexivity.
  - now rewrite IH, visible_trim.
Qed.

Lemma renderMessage_inv (message : Message) (bubbles : list string) :
  renderMessage message = Some bubbles ->
  (forall b, In b bubbles ->
     b <> "" /\ trimmed b /\ mentions nl b = false)
  /\ concat_strings (map visible bubbles) = visible (m_content message).
Proof.
  unfold renderMessage.
  destruct (truthy (m_content message)); [|discriminate].
  cbn [negb]. intros H. injection H as <-. split.
  - intros b Hb. apply in_map_iff in Hb as (l & <- & Hl).
    apply filter_In in Hl as [Hl Hn].
    split; [|split].
    + intros E. rewrite E in Hn. discriminate.
    + apply trim_trimmed.
    + unfold trim. apply mentions_trimEnd, mentions_trimStart.
      pose proof (split_lines_no_break (m_content message)) as F.
      rewrite Forall_forall in F. now apply F.
  - now rewrite bubbles_visible, visible_split_lines.
Qed.

(** X20.  [renderMessage] renders nothing exactly for a message without
    text.  For any other message every bubble shown is not empty, has no
    white space at its ends and no line break, and the bubbles together
    hold the characters of the message that are not white space, in their
    order: only white space is dropped. *)
Theorem X20_bubbles :
  forall (message : Message),
    (renderMessage message = None <-> m_content message = "")
    /\ forall bubbles,
         renderMessage message = Some bubbles ->
         (forall b, In b bubbles ->
            b <> "" /\ trimmed b /\ mentions nl b = false)
         /\ concat_strings (map visible bubbles)
            = visible (m_content message).
Proof.
  intros message. split; [|apply renderMessage_inv].
  unfold renderMessage. destruct (m_content message); cbn; split;
    congruence.
Qed.

Lemma X20_bubbles_witness :
  renderMessage three_lines = Some ["Hi there"; "Bye"]
  /\ concat_strings (map visible ["Hi there"; "Bye"])
     = visible (m_content three_lines).
Proof.
  assert (H : renderMessage three_lines = Some ["Hi there"; "Bye"])
    by reflexivity.
  split; [exact H|].
  exact (proj2 (proj2 (X20_bubbles three_lines) _ H)).
Defined.

(** ** Suggestions at the end of an answer *)

Lemma mentions_append (c : ascii) (a b : string) :
  mentions c (a ++ b) = mentions c a || mentions c b.
Proof.
  induction a as [|x a IH]; [reflexivity|]. simpl.
  now rewrite IH, orb_assoc.
Qed.

Lemma until_close_token (t rest : string) :
  mentions "]" t = false ->
  until_close (t ++ String "]" rest) = Some (String.length t).
Proof.
  induction t as [|c t IH]; [reflexivity|]. cbn [mentions].
  intros H. apply orb_false_iff in H as [H1 H2].
  cbn [append until_close String.length]. rewrite H1, (IH H2).
  reflexivity.
Qed.

Lemma chip_unfold (t rest : string) :
  chip t ++ rest = String "[" (t ++ String "]" rest).
Proof.
  unfold chip. cbn [append]. now rewrite append_assoc.
Qed.

Lemma length_chip (t : string) :
  String.length (chip t) = S (S (String.length t)).
Proof.
  unfold chip. cbn [append String.length]. rewrite length_append.
  simpl. lia.
Qed.

Lemma re_bracket_chip (t rest : string) :
  t <> "" -> mentions "]" t = false ->
  re_bracket (chip t ++ rest) = Some (String.length (chip t)).
Proof.
  intros Hne Hc. rewrite chip_unfold, length_chip.
  unfold re_bracket. change (Ascii.eqb "[" "[") with true. cbv iota.
  rewrite (until_close_token _ _ Hc).
  destruct t as [|c t]; [congruence|]. cbn [String.length].
  f_equal. lia.
Qed.

Lemma match_all_from_skip (m : matcher) (p r : string) :
  match_all_from m (String.length p) (p ++ r) = match_all_from m 0 r.
Proof.
  induction p as [|c p IH]; simpl; [|exact IH].
  destruct r; reflexivity.
Qed.

Lemma take_append (a b : string) : take (String.length a) (a ++ b) = a.
Proof.
  induction a as [|c a IH]; simpl; [now destruct b|]. now rewrite IH.
Qed.

Lemma match_all_chip (t rest : string) :
  t <> "" -> mentions "]" t = false ->
  match_all re_bracket (chip t ++ rest)
  = chip t :: match_all re_bracket rest.
Proof.
  intros Hne Hc. unfold match_all.
  pose proof (re_bracket_chip t rest Hne Hc) as E.
  rewrite length_chip in E.
  assert (U : chip t ++ rest = String "[" (t ++ String "]" rest))
    by apply chip_unfold.
  rewrite U in *. cbn [match_all_from]. rewrite E. f_equal.
  - rewrite <- U, <- length_chip. apply take_append.
  - replace (t ++ String "]" rest) with ((t ++ "]") ++ rest)
      by (now rewrite append_assoc).
    replace (S (String.length t)) with (String.length (t ++ "]"))
      by (rewrite length_append; simpl; lia).
    apply match_all_from_skip.
Qed.

Lemma re_bracket_other (c : ascii) (r : string) :
  Ascii.eqb c "[" = false -> re_bracket (String c r) = None.
Proof. intros H. unfold re_bracket. now rewrite H. Qed.

Lemma match_all_no_bracket (x rest : string) :
  mentions "[" x = false ->
  match_all re_bracket (x ++ rest) = match_all re_bracket rest.
Proof.
  unfold match_all. induction x as [|c x IH]; [reflexivity|].
  cbn [mentions]. intros H. apply orb_false_iff in H as [H1 H2].
  cbn [append match_all_from]. rewrite (re_bracket_other _ _ H1).
  now apply IH.
Qed.

Lemma all_space_mentions (c : ascii) (ws : string) :
  is_space c = false -> all_space ws = true -> mentions c ws = false.
Proof.
  intros Hc. induction ws as [|a ws IH]; [reflexivity|]. simpl.
  intros H. apply andb_prop in H as [Ha H]. rewrite (IH H).
  destruct (Ascii.eqb_spec a c) as [->|]; [congruence | reflexivity].
Qed.

Lemma match_all_chips (gap : string) (toks : list string) :
  all_space gap = true -> Forall chip_text toks ->
  match_all re_bracket (chips gap toks) = map chip toks.
Proof.
  intros Hg. induction 1 as [|t toks (Hne & Hc & _) Hts IH];
    [reflexivity|].
  unfold chips in *. destruct toks as [|t' toks].
  - cbn [map LLMService.join].
    rewrite <- (append_nil_r (chip t)) at 1.
    now rewrite match_all_chip.
  - change (LLMService.join gap (map chip (t :: t' :: toks)))
      with (chip t ++ gap ++ LLMService.join gap (map chip (t' :: toks))).
    rewrite match_all_chip, match_all_no_bracket, IH; auto.
    now apply all_space_mentions.
Qed.

Lemma slice_chip (t : string) : slice_1_m1 (chip t) = t.
Proof.
  unfold slice_1_m1. rewrite length_chip. unfold chip.
  cbn [append drop]. replace (S (S (String.length t)) - 2)
    with (String.length t) by lia.
  apply take_append.
Qed.

Lemma map_slice_chip (toks : list string) :
  map slice_1_m1 (map chip toks) = toks.
Proof.
  induction toks as [|t toks IH]; [reflexivity|]. simpl.
  now rewrite slice_chip, IH.
Qed.

Lemma split_lines_nonempty (s : string) : split_lines s <> [].
Proof.
  destruct s as [|c s]; [discriminate|]. cbn [split_lines].
  destruct (Ascii.eqb c nl); [discriminate|].
  destruct (split_lines s); discriminate.
Qed.

Lemma split_lines_one (x : string) :
  mentions nl x = false -> split_lines x = [x].
Proof.
  induction x as [|a x IH]; [reflexivity|]. cbn [mentions].
  intros H. apply orb_false_iff in H as [H1 H2].
  cbn [split_lines]. now rewrite H1, (IH H2).
Qed.

Lemma split_lines_append (s x : string) :
  mentions nl x = false ->
  exists init lst,
    split_lines s = (init ++ [lst])%list
    /\ split_lines (s ++ x) = (init ++ [(lst ++ x)%string])%list.
Proof.
  intros Hx. induction s as [|c s (init & lst & E1 & E2)].
  - exists [], "". split; [reflexivity|]. now apply split_lines_one.
  - cbn [append split_lines]. rewrite E1, E2.
    destruct (Ascii.eqb c nl).
    + exists ("" :: init), lst. now split.
    + destruct init as [|i init].
      * exists [], (String c lst). now split.
      * exists (String c i :: init), lst. now split.
Qed.

Lemma last_line_append (s x : string) :
  mentions nl x = false ->
  last (split_lines (s ++ x)) "" = last (split_lines s) "" ++ x.
Proof.
  intros Hx. destruct (split_lines_append s x Hx) as (init & lst & -> & ->).
  now rewrite !last_last.
Qed.

Lemma split_lines_mentions (c : ascii) (s : string) :
  mentions c s = false ->
  Forall (fun l => mentions c l = false) (split_lines s).
Proof.
  induction s as [|a s IH]; [repeat constructor|]. cbn [mentions].
  intros H. apply orb_false_iff in H as [H1 H2]. specialize (IH H2).
  cbn [split_lines]. destruct (Ascii.eqb a nl).
  - constructor; [reflexivity | exact IH].
  - destruct (split_lines s) as [|l ls].
    + constructor; [|constructor]. cbn [mentions]. now rewrite H1.
    + inversion IH; subst. constructor; [|assumption].
      cbn [mentions]. now rewrite H1.
Qed.

Lemma last_line_mentions (c : ascii) (s : string) :
  mentions c s = false -> mentions c (last (split_lines s) "") = false.
Proof.
  intros H. pose proof (split_lines_mentions c s H) as F.
  rewrite Forall_forall in F. apply F.
  apply last_In, split_lines_nonempty.
Qed.

Lemma mentions_chips (c : ascii) (gap : string) (toks : list string) :
  Ascii.eqb "[" c = false -> Ascii.eqb "]" c = false ->
  mentions c gap = false ->
  Forall (fun t => mentions c t = false) toks ->
  mentions c (chips gap toks) = false.
Proof.
  intros H1 H2 Hg. induction 1 as [|t toks Ht Hts IH]; [reflexivity|].
  assert (C : mentions c (chip t) = false).
  { unfold chip. cbn [append mentions]. rewrite H1, mentions_append, Ht.
    cbn [mentions]. now rewrite H2. }
  unfold chips in *. destruct toks as [|t' toks]; [exact C|].
  change (LLMService.join gap (map chip (t :: t' :: toks)))
    with (chip t ++ gap ++ LLMService.join gap (map chip (t' :: toks))).
  now rewrite !mentions_append, C, Hg, IH.
Qed.

Lemma extractSuggestions_chips (body gap : string) (toks : list string) :
  mentions "[" body = false ->
  all_space gap = true -> mentions nl gap = false ->
  toks <> [] -> Forall chip_text toks ->
  extractSuggestions (body ++ chips gap toks) = toks.
Proof.
  intros Hb Hg Hn Hne Ht. unfold extractSuggestions.
  rewrite (match_all_no_bracket _ _ Hb), (match_all_chips _ _ Hg Ht).
  destruct toks as [|t toks]; [congruence|]. cbn [map].
  rewrite last_line_append.
  - rewrite match_all_no_bracket by now apply last_line_mentions.
    rewrite (match_all_chips _ _ Hg Ht). cbn [map].
    change (slice_1_m1 (chip t) :: map slice_1_m1 (map chip toks))
      with (map slice_1_m1 (map chip (t :: toks))).
    apply map_slice_chip.
  - apply mentions_chips; try reflexivity; [exact Hn|].
    eapply Forall_impl; [|exact Ht]. now intros x (_ & _ & Hx).
Qed.

(** The automaton of [removeSuggestions] on a group of suggestions *)
Lemma trailing_group_spaces (ws rest : string) :
  all_space ws = true ->
  trailing_group BeforeFirst (ws ++ rest) = trailing_group BeforeFirst rest
  /\ trailing_group AfterToken (ws ++ rest)
     = trailing_group AfterToken rest.
Proof.
  induction ws as [|c ws IH]; [now split|]. simpl.
  intros H. apply andb_prop in H as [Hc H]. rewrite Hc. now apply IH.
Qed.

Lemma trailing_group_inside (t rest : string) :
  mentions "]" t = false ->
  trailing_group Inside (t ++ String "]" rest)
  = trailing_group AfterToken rest.
Proof.
  induction t as [|c t IH]; [reflexivity|]. cbn [mentions].
  intros H. apply orb_false_iff in H as [H1 H2].
  cbn [append trailing_group]. rewrite H1. now apply IH.
Qed.

Lemma trailing_group_chip (t rest : string) :
  t <> "" -> mentions "]" t = false ->
  trailing_group BeforeFirst (chip t ++ rest)
  = trailing_group AfterToken rest
  /\ trailing_group AfterToken (chip t ++ rest)
     = trailing_group AfterToken rest.
Proof.
  intros Hne Hc. rewrite chip_unfold.
  destruct t as [|c t]; [congruence|].
  cbn [mentions] in Hc. apply orb_false_iff in Hc as [H1 H2].
  cbn [append trailing_group].
  change (is_space "[") with false. change (Ascii.eqb "[" "[") with true.
  cbv iota. rewrite H1, (trailing_group_inside _ _ H2). now split.
Qed.

Lemma trailing_group_chips (gap : string) (toks : list string) :
  all_space gap = true -> toks <> [] -> Forall chip_text toks ->
  trailing_group BeforeFirst (chips gap toks) = true
  /\ trailing_group AfterToken (chips gap toks) = true.
Proof.
  intros Hg Hne Ht. induction Ht as [|t toks (Hn & Hc & _) Hts IH];
    [congruence|].
  unfold chips in *. destruct toks as [|t' toks].
  - cbn [map LLMService.join]. rewrite <- (append_nil_r (chip t)).
    destruct (trailing_group_chip t "" Hn Hc) as [-> ->]. now split.
  - change (LLMService.join gap (map chip (t :: t' :: toks)))
      with (chip t ++ gap ++ LLMService.join gap (map chip (t' :: toks))).
    destruct (trailing_group_chip t
                (gap ++ LLMService.join gap (map chip (t' :: toks))) Hn Hc)
      as [-> ->].
    destruct (trailing_group_spaces gap
                (LLMService.join gap (map chip (t' :: toks))) Hg)
      as [_ ->].
    destruct IH as [_ IH]; [discriminate|]. now split.
Qed.

Lemma trailing_group_all_space (b tail : string) :
  mentions "[" b = false ->
  trailing_group BeforeFirst (b ++ tail) = true -> all_space b = true.
Proof.
  induction b as [|c b IH]; [reflexivity|]. cbn [mentions].
  intros H. apply orb_false_iff in H as [H1 H2].
  cbn [append trailing_group all_space].
  destruct (is_space c); [now apply IH|]. rewrite H1. discriminate.
Qed.

Lemma trimEnd_all_space (b : string) :
  all_space b = true <-> trimEnd b = "".
Proof.
  induction b as [|c b IH]; [now split|]. cbn [all_space trimEnd]. split.
  - intros H. apply andb_prop in H as [Hc H].
    apply IH in H. now rewrite H, Hc.
  - destruct (trimEnd b) as [|d r] eqn:E; [|discriminate].
    destruct (is_space c); [|discriminate].
    intros _. now apply IH.
Qed.

Lemma replace_first_trailing_group (body tail : string) :
  mentions "[" body = false ->
  tail <> "" ->
  trailing_group BeforeFirst tail = true ->
  replace_first re_trailing_group "" (body ++ tail) = trimEnd body.
Proof.
  intros Hb Hne Ht. induction body as [|c b IH].
  - destruct tail as [|a r]; [congruence|].
    cbn [append replace_first]. unfold re_trailing_group. rewrite Ht.
    cbn [String.length]. now rewrite drop_all.
  - cbn [mentions] in Hb. apply orb_false_iff in Hb as [H1 H2].
    specialize (IH H2). cbn [append replace_first trimEnd].
    unfold re_trailing_group at 1. cbn [trailing_group String.length].
    destruct (is_space c) eqn:Ec.
    + destruct (trailing_group BeforeFirst (b ++ tail)) eqn:Eg.
      * rewrite drop_all.
        apply trailing_group_all_space in Eg; [|exact H2].
        apply trimEnd_all_space in Eg. now rewrite Eg.
      * rewrite IH. destruct (trimEnd b) as [|d r] eqn:Eb; [|reflexivity].
        apply trimEnd_all_space in Eb.
        destruct (trailing_group_spaces b tail Eb) as [E _].
        congruence.
    + rewrite H1, IH. now destruct (trimEnd b).
Qed.

Lemma trimStart_trimEnd (s : string) :
  trimStart (trimEnd s) = trimEnd (trimStart s).
Proof.
  induction s as [|c s IH]; [reflexivity|]. cbn [trimStart trimEnd].
  destruct (is_space c) eqn:Ec.
  - rewrite <- IH. destruct (trimEnd s) as [|d r]; [reflexivity|].
    cbn [trimStart]. now rewrite Ec.
  - cbn [trimEnd]. destruct (trimEnd s); cbn [trimStart]; now rewrite Ec.
Qed.

Lemma trim_trimEnd (s : string) : trim (trimEnd s) = trim s.
Proof.
  unfold trim. now rewrite trimStart_trimEnd, trimEnd_idempotent.
Qed.

Lemma removeSuggestions_chips (body gap : string) (toks : list string) :
  mentions "[" body = false ->
  all_space gap = true ->
  toks <> [] -> Forall chip_text toks ->
  removeSuggestions (body ++ chips gap toks) = trim body.
Proof.
  intros Hb Hg Hne Ht. unfold removeSuggestions.
  rewrite replace_first_trailing_group; [apply trim_trimEnd | exact Hb | |].
  - destruct toks as [|t toks]; [congruence|].
    unfold chips. destruct toks; discriminate.
  - now apply trailing_group_chips.
Qed.

(** The automaton of [parseAIResponse] on a group of suggestions *)
Lemma chips_to_end_inside (t rest : string) :
  mentions "]" t = false ->
  chips_to_end InChip (t ++ String "]" rest) = chips_to_end ChipClosed rest.
Proof.
  induction t as [|c t IH]; [reflexivity|]. cbn [mentions].
  intros H. apply orb_false_iff in H as [H1 H2].
  cbn [append chips_to_end]. rewrite H1. now apply IH.
Qed.

Lemma chips_to_end_chip (t rest : string) :
  t <> "" -> mentions "]" t = false ->
  chips_to_end AtStart (chip t ++ rest) = chips_to_end ChipClosed rest
  /\ chips_to_end ChipClosed (chip t ++ rest)
     = chips_to_end ChipClosed rest
  /\ chips_to_end InGap (chip t ++ rest) = chips_to_end ChipClosed rest.
Proof.
  intros Hne Hc. rewrite chip_unfold.
  destruct t as [|c t]; [congruence|].
  cbn [mentions] in Hc. apply orb_false_iff in Hc as [H1 H2].
  cbn [append chips_to_end].
  change (is_space "[") with false. change (Ascii.eqb "[" "[") with true.
  cbv iota. rewrite H1, (chips_to_end_inside _ _ H2). now repeat split.
Qed.

Lemma chips_to_end_gap (t gap rest : string) :
  t <> "" -> mentions "]" t = false -> all_space gap = true ->
  chips_to_end ChipClosed (gap ++ chip t ++ rest)
  = chips_to_end ChipClosed rest
  /\ chips_to_end InGap (gap ++ chip t ++ rest)
     = chips_to_end ChipClosed rest.
Proof.
  intros Hne Hc. destruct (chips_to_end_chip t rest Hne Hc) as (_ & E1 & E2).
  induction gap as [|c gap IH]; [now split|]. simpl all_space.
  intros H. apply andb_prop in H as [Hs H]. specialize (IH H).
  cbn [append chips_to_end]. rewrite Hs. destruct IH as [_ ->]. now split.
Qed.

Lemma chips_to_end_chips (gap : string) (toks : list string) :
  all_space gap = true -> toks <> [] -> Forall chip_text toks ->
  chips_to_end AtStart (chips gap toks) = true.
Proof.
  intros Hg Hne Ht.
  destruct toks as [|t toks]; [congruence|]. clear Hne.
  inversion Ht as [|? ? (Hn & Hc & _) Hts]; subst.
  assert (G : forall rest ts, Forall chip_text ts ->
                chips_to_end ChipClosed rest = true ->
                chips_to_end ChipClosed
                  (fold_right (fun x acc => gap ++ chip x ++ acc) rest ts)
                = true).
  { intros rest ts F Hr. induction F as [|x ts (Hx & Hcx & _) _ IH];
      [exact Hr|]. cbn [fold_right].
    now destruct (chips_to_end_gap x gap
                    (fold_right (fun x acc => gap ++ chip x ++ acc) rest ts)
                    Hx Hcx Hg) as [-> _]. }
  assert (J : forall x ts,
             chips gap (x :: ts)
             = chip x ++ fold_right (fun y acc => gap ++ chip y ++ acc) "" ts).
  { intros x ts. revert x. unfold chips.
    induction ts as [|y ts IH]; intros x.
    - cbn. now rewrite append_nil_r.
    - change (LLMService.join gap (map chip (x :: y :: ts)))
        with (chip x ++ gap ++ LLMService.join gap (map chip (y :: ts))).
      rewrite IH. cbn [fold_right]. reflexivity. }
  rewrite J. destruct (chips_to_end_chip t
    (fold_right (fun y acc => gap ++ chip y ++ acc) "" toks) Hn Hc)
    as [-> _].
  now apply G.
Qed.

Lemma matches_append (m : matcher) (pre rest : string) (k : nat) :
  m rest = Some (S k) -> matches m (pre ++ rest) = true.
Proof.
  intros H. induction pre as [|c pre IH].
  - destruct rest; cbn [append matches]; now rewrite H.
  - cbn [append matches]. destruct (m (String c (pre ++ rest))) as [[|n]|];
      auto.
Qed.

Lemma replace_first_chips_at_end (body tail : string) :
  mentions "[" body = false ->
  tail <> "" ->
  chips_to_end AtStart tail = true ->
  replace_first re_chips_at_end "" (body ++ tail) = body.
Proof.
  intros Hb Hne Ht. induction body as [|c b IH].
  - destruct tail as [|a r]; [congruence|].
    cbn [append replace_first]. unfold re_chips_at_end. rewrite Ht.
    cbn [String.length]. now rewrite drop_all.
  - cbn [mentions] in Hb. apply orb_false_iff in Hb as [H1 H2].
    cbn [append replace_first]. unfold re_chips_at_end at 1.
    cbn [chips_to_end]. rewrite H1. now rewrite (IH H2).
Qed.

Lemma parseAIResponse_chips (body gap : string) (toks : list string) :
  mentions "[" body = false ->
  all_space gap = true ->
  toks <> [] -> Forall chip_text toks ->
  parseAIResponse (body ++ chips gap toks)
  = {| cleanText := trim body;
       actions := [{| type := suggestion; options := toks |}] |}.
Proof.
  intros Hb Hg Hne Ht. unfold parseAIResponse.
  pose proof (chips_to_end_chips gap toks Hg Hne Ht) as C.
  assert (N : chips gap toks <> "").
  { destruct toks as [|t toks]; [congruence|].
    unfold chips. destruct toks; discriminate. }
  rewrite (matches_append re_chips_at_end body (chips gap toks)
             (pred (String.length (chips gap toks)))).
  2:{ unfold re_chips_at_end. rewrite C.
      destruct (chips gap toks); [congruence | reflexivity]. }
  rewrite (match_all_no_bracket _ _ Hb), (match_all_chips _ _ Hg Ht),
    map_slice_chip.
  destruct toks as [|t toks]; [congruence|].
  now rewrite (replace_first_chips_at_end _ _ Hb N C).
Qed.

(** X21.  For a text that ends with a group of suggestions as the prompt
    asks for them (a body without an opening bracket, then one or more
    tokens in brackets, each not empty and without a closing bracket or a
    line break, with the same white space without a line break between
    two of them), the two extractors agree: [extractSuggestions] and
    [parseAIResponse] return the texts of the tokens in their order, and
    [removeSuggestions] and [parseAIResponse] return the body without
    white space at its ends.  So does [generateResponse] when the engine's
    text is such a text once sanitized. *)
Theorem X21_suggestions_at_the_end :
  forall (body gap : string) (toks : list string),
    mentions "[" body = false ->
    all_space gap = true -> mentions nl gap = false ->
    toks <> [] -> Forall chip_text toks ->
    extractSuggestions (body ++ chips gap toks) = toks
    /\ removeSuggestions (body ++ chips gap toks) = trim body
    /\ parseAIResponse (body ++ chips gap toks)
       = {| cleanText := trim body;
            actions := [{| type := suggestion; options := toks |}] |}
    /\ forall (svc : LLMService.t) (engine : Engine) (raw userMessage : string)
              (history : list Message),
         isReady svc = true ->
         engine (buildChatMLPrompt svc userMessage history) = Normal raw ->
         cleanResponse raw = body ++ chips gap toks ->
         generateResponse svc engine userMessage history
         = Normal {| text := trim body;
                     LLMService.suggestions := Some toks |}.
Proof.
  intros body gap toks Hb Hg Hn Hne Ht.
  pose proof (extractSuggestions_chips body gap toks Hb Hg Hn Hne Ht) as E.
  pose proof (removeSuggestions_chips body gap toks Hb Hg Hne Ht) as R.
  split; [exact E|]. split; [exact R|].
  split; [now apply parseAIResponse_chips|].
  intros svc engine raw userMessage history Hr He Hc.
  rewrite (generateResponse_answer _ _ _ _ _ Hr He), Hc, E, R.
  destruct toks; [congruence | reflexivity].
Qed.

(** ** The view at the start *)

Lemma init_unfailing (w : World) :
  Forall (fun ev => ev_fails ev = false) (schedule w) ->
  exists w1, init w = (Normal tt, w1) /\ calm w1 /\ db w1 = db w.
Proof.
  intros F. unfold init.
  assert (O : exists w0, open_database w = (Normal tt, w0)
                         /\ calm w0 /\ db w0 = db w).
  { unfold open_database. destruct (schedule w) as [|ev rest] eqn:E.
    - eexists. split; [reflexivity|]. split; [|reflexivity].
      split; [reflexivity | constructor].
    - inversion F as [|? ? Hev Hrest]; subst. rewrite Hev.
      eexists. split; [reflexivity|]. split; [|reflexivity].
      split; [reflexivity | exact Hrest]. }
  destruct O as (w0 & E0 & C0 & D0).
  rewrite (bind_normal _ _ _ _ _ _ _ E0). unfold createTables, create_table.
  assert (K : forall (k : unit -> M unit) wa,
             calm wa ->
             (forall wb, calm wb ->
                exists wc, k tt wb = (Normal tt, wc) /\ calm wc
                           /\ db wc = db wb) ->
             exists wc,
               bind (db_call (fun _ d => (tt, d))) k wa = (Normal tt, wc)
               /\ calm wc /\ db wc = db wa).
  { intros k wa Ca Hk.
    destruct (read_calm _ (fun _ => tt) wa Ca) as (wb & Eb & Cb & Db).
    rewrite (bind_normal _ _ _ _ _ _ _ Eb).
    destruct (Hk wb Cb) as (wc & Ec & Cc & Dc).
    exists wc. split; [exact Ec|]. split; [exact Cc | congruence]. }
  assert (T : exists w1,
             bind (db_call (fun _ d => (tt, d))) (fun _ =>
             bind (db_call (fun _ d => (tt, d))) (fun _ =>
             bind (db_call (fun _ d => (tt, d))) (fun _ =>
             bind (db_call (fun _ d => (tt, d))) (fun _ =>
             bind (db_call (fun _ d => (tt, d))) (fun _ =>
             bind (db_call (fun _ d => (tt, d))) (fun _ =>
             db_call (fun _ d => (tt, d)))))))) w0 = (Normal tt, w1)
             /\ calm w1 /\ db w1 = db w0).
  { apply K; [assumption|]. intros ? ?.
    apply K; [assumption|]. intros ? ?. apply K; [assumption|].
    intros ? ?. apply K; [assumption|]. intros ? ?.
    apply K; [assumption|]. intros ? ?. apply K; [assumption|].
    intros wz Cz.
    destruct (read_calm _ (fun _ => tt) wz Cz) as (wy & Ey & Cy & Dy).
    now exists wy. }
  destruct T as (w1 & E1 & C1 & D1).
  exists w1. split; [exact E1|]. split; [exact C1 | congruence].
Qed.

Lemma initializeApp_loaded
    (ill : UserProfile -> value -> Completion string) (app app' : App.t)
    (w w' : World) :
  App.initializeApp ill app w = (app', w') ->
  App.isLoading app' = false /\ db w' = db w.
Proof.
  unfold App.initializeApp. intros H.
  destruct (init w) as [[[]|e] wa] eqn:Hi;
    pose proof (init_inv _ _ _ Hi) as [Da _].
  2:{ inversion H; subst. now split. }
  destruct (getUser wa) as [r wb] eqn:Hg.
  unfold getUser in Hg. apply read_call_inv in Hg as [Db _].
  assert (D : db wb = db w) by congruence.
  destruct r as [[first|]|e]; try (inversion H; subst; now split).
  destruct (App.prompt_of_profile ill first); inversion H; subst;
    now split.
Qed.

Lemma initializeApp_unfailing
    (ill : UserProfile -> value -> Completion string) (w : World) :
  Forall (fun ev => ev_fails ev = false) (schedule w) ->
  match User (db w) with
  | [] => App.render (fst (App.initializeApp ill App.initial w))
          = App.Onboarding
  | first :: _ =>
      App.render (fst (App.initializeApp ill App.initial w)) = App.MainTabs
      /\ App.userProfile (fst (App.initializeApp ill App.initial w))
         = Some first
  end.
Proof.
  intros F. destruct (init_unfailing w F) as (w1 & E1 & C1 & D1).
  destruct (read_calm _ (fun d => hd_error (User d)) w1 C1)
    as (w2 & E2 & _ & _).
  unfold App.initializeApp, getUser. rewrite E1, E2, D1.
  destruct (User (db w)) as [|first rest]; [reflexivity|].
  cbn [hd_error]. now destruct (App.prompt_of_profile ill first).
Qed.

Lemma initializeApp_failing
    (ill : UserProfile -> value -> Completion string) (w w1 : World)
    (e : Error) :
  init w = (Throw e, w1)
  \/ (exists w0, init w = (Normal tt, w0) /\ getUser w0 = (Throw e, w1)) ->
  App.initializeApp ill App.initial w = (App.loaded App.initial, w1).
Proof.
  unfold App.initializeApp. intros [H | (w0 & H1 & H2)].
  - now rewrite H.
  - now rewrite H1, H2.
Qed.

(** X22.  [initializeApp] never leaves the loading view on and never
    changes the data.  When the store rejects nothing, the main view is
    shown with the first profile if there is a profile and the onboarding
    if there is none.  When opening the store, creating the tables or
    reading the profile fails, the onboarding is shown whatever the store
    holds. *)
Theorem X22_view_at_start :
  forall (ill : UserProfile -> value -> Completion string) (w : World),
    App.render (fst (App.initializeApp ill App.initial w)) <> App.Loading
    /\ db (snd (App.initializeApp ill App.initial w)) = db w
    /\ (Forall (fun ev => ev_fails ev = false) (schedule w) ->
        match User (db w) with
        | [] => App.render (fst (App.initializeApp ill App.initial w))
                = App.Onboarding
        | first :: _ =>
            App.render (fst (App.initializeApp ill App.initial w))
            = App.MainTabs
            /\ App.userProfile (fst (App.initializeApp ill App.initial w))
               = Some first
        end)
    /\ (forall e w1,
          init w = (Throw e, w1)
          \/ (exists w0,
                init w = (Normal tt, w0) /\ getUser w0 = (Throw e, w1)) ->
          App.render (fst (App.initializeApp ill App.initial w))
          = App.Onboarding).
Proof.
  intros ill w.
  destruct (App.initializeApp ill App.initial w) as [app' w'] eqn:H.
  destruct (initializeApp_loaded _ _ _ _ _ H) as [L D]. cbn [fst snd].
  split.
  { unfold App.render. rewrite L. now destruct (App.userProfile app'). }
  split; [exact D|]. split.
  - intros F. pose proof (initializeApp_unfailing ill w F) as U.
    now rewrite H in U.
  - intros e w1 Hf.
    rewrite (initializeApp_failing ill w w1 e Hf) in H.
    now injection H as <- _.
Qed.

(** ** Resetting the agent *)

Lemma new_messages_after_reset (this : Agent) (l : list Message) :
  Forall (fun m => (0 < m_id m)%Z) l ->
  new_messages (reset this) l = l.
Proof.
  intros F. apply new_messages_all. rewrite Forall_forall in F.
  intros m Hm. now apply F.
Qed.

(** X23.  After [reset] the status shows an agent that is not busy, with
    the mark zero, and on a store whose keys are positive a run triggered
    by hand sees every message as new: with at least two messages stored
    the whole conversation is given to the engine again, and when the
    result is applied the mark is the key of the last message. *)
Theorem X23_reset_reads_all_again :
  forall (env : Env) (this : Agent) (w w0 w2 : World)
         (allMessages : list Message) (raw : string) (p : ParsedAnalysis),
    Forall (fun m => (0 < m_id m)%Z) allMessages ->
    2 <= List.length allMessages ->
    LLMService.isReady (llm env) = true ->
    getAllMessages w = (Normal allMessages, w0) ->
    analyzeConversation (llm env) (BackgroundAgent.engine env) allMessages
    = Normal raw ->
    parseAnalysisResult raw = Normal (Some p) ->
    applyAnalysisResults (typed env p) w0 = (Normal tt, w2) ->
    getStatus (reset this)
    = {| st_isProcessing := false; st_lastProcessedId := 0 |}
    /\ new_messages (reset this) allMessages = allMessages
    /\ triggerNow setupBackgroundProcessing env (reset this) w
       = ({| isProcessing := false;
             lastProcessedMessageId :=
               m_id (last allMessages default_message) |}, w2).
Proof.
  intros env this w w0 w2 allMessages raw p F L Hr Hm Ha Hp Happly.
  pose proof (new_messages_after_reset this allMessages F) as N.
  split; [reflexivity|]. split; [exact N|].
  cbn [triggerNow setupBackgroundProcessing]. unfold triggerManualProcessing.
  rewrite (run_applied env (reset this) w w0 w2 allMessages raw p);
    rewrite ?N; auto.
  f_equal. f_equal.
  assert (I : In (last allMessages default_message) allMessages).
  { apply last_In. destruct allMessages; [simpl in L; lia | discriminate]. }
  rewrite Forall_forall in F. specialize (F _ I).
  unfold id_or_0.
  destruct (Z.eqb_spec (m_id (last allMessages default_message)) 0);
    [lia | reflexivity].
Qed.

(** * Instances

    Each of the properties above that has a premise, at an example on
    which its premises hold. *)

(** A run on a store without messages. *)
Lemma X1_run_guards_witness :
  processRecentConversations good_env idle (quiet_world empty_database)
  = (idle, quiet_world empty_database)
  /\ db (quiet_world empty_database) = db (quiet_world empty_database).
Proof.
  apply (proj2 (X1_run_guards good_env idle (quiet_world empty_database))
           (Normal []) (quiet_world empty_database) eq_refl eq_refl eq_refl).
  intros l H. injection H as <-. simpl. lia.
Defined.

(** The run of the example, and a second run on what it left. *)
Lemma X4_rerun_is_idle_witness :
  mark (fst (processRecentConversations bad_env
               (fst (processRecentConversations good_env idle
                       (quiet_world chat_database)))
               (snd (processRecentConversations good_env idle
                       (quiet_world chat_database)))))
  = mark (fst (processRecentConversations good_env idle
                 (quiet_world chat_database)))
  /\ db (snd (processRecentConversations bad_env
                (fst (processRecentConversations good_env idle
                        (quiet_world chat_database)))
                (snd (processRecentConversations good_env idle
                        (quiet_world chat_database)))))
     = db (snd (processRecentConversations good_env idle
                  (quiet_world chat_database))).
Proof.
  apply (X4_rerun_is_idle good_env bad_env idle (quiet_world chat_database)
           (snd (processRecentConversations good_env idle
                   (quiet_world chat_database)))).
  - reflexivity.
  - repeat constructor; unfold id_or_0; simpl; lia.
  - reflexivity.
Defined.

Lemma X5_keys_stay_distinct_witness :
  keys_ok (db (snd (applyAnalysisResults hiking_analysis
                      (quiet_world empty_database))))
  /\ keys_ok (db (snd (processRecentConversations good_env idle
                         (quiet_world empty_database)))).
Proof.
  apply (X5_keys_stay_distinct hiking_analysis good_env idle
           (quiet_world empty_database)).
  repeat split; constructor.
Defined.

(** Two groups on a store with two lists and an entry: one for the list
    created last, one for a list that is created for it. *)
Lemma X6_items_keep_their_lists_witness :
  fk_ok pantry_chat_database
  /\ (fk_ok (db (snd (applyAnalysisResults shopping_analysis
                        (quiet_world pantry_chat_database))))
      /\ fk_ok (db (snd (processRecentConversations shopping_env idle
                           (quiet_world pantry_chat_database)))))
  /\ map l_id
       (Lists (db (snd (applyAnalysisResults shopping_analysis
                          (quiet_world pantry_chat_database)))))
     = [1; 2; 3]%Z
  /\ entries (db (snd (applyAnalysisResults shopping_analysis
                         (quiet_world pantry_chat_database))))
     = [(2%Z, "MILK"%string); (2%Z, "Eggs"%string); (3%Z, "Milk"%string);
        (3%Z, "milk"%string)]
  /\ entries (db (snd (processRecentConversations shopping_env idle
                         (quiet_world pantry_chat_database))))
     = [(2%Z, "MILK"%string); (2%Z, "Eggs"%string); (3%Z, "Milk"%string);
        (3%Z, "milk"%string)].
Proof.
  assert (H : fk_ok pantry_chat_database).
  { intros i [<- | []].
    exists {| l_id := 2; l_title := "More groceries";
              l_type := "more_groceries"; l_created_at := 150 |}.
    split; [right; left; reflexivity | reflexivity]. }
  split; [exact H|].
  split;
    [exact (X6_items_keep_their_lists shopping_analysis shopping_env idle
              (quiet_world pantry_chat_database) H)|].
  repeat split; vm_compute; reflexivity.
Defined.

Lemma X7_notes_are_appended_witness :
  exists rows,
    Notes (db (snd (applyAnalysisResults two_notes
                      (quiet_world empty_database))))
    = (Notes (db (quiet_world empty_database)) ++ rows)%list
    /\ notes_from (storable_notes two_notes) rows.
Proof.
  apply (X7_notes_are_appended two_notes (quiet_world empty_database)
           (snd (applyAnalysisResults two_notes
                   (quiet_world empty_database)))).
  reflexivity.
Defined.

(** A group without a name. *)
Lemma X8_list_group_missing_field_witness :
  exists w',
    applyListGroup {| listName := None; items := None |}
      (quiet_world empty_database) = (Throw TypeError, w')
    /\ db w' = db (quiet_world empty_database).
Proof.
  apply (proj1 (X8_list_group_missing_field
                  {| listName := None; items := None |}
                  (quiet_world empty_database)
                  (conj eq_refl (Forall_nil _)))).
  reflexivity.
Defined.

(** A completion without a title, on a store that holds a goal. *)
Lemma X9_goal_completion_without_title_witness :
  exists w',
    applyGoalCompletion {| goalTitle := None |} (quiet_world goals_database)
    = (Throw TypeError, w')
    /\ db w' = db (quiet_world goals_database).
Proof.
  apply (proj2 (X9_goal_completion_without_title
                  {| goalTitle := None |} (quiet_world goals_database)
                  (conj eq_refl (Forall_nil _)) eq_refl)).
  discriminate.
Defined.

(** The most recent of the two turns of the example. *)
Lemma X10_recent_messages_witness :
  fst (getRecentMessages (Some 1%Z) (quiet_world chat_database))
  = Normal (most_recent 1 two_turns).
Proof.
  assert (H : most_recent 1 two_turns
              = if (1 <? 0)%Z then Messages (db (quiet_world chat_database))
                else most_recent (Z.to_nat 1)
                       (Messages (db (quiet_world chat_database)))).
  { apply (proj2 (X10_recent_messages (Some 1%Z)
                    (quiet_world chat_database)
                    (snd (getRecentMessages (Some 1%Z)
                            (quiet_world chat_database)))
                    (fst (getRecentMessages (Some 1%Z)
                            (quiet_world chat_database)))
                    eq_refl)
             (most_recent 1 two_turns) eq_refl).
    repeat constructor. }
  reflexivity.
Defined.

(** The item Milk, ticked and unticked. *)
Lemma X11_toggle_twice_witness :
  db (snd (toggleListItem 1 (snd (toggleListItem 1 milk_world))))
  = db milk_world.
Proof.
  apply (proj1 (X11_toggle_twice 1 milk_world
                  (snd (toggleListItem 1 milk_world)) eq_refl)
           (snd (toggleListItem 1 (snd (toggleListItem 1 milk_world))))).
  reflexivity.
Defined.

(** The first profile of a store. *)
Lemma X12_first_profile_witness :
  fst (getUser (snd (createUser ada_profile (quiet_world empty_database))))
  = Normal
      (Some {| u_id := 1; u_name := "Ada"; u_nickname := None;
               u_role := Some "Engineer"; u_age_group := Some "25-34";
               u_gender := None;
               u_traits_json := JsonText.stringify_strings ["witty"; "stoic"];
               u_created_at := 200 |}).
Proof.
  apply (f_equal Normal).
  exact (proj1 (X12_first_profile (quiet_world empty_database)
                  (snd (createUser ada_profile (quiet_world empty_database)))
                  (snd (getUser
                          (snd (createUser ada_profile
                                  (quiet_world empty_database)))))
                  (hd_error
                     (User (db (snd (createUser ada_profile
                                       (quiet_world empty_database))))))
                  eq_refl)
           ada_profile 1%Z eq_refl).
Defined.

(** A new goal, completed twice. *)
Lemma X13_new_goal_counts_completions_witness :
  exists g,
    Goals (db (snd (complete_times 2 1
                      (snd (createGoal "Run" daily None
                              (quiet_world empty_database)))))) = [g]
    /\ g_streak_count g = 2%Z.
Proof.
  destruct (X13_new_goal_counts_completions "Run" daily None 2 1
              (quiet_world empty_database)
              (snd (createGoal "Run" daily None (quiet_world empty_database)))
              (snd (complete_times 2 1
                      (snd (createGoal "Run" daily None
                              (quiet_world empty_database)))))
              eq_refl eq_refl)
    as (g & G & _ & _ & _ & _ & S & _).
  exists g. split; [exact G | exact S].
Defined.

(** A third message after the two turns of the example. *)
Lemma X14_message_log_in_order_witness :
  well_logged
    (db (snd (addMessage "Thanks" user None (quiet_world chat_database)))).
Proof.
  apply (X14_message_log_in_order "Thanks" user None 3
           (quiet_world chat_database)
           (snd (addMessage "Thanks" user None (quiet_world chat_database)))).
  - repeat split; repeat constructor; simpl; lia.
  - reflexivity.
  - intros m [<-|[<-|[]]]; simpl; lia.
Defined.

(** The onboarding of the example on an empty store, and the next
    start. *)
Lemma X15_prompt_after_restart_witness :
  App.systemPrompt
    (fst (App.initializeApp no_prompt App.initial
            (snd (App.handleOnboardingComplete ada (App.loaded App.initial)
                    (quiet_world empty_database)))))
  = App.systemPrompt
      (fst (App.handleOnboardingComplete ada (App.loaded App.initial)
              (quiet_world empty_database))).
Proof.
  exact (proj2 (proj2
    (X15_prompt_after_restart no_prompt ada (App.loaded App.initial)
       (fst (App.handleOnboardingComplete ada (App.loaded App.initial)
               (quiet_world empty_database)))
       (fst (App.initializeApp no_prompt App.initial
               (snd (App.handleOnboardingComplete ada
                       (App.loaded App.initial)
                       (quiet_world empty_database)))))
       (quiet_world empty_database)
       (snd (App.handleOnboardingComplete ada (App.loaded App.initial)
               (quiet_world empty_database)))
       (snd (App.handleOnboardingComplete ada (App.loaded App.initial)
               (quiet_world empty_database)))
       (snd (App.initializeApp no_prompt App.initial
               (snd (App.handleOnboardingComplete ada
                       (App.loaded App.initial)
                       (quiet_world empty_database)))))
       eq_refl eq_refl eq_refl eq_refl eq_refl eq_refl))).
Defined.

(** The greeting of the example is sent and answered. *)
Lemma X17_exchange_is_stored_witness :
  exists c' w',
    handleSend ready_service chips_engine first_readings None typed_hi
      (quiet_world empty_database) = (Normal tt, c', w')
    /\ ChatScreen.suggestions c' = ["Yes"; "No"].
Proof.
  destruct (X17_exchange_is_stored ready_service chips_engine first_readings
              None typed_hi (quiet_world empty_database) "Hello! [Yes] [No]")
    as (c' & w' & u & a & H & _ & _ & _ & _ & _ & _ & _ & S & _).
  - split; [reflexivity | constructor].
  - reflexivity.
  - reflexivity.
  - discriminate.
  - reflexivity.
  - exists c', w'. split; [exact H|].
    destruct S as (j & _ & _ & S). exact S.
Defined.

(** The engine fails: the apology is shown and the text sent is stored
    alone. *)
Lemma X18_send_outcomes_witness :
  ChatScreen.input
    (snd (fst (handleSend ready_service failing_engine first_readings None
                 typed_hi (quiet_world empty_database)))) = ""
  /\ isGenerating
       (snd (fst (handleSend ready_service failing_engine first_readings
                    None typed_hi (quiet_world empty_database)))) = false.
Proof.
  destruct (proj2 (X18_send_outcomes ready_service failing_engine
                     first_readings None typed_hi
                     (snd (fst (handleSend ready_service failing_engine
                                  first_readings None typed_hi
                                  (quiet_world empty_database))))
                     (quiet_world empty_database)
                     (snd (handleSend ready_service failing_engine
                             first_readings None typed_hi
                             (quiet_world empty_database)))
                     (fst (fst (handleSend ready_service failing_engine
                                  first_readings None typed_hi
                                  (quiet_world empty_database))))
                     eq_refl))
    as (I & G & _).
  - discriminate.
  - reflexivity.
  - reflexivity.
  - split; [exact I | exact G].
Defined.

(** A third and a fourth message after the two turns the agent has
    read. *)
Lemma X19_agent_reads_the_exchange_witness :
  exists c' w',
    handleSend ready_service chips_engine first_readings None typed_hi
      (quiet_world chat_database) = (Normal tt, c', w')
    /\ well_logged (db w').
Proof.
  destruct (X19_agent_reads_the_exchange ready_service chips_engine
              first_readings None typed_hi (quiet_world chat_database)
              "Hello! [Yes] [No]" read_two)
    as (c' & w' & w0 & u & a & H & W & _).
  - split; [reflexivity | constructor].
  - split; [|exact I]. intros m [<-|[<-|[]]]; simpl; lia.
  - repeat split; repeat constructor; simpl; lia.
  - split; [|reflexivity]. intros m [<-|[<-|[]]]; simpl; lia.
  - reflexivity.
  - reflexivity.
  - discriminate.
  - reflexivity.
  - exists c', w'. split; [exact H | exact W].
Defined.

(** Two suggestions after a sentence. *)
Lemma X21_suggestions_at_the_end_witness :
  extractSuggestions ("Sure. " ++ chips " " ["Yes"; "No"]) = ["Yes"; "No"]
  /\ removeSuggestions ("Sure. " ++ chips " " ["Yes"; "No"]) = trim "Sure. ".
Proof.
  destruct (X21_suggestions_at_the_end "Sure. " " " ["Yes"; "No"])
    as (E & R & _).
  - reflexivity.
  - reflexivity.
  - reflexivity.
  - discriminate.
  - repeat constructor; discriminate.
  - split; [exact E | exact R].
Defined.

(** The start on an empty store. *)
Lemma X22_view_at_start_witness :
  App.render
    (fst (App.initializeApp no_prompt App.initial
            (quiet_world empty_database))) = App.Onboarding.
Proof.
  exact (proj1 (proj2 (proj2
    (X22_view_at_start no_prompt (quiet_world empty_database))))
    (Forall_nil _)).
Defined.

(** The agent of the example is reset and run again on the two turns. *)
Lemma X23_reset_reads_all_again_witness :
  triggerNow setupBackgroundProcessing good_env (reset read_two)
    (quiet_world chat_database)
  = ({| isProcessing := false;
        lastProcessedMessageId := m_id (last two_turns default_message) |},
     snd (applyAnalysisResults (read_typed parsed_example)
            (quiet_world chat_database))).
Proof.
  refine (proj2 (proj2
    (X23_reset_reads_all_again good_env read_two
       (quiet_world chat_database) (quiet_world chat_database)
       (snd (applyAnalysisResults (read_typed parsed_example)
               (quiet_world chat_database)))
       two_turns analysis_text parsed_example
       _ (le_n 2) eq_refl eq_refl eq_refl eq_refl eq_refl))).
  repeat constructor.
Defined.

(** * Further properties: loading the model *)

Import LLMSetup.

Lemma waits_app (a b : list Effect) :
  waits (a ++ b)%list = (waits a ++ waits b)%list.
Proof. apply flat_map_app. Qed.

Lemma init_params_app (a b : list Effect) :
  init_params (a ++ b)%list = (init_params a ++ init_params b)%list.
Proof. apply flat_map_app. Qed.

Lemma file_changes_app (a b : list Effect) :
  file_changes (a ++ b)%list = (file_changes a ++ file_changes b)%list.
Proof. apply filter_app. Qed.

Lemma probes_no_init (new : list Effect) :
  Forall probe_or_wait new -> init_params new = [] /\ file_changes new = [].
Proof.
  induction 1 as [|e new He _ [IH1 IH2]]; [now split|].
  destruct e; try contradiction; simpl; now split.
Qed.

Lemma ibind_inv (A B : Type) (c : Task A) (k : A -> Task B) (s s' : State)
    (r : Outcome B) :
  LLMSetup.bind c k s = (r, s') ->
  (exists a s1, c s = (Ok a, s1) /\ k a s1 = (r, s'))
  \/ (exists e, c s = (Raise e, s') /\ r = Raise e).
Proof.
  unfold LLMSetup.bind. destruct (c s) as [[a|e] s1]; intros H.
  - left. now exists a, s1.
  - right. exists e. now inversion H.
Qed.

Lemma try_catch_inv (A : Type) (body : Task A) (handler : Thrown -> Task A)
    (s s' : State) (r : Outcome A) :
  LLMSetup.try_catch body handler s = (r, s') ->
  (exists a, body s = (Ok a, s') /\ r = Ok a)
  \/ (exists e s1, body s = (Raise e, s1) /\ handler e s1 = (r, s')).
Proof.
  unfold LLMSetup.try_catch. destruct (body s) as [[a|e] s1]; intros H.
  - left. exists a. now inversion H.
  - right. now exists e, s1.
Qed.

Lemma quiet_ret (A : Type) (a : A) :
  quiet_run (LLMSetup.ret a) (fun r new => r = Ok a /\ new = []).
Proof.
  intros s r s' H. inversion H; subst. split; [reflexivity|].
  split; [reflexivity|]. exists []. now rewrite app_nil_r.
Qed.

Lemma quiet_call (A : Type) (e : Effect) (answer : nat -> Outcome A) :
  quiet_run (call e answer) (fun r new => new = [e]).
Proof.
  intros s r s' H. inversion H; subst. split; [reflexivity|].
  split; [reflexivity|]. now exists [e].
Qed.

Lemma quiet_wait (ms : N) :
  quiet_run (wait ms) (fun r new => r = Ok tt /\ new = [Waited ms]).
Proof.
  intros s r s' H. inversion H; subst. split; [reflexivity|].
  split; [reflexivity|]. now exists [Waited ms].
Qed.

Lemma quiet_weaken (A : Type) (c : Task A)
    (P Q : Outcome A -> list Effect -> Prop) :
  (forall r new, P r new -> Q r new) -> quiet_run c P -> quiet_run c Q.
Proof.
  intros H Hc s r s' E. destruct (Hc s r s' E) as (S & R & new & T & Hp).
  split; [exact S|]. split; [exact R|]. exists new. split; [exact T|].
  now apply H.
Qed.

Lemma quiet_bind (A B : Type) (c : Task A) (k : A -> Task B)
    (P : Outcome A -> list Effect -> Prop)
    (Q : A -> Outcome B -> list Effect -> Prop) :
  quiet_run c P -> (forall a, quiet_run (k a) (Q a)) ->
  quiet_run (LLMSetup.bind c k)
    (fun r new =>
       (exists e, r = Raise e /\ P (Raise e) new)
       \/ (exists a n1 n2,
             new = (n1 ++ n2)%list /\ P (Ok a) n1 /\ Q a r n2)).
Proof.
  intros Hc Hk s r s' H.
  apply ibind_inv in H as [(a & s1 & H1 & H2) | (e & H1 & ->)].
  - destruct (Hc _ _ _ H1) as (S1 & R1 & n1 & T1 & P1).
    destruct (Hk a _ _ _ H2) as (S2 & R2 & n2 & T2 & P2).
    split; [congruence|]. split; [congruence|].
    exists (n1 ++ n2)%list. split; [now rewrite T2, T1, app_assoc|].
    right. now exists a, n1, n2.
  - destruct (Hc _ _ _ H1) as (S1 & R1 & n1 & T1 & P1).
    split; [exact S1|]. split; [exact R1|]. exists n1.
    split; [exact T1|]. left. now exists e.
Qed.

Lemma quiet_try_catch (A : Type) (body : Task A) (handler : Thrown -> Task A)
    (P : Outcome A -> list Effect -> Prop)
    (Q : Thrown -> Outcome A -> list Effect -> Prop) :
  quiet_run body P -> (forall e, quiet_run (handler e) (Q e)) ->
  quiet_run (LLMSetup.try_catch body handler)
    (fun r new =>
       (exists a, r = Ok a /\ P (Ok a) new)
       \/ (exists e n1 n2,
             new = (n1 ++ n2)%list /\ P (Raise e) n1 /\ Q e r n2)).
Proof.
  intros Hb Hh s r s' H.
  apply try_catch_inv in H as [(a & H1 & ->) | (e & s1 & H1 & H2)].
  - destruct (Hb _ _ _ H1) as (S1 & R1 & n1 & T1 & P1).
    split; [exact S1|]. split; [exact R1|]. exists n1.
    split; [exact T1|]. left. now exists a.
  - destruct (Hb _ _ _ H1) as (S1 & R1 & n1 & T1 & P1).
    destruct (Hh e _ _ _ H2) as (S2 & R2 & n2 & T2 & P2).
    split; [congruence|]. split; [congruence|].
    exists (n1 ++ n2)%list. split; [now rewrite T2, T1, app_assoc|].
    right. now exists e, n1, n2.
Qed.

(** A test of the second phase answers, and only probes the module. *)
Lemma test_getBackendDevicesInfo_quiet (d : Device) :
  quiet_run
    (LLMSetup.try_catch (test_getBackendDevicesInfo d)
       (fun _ => LLMSetup.ret false))
    (fun r new =>
       (exists b, r = Ok b) /\ Forall probe_or_wait new /\ waits new = []).
Proof.
  intros s r s' H.
  unfold LLMSetup.try_catch, test_getBackendDevicesInfo, LLMSetup.bind,
    call, LLMSetup.ret in H.
  destruct (import_llama d _) as [m|e].
  - destruct (has_getBackendDevicesInfo m).
    + cbv beta iota in H.
      destruct (getBackendDevicesInfo d _) as [b|e];
        inversion H; subst; cbn [service reported trace record];
        (split; [reflexivity|]); (split; [reflexivity|]);
        exists [Imported; AskedDevices];
        (split; [now rewrite <- app_assoc|]);
        (split; [eexists; reflexivity|]);
        (split; [|reflexivity]); repeat constructor.
    + inversion H; subst; cbn [service reported trace record].
      split; [reflexivity|]. split; [reflexivity|]. exists [Imported].
      split; [reflexivity|]. split; [eexists; reflexivity|].
      split; [|reflexivity]. repeat constructor.
  - inversion H; subst; cbn [service reported trace record].
    split; [reflexivity|]. split; [reflexivity|]. exists [Imported].
    split; [reflexivity|]. split; [eexists; reflexivity|].
    split; [|reflexivity]. repeat constructor.
Qed.

Lemma test_toggleNativeLog_quiet (d : Device) :
  quiet_run
    (LLMSetup.try_catch (test_toggleNativeLog d)
       (fun _ => LLMSetup.ret false))
    (fun r new =>
       (exists b, r = Ok b) /\ Forall probe_or_wait new /\ waits new = []).
Proof.
  intros s r s' H.
  unfold LLMSetup.try_catch, test_toggleNativeLog, LLMSetup.bind,
    call, LLMSetup.ret in H.
  destruct (import_llama d _) as [m|e].
  - destruct (has_toggleNativeLog m).
    + cbv beta iota in H.
      destruct (toggleNativeLog d _) as [b|e];
        inversion H; subst; cbn [service reported trace record];
        (split; [reflexivity|]); (split; [reflexivity|]);
        exists [Imported; ToggledLog];
        (split; [now rewrite <- app_assoc|]);
        (split; [eexists; reflexivity|]);
        (split; [|reflexivity]); repeat constructor.
    + inversion H; subst; cbn [service reported trace record].
      split; [reflexivity|]. split; [reflexivity|]. exists [Imported].
      split; [reflexivity|]. split; [eexists; reflexivity|].
      split; [|reflexivity]. repeat constructor.
  - inversion H; subst; cbn [service reported trace record].
    split; [reflexivity|]. split; [reflexivity|]. exists [Imported].
    split; [reflexivity|]. split; [eexists; reflexivity|].
    split; [|reflexivity]. repeat constructor.
Qed.

(** One attempt of the third phase, after its delay. *)
Lemma delayed_attempt_quiet (d : Device) :
  quiet_run
    (LLMSetup.try_catch
       (LLMSetup.bind (call Imported (import_llama d)) (fun llamaModule =>
        if has_getBackendDevicesInfo llamaModule then
          LLMSetup.try_catch
            (LLMSetup.bind (call AskedDevices (getBackendDevicesInfo d))
               (fun _ => LLMSetup.ret true))
            (fun error => LLMSetup.ret (other_error error))
        else LLMSetup.ret false))
       (fun _ => LLMSetup.ret false))
    (fun r new =>
       (exists b, r = Ok b) /\ Forall probe_or_wait new /\ waits new = []).
Proof.
  intros s r s' H.
  unfold LLMSetup.try_catch, LLMSetup.bind, call, LLMSetup.ret in H.
  destruct (import_llama d _) as [m|e].
  - destruct (has_getBackendDevicesInfo m).
    + cbv beta iota in H.
      destruct (getBackendDevicesInfo d _) as [b|e];
        inversion H; subst; cbn [service reported trace record];
        (split; [reflexivity|]); (split; [reflexivity|]);
        exists [Imported; AskedDevices];
        (split; [now rewrite <- app_assoc|]);
        (split; [eexists; reflexivity|]);
        (split; [|reflexivity]); repeat constructor.
    + inversion H; subst; cbn [service reported trace record].
      split; [reflexivity|]. split; [reflexivity|]. exists [Imported].
      split; [reflexivity|]. split; [eexists; reflexivity|].
      split; [|reflexivity]. repeat constructor.
  - inversion H; subst; cbn [service reported trace record].
    split; [reflexivity|]. split; [reflexivity|]. exists [Imported].
    split; [reflexivity|]. split; [eexists; reflexivity|].
    split; [|reflexivity]. repeat constructor.
Qed.

Lemma delayed_attempts_quiet (d : Device) (ds : list N) :
  quiet_run (delayed_attempts d ds)
    (fun r new =>
       exists b,
         r = Ok b /\ Forall probe_or_wait new
         /\ (exists k, waits new = firstn k ds)
         /\ (b = false -> waits new = ds)).
Proof.
  induction ds as [|delay ds IH]; intros s r s' H.
  - inversion H; subst. split; [reflexivity|].
    split; [reflexivity|]. exists []. split; [now rewrite app_nil_r|].
    exists false. split; [reflexivity|]. split; [constructor|].
    split; [now exists 0 | reflexivity].
  - cbn [delayed_attempts] in H.
    apply ibind_inv in H as [(u & s1 & H1 & H2) | (e & H1 & _)].
    2:{ destruct (quiet_wait _ _ _ _ H1) as (_ & _ & _ & _ & E & _).
        discriminate E. }
    destruct (quiet_wait _ _ _ _ H1) as (S1 & R1 & n1 & T1 & _ & ->).
    apply ibind_inv in H2 as [(found & s2 & H3 & H4) | (e & H3 & _)].
    2:{ destruct (delayed_attempt_quiet d _ _ _ H3)
          as (_ & _ & _ & _ & [b E] & _). discriminate E. }
    destruct (delayed_attempt_quiet d _ _ _ H3)
      as (S2 & R2 & n2 & T2 & _ & F2 & W2).
    destruct found.
    + inversion H4; subst. split; [congruence|]. split; [congruence|].
      exists (Waited delay :: n2). rewrite T2, T1, <- app_assoc.
      split; [reflexivity|]. exists true. split; [reflexivity|].
      split; [constructor; [exact Logic.I | exact F2]|].
      cbn [waits flat_map app]. fold (waits n2). rewrite W2.
      split; [now exists 1 | discriminate].
    + destruct (IH _ _ _ H4)
        as (S3 & R3 & n3 & T3 & b & -> & F3 & [k K1] & K2).
      split; [congruence|]. split; [congruence|].
      exists (Waited delay :: n2 ++ n3)%list.
      split; [rewrite T3, T2, T1, <- !app_assoc; reflexivity|].
      exists b. split; [reflexivity|].
      split; [constructor; [exact Logic.I | now apply Forall_app]|].
      cbn [waits flat_map app]. fold (waits (n2 ++ n3)).
      rewrite waits_app, W2. cbn [app]. split.
      * exists (S k). cbn [firstn]. now rewrite K1.
      * intros Hb. now rewrite (K2 Hb).
Qed.

Lemma checkNativeModule_inv :
  forall (d : Device) (s s' : State) (r : Outcome bool),
    checkNativeModule d s = (r, s') ->
    service s' = service s /\ reported s' = reported s
    /\ exists b new,
         r = Ok b
         /\ trace s' = (trace s ++ new)%list
         /\ Forall probe_or_wait new
         /\ (exists k, waits new = firstn k delays)
         /\ (initLlama_is_function d = false -> b = false /\ new = [])
         /\ (initLlama_is_function d = true -> b = false ->
             waits new = delays).
Proof.
  intros d s s' r H. unfold checkNativeModule in H.
  destruct (initLlama_is_function d) eqn:Ef; cbn [negb] in H.
  2:{ inversion H; subst. split; [reflexivity|]. split; [reflexivity|].
      exists false, []. rewrite app_nil_r.
      repeat split; try constructor; try discriminate. now exists 0. }
  apply ibind_inv in H as [(success & s1 & H1 & H2) | (e & H1 & _)].
  2:{ destruct (test_getBackendDevicesInfo_quiet d _ _ _ H1)
        as (_ & _ & _ & _ & [b E] & _). discriminate E. }
  destruct (test_getBackendDevicesInfo_quiet d _ _ _ H1)
    as (S1 & R1 & n1 & T1 & _ & F1 & W1).
  destruct success.
  { inversion H2; subst. split; [exact S1|]. split; [exact R1|].
    exists true, n1. rewrite W1.
    repeat split; auto; try discriminate. now exists 0. }
  apply ibind_inv in H2 as [(success & s2 & H3 & H4) | (e & H3 & _)].
  2:{ destruct (test_toggleNativeLog_quiet d _ _ _ H3)
        as (_ & _ & _ & _ & [b E] & _). discriminate E. }
  destruct (test_toggleNativeLog_quiet d _ _ _ H3)
    as (S2 & R2 & n2 & T2 & _ & F2 & W2).
  destruct success.
  { inversion H4; subst. split; [congruence|]. split; [congruence|].
    exists true, (n1 ++ n2)%list. rewrite T2, T1, <- app_assoc.
    rewrite waits_app, W1, W2.
    repeat split; auto; try discriminate;
      [now apply Forall_app | now exists 0]. }
  destruct (delayed_attempts_quiet d _ _ _ _ H4)
    as (S3 & R3 & n3 & T3 & b & -> & F3 & [k K1] & K2).
  split; [congruence|]. split; [congruence|].
  exists b, (n1 ++ n2 ++ n3)%list.
  rewrite T3, T2, T1, <- !app_assoc, !waits_app, W1, W2. cbn [app].
  repeat split; auto; try discriminate.
  - apply Forall_app. split; [exact F1|]. now apply Forall_app.
  - now exists k.
Qed.

(** X24.  [checkNativeModule] never throws, leaves the service as it is
    and only probes the module and waits.  Without the function
    [initLlama] it answers no at once, without an effect.  Its delays are
    the first ones of two, four and six seconds, in this order; it answers
    no only after all three, and yes only when [initLlama] is a
    function. *)
Theorem X24_native_module_check :
  forall (d : Device) (s s' : State) (r : Outcome bool),
    checkNativeModule d s = (r, s') ->
    service s' = service s /\ reported s' = reported s
    /\ exists b new,
         r = Ok b
         /\ trace s' = (trace s ++ new)%list
         /\ Forall probe_or_wait new
         /\ (exists k, waits new = firstn k delays)
         /\ (initLlama_is_function d = false -> b = false /\ new = [])
         /\ (initLlama_is_function d = true -> b = false ->
             waits new = delays).
Proof. exact checkNativeModule_inv. Qed.

(** ** [initialize] *)

Lemma seq_waits (rc n : nat) :
  1 <= n ->
  ((1000 * N.of_nat (S rc))%N
   :: map (fun i => (1000 * N.of_nat i)%N) (seq (S (S rc)) (n - 1)))
  = map (fun i => (1000 * N.of_nat i)%N) (seq (S rc) n).
Proof.
  intros H. destruct n as [|n]; [lia|].
  replace (S n - 1) with n by lia. reflexivity.
Qed.

(** The loop of [initialize]: at most [left] calls, the first one of a
    run without the parameter for the graphics processor, a delay that
    grows by a second between two calls and none after the last. *)
Lemma attempts_inv (d : Device) (left : nat) :
  forall (retryCount : nat) (lastError : option Thrown) (s s' : State)
         (r : Outcome unit),
    left + retryCount = maxRetries ->
    attempts d left retryCount lastError s = (r, s') ->
    systemPrompt (service s') = systemPrompt (service s)
    /\ modelPath (service s') = modelPath (service s)
    /\ reported s' = reported s
    /\ exists new n,
         trace s' = (trace s ++ new)%list
         /\ n <= left /\ (1 <= left -> 1 <= n)
         /\ init_params new
            = map (initParams (modelPath (service s))) (seq retryCount n)
         /\ file_changes new = []
         /\ waits new
            = map (fun i => (1000 * N.of_nat i)%N)
                (seq (S retryCount) (n - 1))
         /\ match r with
            | Ok _ =>
                isInitialized (service s') = true
                /\ exists k ctx,
                     context (service s') = Some ctx
                     /\ initLlama d k
                          (initParams (modelPath (service s))
                             (retryCount + n - 1)) = Ok ctx
            | Raise _ => service s' = service s /\ n = left
            end.
Proof.
  induction left as [|left IH]; intros retryCount lastError s s' r Hl H.
  - cbn [attempts] in H. unfold raise in H. inversion H; subst.
    split; [reflexivity|]. split; [reflexivity|]. split; [reflexivity|].
    exists [], 0. rewrite app_nil_r. repeat split; auto.
  - cbn [attempts] in H. unfold call in H.
    match type of H with
    | context [initLlama d ?k ?p] =>
        destruct (initLlama d k p) as [ctx|initError] eqn:Ei
    end.
    + inversion H; subst. cbn [service systemPrompt modelPath reported
        record trace isInitialized context].
      repeat split.
      exists [InitCalled (initParams (modelPath (service s)) retryCount)], 1.
      repeat split; auto; try lia.
      eexists. exists ctx. split; [reflexivity|].
      replace (retryCount + 1 - 1) with retryCount by lia. exact Ei.
    + apply ibind_inv in H as [(u & s2 & H1 & H2) | (e & H1 & _)].
      2:{ destruct (S retryCount <? maxRetries)%nat; inversion H1. }
      assert (Hl' : left + S retryCount = maxRetries) by lia.
      destruct (IH _ _ _ _ _ Hl' H2)
        as (P2 & M2 & R2 & new & n & T2 & Ln & L1 & Ip & Fc & Wt & Hr).
      set (s1 := record (InitCalled
                   (initParams (modelPath (service s)) retryCount)) s) in *.
      assert (K : service s2 = service s /\ reported s2 = reported s
                  /\ exists w,
                       trace s2
                       = (trace s
                          ++ InitCalled
                               (initParams (modelPath (service s))
                                  retryCount) :: w)%list
                       /\ init_params w = [] /\ file_changes w = []
                       /\ waits w
                          = if (S retryCount <? maxRetries)%nat
                            then [(1000 * N.of_nat (S retryCount))%N]
                            else []).
      { destruct (S retryCount <? maxRetries)%nat.
        - destruct (quiet_wait _ _ _ _ H1) as (Sa & Ra & w & Ta & _ & ->).
          split; [exact Sa|]. split; [exact Ra|].
          exists [Waited (1000 * N.of_nat (S retryCount))].
          rewrite Ta. unfold s1. cbn [trace record].
          rewrite <- app_assoc. now repeat split.
        - destruct (quiet_ret _ _ _ _ _ H1) as (Sa & Ra & w & Ta & _ & ->).
          split; [exact Sa|]. split; [exact Ra|].
          exists []. rewrite Ta, app_nil_r. now repeat split. }
      destruct K as (S1 & R1 & w & T1 & Iw & Fw & Ww).
      rewrite S1 in *.
      split; [exact P2|]. split; [exact M2|]. split; [congruence|].
      exists (InitCalled (initParams (modelPath (service s)) retryCount)
              :: w ++ new)%list, (S n).
      split; [rewrite T2, T1, <- app_assoc; reflexivity|].
      split; [lia|]. split; [lia|].
      split.
      { cbn [init_params flat_map app]. fold (init_params (w ++ new)).
        rewrite init_params_app, Iw, Ip. reflexivity. }
      split.
      { cbn [file_changes filter]. fold (file_changes (w ++ new)).
        now rewrite file_changes_app, Fw, Fc. }
      split.
      { cbn [waits flat_map app]. fold (waits (w ++ new)).
        rewrite waits_app, Ww, Wt. replace (S n - 1) with n by lia.
        destruct (S retryCount <? maxRetries)%nat eqn:C.
        - apply Nat.ltb_lt in C. cbn [app]. apply seq_waits, L1. lia.
        - apply Nat.ltb_ge in C. assert (left = 0) by lia. subst left.
          assert (n = 0) by lia. subst n. reflexivity. }
      destruct r as [u'|e].
      * destruct Hr as (Hi & k & ctx & Hc & Hk). split; [exact Hi|].
        exists k, ctx. split; [exact Hc|].
        replace (retryCount + S n - 1) with (S retryCount + n - 1) by lia.
        exact Hk.
      * destruct Hr as [Hs ->]. split; [congruence | reflexivity].
Qed.

Lemma calls_before_other (e : Effect) (s s2 : State) (new : list Effect) :
  trace s2 = (trace s ++ new)%list ->
  Forall (fun x => same_kind e x = false) new ->
  calls_before e s2 = calls_before e s.
Proof.
  unfold calls_before. intros -> F. rewrite filter_app, length_app.
  replace (filter (same_kind e) new) with (@nil Effect); [simpl; lia|].
  induction F as [|x new Hx _ IH]; [reflexivity|]. simpl.
  now rewrite Hx.
Qed.

(** The download and the check of the downloaded file *)
Lemma fetch_inv (d : Device) (url path : string) (s s' : State)
    (r : Outcome unit) :
  LLMSetup.bind (download d url path) (fun _ =>
  LLMSetup.bind (call (GotInfo path) (fun n => getInfoAsync d n path))
    (fun downloadedFileInfo =>
  if negb (file_exists downloadedFileInfo)
     || match size downloadedFileInfo with
        | Some n => (n =? 0)%N
        | None => false
        end
  then raise (new_Error "Downloaded model file is missing or empty")
  else wait 500%N)) s = (r, s') ->
  service s' = service s
  /\ exists new,
       trace s' = (trace s ++ new)%list
       /\ init_params new = []
       /\ file_changes new = [Downloaded url path].
Proof.
  intros H.
  apply ibind_inv in H as [(u & s1 & H1 & H2) | (e & H1 & _)];
    unfold download in H1;
    destruct (downloadAsync d _ url path) as [reports outcome];
    inversion H1; subst; clear H1.
  2:{ cbn [service trace]. split; [reflexivity|].
      now exists [Downloaded url path]. }
  apply ibind_inv in H2 as [(info & s2 & H3 & H4) | (e & H3 & _)].
  2:{ destruct (quiet_call _ _ _ _ _ _ H3) as (S3 & _ & w & T3 & ->).
      rewrite S3, T3. cbn [service trace]. split; [reflexivity|].
      exists [Downloaded url path; GotInfo path].
      rewrite <- app_assoc. now repeat split. }
  destruct (quiet_call _ _ _ _ _ _ H3) as (S3 & _ & w & T3 & ->).
  destruct (negb (file_exists info) || _).
  - unfold raise in H4. inversion H4; subst.
    rewrite S3, T3. cbn [service trace]. split; [reflexivity|].
    exists [Downloaded url path; GotInfo path].
    rewrite <- app_assoc. now repeat split.
  - destruct (quiet_wait _ _ _ _ H4) as (S4 & _ & w & T4 & _ & ->).
    rewrite S4, S3, T4, T3. cbn [service trace]. split; [reflexivity|].
    exists [Downloaded url path; GotInfo path; Waited 500].
    rewrite <- !app_assoc. now repeat split.
Qed.

(** The end of [initialize]: a delay, the check of the module and the
    loop. *)
Lemma finish_inv (d : Device) (s s' : State) (r : Outcome unit) :
  LLMSetup.bind (wait 1000%N) (fun _ =>
  LLMSetup.bind (checkNativeModule d) (fun nativeModuleReady =>
  if negb nativeModuleReady then
    raise
      (new_Error
         "AI engine (llama.rn) is not ready. Please restart the app and try again.")
  else if negb (initLlama_is_function d) then
    raise
      (new_Error
         "llama.rn module not properly loaded - initLlama is not a function")
  else attempts d maxRetries 0 None)) s = (r, s') ->
  systemPrompt (service s') = systemPrompt (service s)
  /\ modelPath (service s') = modelPath (service s)
  /\ reported s' = reported s
  /\ exists pre att n,
       trace s' = (trace s ++ pre ++ att)%list
       /\ init_params pre = [] /\ file_changes pre = []
       /\ n <= maxRetries
       /\ init_params att
          = map (initParams (modelPath (service s))) (seq 0 n)
       /\ file_changes att = []
       /\ waits att
          = map (fun i => (1000 * N.of_nat i)%N) (seq 1 (n - 1))
       /\ match r with
          | Ok _ =>
              1 <= n /\ isInitialized (service s') = true
              /\ exists k ctx,
                   context (service s') = Some ctx
                   /\ initLlama d k
                        (initParams (modelPath (service s)) (n - 1))
                      = Ok ctx
          | Raise _ => True
          end.
Proof.
  intros H.
  apply ibind_inv in H as [(u & s1 & H1 & H2) | (e & H1 & _)].
  2:{ destruct (quiet_wait _ _ _ _ H1) as (_ & _ & _ & _ & E & _).
      discriminate E. }
  destruct (quiet_wait _ _ _ _ H1) as (S1 & R1 & w1 & T1 & _ & ->).
  apply ibind_inv in H2 as [(ready & s2 & H3 & H4) | (e & H3 & _)].
  2:{ destruct (checkNativeModule_inv d _ _ _ H3)
        as (_ & _ & b & _ & E & _). discriminate E. }
  destruct (checkNativeModule_inv d _ _ _ H3)
    as (S2 & R2 & b & w2 & E & T2 & F2 & _).
  injection E as ->.
  destruct (probes_no_init _ F2) as [I2 C2].
  assert (Pre : trace s2 = (trace s ++ Waited 1000 :: w2)%list)
    by (rewrite T2, T1, <- app_assoc; reflexivity).
  assert (Ipre : init_params (Waited 1000 :: w2) = []) by exact I2.
  assert (Cpre : file_changes (Waited 1000 :: w2) = []) by exact C2.
  destruct b; cbn [negb] in H4.
  2:{ unfold raise in H4. inversion H4; subst.
      split; [congruence|]. split; [congruence|]. split; [congruence|].
      exists (Waited 1000 :: w2), [], 0.
      rewrite app_nil_r. now repeat split; auto; try lia. }
  destruct (initLlama_is_function d); cbn [negb] in H4.
  2:{ unfold raise in H4. inversion H4; subst.
      split; [congruence|]. split; [congruence|]. split; [congruence|].
      exists (Waited 1000 :: w2), [], 0.
      rewrite app_nil_r. now repeat split; auto; try lia. }
  destruct (attempts_inv d maxRetries 0 None s2 s' r eq_refl H4)
    as (P3 & M3 & R3 & att & n & T3 & Ln & L1 & Ia & Ca & Wa & Hr).
  assert (Es : service s2 = service s) by congruence.
  rewrite Es in *.
  split; [exact P3|]. split; [exact M3|]. split; [congruence|].
  exists (Waited 1000 :: w2), att, n.
  split; [rewrite T3, Pre, <- app_assoc; reflexivity|].
  split; [exact Ipre|]. split; [exact Cpre|]. split; [exact Ln|].
  split; [exact Ia|]. split; [exact Ca|]. split; [exact Wa|].
  destruct r as [u'|e]; [|exact Logic.I].
  destruct Hr as (Hi & k & ctx & Hc & Hk).
  assert (1 <= n) by (apply L1; unfold maxRetries; lia).
  split; [assumption|]. split; [exact Hi|]. exists k, ctx.
  split; [exact Hc|]. simpl in Hk. exact Hk.
Qed.

Lemma initialize_body_inv (d : Device) (config : LLMConfig) (s s' : State)
    (r : Outcome unit) :
  initialize_body d config s = (r, s') ->
  systemPrompt (service s') = cfg_systemPrompt config
  /\ modelPath (service s') = documentDirectory d ++ modelName config
  /\ (~ In (Downloaded (modelUrl config)
              (documentDirectory d ++ modelName config))
        (expected_file_changes d config s) ->
      reported s' = reported s)
  /\ exists pre att n,
       trace s' = (trace s ++ pre ++ att)%list
       /\ init_params pre = []
       /\ file_changes pre = expected_file_changes d config s
       /\ n <= maxRetries
       /\ init_params att
          = map (initParams (documentDirectory d ++ modelName config))
              (seq 0 n)
       /\ file_changes att = []
       /\ waits att
          = map (fun i => (1000 * N.of_nat i)%N) (seq 1 (n - 1))
       /\ match r with
          | Ok _ =>
              1 <= n /\ isInitialized (service s') = true
              /\ exists k ctx,
                   context (service s') = Some ctx
                   /\ initLlama d k
                        (initParams (documentDirectory d ++ modelName config)
                           (n - 1))
                      = Ok ctx
          | Raise _ => True
          end.
Proof.
  unfold initialize_body, expected_file_changes.
  set (path := documentDirectory d ++ modelName config).
  set (url := modelUrl config).
  intros H.
  apply ibind_inv in H as [(u & s1 & H1 & H2) | (e & H1 & _)];
    unfold set_service in H1; inversion H1; subst s1; clear H1.
  set (s1 := {| service := _; trace := trace s; reported := reported s |})
    in *.
  assert (P1 : systemPrompt (service s1) = cfg_systemPrompt config)
    by reflexivity.
  assert (M1 : modelPath (service s1) = path) by reflexivity.
  (* what the rest has to show, from any state after the first steps *)
  assert (Stop : forall (sx : State) (e : Thrown) (new : list Effect),
             service sx = service s1 ->
             trace sx = (trace s ++ new)%list ->
             init_params new = [] ->
             systemPrompt (service sx) = cfg_systemPrompt config
             /\ modelPath (service sx) = path
             /\ exists pre att n,
                  trace sx = (trace s ++ pre ++ att)%list
                  /\ init_params pre = []
                  /\ file_changes pre = file_changes new
                  /\ n <= maxRetries
                  /\ init_params att = map (initParams path) (seq 0 n)
                  /\ file_changes att = []
                  /\ waits att
                     = map (fun i => (1000 * N.of_nat i)%N) (seq 1 (n - 1))
                  /\ True).
  { intros sx e new Sx Tx Ix. rewrite Sx.
    split; [exact P1|]. split; [exact M1|].
    exists new, [], 0. rewrite app_nil_r.
    repeat split; auto. unfold maxRetries. lia. }
  assert (Go : forall (sx : State) (new : list Effect),
             service sx = service s1 ->
             trace sx = (trace s ++ new)%list ->
             init_params new = [] ->
             LLMSetup.bind (wait 1000%N) (fun _ =>
             LLMSetup.bind (checkNativeModule d) (fun nativeModuleReady =>
             if negb nativeModuleReady then
               raise
                 (new_Error
                    "AI engine (llama.rn) is not ready. Please restart the app and try again.")
             else if negb (initLlama_is_function d) then
               raise
                 (new_Error
                    "llama.rn module not properly loaded - initLlama is not a function")
             else attempts d maxRetries 0 None)) sx = (r, s') ->
             systemPrompt (service s') = cfg_systemPrompt config
             /\ modelPath (service s') = path
             /\ reported s' = reported sx
             /\ exists pre att n,
                  trace s' = (trace s ++ pre ++ att)%list
                  /\ init_params pre = []
                  /\ file_changes pre = file_changes new
                  /\ n <= maxRetries
                  /\ init_params att = map (initParams path) (seq 0 n)
                  /\ file_changes att = []
                  /\ waits att
                     = map (fun i => (1000 * N.of_nat i)%N) (seq 1 (n - 1))
                  /\ match r with
                     | Ok _ =>
                         1 <= n /\ isInitialized (service s') = true
                         /\ exists k ctx,
                              context (service s') = Some ctx
                              /\ initLlama d k (initParams path (n - 1))
                                 = Ok ctx
                     | Raise _ => True
                     end).
  { intros sx new Sx Tx Ix Hx.
    destruct (finish_inv d sx s' r Hx)
      as (Pf & Mf & Rf & pre & att & n & Tf & Ip & Cp & Ln & Ia & Ca & Wa
          & Hr).
    rewrite Sx in *. rewrite M1 in *.
    split; [congruence|]. split; [congruence|]. split; [exact Rf|].
    exists (new ++ pre)%list, att, n.
    split; [rewrite Tf, Tx, <- !app_assoc; reflexivity|].
    split; [now rewrite init_params_app, Ix, Ip|].
    split; [now rewrite file_changes_app, Cp, app_nil_r|].
    now repeat split. }
  cbv zeta in H2.
  apply ibind_inv in H2 as [(u2 & s2 & H3 & H4) | (e & H3 & _)].
  2:{ destruct (quiet_wait _ _ _ _ H3) as (_ & _ & _ & _ & E & _).
      discriminate E. }
  destruct (quiet_wait _ _ _ _ H3) as (S2 & R2 & w2 & T2 & _ & ->).
  assert (T2' : trace s2 = (trace s ++ [Waited 2000])%list) by exact T2.
  apply ibind_inv in H4 as [(fileInfo & s3 & H5 & H6) | (e & H5 & ->)];
    unfold call in H5;
    rewrite (calls_before_other (GotInfo path) s s2 [Waited 2000] T2')
      in H5 by (repeat constructor);
    injection H5 as A5 E5; rewrite A5.
  2:{ destruct (Stop s' e [Waited 2000; GotInfo path])
        as (Ps & Ms & pre & att & n & Hrest).
      - rewrite <- E5. exact S2.
      - rewrite <- E5. cbn [trace record]. rewrite T2', <- app_assoc.
        reflexivity.
      - reflexivity.
      - split; [exact Ps|]. split; [exact Ms|].
        split; [intros _; rewrite <- E5; exact R2|].
        exists pre, att, n. exact Hrest. }
  assert (S3 : service s3 = service s1) by (rewrite <- E5; exact S2).
  assert (R3 : reported s3 = reported s) by (rewrite <- E5; exact R2).
  assert (T3 : trace s3 = (trace s ++ [Waited 2000; GotInfo path])%list).
  { rewrite <- E5. cbn [trace record]. rewrite T2', <- app_assoc.
    reflexivity. }
  clear E5 A5 H3.
  apply ibind_inv in H6 as [(shouldDownload & s4 & H7 & H8) | (e & H7 & ->)].
  - (* the file is kept, or was deleted *)
    assert (K : service s4 = service s1 /\ reported s4 = reported s
                /\ exists new,
                     trace s4 = (trace s ++ new)%list
                     /\ init_params new = []
                     /\ ((shouldDownload = false
                          /\ file_changes new = []
                          /\ (file_exists fileInfo = true
                              /\ match size fileInfo with
                                 | Some n => (n <? megabyte)%N = false
                                 | None => True
                                 end))
                         \/ (shouldDownload = true
                             /\ ((file_changes new = []
                                  /\ file_exists fileInfo = false)
                                 \/ (file_changes new = [Deleted path]
                                     /\ file_exists fileInfo = true
                                     /\ exists n,
                                          size fileInfo = Some n
                                          /\ (n <? megabyte)%N = true
                                          /\ exists u0,
                                               deleteAsync d
                                                 (calls_before (Deleted path)
                                                    s) path = Ok u0))))).
    { destruct (file_exists fileInfo) eqn:Ee.
      - destruct (size fileInfo) as [n|] eqn:En.
        + destruct (n <? megabyte)%N eqn:Es.
          * apply ibind_inv in H7 as [(u7 & s7 & H9 & H10) | (e & _ & E)];
              [|discriminate E].
            unfold call in H9.
            rewrite (calls_before_other (Deleted path) s s3
                       [Waited 2000; GotInfo path] T3) in H9
              by (repeat constructor).
            injection H9 as A9 E9.
            unfold LLMSetup.ret in H10. injection H10 as <- <-.
            rewrite <- E9. cbn [service reported trace record].
            split; [exact S3|]. split; [exact R3|].
            exists [Waited 2000; GotInfo path; Deleted path].
            split; [rewrite T3, <- app_assoc; reflexivity|].
            split; [reflexivity|]. right. split; [reflexivity|].
            right. split; [reflexivity|]. split; [reflexivity|].
            exists n. split; [reflexivity|]. split; [exact Es|].
            now exists u7.
          * unfold LLMSetup.ret in H7. injection H7 as <- <-.
            split; [exact S3|]. split; [exact R3|].
            exists [Waited 2000; GotInfo path]. split; [exact T3|].
            split; [reflexivity|]. left. cbn [negb]. now repeat split.
        + unfold LLMSetup.ret in H7. injection H7 as <- <-.
          split; [exact S3|]. split; [exact R3|].
          exists [Waited 2000; GotInfo path]. split; [exact T3|].
          split; [reflexivity|]. left. cbn [negb]. now repeat split.
      - assert (H7' : LLMSetup.ret true s3 = (Ok shouldDownload, s4))
          by (destruct (size fileInfo); exact H7).
        unfold LLMSetup.ret in H7'. injection H7' as <- <-.
        split; [exact S3|]. split; [exact R3|].
        exists [Waited 2000; GotInfo path]. split; [exact T3|].
        split; [reflexivity|]. right. split; [reflexivity|].
        left. now split. }
    destruct K as (S4 & R4 & new & T4 & I4 & K).
    apply ibind_inv in H8 as [(u8 & s5 & H9 & H10) | (e & H9 & ->)].
    + (* the second phase runs *)
      assert (K5 : service s5 = service s1
                   /\ exists new5,
                        trace s5 = (trace s ++ new5)%list
                        /\ init_params new5 = []
                        /\ file_changes new5
                           = (file_changes new
                              ++ if shouldDownload
                                 then [Downloaded url path] else [])%list
                        /\ (shouldDownload = false ->
                            reported s5 = reported s)).
      { destruct shouldDownload.
        - destruct (fetch_inv d url path s4 s5 (Ok u8) H9)
            as (S5 & w5 & T5 & I5 & C5).
          split; [congruence|]. exists (new ++ w5)%list.
          split; [rewrite T5, T4, <- app_assoc; reflexivity|].
          split; [now rewrite init_params_app, I4, I5|].
          split; [now rewrite file_changes_app, C5 | discriminate].
        - unfold LLMSetup.ret in H9. injection H9 as _ <-.
          split; [exact S4|]. exists new. split; [exact T4|].
          split; [exact I4|].
          split; [now rewrite app_nil_r | intros _; exact R4]. }
      destruct K5 as (S5 & new5 & T5 & I5 & C5 & R5).
      destruct (Go s5 new5 S5 T5 I5 H10)
        as (Pg & Mg & Rg & pre & att & n & Tg & Ip & Cp & Hrest).
      split; [exact Pg|]. split; [exact Mg|]. split.
      { intros Hn. rewrite Rg. apply R5.
        destruct shouldDownload; [|reflexivity]. exfalso. apply Hn.
        destruct K as [(E & _) | (_ & [(_ & Ee) | (_ & Ee & n0 & En & Es
          & u0 & Ed)])]; [discriminate E | |].
        - rewrite Ee. destruct (size fileInfo); now left.
        - rewrite Ee, En, Es, Ed. right. now left. }
      exists pre, att, n. split; [exact Tg|]. split; [exact Ip|].
      split; [|exact Hrest]. rewrite Cp, C5.
      destruct K as [(-> & Cn & Ee & Es) | (-> & [(Cn & Ee) | (Cn & Ee & n0
        & En & Es & u0 & Ed)])]; rewrite Cn.
      * rewrite Ee. destruct (size fileInfo) as [n0|]; [|reflexivity].
        now rewrite Es.
      * rewrite Ee. now destruct (size fileInfo).
      * now rewrite Ee, En, Es, Ed.
    + (* the download or its check fails *)
      destruct shouldDownload.
      2:{ unfold LLMSetup.ret in H9. discriminate H9. }
      destruct (fetch_inv d url path s4 s' (Raise e) H9)
        as (S5 & w5 & T5 & I5 & C5).
      destruct (Stop s' e (new ++ w5)%list)
        as (Ps & Ms & pre & att & n & Ts & Ip & Cp & Hrest).
      * congruence.
      * rewrite T5, T4, <- app_assoc. reflexivity.
      * now rewrite init_params_app, I4, I5.
      * split; [exact Ps|]. split; [exact Ms|]. split.
        { intros Hn. exfalso. apply Hn.
          destruct K as [(E & _) | (_ & [(_ & Ee) | (_ & Ee & n0 & En & Es
            & u0 & Ed)])]; [discriminate E | |].
          - rewrite Ee. destruct (size fileInfo); now left.
          - rewrite Ee, En, Es, Ed. right. now left. }
        exists pre, att, n. split; [exact Ts|]. split; [exact Ip|].
        split; [|exact Hrest]. rewrite Cp, file_changes_app, C5.
        destruct K as [(E & _) | (_ & [(Cn & Ee) | (Cn & Ee & n0 & En & Es
          & u0 & Ed)])]; [discriminate E | |]; rewrite Cn.
        -- rewrite Ee. now destruct (size fileInfo).
        -- now rewrite Ee, En, Es, Ed.
  - (* the deletion fails *)
    destruct (file_exists fileInfo) eqn:Ee;
      [|destruct (size fileInfo); discriminate H7].
    destruct (size fileInfo) as [n|] eqn:En; [|discriminate H7].
    destruct (n <? megabyte)%N eqn:Es; [|discriminate H7].
    apply ibind_inv in H7 as [(u7 & s7 & _ & H10) | (e7 & H9 & E)];
      [discriminate H10|].
    injection E as <-. unfold call in H9.
    rewrite (calls_before_other (Deleted path) s s3
               [Waited 2000; GotInfo path] T3) in H9
      by (repeat constructor).
    injection H9 as A9 E9.
    destruct (Stop s' e [Waited 2000; GotInfo path; Deleted path])
      as (Ps & Ms & pre & att & k & Ts & Ip & Cp & Hrest).
    + rewrite <- E9. exact S3.
    + rewrite <- E9. cbn [trace record]. rewrite T3, <- app_assoc.
      reflexivity.
    + reflexivity.
    + split; [exact Ps|]. split; [exact Ms|].
      split; [intros _; rewrite <- E9; exact R3|].
      exists pre, att, k. split; [exact Ts|]. split; [exact Ip|].
      split; [|exact Hrest]. rewrite Cp, A9. reflexivity.
Qed.


Lemma initialize_inv (d : Device) (config : LLMConfig) (s s' : State)
    (r : Outcome unit) :
  initialize d config s = (r, s') ->
  systemPrompt (service s') = cfg_systemPrompt config
  /\ modelPath (service s') = documentDirectory d ++ modelName config
  /\ (~ In (Downloaded (modelUrl config)
              (documentDirectory d ++ modelName config))
        (expected_file_changes d config s) ->
      reported s' = reported s)
  /\ (exists pre att n,
        trace s' = (trace s ++ pre ++ att)%list
        /\ init_params pre = []
        /\ file_changes pre = expected_file_changes d config s
        /\ n <= maxRetries
        /\ init_params att
           = map (initParams (documentDirectory d ++ modelName config))
               (seq 0 n)
        /\ file_changes att = []
        /\ waits att
           = map (fun i => (1000 * N.of_nat i)%N) (seq 1 (n - 1))
        /\ (r = Ok tt ->
            1 <= n
            /\ exists k ctx,
                 context (service s') = Some ctx
                 /\ initLlama d k
                      (initParams (documentDirectory d ++ modelName config)
                         (n - 1))
                    = Ok ctx))
  /\ match r with
     | Ok _ => isReady (service s') = true
     | Raise e =>
         isReady (service s') = false
         /\ context (service s') = None
         /\ isInitialized (service s') = false
         /\ exists error, e = enhanced error
     end.
Proof.
  unfold initialize. intros H.
  apply try_catch_inv in H as [(u & H1 & ->) | (e & s1 & H1 & H2)].
  - destruct (initialize_body_inv _ _ _ _ _ H1)
      as (P & M & R & pre & att & n & T & Ip & Cp & Ln & Ia & Ca & Wa
          & L1 & Hi & k & ctx & Hc & Hk).
    split; [exact P|]. split; [exact M|]. split; [exact R|]. split.
    + exists pre, att, n. repeat split; auto. now exists k, ctx.
    + unfold isReady. now rewrite Hi, Hc.
  - destruct (initialize_body_inv _ _ _ _ _ H1)
      as (P & M & R & pre & att & n & T & Ip & Cp & Ln & Ia & Ca & Wa & _).
    unfold LLMSetup.bind, set_service, raise in H2.
    injection H2 as <- <-. cbn [service systemPrompt modelPath reported
      trace context isInitialized].
    split; [exact P|]. split; [exact M|]. split; [exact R|]. split.
    + exists pre, att, n. repeat split; auto; discriminate.
    + repeat split. now exists e.
Qed.



(** X27.  The only files [initialize] changes are those the first look at
    the model file calls for: a missing file is downloaded, a file of less
    than a megabyte is deleted and, when the deletion went through,
    downloaded, and a file of a megabyte or more, or of unknown size, is
    neither deleted nor downloaded.  Without a download no progress is
    reported. *)
Theorem X27_file_changes :
  forall (d : Device) (config : LLMConfig) (s s' : State)
         (r : Outcome unit),
    initialize d config s = (r, s') ->
    (exists new,
       trace s' = (trace s ++ new)%list
       /\ file_changes new = expected_file_changes d config s)
    /\ (~ In (Downloaded (modelUrl config)
                (documentDirectory d ++ modelName config))
          (expected_file_changes d config s) ->
        reported s' = reported s).
Proof.
  intros d config s s' r H.
  destruct (initialize_inv _ _ _ _ _ H)
    as (_ & _ & R & (pre & att & n & T & _ & Cp & _ & _ & Ca & _) & _).
  split; [|exact R]. exists (pre ++ att)%list. split; [exact T|].
  now rewrite file_changes_app, Cp, Ca, app_nil_r.
Qed.

(** ** The start of the chat screen *)

(** X28.  [initializeChat] changes no data, and ends with the status
    Ready or AI Engine Error.  The status is Ready exactly when the
    messages could be read and the service is ready afterwards, and then
    the messages shown are the stored ones in the order of their
    timestamps.  When the messages cannot be read the status is AI Engine
    Error although the service was not touched. *)
Theorem X28_chat_start :
  forall (d : Device) (prompt : string) (c c' : ChatStart.t)
         (w w' : World) (s s' : State),
    ChatStart.initializeChat d prompt c w s = (c', w', s') ->
    db w' = db w
    /\ (ChatStart.status c' = "Ready"
        \/ ChatStart.status c' = "AI Engine Error")
    /\ (ChatStart.status c' = "Ready" <->
        (exists history w1, getAllMessages w = (Normal history, w1))
        /\ isReady (service s') = true)
    /\ (ChatStart.status c' = "Ready" ->
        ChatStart.messages c'
        = order_by (asc m_timestamp) (Messages (db w)))
    /\ (forall e w1,
          getAllMessages w = (Throw e, w1) ->
          s' = s /\ ChatStart.messages c' = ChatStart.messages c
          /\ ChatStart.status c' = "AI Engine Error").
Proof.
  intros d prompt c c' w w' s s' H. unfold ChatStart.initializeChat in H.
  destruct (getAllMessages w) as [[history|e] w1] eqn:G;
    pose proof (getAllMessages_inv _ _ _ G) as [D L].
  2:{ injection H as <- <- <-. cbn [ChatStart.status ChatStart.messages].
      split; [exact D|]. split; [now right|]. split.
      - split; [discriminate|]. intros [(h & w2 & E) _]. discriminate E.
      - split; [discriminate|]. intros e0 w2 E. now repeat split. }
  specialize (L history eq_refl). subst history.
  destruct (isReady (service s)) eqn:Rdy.
  { injection H as <- <- <-. cbn [ChatStart.status ChatStart.messages].
    split; [exact D|]. split; [now left|]. split.
    - split; [|reflexivity]. intros _. split; [|exact Rdy].
      now exists (order_by (asc m_timestamp) (Messages (db w))), w1.
    - split; [reflexivity|]. intros e w2 E. discriminate E. }
  destruct (initialize d (LFM_INSTRUCT prompt) s) as [[u|e] s1] eqn:Hi;
    destruct (initialize_inv _ _ _ _ _ Hi) as (_ & _ & _ & _ & Hr);
    injection H as <- <- <-; cbn [ChatStart.status ChatStart.messages].
  - split; [exact D|]. split; [now left|]. split.
    + split; [|reflexivity]. intros _. split; [|exact Hr].
      now exists (order_by (asc m_timestamp) (Messages (db w))), w1.
    + split; [reflexivity|]. intros e w2 E. discriminate E.
  - destruct Hr as (Hn & _). split; [exact D|]. split; [now right|]. split.
    + split; [discriminate|]. intros [_ E]. congruence.
    + split; [discriminate|]. intros e0 w2 E. discriminate E.
Qed.

(** The check of the module on a device whose module answers the first
    test, and on one whose module cannot be imported: there the check
    waits two, four and six seconds and answers no. *)
Lemma X24_native_module_check_witness :
  checkNativeModule slow_device not_loaded
  = (Ok true,
     {| service := service not_loaded; trace := [Imported; AskedDevices];
        reported := [] |})
  /\ fst (checkNativeModule deaf_device not_loaded) = Ok false
  /\ service (snd (checkNativeModule deaf_device not_loaded))
     = service not_loaded
  /\ waits (trace (snd (checkNativeModule deaf_device not_loaded)))
     = [2000; 4000; 6000]%N.
Proof.
  split; [reflexivity|].
  assert (E : fst (checkNativeModule deaf_device not_loaded) = Ok false)
    by reflexivity.
  split; [exact E|].
  destruct (X24_native_module_check deaf_device not_loaded
              (snd (checkNativeModule deaf_device not_loaded))
              (fst (checkNativeModule deaf_device not_loaded))
              (surjective_pairing _))
    as (Hs & _ & b & new & Er & Et & _ & _ & _ & Hw).
  split; [exact Hs|].
  rewrite E in Er. injection Er as <-.
  rewrite Et. exact (Hw eq_refl eq_refl).
Defined.



(** The model file of the first device is large: it is left alone and no
    progress is reported.  The file of ten bytes is deleted and downloaded
    again, and the two reports of the download are passed on. *)
Lemma X27_file_changes_witness :
  reported (snd (initialize slow_device vi_config not_loaded)) = []
  /\ file_changes (trace (snd (initialize slow_device vi_config not_loaded)))
     = []
  /\ file_changes (trace (snd (initialize dead_engine vi_config not_loaded)))
     = [Deleted model_file; Downloaded (modelUrl vi_config) model_file]
  /\ reported (snd (initialize dead_engine vi_config not_loaded))
     = [Qmake 1 2; Qmake 1 1].
Proof.
  pose proof (fun d =>
                X27_file_changes d vi_config not_loaded
                  (snd (initialize d vi_config not_loaded))
                  (fst (initialize d vi_config not_loaded))
                  (surjective_pairing _)) as T.
  split.
  { apply (proj2 (T slow_device)). intros []. }
  split.
  { destruct (proj1 (T slow_device)) as (new & Et & Ef).
    rewrite Et. exact Ef. }
  split; [|reflexivity].
  destruct (proj1 (T dead_engine)) as (new & Et & Ef).
  rewrite Et. exact Ef.
Defined.

(** The chat screen starts on the two turns of the example: with the
    first device it ends ready, with the device whose engine never loads
    the model it shows the turns and the status of the error. *)
Lemma X28_chat_start_witness :
  (ChatStart.status
     (fst (fst (ChatStart.initializeChat slow_device "You are Vi."
                  ChatStart.initial (quiet_world chat_database)
                  not_loaded)))
   = "Ready"
   /\ ChatStart.messages
        (fst (fst (ChatStart.initializeChat slow_device "You are Vi."
                     ChatStart.initial (quiet_world chat_database)
                     not_loaded)))
      = two_turns)
  /\ (ChatStart.status
        (fst (fst (ChatStart.initializeChat dead_engine "You are Vi."
                     ChatStart.initial (quiet_world chat_database)
                     not_loaded)))
      = "AI Engine Error"
      /\ db (snd (fst (ChatStart.initializeChat dead_engine "You are Vi."
                         ChatStart.initial (quiet_world chat_database)
                         not_loaded)))
         = chat_database).
Proof.
  pose proof (X28_chat_start slow_device "You are Vi." ChatStart.initial
                _ (quiet_world chat_database) _ not_loaded _ eq_refl) as T1.
  pose proof (X28_chat_start dead_engine "You are Vi." ChatStart.initial
                _ (quiet_world chat_database) _ not_loaded _ eq_refl) as T2.
  split.
  - assert (E : ChatStart.status
                  (fst (fst (ChatStart.initializeChat slow_device
                               "You are Vi." ChatStart.initial
                               (quiet_world chat_database) not_loaded)))
                = "Ready") by reflexivity.
    split; [exact E|].
    exact (proj1 (proj2 (proj2 (proj2 T1))) E).
  - split; [reflexivity|]. exact (proj1 T2).
Defined.
